(* ===== verification/_CoqProject ===== *)
-Q . S2P
Prelude.v
GoStrings.v
Proto.v
Snowflake.v
Process.v
Sql.v
Client.v
Hub.v
RedisStore.v
HashRing.v
Dedup.v
RateLimiter.v
Unread.v
GroupStore.v
Json.v
JsonFacts.v
Url.v
Stores.v
MySQLMessages.v
MySQLMessageFacts.v
LogicClient.v
LogicServer.v
MySQLGroups.v
MySQLGroupFacts.v
MySQLUsers.v
MySQLUserFacts.v
Producer.v
Consumer.v
Framing.v
Kit.v
GrpcServer.v
GrpcForwarder.v
Cluster.v
ClusterFacts.v
RouterState.v
RouterDelivery.v
RouterChat.v
RouterGroup.v
Jwt.v
Http.v
HttpGroups.v
Thumbnail.v
GoTime.v
Config.v
ObjectStores.v
LogicApp.v
HttpFiles.v
HttpFacts.v
HttpAccounts.v
KitHttp.v
LoadMetrics.v
LoadConn.v
LoadScenarios.v
LoadFacts.v
Router.v
RouterFrame.v
RouterInv.v
Durable.v
App.v
Demo.v
RouterChatFacts.v
RouterGroupFacts.v
RouterSafety.v
RouterAuth.v
Peering.v
RouterMessageFacts.v
RouterWitnesses.v
Session.v
KitTcp.v
Metrics.v
SessionFacts.v
WebSocket.v
WebSocketFacts.v
Lifecycle.v
SessionWitnesses.v
HttpFileFacts.v
HttpGroupFacts.v
HttpWitnesses.v
EdgeWitnesses.v
AppFacts.v
