(* ===== verification/Prelude.v ===== *)
(** * GO-IM: a verification library

    GO-IM is an instant-messaging server in Go.  A gateway process holds the
    clients' connections (WebSocket, or TCP framed over gnet) and routes their
    commands; gateways forward messages to one another over gRPC, by a
    consistent-hash ring of their names; a Logic process answers queries from
    the database and saves what it reads from Kafka.  This library translates
    that program into executable definitions, one file per component, and proves
    what makes each component, and their composition, correct.

    ** How the program is represented

    A component's state is a record with the source's fields.  An operation is a
    function in the state monad [St] on the component's state and the process
    state [Sys] (Process.v), written in the order of the code: guards, early
    returns, every reading of the clock, every id drawn, every call that changes
    state.  Errors are values of a sum or an option.  Pointers that are shared
    and compared (clients) are addresses in a heap (Hub.v).  A mutex makes a
    critical section one step; goroutines are histories that interleave steps
    (registration, write loops, the persistence workers between taking, publishing
    and saving a message, deduplication workers, gnet events and workers, the
    consumer's fetches, saves and commits, the cluster manager's single accesses,
    and the goroutines of each process as it ends).  Integers are [Z], with Go's
    wrap-around written where the code computes ([wrap64], [wrap32], [wrapu32]
    below); token counts are binary64 numbers (RateLimiter.v).  What the process observes (the clock, the choice of
    a ready [select] case, the order of a [range] over a map, the memory and the
    goroutines the runtime reports) is an [Env], indexed by one counter.

    Code that is not under src/ is a class with the laws its documentation
    states, and every class has an instance on which the witnesses compute:
    protobuf ([Codec], Proto.v), the Redis client ([RedisKV], [RedisScripts],
    [NodeRegistry]), the Kafka client ([KafkaWriter], [KafkaReader]), the generated
    gRPC stubs ([LogicRPC], [PeerNet]), gnet's buffer ([GnetReader]), MySQL and its
    client ([Database], Sql.v: a statement succeeds as its tables say, or fails
    with or without its effect), the JWT library ([JwtLib]), [Bcrypt], the image
    codecs ([Images]), gorilla's WebSocket ([WsLib], [Upgrader]), the Prometheus
    registry ([Prometheus]), the MinIO client ([MinioClient]) and, for the load
    test, its side of the network ([TcpNet], [WsNet], [HttpNet]).  The interfaces of the source are classes too:
    [OfflineStore], [UnreadTracker], [GroupStore], [MessageStore], [FriendStore],
    [UserStore], [ObjectStore], [Forwarder]; the in-memory stores, the MySQL and
    Redis stores, the forwarder and the Logic server are their instances.  What
    every store promises however it fails is [OfflineSafe] and [BackendSafe]; what
    one that does not fail promises besides, [OfflineLaws] and [BackendLaws]: the
    in-memory stores satisfy both, the MySQL and Redis stores the first, whatever
    their servers do (Durable.v).  JSON, the Go string functions used,
    durations, URL queries and SQL statements are modelled (Json.v, GoStrings.v,
    GoTime.v, Url.v, Sql.v), except the wording of the libraries' errors.

    ** Files and source

    - Proto: api/proto/message.go.  Snowflake: internal/pkg/snowflake.  Jwt:
      internal/pkg/jwt.
    - Client, Hub: internal/gateway/client.go, hub.go, interfaces.go.
    - Session, Framing: gnet_handler.go, transport_gnet.go and what server_ws.go
      does with a message.  WebSocket: server_ws.go, transport_ws.go and the write
      loop of client.go.
    - HashRing, Cluster, GrpcForwarder, GrpcServer: hashring.go, cluster.go,
      grpc_forwarder.go, grpc_server.go.
    - Dedup, RateLimiter, Unread, GroupStore, RedisStore: dedup.go,
      rate_limiter.go, unread_tracker.go, group_store.go, redis_store.go.
    - RouterState, RouterDelivery, RouterChat, RouterGroup, Router: router.go
      (fields and configuration; delivery and persistence; chat, recall, edit,
      forward, typing, history and search; groups and friends; dispatch), with
      the sequence of the calls it makes on the metrics.  Metrics:
      internal/observability/metrics.go, which replays those calls.
    - Http, HttpGroups, HttpFiles: server.go (tokens, accounts, passwords; groups
      and friends; files, search, health and administration), from a parsed request
      to its response.  Thumbnail, ObjectStores: object_store.go and thumbnail.go
      (the in-memory store, the MinIO store, sizes).
    - LogicClient, LogicServer: grpc_client.go and internal/logic/server.go.
    - Stores: internal/repo/repo.go.  Sql: the tables and statements.
      MySQLMessages, MySQLUsers: mysql.go (messages; users and friends) and
      mysql_unread.go.  MySQLGroups: mysql_group.go and the gateway's adapter
      mysql_group_store.go.  Producer, Consumer: internal/mq.
    - Config: configs/config.go.  App, Lifecycle: cmd/gateway/main.go ([NewApp] and
      the routes; the timeouts, [Close] and the end of the process).  LogicApp:
      cmd/logic/main.go.
    - Kit: src/bench/kit/kit.go, the client of the load test.  LoadMetrics, LoadConn,
      LoadScenarios: src/bench/loadtest (metrics.go; conn.go and main.go;
      scenarios.go).  KitTcp and KitHttp make the kit's network out of the model of
      the gateway.  Url: net/url's queries.
    - Demo is a concrete gateway; the files named Facts, Safety, Auth, Inv,
      Frame, Accounts and Durable hold the theorems about components, Peering those
      about two gateways; the files named Witnesses apply theorems at concrete
      inputs.

    ** What the theorems show

    - Sessions: every message that waits to be routed names the user whose token
      its connection presented (SessionFacts); frames cut anywhere by TCP are
      handed over whole and in order (Framing); the registry holds open clients
      under their own names within capacity, and a connection that was replaced
      cannot remove its successor (Hub); what a client's buffer accepted reaches
      the transport once and in order (Client).  A WebSocket is opened only for a
      valid token and an allowed origin, its goroutines and the rest of the gateway
      keep that order under every interleaving, and a silent peer is cleaned up
      (WebSocketFacts).
    - End to end: the login of a client over TCP, from its frame through the byte
      stream, the frame parser, the session and the write loop back to its reader
      (KitTcp); the login over HTTP, from the encoded form to the decoded token
      (KitHttp).
    - Metrics: what Prometheus shows after any sequence of the router's calls, and
      which counters one routed message moves (Metrics).
    - Load test: the counters of its runs under every interleaving, percentiles as
      nearest ranks, users with their own tokens, and where its report is wrong
      (LoadFacts).
    - Routing: the invariant of the router over any sequence of commands, however
      its stores fail, and what no command touches (RouterSafety, by the footprints
      of RouterFrame and RouterInv); where an accepted message goes in each
      situation of its recipient, what a retry gets, group fan-out, offline drain
      (RouterChatFacts, RouterGroupFacts, RouterMessageFacts); recall, edit, history
      and read receipts (RouterMessageFacts); who can change a group (RouterAuth);
      each message accepted for persistence is in the queue, with one worker or
      handed to the store, and is published and handed over once, whichever worker
      moves (RouterSafety).
    - HTTP: who registers can log in, and only the password logs in (HttpAccounts);
      nothing is done for a request without its user's token, or an
      administrator's (HttpFacts, and AppFacts for the paths of the server); a group
      changes only as the user may (HttpGroupFacts); what is uploaded is what is
      downloaded, from any object store that keeps the laws of one, which the
      in-memory and the MinIO store do (HttpFileFacts, ObjectStores).
    - MySQL: on consistent tables groups refine the abstract group store that the
      in-memory one refines (MySQLGroupFacts); users refine a map, friends need both
      sides, unread counts stay between what was acknowledged and what was asked
      (MySQLUserFacts); a message that is not deleted stays, and changes only in its
      author's name; the pages of a search end, and do not repeat where ids grow with
      the times (MySQLMessageFacts).  Redis: while it answers, its store is the in-memory queue; whatever it does, no message is dropped
      unseen (RedisStore).
    - Start-up: a gateway starts unless its worker id is out of range, and whatever
      connected is safe under any commands (AppFacts); durations and defaults of the
      configuration (Config, GoTime); what Logic runs with (LogicApp).
      Shutdown: resources are closed in order and the end is reached, but requests
      in flight can still use what is closed (Lifecycle).  The Logic process ends
      with every record it fetched saved or accounted for, whatever its goroutines
      interleave (LogicApp); the cluster manager stops, but its key can outlive it
      (ClusterFacts).
    - Several gateways: the ring is the cyclic successor lookup, refines a set of
      members and moves only a changed node's keys (HashRing); it is this node and
      the healthy peers whenever no change is under way, while discovery and health
      check are not inside a change of the same peer at once (ClusterFacts); the
      forwarder's connections (GrpcForwarder); router, forwarder and the peer's service
      composed over a network that loses requests and replies (Peering).
    - Services: ids increase and differ between workers (Snowflake); a retry is
      recognised while its mark is within the window, with Redis across a restart
      too, and only what was marked is (Dedup); token buckets are exact and
      isolated (RateLimiter); unread counters and groups refine their abstract
      tables (Unread, GroupStore); what the Logic client reads of the tables, and which of their errors are hidden from it
      (LogicServer); a commit is of records that were saved, cannot be read or were
      given up for room, and passes those whose save failed (Consumer).
    - Lemmas also state behaviour that surprises: a message to a group that
      cannot be looked up is acknowledged and lost, edits are delivered
      unverified, a forward that races with a change of the ring is lost, a
      commit passes a failed save, a removed peer returns to the ring and a healthy one
      can be kept off it, a disabled user logs in, a message stored while Redis was down stays behind, two users
      can be friends twice, a gateway whose gRPC server failed goes on forwarding, a
      router that stops leaves messages in its queue.

    ** Fuel and bounds

    [sort.Search] runs with fuel [n], and each iteration halves the interval
    ([Search_spec]).  [Next]'s busy-waits read the clock until it satisfies their
    condition; the law [readings_live] of [Env] bounds the wait by [spin], and
    [spin_until_exit] shows that the loop ends by its condition.  The JSON scanner
    has fuel three times the length of the input plus three and its string routines
    the length, which suffice ([Parse_fuel], [scan_fuel], [escape_fuel] in
    JsonFacts).  [ParseDuration] has the length of its text, of which every term
    takes two bytes.  [WaitHealthy] and the wait for a group's creation poll until a
    deadline, and fuel for the readings of the clock before it is enough
    ([pollHealth_returns], [readGroupCreate_returns]); the reading of a page of
    history has no deadline in the source and can wait for ever.  [OnTraffic] needs more fuel than there are bytes buffered
    ([OnTraffic_terminates]).  Every other recursion is structural.

    ** Not modelled

    Logging; listening sockets, and the timeouts of calls (a call that times out is
    one that fails); parsing of HTTP requests; the wording of library errors;
    opening the database and the idempotent DDL of its migration; image codecs; the
    help texts and the exposition format of metrics; command-line parsing of the load test beyond its defaults and
    percentile list, and its log; generated protobuf code; the web client, another
    program in another language.  State that two components share (the hub by the
    router and the gRPC server, the database by its stores) is one value where a
    theorem depends on it (Peering.v) and one per component at start-up (App.v).

    ** Plan

    Next: the shared database as one state behind the stores of App.v; opening the
    database and its migration. *)

From Stdlib Require Export ZArith Lia Ascii.
From stdpp Require Export base gmap strings list fin_maps pretty sorting.

Declare Scope goim_scope.
Delimit Scope goim_scope with goim.
Global Open Scope Z_scope.
Global Open Scope goim_scope.

(** ** Machine integers

    Go's [int64]/[int32]/[uint32] are Rocq's [Z] with the wrap-around written
    out where the code computes. *)

Definition wrap64 (z : Z) : Z := (z + 2 ^ 63) mod 2 ^ 64 - 2 ^ 63.
Definition wrap32 (z : Z) : Z := (z + 2 ^ 31) mod 2 ^ 32 - 2 ^ 31.
Definition wrapu32 (z : Z) : Z := z mod 2 ^ 32.
Definition in_int64 (z : Z) : Prop := - 2 ^ 63 <= z < 2 ^ 63.
Definition in_int32 (z : Z) : Prop := - 2 ^ 31 <= z < 2 ^ 31.

Lemma wrap64_id z : in_int64 z -> wrap64 z = z.
Proof. unfold in_int64, wrap64. intros H. rewrite Z.mod_small; lia. Qed.

Lemma wrap64_range z : in_int64 (wrap64 z).
Proof.
  unfold in_int64, wrap64.
  pose proof (Z.mod_pos_bound (z + 2 ^ 63) (2 ^ 64)). lia.
Qed.

(** ** The sources of nondeterminism of a Go process

    [readings E n] is the [n]-th nondeterministic observation the process
    makes when that observation is a [time.Now()] (nanoseconds since 1970);
    [choose E n] is the case a [select] takes when more than one of its cases
    is ready; [order E n] is the order in which a [range] over a map visits
    the given keys.  One counter, threaded through the operations, indexes all
    three, so no two observations are assumed equal.

    Three laws are assumed of the clock: it is after 1970; it never falls back
    by 146 years or more (half the range of a [time.Duration]); and within [spin E]
    readings it gets more than ten milliseconds past any reading (it may go
    back in between).  Iteration visits each key once. *)

Definition UnixMilli (ns : Z) : Z := ns / 1000000.

Record Env := mkEnv {
  readings : nat -> Z;
  spin : nat;
  choose : nat -> bool;
  order : nat -> list string -> list string;
  memAlloc : nat -> Z;
  numGoroutine : nat -> Z;
  readings_pos : forall p, 0 <= readings p;
  readings_back : forall p q, (p <= q)%nat -> readings p - readings q < 2 ^ 62;
  readings_live : forall p, exists k, (k <= spin)%nat /\
    UnixMilli (readings p) + 10 < UnixMilli (readings (p + k));
  order_perm : forall n l, order n l ≡ₚ l;
  runtime_range : forall n, 0 <= memAlloc n < 2 ^ 64 /\ 0 <= numGoroutine n < 2 ^ 63
}.

Definition nowMs (E : Env) (t : nat) : Z := UnixMilli (readings E t).

(** A busy-wait loop [for !ok(now) { now = time.Now() }]: it re-reads the
    clock at most [fuel] times and returns the last reading and the position
    after it. *)
Fixpoint spin_until (E : Env) (ok : Z -> bool) (fuel : nat) (now : Z) (t : nat)
  : Z * nat :=
  if ok now then (now, t)
  else match fuel with
       | O => (now, t)
       | S fuel' => spin_until E ok fuel' (nowMs E t) (S t)
       end.

(** ** A state monad for the operations of an object *)

Definition St (S A : Type) : Type := S -> A * S.
Definition ret {S A} (a : A) : St S A := fun s => (a, s).
Definition bind {S A B} (m : St S A) (k : A -> St S B) : St S B :=
  fun s => let (a, s') := m s in k a s'.
Definition gets {S A} (f : S -> A) : St S A := fun s => (f s, s).
Definition modify {S} (f : S -> S) : St S unit := fun s => (tt, f s).

Notation "'let!' x := m 'in' k" := (bind m (fun x => k))
  (at level 10, x pattern, m at level 100, k at level 200,
   format "'[v' 'let!'  x  :=  m  'in' '/' k ']'") : goim_scope.
Notation "m ;;! k" := (bind m (fun _ => k))
  (at level 199, right associativity, format "'[v' m  ;;! '/' k ']'") : goim_scope.

(** A [for _, x := range l { f x }] whose body has effects. *)
Fixpoint forEach {S A} (l : list A) (f : A -> St S unit) : St S unit :=
  match l with
  | [] => ret tt
  | x :: l' => f x ;;! forEach l' f
  end.

Lemma forEach_cons {S A} (x : A) l (f : A -> St S unit) s :
  forEach (x :: l) f s = forEach l f (f x s).2.
Proof. simpl. unfold bind. by destruct (f x s). Qed.

Lemma forEach_app {S A} (l1 l2 : list A) (f : A -> St S unit) s :
  forEach (l1 ++ l2) f s = forEach l2 f (forEach l1 f s).2.
Proof.
  revert s. induction l1 as [|x l1 IH]; intros s; [done|].
  rewrite <- app_comm_cons, !forEach_cons. apply IH.
Qed.

Lemma bind_ret_state {S A B} (m : St S A) (b : B) s :
  (m ;;! ret b) s = (b, (m s).2).
Proof. unfold bind. by destruct (m s). Qed.

Lemma bind_snd {S A X} (m : St S A) (k : A -> St S X) s :
  (bind m k s).2 = (k (m s).1 (m s).2).2.
Proof. unfold bind. by destruct (m s). Qed.

Lemma bind_run {S A X} (m : St S A) (k : A -> St S X) s :
  bind m k s = k (m s).1 (m s).2.
Proof. unfold bind. by destruct (m s). Qed.

(** A postcondition of one run, and preservation of a state predicate. *)
Definition preserves {S A} (I : S -> Prop) (m : St S A) : Prop :=
  forall s, I s -> I (m s).2.

Create HintDb goim discriminated.

Lemma preserves_ret {S A} (I : S -> Prop) (a : A) : preserves I (ret a).
Proof. intros s H. exact H. Qed.

Lemma preserves_bind {S A B} (I : S -> Prop) (m : St S A) (k : A -> St S B) :
  preserves I m -> (forall a, preserves I (k a)) -> preserves I (bind m k).
Proof.
  intros Hm Hk s Hs. unfold bind. specialize (Hm s Hs).
  destruct (m s) as [a s']. exact (Hk a s' Hm).
Qed.

Lemma preserves_gets {S A} (I : S -> Prop) (f : S -> A) : preserves I (gets f).
Proof. intros s H. exact H. Qed.

Lemma preserves_modify {S} (I : S -> Prop) (f : S -> S) :
  (forall s, I s -> I (f s)) -> preserves I (modify f).
Proof. intros Hf s Hs. exact (Hf s Hs). Qed.

Lemma preserves_forEach {S A} (I : S -> Prop) (l : list A) (f : A -> St S unit) :
  (forall a, preserves I (f a)) -> preserves I (forEach l f).
Proof.
  intros Hf. induction l as [|x l IH]; simpl;
    [apply preserves_ret | apply preserves_bind; auto].
Qed.

Lemma preserves_and {S A} (I J : S -> Prop) (m : St S A) :
  preserves I m -> preserves J m -> preserves (fun s => I s /\ J s) m.
Proof. intros HI HJ s [H1 H2]. split; auto. Qed.

(** The same with a postcondition of the result. *)
Definition satisfies {S A} (I : S -> Prop) (m : St S A) (Q : A -> Prop) : Prop :=
  forall s, I s -> Q (m s).1 /\ I (m s).2.

Lemma satisfies_bind {S A B} (I : S -> Prop) (m : St S A) (k : A -> St S B) Q R :
  satisfies I m Q -> (forall a, Q a -> satisfies I (k a) R) -> satisfies I (bind m k) R.
Proof.
  intros Hm Hk s Hs. unfold bind. destruct (Hm s Hs) as [Ha Hs'].
  destruct (m s) as [a s']. exact (Hk a Ha s' Hs').
Qed.

Lemma satisfies_ret {S A} (I : S -> Prop) (a : A) (Q : A -> Prop) : Q a -> satisfies I (ret a) Q.
Proof. by intros Ha s Hs. Qed.

Lemma preserves_satisfies {S A} (I : S -> Prop) (m : St S A) :
  preserves I m <-> satisfies I m (fun _ => True).
Proof. split; [intros H s Hs; by split; [|apply H]|intros H s Hs; by apply H]. Qed.

(** A Hoare triple: from a state that satisfies [P], a result and a state that
    satisfy [Q]. *)
Definition triple {S A} (P : S -> Prop) (m : St S A) (Q : A -> S -> Prop) : Prop :=
  forall s, P s -> Q (m s).1 (m s).2.

Lemma triple_bind {S A B} (P : S -> Prop) (m : St S A) (k : A -> St S B) Q R :
  triple P m Q -> (forall a, triple (Q a) (k a) R) -> triple P (bind m k) R.
Proof.
  intros Hm Hk s Hs. unfold bind. specialize (Hm s Hs).
  destruct (m s) as [a s']. exact (Hk a s' Hm).
Qed.

Lemma triple_ret {S A} (a : A) (Q : A -> S -> Prop) : triple (Q a) (ret a) Q.
Proof. by intros s Hs. Qed.

Lemma triple_conseq {S A} (P P' : S -> Prop) (m : St S A) (Q Q' : A -> S -> Prop) :
  triple P' m Q' -> (forall s, P s -> P' s) -> (forall a s, Q' a s -> Q a s) -> triple P m Q.
Proof. intros Hm HP HQ s Hs. apply HQ, Hm, HP, Hs. Qed.

#[export] Hint Resolve preserves_ret preserves_gets preserves_forEach : goim.

(** Structural steps of a preservation proof: the monad's combinators, and
    the conditionals and matches of the handler. *)
Ltac preserve_step :=
  match goal with
  | |- preserves _ (bind _ _) => apply preserves_bind; [|intros ?]
  | |- preserves _ (ret _) => apply preserves_ret
  | |- preserves _ (gets _) => apply preserves_gets
  | |- preserves _ (forEach _ _) => apply preserves_forEach; intros ?
  | |- preserves _ (if ?b then _ else _) => destruct b
  | |- preserves _ (match ?x with _ => _ end) => destruct x
  | |- preserves _ (let _ := ?x in _) => cbv zeta
  end.
Ltac preserve := repeat (first [solve [eauto with goim] | preserve_step]).

(** ** The busy-wait loop terminates on its condition *)

Lemma spin_until_done E ok fuel now t :
  ok now = true -> spin_until E ok fuel now t = (now, t).
Proof. intros H. destruct fuel; simpl; by rewrite H. Qed.

Lemma spin_until_exit E ok fuel now t :
  (exists k, (k < fuel)%nat /\ ok (nowMs E (t + k)) = true) ->
  ok (spin_until E ok fuel now t).1 = true.
Proof.
  revert now t. induction fuel as [|fuel IH]; intros now t [k [Hk Hok]]; [lia|].
  simpl. destruct (ok now) eqn:Hn; [done|].
  destruct k as [|k].
  - rewrite Nat.add_0_r in Hok. rewrite spin_until_done; done.
  - apply IH. exists k. split; [lia|]. by rewrite <- Nat.add_succ_comm in Hok.
Qed.

(** What the loop returns is the first value it was given, or the clock
    reading just before the position it returns. *)
Lemma spin_until_reading E ok fuel now t :
  let r := spin_until E ok fuel now t in
  r = (now, t) \/ exists p, r = (nowMs E p, S p) /\ (t <= p)%nat.
Proof.
  revert now t. induction fuel as [|fuel IH]; intros now t; simpl.
  - destruct (ok now); auto.
  - destruct (ok now); [auto|]. right.
    destruct (IH (nowMs E t) (S t)) as [->|(p & -> & Hp)].
    + exists t. split; [done|lia].
    + exists p. split; [done|lia].
Qed.

Lemma nowMs_pos E t : 0 <= nowMs E t.
Proof. apply Z.div_pos; [apply readings_pos | lia]. Qed.

Lemma nowMs_back E p q :
  (p <= q)%nat -> (nowMs E p - nowMs E q) * 1000000 < 2 ^ 63.
Proof.
  intros H. pose proof (readings_back E p q H).
  unfold nowMs, UnixMilli. Z.to_euclidean_division_equations. lia.
Qed.

(** ** Decimal printing ([strconv.FormatInt], the [%d] verb) *)

Definition itoa (z : Z) : string := pretty z.

(** No byte of [s] is [c]. *)
Fixpoint no_char (c : Ascii.ascii) (s : string) : Prop :=
  match s with
  | EmptyString => True
  | String a s' => a <> c /\ no_char c s'
  end.

Lemma pretty_N_go_no_colon x s :
  no_char ":"%char s -> no_char ":"%char (pretty_N_go x s).
Proof.
  revert s. induction (N.lt_wf_0 x) as [x _ IH]; intros s Hs.
  destruct (decide (x = 0)%N) as [->|Hx]; [by rewrite pretty_N_go_0|].
  rewrite pretty_N_go_step by lia. apply IH; [apply N.div_lt; lia|].
  split; [|done]. unfold pretty_N_char. by repeat case_match.
Qed.

Lemma itoa_no_colon z : no_char ":"%char (itoa z).
Proof.
  unfold itoa, pretty, pretty_Z, pretty, pretty_positive, pretty, pretty_N.
  destruct z; repeat case_decide; simpl;
    repeat split; try done; by apply pretty_N_go_no_colon.
Qed.

Lemma itoa_inj a b : itoa a = itoa b -> a = b.
Proof. apply (inj pretty). Qed.

Lemma pretty_N_go_nonempty x s : (s <> "" -> pretty_N_go x s <> "")%string.
Proof.
  revert s. induction (N.lt_wf_0 x) as [x _ IH]; intros s Hs.
  destruct (decide (x = 0)%N) as [->|Hx]; [by rewrite pretty_N_go_0|].
  rewrite pretty_N_go_step by lia. by apply IH; [apply N.div_lt; lia|].
Qed.

Lemma itoa_nonempty z : itoa z <> ""%string.
Proof.
  unfold itoa, pretty, pretty_Z, pretty, pretty_positive, pretty, pretty_N.
  destruct z; repeat case_decide; try done.
  rewrite pretty_N_go_step by lia. by apply pretty_N_go_nonempty.
Qed.

(** The last separator determines the split. *)
Lemma sep_split_unique c a a' b b' :
  no_char c b -> no_char c b' ->
  (a +:+ String c b = a' +:+ String c b')%string -> a = a' /\ b = b'.
Proof.
  intros Hb Hb'. revert a'.
  assert (Habs : forall x y z, no_char c z -> z = (x +:+ String c y)%string -> False).
  { intros x y. induction x as [|d x IH]; intros z Hz ->; simpl in Hz; [tauto|].
    destruct Hz as [_ Hz]. exact (IH _ Hz eq_refl). }
  induction a as [|d a IH]; intros [|d' a'] H; simpl in H; simplify_eq.
  - done.
  - exfalso. eapply (Habs a' b'); [exact Hb | done].
  - exfalso. eapply (Habs a b); [exact Hb' | done].
  - destruct (IH a') as [-> ->]; done.
Qed.

(** ** Lists related element by element *)

Lemma Forall2_elem_l {A B} (R : A -> B -> Prop) l k x :
  Forall2 R l k -> x ∈ l -> exists y, y ∈ k /\ R x y.
Proof.
  induction 1 as [|a b l k Hab Hf IH]; [by intros ?%not_elem_of_nil|].
  rewrite elem_of_cons. intros [->|Hx]; [exists b; split; [left|done]|].
  destruct (IH Hx) as (y & Hy & HR). exists y. split; [by right|done].
Qed.

Lemma Forall2_elem_r {A B} (R : A -> B -> Prop) l k y :
  Forall2 R l k -> y ∈ k -> exists x, x ∈ l /\ R x y.
Proof. intros Hf%Forall2_flip Hy. exact (Forall2_elem_l _ k l y Hf Hy). Qed.

(** ** A concrete environment

    A clock that starts in January 2024 and advances 20 ms per observation;
    [select] takes its first ready case, [range] the given order.  It shows
    the laws can hold, and the witnesses run in it. *)

Definition steadyClock (n : nat) : Z := (1704067200001 + 20 * Z.of_nat n) * 1000000.

Lemma steadyClock_pos p : 0 <= steadyClock p.
Proof. unfold steadyClock. lia. Qed.

Lemma steadyClock_back p q :
  (p <= q)%nat -> steadyClock p - steadyClock q < 2 ^ 62.
Proof. unfold steadyClock. lia. Qed.

Lemma steadyClock_live p : exists k, (k <= 1)%nat /\
  UnixMilli (steadyClock p) + 10 < UnixMilli (steadyClock (p + k)).
Proof.
  exists 1%nat. split; [lia|]. unfold steadyClock, UnixMilli. rewrite !Z.div_mul; lia.
Qed.

(** A process that holds 42 MB and runs twelve goroutines. *)
Lemma steady_runtime : forall n : nat, 0 <= 42 * 2 ^ 20 < 2 ^ 64 /\ 0 <= 12 < 2 ^ 63.
Proof. lia. Qed.

Definition steadyEnv : Env :=
  mkEnv steadyClock 1 (fun _ => true) (fun _ l => l) (fun _ => 42 * 2 ^ 20) (fun _ => 12)
    steadyClock_pos steadyClock_back steadyClock_live (fun _ _ => reflexivity _) steady_runtime.
