(* ===== verification/GoStrings.v ===== *)
(** * Functions of Go's [strings] and [strconv] the stores and handlers use

    Strings are Go's: sequences of bytes. *)

From S2P Require Import Prelude.

(** [strings.Contains]. *)
Definition Contains (s sub : string) : bool :=
  match String.index 0 sub s with Some _ => true | None => false end.

(** [strings.HasPrefix] and the rest of the string. *)
Fixpoint cutPrefix (p s : string) : option string :=
  match p, s with
  | EmptyString, _ => Some s
  | String a p, String b s => if bool_decide (a = b) then cutPrefix p s else None
  | _, _ => None
  end.

Definition ofBytes (l : list nat) : string := foldr (fun n s => String (ascii_of_nat n) s) EmptyString l.

(** The UTF-8 encodings of the characters [unicode.IsSpace] accepts. *)
Definition spaceRunes : list string :=
  map ofBytes ([[9]; [10]; [11]; [12]; [13]; [32]; [194; 133]; [194; 160]; [225; 154; 128];
              [226; 128; 168]; [226; 128; 169]; [226; 128; 175]; [226; 129; 159]; [227; 128; 128]]
             ++ map (fun n => [226; 128; n]) (seq 128 11))%nat.

Definition firstSome {A B} (f : A -> option B) : list A -> option B :=
  fix go l := match l with
              | [] => None
              | a :: l => match f a with Some b => Some b | None => go l end
              end.

Fixpoint trimLeft (runes : list string) (fuel : nat) (s : string) : string :=
  match fuel with
  | O => s
  | S fuel => match firstSome (fun r => cutPrefix r s) runes with
              | Some s => trimLeft runes fuel s
              | None => s
              end
  end.

(** [strings.TrimSpace]. *)
Definition TrimSpace (s : string) : string :=
  let s := trimLeft spaceRunes (String.length s) s in
  String.rev (trimLeft (map String.rev spaceRunes) (String.length s) (String.rev s)).

(** [strings.Split] on a byte: never empty. *)
Fixpoint Split (c : ascii) (s : string) : list string :=
  match s with
  | EmptyString => [EmptyString]
  | String a s =>
      if bool_decide (a = c) then EmptyString :: Split c s
      else match Split c s with
           | p :: l => String a p :: l
           | [] => [String a EmptyString]
           end
  end.

(** A [strings.Replacer] whose old strings are bytes. *)
Fixpoint replaceBytes (f : ascii -> string) (s : string) : string :=
  match s with
  | EmptyString => EmptyString
  | String a s => f a +:+ replaceBytes f s
  end.

Definition digitOf (c : ascii) : option Z :=
  let n := Z.of_nat (nat_of_ascii c) in
  if (48 <=? n) && (n <=? 57) then Some (n - 48) else None.

Fixpoint digitsOf (acc : Z) (s : string) : option Z :=
  match s with
  | EmptyString => Some acc
  | String c s => match digitOf c with Some d => digitsOf (acc * 10 + d) s | None => None end
  end.

(** [strconv.ParseInt(s, 10, 64)], and [strconv.Atoi], whose [int] is 64 bits
    wide; an error is [None]. *)
Definition ParseInt (s : string) : option Z :=
  let '(sign, ds) :=
    match s with
    | String c r => if bool_decide (c = "-"%char) then (-1, r)
                    else if bool_decide (c = "+"%char) then (1, r) else (1, s)
    | EmptyString => (1, s)
    end in
  match ds with
  | EmptyString => None
  | _ => match digitsOf 0 ds with
         | Some n => if bool_decide (in_int64 (sign * n)) then Some (sign * n) else None
         | None => None
         end
  end.
Definition Atoi : string -> option Z := ParseInt.

Example trim_space_example :
  TrimSpace (ofBytes [32; 194; 160; 97; 32; 98; 227; 128; 128; 10]%nat) = "a b"%string.
Proof. reflexivity. Qed.

Example split_example : Split ","%char "bob,,carol" = ["bob"; ""; "carol"].
Proof. reflexivity. Qed.

Example parse_int_example :
  map ParseInt ["+42"; "-9223372036854775808"; "9223372036854775808"; "-"; "1_0"] =
  [Some 42; Some (- 2 ^ 63); None; None; None].
Proof. reflexivity. Qed.

(** A parsed number fits its type. *)
Lemma ParseInt_range s n : ParseInt s = Some n -> in_int64 n.
Proof.
  unfold ParseInt. destruct (match s with EmptyString => _ | _ => _ end) as [sign ds].
  destruct ds as [|c ds]; [done|]. destruct (digitsOf 0 (String c ds)) as [m|]; [|done].
  case_bool_decide; [|done]. by intros [= <-].
Qed.
