(* ===== verification/Proto.v ===== *)
(** * The wire message (src/api/proto/message.go, message.proto)

    The message record every connection exchanges, the command constants and
    the validity check every message passes before it is routed.  Protobuf
    serialisation is not under src/: it is the class [Codec]. *)

From S2P Require Import Prelude.

(** ** Constants *)

Definition CmdNone : Z := 0.
Definition CmdChat : Z := 1.
Definition CmdAck : Z := 2.
Definition CmdLogin : Z := 3.
Definition CmdLoginResp : Z := 4.
Definition CmdOffline : Z := 5.
Definition CmdHeartbeat : Z := 6.
Definition CmdKick : Z := 7.
Definition CmdHistory : Z := 8.
Definition CmdReadReceipt : Z := 9.
Definition CmdUnreadCount : Z := 10.
Definition CmdSearch : Z := 11.
Definition CmdGroupCreate : Z := 12.
Definition CmdGroupJoin : Z := 13.
Definition CmdGroupLeave : Z := 14.
Definition CmdGroupInfo : Z := 15.
Definition CmdGroupList : Z := 16.
Definition CmdFile : Z := 17.
Definition CmdGroupInviteMember : Z := 18.
Definition CmdRecall : Z := 19.
Definition CmdFriendRequest : Z := 20.
Definition CmdFriendResponse : Z := 21.
Definition CmdTyping : Z := 22.
Definition CmdForward : Z := 23.
Definition CmdEdit : Z := 24.

Definition ChatTypeSingle : Z := 1.
Definition ChatTypeGroup : Z := 2.

Definition MsgTypeText : Z := 1.
Definition MsgTypeImage : Z := 2.
Definition MsgTypeVoice : Z := 3.
Definition MsgTypeVideo : Z := 4.
Definition MsgTypeFile : Z := 5.

(** ** The message *)

Record Message := mkMessage {
  Seq : Z;
  MsgId : Z;
  Cmd : Z;
  From : string;
  To : string;
  ChatType : Z;
  MsgType : Z;
  Content : string;
  Timestamp : Z;
  NeedAck : bool
}.

#[export] Instance Message_eq_dec : EqDecision Message.
Proof. solve_decision. Defined.

(** The zero value of the struct: what [&proto.Message{...}] starts from. *)
Definition zeroMessage : Message :=
  mkMessage 0 0 0 "" "" 0 0 "" 0 false.

(** The response literals of the handlers set these fields only. *)
Definition newMessage (cmd msgId : Z) (from to content : string) (seq ts : Z) : Message :=
  mkMessage seq msgId cmd from to 0 0 content ts false.

(** Field assignments [msg.F = v]. *)
Definition setMsgId (v : Z) (m : Message) : Message :=
  mkMessage (Seq m) v (Cmd m) (From m) (To m) (ChatType m) (MsgType m) (Content m) (Timestamp m) (NeedAck m).
Definition setFrom (v : string) (m : Message) : Message :=
  mkMessage (Seq m) (MsgId m) (Cmd m) v (To m) (ChatType m) (MsgType m) (Content m) (Timestamp m) (NeedAck m).
Definition setContent (v : string) (m : Message) : Message :=
  mkMessage (Seq m) (MsgId m) (Cmd m) (From m) (To m) (ChatType m) (MsgType m) v (Timestamp m) (NeedAck m).
Definition setTimestamp (v : Z) (m : Message) : Message :=
  mkMessage (Seq m) (MsgId m) (Cmd m) (From m) (To m) (ChatType m) (MsgType m) (Content m) v (NeedAck m).

(** The fields hold values of their declared width. *)
Definition wf_message (m : Message) : Prop :=
  in_int64 (Seq m) /\ in_int64 (MsgId m) /\ in_int32 (Cmd m) /\
  in_int32 (ChatType m) /\ in_int32 (MsgType m) /\ in_int64 (Timestamp m).

(** ** Errors

    Go compares sentinel errors by identity and shows an error by its text. *)

Inductive error :=
| ErrInvalidCmd
| ErrMissingTarget
| ErrGroupNotFound
| ErrNotOwner
| ErrAlreadyMember
| ErrNotMember
| ErrGroupIDExists
| Errorf (text : string).

#[export] Instance error_eq_dec : EqDecision error.
Proof. solve_decision. Defined.

Definition Error (e : error) : string :=
  match e with
  | ErrInvalidCmd => "invalid command"
  | ErrMissingTarget => "chat message missing target"
  | ErrGroupNotFound => "group not found"
  | ErrNotOwner => "only the group owner can perform this action"
  | ErrAlreadyMember => "user is already a member of this group"
  | ErrNotMember => "user is not a member of this group"
  | ErrGroupIDExists => "group ID already exists"
  | Errorf t => t
  end.

(** ** Validate *)

(** The commands that need a target. *)
Definition needsTarget (cmd : Z) : bool :=
  (cmd =? CmdChat) || (cmd =? CmdHistory) || (cmd =? CmdReadReceipt) ||
  (cmd =? CmdFile) || (cmd =? CmdRecall) || (cmd =? CmdFriendRequest) ||
  (cmd =? CmdFriendResponse) || (cmd =? CmdForward) || (cmd =? CmdEdit).

Definition Validate (m : Message) : option error :=
  if (Cmd m <=? CmdNone) || (Cmd m >? CmdEdit) then Some ErrInvalidCmd
  else if needsTarget (Cmd m) && (To m =? "")%string then Some ErrMissingTarget
  else None.

(** ** Protobuf serialisation

    [marshal] fails on strings that are not UTF-8.  What the code relies on is
    that a serialised message reads back as itself. *)

Abbreviation bytes := (list Byte.byte).

Class Codec := mkCodec {
  marshal : Message -> option bytes;
  unmarshal : bytes -> option Message;
  unmarshal_marshal : forall m d,
    wf_message m -> marshal m = Some d -> unmarshal d = Some m
}.

(** ** Lemmas *)

Lemma Validate_range m :
  Validate m = None -> CmdNone < Cmd m <= CmdEdit.
Proof.
  unfold Validate. destruct (Z.leb_spec (Cmd m) CmdNone); simpl; [done|].
  rewrite Z.gtb_ltb. destruct (Z.ltb_spec CmdEdit (Cmd m)); simpl; [done|]. lia.
Qed.

Lemma Validate_target m :
  Validate m = None -> needsTarget (Cmd m) = true -> To m <> "".
Proof.
  unfold Validate. intros H Hn. rewrite Hn in H.
  destruct (_ || _); [done|]. destruct (String.eqb_spec (To m) ""); done.
Qed.

(** ** A concrete codec

    It shows the law of [Codec] can hold and lets the witnesses run; it is not
    the protobuf encoding. *)

(** A message as the list of its fields' codes, so that its code is as long as
    they are together. *)
Definition fieldsOf (m : Message) : list positive :=
  [encode (Seq m); encode (MsgId m); encode (Cmd m); encode (From m); encode (To m); encode (ChatType m);
   encode (MsgType m); encode (Content m); encode (Timestamp m); encode (NeedAck m)].

Definition ofFields (l : list positive) : option Message :=
  match l with
  | [a; b; c; d; e; f; g; h; i; j] =>
      a ← decode a; b ← decode b; c ← decode c; d ← decode d; e ← decode e; f ← decode f;
      g ← decode g; h ← decode h; i ← decode i; j ← decode j; Some (mkMessage a b c d e f g h i j)
  | _ => None
  end.

Lemma ofFields_fieldsOf m : ofFields (fieldsOf m) = Some m.
Proof. destruct m. unfold ofFields, fieldsOf. cbn [Seq MsgId Cmd From To ChatType MsgType Content Timestamp NeedAck]. by rewrite !decode_encode. Qed.

#[export] Instance Message_countable : Countable Message := inj_countable fieldsOf ofFields ofFields_fieldsOf.

Fixpoint bytes_of_pos (p : positive) : bytes :=
  match p with
  | xH => []
  | xO p' => Byte.x00 :: bytes_of_pos p'
  | xI p' => Byte.x01 :: bytes_of_pos p'
  end.

Fixpoint pos_of_bytes (l : bytes) : positive :=
  match l with
  | [] => xH
  | Byte.x00 :: l' => xO (pos_of_bytes l')
  | _ :: l' => xI (pos_of_bytes l')
  end.

Lemma pos_of_bytes_of_pos p : pos_of_bytes (bytes_of_pos p) = p.
Proof. induction p; simpl; congruence. Qed.

Definition demo_marshal (m : Message) : option bytes := Some (bytes_of_pos (encode m)).
Definition demo_unmarshal (d : bytes) : option Message := decode (pos_of_bytes d).

Lemma demo_unmarshal_marshal m d :
  wf_message m -> demo_marshal m = Some d -> demo_unmarshal d = Some m.
Proof.
  intros _ [= <-]. unfold demo_unmarshal. rewrite pos_of_bytes_of_pos. apply decode_encode.
Qed.

Definition demoCodec : Codec := mkCodec demo_marshal demo_unmarshal demo_unmarshal_marshal.
