(* ===== verification/Snowflake.v ===== *)
(** * Snowflake ID generation (src/internal/pkg/snowflake/snowflake.go)

    The generator's state and [New], [Next] and [ExtractTimestamp], with
    [int64] arithmetic.  [Next] reads the clock; its two busy-wait loops are
    [spin_until].  The theorems: IDs strictly increase, the three fields of an
    ID read back, IDs of different workers never collide, a severe clock
    rollback yields 0 and leaves the generator alone. *)

From S2P Require Import Prelude.

Definition Epoch : Z := 1704067200000.
Definition workerBits : Z := 10.
Definition sequenceBits : Z := 12.
Definition workerMax : Z := Z.lxor (-1) (Z.shiftl (-1) workerBits).
Definition sequenceMax : Z := Z.lxor (-1) (Z.shiftl (-1) sequenceBits).
Definition workerShift : Z := sequenceBits.
Definition timestampShift : Z := sequenceBits + workerBits.
(** 10 ms as a [time.Duration] (nanoseconds). *)
Definition maxClockBackoff : Z := 10 * 1000000.

Record Generator := mkGenerator {
  workerID : Z;
  sequence : Z;
  lastStamp : Z
}.

Definition New (wid : Z) : option Generator :=
  if (wid <? 0) || (wid >? workerMax) then None
  else Some (mkGenerator wid 0 0).

(** The ID layout of the last line of [Next]. *)
Definition compose (now wid seq : Z) : Z :=
  Z.lor (Z.lor (wrap64 (Z.shiftl (wrap64 (now - Epoch)) timestampShift))
               (wrap64 (Z.shiftl wid workerShift))) seq.

Definition Next (E : Env) (g : Generator) (t : nat) : Z * Generator * nat :=
  let now := nowMs E t in
  let t := S t in
  let backoff := wrap64 ((lastStamp g - now) * 1000000) in
  if (now <? lastStamp g) && (backoff >? maxClockBackoff) then (0, g, t)
  else
    let '(now, t) :=
      if now <? lastStamp g
      then spin_until E (fun n => negb (n <? lastStamp g)) (spin E) now t
      else (now, t) in
    let '(seq, now, t) :=
      if now =? lastStamp g then
        let seq := Z.land (wrap64 (sequence g + 1)) sequenceMax in
        if seq =? 0 then
          let '(now, t) :=
            spin_until E (fun n => negb (n <=? lastStamp g)) (spin E) now t in
          (seq, now, t)
        else (seq, now, t)
      else (0, now, t) in
    (compose now (workerID g) seq, mkGenerator (workerID g) seq now, t).

Definition ExtractTimestamp (id : Z) : Z := Z.shiftr id timestampShift + Epoch.

(** A run of calls; before each call the process makes the given number of
    other observations.  Returns the IDs and the position after the run. *)
Fixpoint issue (E : Env) (g : Generator) (t : nat) (gaps : list nat) : list Z * nat :=
  match gaps with
  | [] => ([], t)
  | n :: gaps' =>
      let '(id, g', t') := Next E g (t + n) in
      let '(ids, t'') := issue E g' t' gaps' in (id :: ids, t'')
  end.

(** What [New] and [Next] keep at position [t]: the fields are in range and
    the stamp is a reading made before. *)
Record wf (E : Env) (t : nat) (g : Generator) : Prop := mkWf {
  wf_worker : 0 <= workerID g <= workerMax;
  wf_sequence : 0 <= sequence g <= sequenceMax;
  wf_last : lastStamp g = 0 \/ exists p, (p < t)%nat /\ lastStamp g = nowMs E p
}.

(** The clock reads inside the 41 bits the ID layout has for it, until [n]. *)
Definition clock_in_range (E : Env) (n : nat) : Prop :=
  forall p, (p < n)%nat -> Epoch < nowMs E p < Epoch + 2 ^ 41.

(** ** Layout *)

Lemma lor_shiftl_add a b n :
  0 <= n -> 0 <= b < 2 ^ n -> Z.lor (Z.shiftl a n) b = a * 2 ^ n + b.
Proof.
  intros Hn Hb. rewrite <- Z.shiftl_mul_pow2 by done.
  rewrite <- Z.add_lor_land.
  replace (Z.land (Z.shiftl a n) b) with 0; [lia|].
  symmetry. apply Z.bits_inj'. intros i Hi.
  rewrite Z.land_spec, Z.bits_0.
  destruct (Z.ltb_spec i n).
  - rewrite Z.shiftl_spec_low by done. done.
  - replace (Z.testbit b i) with false; [by rewrite andb_false_r|].
    symmetry. apply Z.testbit_false; [lia|]. rewrite Z.div_small; [done|].
    split; [lia|]. apply Z.lt_le_trans with (2 ^ n); [lia|].
    apply Z.pow_le_mono_r; lia.
Qed.

Lemma compose_add now wid seq :
  Epoch <= now < Epoch + 2 ^ 41 -> 0 <= wid <= workerMax -> 0 <= seq <= sequenceMax ->
  compose now wid seq = (now - Epoch) * 2 ^ 22 + (wid * 2 ^ 12 + seq).
Proof.
  change workerMax with 1023. change sequenceMax with 4095. change Epoch with 1704067200000.
  intros Hn Hw Hs. unfold compose, timestampShift, workerShift, workerBits, sequenceBits.
  change Epoch with 1704067200000. change (12 + 10) with 22.
  rewrite (wrap64_id (now - _)) by (unfold in_int64; lia).
  rewrite !wrap64_id by (unfold in_int64; rewrite Z.shiftl_mul_pow2; lia).
  rewrite <- Z.lor_assoc, (lor_shiftl_add wid) by lia.
  rewrite lor_shiftl_add by lia. done.
Qed.

(** The three fields of an ID. *)
Lemma compose_fields now wid seq :
  Epoch <= now < Epoch + 2 ^ 41 -> 0 <= wid <= workerMax -> 0 <= seq <= sequenceMax ->
  ExtractTimestamp (compose now wid seq) = now /\
  Z.land (Z.shiftr (compose now wid seq) 12) workerMax = wid /\
  Z.land (compose now wid seq) sequenceMax = seq.
Proof.
  intros Hn Hw Hs. rewrite compose_add by done. unfold ExtractTimestamp.
  change timestampShift with 22. change workerMax with (Z.ones 10) in *.
  change sequenceMax with (Z.ones 12) in *.
  change (Z.ones 10) with 1023 in Hw. change (Z.ones 12) with 4095 in Hs.
  rewrite !Z.land_ones, !Z.shiftr_div_pow2 by lia.
  change (2 ^ 22) with 4194304. change (2 ^ 12) with 4096. change (2 ^ 10) with 1024.

  repeat split; Z.to_euclidean_division_equations; lia.
Qed.

(** ** One call *)

Lemma wf_New E t wid g : New wid = Some g -> wf E t g.
Proof.
  unfold New. destruct ((wid <? 0) || (wid >? workerMax)) eqn:H; [done|].
  intros [= <-]. apply orb_false_iff in H as [H1 H2].
  rewrite Z.gtb_ltb in H2. split; simpl; [lia|by vm_compute|by left].
Qed.

Lemma wf_later E t t' g : (t <= t')%nat -> wf E t g -> wf E t' g.
Proof.
  intros Ht [Hw Hs Hl]. split; try done.
  destruct Hl as [?|(p & ? & ?)]; [by left|right]. exists p. split; [lia|done].
Qed.

(** Every way a call between positions [t] and [t'] can end. *)
Inductive Next_result (E : Env) (t t' : nat) (g : Generator) : Z -> Generator -> Prop :=
| Next_rollback : (t < t')%nat -> maxClockBackoff < (lastStamp g - nowMs E t) * 1000000 ->
    Next_result E t t' g 0 g
| Next_same p : (t <= p < t')%nat -> lastStamp g <= nowMs E t + 10 -> nowMs E p = lastStamp g -> sequence g < sequenceMax ->
    Next_result E t t' g (compose (lastStamp g) (workerID g) (sequence g + 1))
      (mkGenerator (workerID g) (sequence g + 1) (lastStamp g))
| Next_later p : (t <= p < t')%nat -> lastStamp g <= nowMs E t + 10 -> lastStamp g < nowMs E p ->
    Next_result E t t' g (compose (nowMs E p) (workerID g) 0)
      (mkGenerator (workerID g) 0 (nowMs E p)).

Lemma land_sequence s :
  0 <= s <= sequenceMax ->
  Z.land (wrap64 (s + 1)) sequenceMax = if s =? sequenceMax then 0 else s + 1.
Proof.
  intros Hs. change sequenceMax with (Z.ones 12) in *.
  change (Z.ones 12) with 4095 in Hs at 1.
  rewrite wrap64_id by (unfold in_int64; lia). rewrite Z.land_ones by lia.
  change (Z.ones 12) with 4095. destruct (Z.eqb_spec s 4095) as [->|]; [done|].
  apply Z.mod_small. lia.
Qed.

(** A wait whose target is at most 10 ms past the reading at [p] ends. *)
Lemma spin_reaches E (ok : Z -> bool) target p now :
  (forall n, target < n -> ok n = true) -> target <= nowMs E p + 10 ->
  ok (spin_until E ok (spin E) now (S p)).1 = true.
Proof.
  intros Hok Hp. destruct (readings_live E p) as (k & Hk & Hlive).
  fold (nowMs E p) in Hlive. fold (nowMs E (p + k)) in Hlive.
  destruct k as [|k]; [rewrite Nat.add_0_r in Hlive; lia|].
  apply spin_until_exit. exists k. split; [lia|].
  replace (S p + k)%nat with (p + S k)%nat by lia. apply Hok. lia.
Qed.

(** The wait's result: a reading that satisfies the condition. *)
Lemma spin_result E (ok : Z -> bool) target p :
  (forall n, target < n -> ok n = true) -> target <= nowMs E p + 10 ->
  exists q, (p <= q)%nat /\ ok (nowMs E q) = true /\
    spin_until E ok (spin E) (nowMs E p) (S p) = (nowMs E q, S q).
Proof.
  intros Hok Hp. pose proof (spin_reaches E ok target p (nowMs E p) Hok Hp) as H.
  destruct (spin_until_reading E ok (spin E) (nowMs E p) (S p)) as [H'|(q & H' & Hq)];
    rewrite H' in H |- *; simpl in H; [exists p|exists q]; repeat split; auto with lia.
Qed.

Lemma Next_spec E g t :
  wf E t g ->
  let '(id, g', t') := Next E g t in (t < t')%nat /\ Next_result E t t' g id g'.
Proof.
  intros [Hw Hs Hl]. unfold Next. cbv zeta.
  destruct ((nowMs E t <? lastStamp g) && _) eqn:Hback.
  { apply andb_true_iff in Hback as [Hlt Hb].
    destruct Hl as [Hl|(p & Hp & Hl)]; [pose proof (nowMs_pos E t); lia|].
    pose proof (nowMs_back E p t) as Hbk.
    rewrite wrap64_id in Hb by (unfold in_int64; lia).
    split; [lia|]. apply Next_rollback; [lia|]. rewrite Z.gtb_ltb in Hb. lia. }
  assert (Hnear : lastStamp g <= nowMs E t + 10).
  { destruct Hl as [Hl|(p & Hp & Hl)]; [pose proof (nowMs_pos E t); lia|].
    destruct (Z.ltb_spec (nowMs E t) (lastStamp g)); [|lia].
    pose proof (nowMs_back E p t) as Hbk.
    rewrite wrap64_id in Hback by (unfold in_int64; lia).
    simpl in Hback. unfold maxClockBackoff in Hback. lia. }
  set (r1 := if nowMs E t <? lastStamp g then _ else _).
  assert (Hr1 : exists p, (t <= p)%nat /\ lastStamp g <= nowMs E p /\ r1 = (nowMs E p, S p)).
  { subst r1. destruct (Z.ltb_spec (nowMs E t) (lastStamp g)); [|by exists t].
    destruct (spin_result E (fun n => negb (n <? lastStamp g)) (lastStamp g) t)
      as (q & Hq & Hok & ->); [intros; cbv beta; lia|done|].
    exists q. split; [done|]. split; [cbv beta in Hok; lia|done]. }
  destruct r1 as [now1 t1]. destruct Hr1 as (p & Hp & Hge & [= -> ->]).
  destruct (Z.eqb_spec (nowMs E p) (lastStamp g)) as [Heq|Hne].
  2: { split; [lia|]. apply Next_later; lia. }
  rewrite land_sequence by done.
  destruct (Z.eqb_spec (sequence g) sequenceMax) as [Hmax|Hmax].
  - rewrite Z.eqb_refl.
    destruct (spin_result E (fun n => negb (n <=? lastStamp g)) (lastStamp g) p)
      as (q & Hq & Hok & ->); [intros; cbv beta; lia|lia|].
    cbv beta in Hok. split; [lia|]. apply Next_later; lia.
  - destruct (Z.eqb_spec (sequence g + 1) 0); [lia|].
    split; [lia|]. rewrite Heq. apply (Next_same _ _ _ _ p); lia.
Qed.

Lemma Next_result_wf E t t' g id g' :
  wf E t g -> (t < t')%nat -> Next_result E t t' g id g' -> wf E t' g'.
Proof.
  intros [Hw Hs Hl] Ht [_ _|p ? _ Hq Hlt|p ? _ Hp]; split; simpl; try lia.
  - apply (wf_later E t t' g); [lia|done].
  - destruct Hl as [?|(q & ? & ?)]; [by left|right]. exists q. split; [lia|done].
  - right. exists p. split; [lia|done].
Qed.

Lemma Next_wf E g t : wf E t g -> let '(_, g', t') := Next E g t in wf E t' g' /\ (t < t')%nat.
Proof.
  intros H. pose proof (Next_spec E g t H) as Hs. destruct (Next E g t) as [[id g'] t'].
  destruct Hs. eauto using Next_result_wf.
Qed.

Lemma Next_result_worker E t t' g id g' :
  Next_result E t t' g id g' -> workerID g' = workerID g.
Proof. by intros []. Qed.

(** The ID a generator's state stands for. *)
Definition last_id (g : Generator) : Z :=
  compose (lastStamp g) (workerID g) (sequence g).

(** Unless the call reports a rollback, its ID is the state's and is above the
    generator's previous one. *)
Lemma Next_result_id E t t' g id g' :
  wf E t g -> clock_in_range E t' -> Next_result E t t' g id g' ->
  id = 0 /\ g' = g \/
  id = last_id g' /\ Epoch < lastStamp g' < Epoch + 2 ^ 41 /\
  (lastStamp g = 0 \/ last_id g < id).
Proof.
  intros [Hw Hs Hl] Hc Hr.
  destruct Hr as [_ Hp|p Ht _ Hp Hlt|p Ht _ Hp]; simpl; [auto|..];
    (assert (Hcp := Hc p ltac:(lia))); right.
  - rewrite <- Hp in *. split; [done|]. split; [lia|]. right.
    unfold last_id. rewrite <- Hp, !compose_add by lia. lia.
  - split; [done|]. split; [lia|].
    destruct Hl as [?|(q & Hq & Hl)]; [by left|right].
    assert (Hcq := Hc q ltac:(lia)). unfold last_id.
    change sequenceMax with 4095 in *. change workerMax with 1023 in *.
    rewrite !compose_add by (change sequenceMax with 4095; change workerMax with 1023; lia).
    lia.
Qed.

(** ** Runs *)

Lemma issue_later E g t gaps : wf E t g -> (t <= (issue E g t gaps).2)%nat.
Proof.
  revert g t. induction gaps as [|n gaps IH]; intros g t Hwf; simpl; [done|].
  pose proof (Next_wf E g (t + n) (wf_later E t (t + n) g ltac:(lia) Hwf)) as Hn.
  destruct (Next E g (t + n)) as [[id g'] t']. destruct Hn as [Hn ?].
  specialize (IH g' t' Hn). destruct (issue E g' t' gaps). simpl in *. lia.
Qed.

Abbreviation nonzero ids := (filter (fun id : Z => id <> 0) ids).

Lemma last_id_pos g :
  0 <= workerID g <= workerMax -> 0 <= sequence g <= sequenceMax ->
  Epoch < lastStamp g < Epoch + 2 ^ 41 -> 0 < last_id g.
Proof.
  intros Hw Hs Hl. unfold last_id. rewrite compose_add by lia. lia.
Qed.

Lemma last_id_fields g :
  0 <= workerID g <= workerMax -> 0 <= sequence g <= sequenceMax ->
  Epoch < lastStamp g < Epoch + 2 ^ 41 ->
  ExtractTimestamp (last_id g) = lastStamp g /\
  Z.land (Z.shiftr (last_id g) 12) workerMax = workerID g /\
  Z.land (last_id g) sequenceMax = sequence g.
Proof. intros Hw Hs H. unfold last_id. apply compose_fields; [lia|done|done]. Qed.

(** The IDs of a run are increasing and above the generator's last one, and
    each is laid out from a stamp, the generator's worker and a sequence. *)
Lemma issue_sorted E g t gaps :
  wf E t g -> clock_in_range E (issue E g t gaps).2 ->
  StronglySorted Z.lt (nonzero (issue E g t gaps).1) /\
  Forall (fun id => (lastStamp g = 0 \/ last_id g < id) /\
    exists now seq, Epoch < now < Epoch + 2 ^ 41 /\ 0 <= seq <= sequenceMax /\
      id = compose now (workerID g) seq) (nonzero (issue E g t gaps).1).
Proof.
  revert g t. induction gaps as [|n gaps IH]; intros g t Hwf; simpl.
  { intros _. by split; [constructor|]. }
  pose proof (wf_later E t (t + n) g ltac:(lia) Hwf) as Hwf0.
  pose proof (Next_spec E g _ Hwf0) as Hn. pose proof (Next_wf E g _ Hwf0) as Hw'.
  destruct (Next E g (t + n)) as [[id g'] t'].
  destruct Hn as [Ht Hr], Hw' as [Hw' _]. specialize (IH g' t' Hw').
  pose proof (issue_later E g' t' gaps Hw') as Hlater.
  pose proof (Next_result_worker _ _ _ _ _ _ Hr) as Hwk.
  destruct (issue E g' t' gaps) as [ids t'']. simpl in *. intros Hc.
  destruct (IH Hc) as [Hsorted Hall]. clear IH.
  destruct (Next_result_id E _ t' g id g' Hwf0) as [[-> ->]|(-> & Hin & Habove)];
    [intros p Hp; apply Hc; lia|exact Hr|by rewrite filter_cons_False by auto|].
  pose proof (last_id_pos g' (wf_worker _ _ _ Hw') (wf_sequence _ _ _ Hw') Hin) as Hpos.
  rewrite filter_cons_True by lia. split.
  - constructor; [done|]. eapply Forall_impl; [exact Hall|].
    intros x [[H0|Hx] _]; [unfold Epoch in Hin; lia|done].
  - constructor.
    + split; [done|]. exists (lastStamp g'), (sequence g').
      split; [done|]. split; [apply (wf_sequence _ _ _ Hw')|]. by rewrite <- Hwk.
    + eapply Forall_impl; [exact Hall|]. intros x [[H0|Hx] Hex]; rewrite <- Hwk.
      * unfold Epoch in Hin; lia.
      * split; [|exact Hex]. destruct Habove; [by left|right; lia].
Qed.

Lemma steadyEnv_in_range n :
  Z.of_nat n < 2 ^ 36 -> clock_in_range steadyEnv n.
Proof.
  intros Hn p Hp. unfold nowMs, UnixMilli. simpl. unfold steadyClock, Epoch.
  rewrite Z.div_mul; lia.
Qed.

(** ** Properties *)

(** C34: the IDs a generator issues over any run of calls, with any other
    activity of the process between them and a clock that may go back, are
    strictly increasing (a reported rollback, ID 0, apart): they are unique
    and sort by creation. *)
Theorem snowflake_ids_increase E wid g t gaps
  (Hnew : New wid = Some g)
  (Hclock : clock_in_range E (issue E g t gaps).2) :
  StronglySorted Z.lt (nonzero (issue E g t gaps).1).
Proof. apply issue_sorted; [by apply (wf_New E t wid)|done]. Qed.

Lemma snowflake_ids_increase_witness :
  StronglySorted Z.lt (nonzero (issue steadyEnv (mkGenerator 7 0 0) 0 [0; 2; 0]%nat).1).
Proof.
  apply (snowflake_ids_increase steadyEnv 7); [reflexivity|].
  apply steadyEnv_in_range. by vm_compute.
Defined.

(** Two generators with different worker IDs never issue the same ID,
    whatever their clocks and however their calls interleave. *)
Theorem snowflake_workers_disjoint E1 E2 wid1 wid2 g1 g2 t1 t2 gaps1 gaps2 id
  (Hnew1 : New wid1 = Some g1) (Hnew2 : New wid2 = Some g2) (Hne : wid1 <> wid2)
  (Hclock1 : clock_in_range E1 (issue E1 g1 t1 gaps1).2)
  (Hclock2 : clock_in_range E2 (issue E2 g2 t2 gaps2).2)
  (Hin1 : id ∈ nonzero (issue E1 g1 t1 gaps1).1) :
  id ∉ nonzero (issue E2 g2 t2 gaps2).1.
Proof.
  intros Hin2.
  pose proof (wf_New E1 t1 _ _ Hnew1) as Hw1. pose proof (wf_New E2 t2 _ _ Hnew2) as Hw2.
  destruct (issue_sorted _ _ _ _ Hw1 Hclock1) as [_ H1].
  destruct (issue_sorted _ _ _ _ Hw2 Hclock2) as [_ H2].
  rewrite Forall_forall in H1, H2.
  destruct (H1 id Hin1) as (_ & n1 & s1 & Hn1 & Hs1 & Hid1).
  destruct (H2 id Hin2) as (_ & n2 & s2 & Hn2 & Hs2 & Hid2).
  destruct (compose_fields n1 (workerID g1) s1) as (_ & Hf1 & _); [lia|apply Hw1|done|].
  destruct (compose_fields n2 (workerID g2) s2) as (_ & Hf2 & _); [lia|apply Hw2|done|].
  unfold New in Hnew1, Hnew2. repeat case_match; simplify_eq. simpl in *. congruence.
Qed.

Lemma snowflake_workers_disjoint_witness :
  4198400 ∉ nonzero (issue steadyEnv (mkGenerator 2 0 0) 0 [0]%nat).1.
Proof.
  apply (snowflake_workers_disjoint steadyEnv steadyEnv 1 2 (mkGenerator 1 0 0)
    (mkGenerator 2 0 0) 0 0 [0]%nat [0]%nat); try reflexivity; try done.
  1, 2: apply steadyEnv_in_range; by vm_compute.
  assert (nonzero (issue steadyEnv (mkGenerator 1 0 0) 0 [0]%nat).1 = [4198400]) as ->
    by (vm_compute; reflexivity).
  left.
Defined.

(** [Next] reports 0 exactly when the clock has fallen more than 10 ms
    behind the last stamp, and then changes nothing; otherwise the ID carries
    the stamp, worker and sequence the new state holds, and the stamp never
    goes back. *)
Theorem snowflake_next_outcomes E g t
  (Hwf : wf E t g) (Hclock : clock_in_range E (Next E g t).2) :
  let '(id, g', t') := Next E g t in
  if decide (nowMs E t + 10 < lastStamp g)
  then id = 0 /\ g' = g
  else id <> 0 /\ ExtractTimestamp id = lastStamp g' /\
       Z.land (Z.shiftr id 12) workerMax = workerID g /\
       Z.land id sequenceMax = sequence g' /\ lastStamp g <= lastStamp g'.
Proof.
  pose proof (Next_spec E g t Hwf) as Hs. pose proof (Next_wf E g t Hwf) as Hw'.
  destruct (Next E g t) as [[id g'] t']. destruct Hs as [Ht Hr], Hw' as [Hw' _].
  simpl in Hclock. pose proof (Next_result_worker _ _ _ _ _ _ Hr) as Hwk.
  pose proof (Next_result_id _ _ _ _ _ _ Hwf Hclock Hr) as Hid.
  pose proof (last_id_pos g' (wf_worker _ _ _ Hw') (wf_sequence _ _ _ Hw')) as Hpos.
  pose proof (last_id_fields g' (wf_worker _ _ _ Hw') (wf_sequence _ _ _ Hw')) as Hf.
  case_decide as Hd; destruct Hr as [_ Hp|p Hp Hn Hq Hlt|p Hp Hn Hq]; 
    try done; try (unfold maxClockBackoff in *; lia).
  all: destruct Hid as [[H0 Hg]|(Hid & Hin & _)]; [|specialize (Hpos Hin)].
  all: try (apply (f_equal lastStamp) in Hg as Hg1; apply (f_equal sequence) in Hg; simpl in *; lia).
  all: specialize (Hf Hin); rewrite Hid in *; rewrite Hwk in Hf; simpl in *;
    intuition lia.
Qed.

Lemma snowflake_next_outcomes_witness :
  let '(id, g', t') := Next steadyEnv (mkGenerator 3 0 0) 0 in
  id <> 0 /\ ExtractTimestamp id = lastStamp g'.
Proof.
  pose proof (snowflake_next_outcomes steadyEnv (mkGenerator 3 0 0) 0) as H.
  destruct H as (H1 & H2 & _); [..|by split].
  - apply (wf_New _ _ 3). reflexivity.
  - apply steadyEnv_in_range. by vm_compute.
Defined.
