(* ===== verification/Process.v ===== *)
(** * What every component of a gateway process shares

    The position in the sequence of nondeterministic observations and the one
    snowflake generator [cmd/gateway/main.go] hands to the router and the
    group store.  An operation of a component with state [X] is a function on
    [X * Sys]. *)

From S2P Require Import Prelude Proto Snowflake.

Record Sys := mkSys {
  sys_tick : nat;
  sys_snow : Generator
}.

Existing Class Env.

Section Operations.
Context {E : Env} {X : Type}.

(** [time.Now()], in nanoseconds. *)
Definition Now : St (X * Sys) Z :=
  fun '(x, s) => (readings E (sys_tick s), (x, mkSys (S (sys_tick s)) (sys_snow s))).

(** [time.Now().UnixMilli()]. *)
Definition NowMilli : St (X * Sys) Z :=
  let! ns := Now in ret (UnixMilli ns).

(** [snow.Next()]. *)
Definition NextID : St (X * Sys) Z :=
  fun '(x, s) =>
    let '(id, g, t) := Next E (sys_snow s) (sys_tick s) in (id, (x, mkSys t g)).

(** The case a [select] with several ready cases takes. *)
Definition Pick : St (X * Sys) bool :=
  fun '(x, s) => (choose E (sys_tick s), (x, mkSys (S (sys_tick s)) (sys_snow s))).

(** The keys of a map in the order a [range] visits them. *)
Definition RangeKeys (keys : list string) : St (X * Sys) (list string) :=
  fun '(x, s) => (order E (sys_tick s) keys, (x, mkSys (S (sys_tick s)) (sys_snow s))).

(** [m.Alloc] after [runtime.ReadMemStats], and [runtime.NumGoroutine()]. *)
Definition ReadAlloc : St (X * Sys) Z :=
  fun '(x, s) => (memAlloc E (sys_tick s), (x, mkSys (S (sys_tick s)) (sys_snow s))).
Definition NumGoroutine : St (X * Sys) Z :=
  fun '(x, s) => (numGoroutine E (sys_tick s), (x, mkSys (S (sys_tick s)) (sys_snow s))).

Definition getX : St (X * Sys) X := gets fst.
Definition putX (x : X) : St (X * Sys) unit := modify (fun p => (x, p.2)).

End Operations.

(** A component keeps the well-formedness of the shared generator. *)
Definition sys_wf (E : Env) (s : Sys) : Prop := wf E (sys_tick s) (sys_snow s).

Section Lemmas.
Context {E : Env} {X : Type}.

Lemma sys_wf_tick s n :
  sys_wf E s -> sys_wf E (mkSys (sys_tick s + n) (sys_snow s)).
Proof. apply wf_later. simpl. lia. Qed.

Lemma sys_wf_tick1 s : sys_wf E s -> sys_wf E (mkSys (S (sys_tick s)) (sys_snow s)).
Proof. apply wf_later. simpl. lia. Qed.

(** Observations do not touch the component. *)
Definition observes {A} (m : St (X * Sys) A) : Prop :=
  forall x s, (m (x, s)).2.1 = x /\ (sys_wf E s -> sys_wf E (m (x, s)).2.2).

Lemma observes_Now : observes Now.
Proof. intros x s. split; [done|apply sys_wf_tick1]. Qed.
Lemma observes_NowMilli : observes NowMilli.
Proof. intros x s. split; [done|apply sys_wf_tick1]. Qed.
Lemma observes_Pick : observes Pick.
Proof. intros x s. split; [done|apply sys_wf_tick1]. Qed.
Lemma observes_RangeKeys l : observes (RangeKeys l).
Proof. intros x s. split; [done|apply sys_wf_tick1]. Qed.
Lemma observes_NextID : observes NextID.
Proof.
  intros x s. unfold NextID, sys_wf.
  pose proof (Next_wf E (sys_snow s) (sys_tick s)) as H.
  destruct (Next E (sys_snow s) (sys_tick s)) as [[id g] t]. simpl.
  split; [done|]. intros Hw. by apply H.
Qed.

Lemma RangeKeys_perm l (x : X) (s : Sys) : (RangeKeys l (x, s)).1 ≡ₚ l.
Proof. apply order_perm. Qed.

End Lemmas.
