(* ===== verification/Sql.v ===== *)
(** * The database (the schema and statements of src/internal/repo)

    The tables that [MySQLStore.migrate] creates, the statements the stores
    send, and what they rely on of MySQL: the class [Database] and its laws.
    A statement or a transaction may fail for any reason; a failed statement
    has had either its whole effect or none (the reply may be what was lost).

    Rows are keyed by the table's primary or unique key.  Strings are taken up to
    the equality of their column's collation, values fit their columns, and
    the flag columns hold 0 or 1, which is what the program writes. *)

From S2P Require Import Prelude GoStrings Proto Snowflake Process.

(** ** Tables *)

Record UserRow := mkUserRow {
  ur_username : string;
  ur_password_hash : string;
  ur_created_at : Z;
  ur_role : string;
  ur_is_disabled : Z
}.

Record MessageRow := mkMessageRow {
  mr_seq : Z;
  mr_cmd : Z;
  mr_from_uid : string;
  mr_to_uid : string;
  mr_chat_type : Z;
  mr_msg_type : Z;
  mr_content : string;
  mr_timestamp : Z;
  mr_need_ack : Z;
  mr_recalled : Z
}.

Record GroupRec := mkGroupRec { gt_name : string; gt_owner_uid : string; gt_created_at : Z }.

Record FriendRow := mkFriendRow { fr_status : Z; fr_created_at : Z; fr_updated_at : Z }.

Record Tables := mkTables {
  t_users : gmap string UserRow;
  t_messages : gmap Z MessageRow;
  t_groups : gmap string GroupRec;
  t_group_members : gmap (string * string) Z;
  t_unread : gmap (string * string) Z;
  t_friends : gmap (string * string) FriendRow
}.

Definition emptyTables : Tables := mkTables ∅ ∅ ∅ ∅ ∅ ∅.

Definition set_users (x : gmap string UserRow) (t : Tables) : Tables :=
  mkTables x (t_messages t) (t_groups t) (t_group_members t) (t_unread t) (t_friends t).
Definition set_messages (x : gmap Z MessageRow) (t : Tables) : Tables :=
  mkTables (t_users t) x (t_groups t) (t_group_members t) (t_unread t) (t_friends t).
Definition set_groups (x : gmap string GroupRec) (t : Tables) : Tables :=
  mkTables (t_users t) (t_messages t) x (t_group_members t) (t_unread t) (t_friends t).
Definition set_group_members (x : gmap (string * string) Z) (t : Tables) : Tables :=
  mkTables (t_users t) (t_messages t) (t_groups t) x (t_unread t) (t_friends t).
Definition set_unread (x : gmap (string * string) Z) (t : Tables) : Tables :=
  mkTables (t_users t) (t_messages t) (t_groups t) (t_group_members t) x (t_friends t).
Definition set_friends (x : gmap (string * string) FriendRow) (t : Tables) : Tables :=
  mkTables (t_users t) (t_messages t) (t_groups t) (t_group_members t) (t_unread t) x.

Definition set_ur_password_hash (h : string) (u : UserRow) : UserRow :=
  mkUserRow (ur_username u) h (ur_created_at u) (ur_role u) (ur_is_disabled u).
Definition set_ur_role (r : string) (u : UserRow) : UserRow :=
  mkUserRow (ur_username u) (ur_password_hash u) (ur_created_at u) r (ur_is_disabled u).
Definition set_ur_is_disabled (d : Z) (u : UserRow) : UserRow :=
  mkUserRow (ur_username u) (ur_password_hash u) (ur_created_at u) (ur_role u) d.
Definition set_mr_content (c : string) (recalled : Z) (m : MessageRow) : MessageRow :=
  mkMessageRow (mr_seq m) (mr_cmd m) (mr_from_uid m) (mr_to_uid m) (mr_chat_type m)
    (mr_msg_type m) c (mr_timestamp m) (mr_need_ack m) recalled.

#[export] Instance UserRow_eq_dec : EqDecision UserRow.
Proof. solve_decision. Defined.
#[export] Instance MessageRow_eq_dec : EqDecision MessageRow.
Proof. solve_decision. Defined.
#[export] Instance GroupRec_eq_dec : EqDecision GroupRec.
Proof. solve_decision. Defined.
#[export] Instance FriendRow_eq_dec : EqDecision FriendRow.
Proof. solve_decision. Defined.

(** ** Statements *)

(** Each constructor is one statement of the source with its arguments, in the
    order of its placeholders. *)
Inductive Stmt :=
| InsertUser (uid username password_hash : string) (created_at : Z)
| UpdateUserPassword (password_hash uid : string)
| DeleteUserRow (uid : string)
| UpdateRole (role uid : string)
| UpdateIsDisabled (is_disabled : Z) (uid : string)
| InsertIgnoreMessage (msg_id : Z) (row : MessageRow)
| UpdateRecalled (msg_id : Z) (from_uid : string) (cutoff : Z)
| UpdateContent (content : string) (msg_id : Z) (from_uid : string)
| DeleteMessageRow (msg_id : Z)
| InsertGroup (id name owner_uid : string) (created_at : Z)
| InsertMember (group_id uid : string) (joined_at : Z)
| DeleteMember (group_id uid : string)
| DeleteGroup (id : string)
| UpdateGroupName (name id : string)
| UpdateGroupOwner (owner_uid id : string)
| UpsertUnread (uid peer : string)
| DeleteUnread (uid peer : string)
| InsertFriend (uid friend_uid : string) (status created_at updated_at : Z)
| UpdateFriend (status updated_at : Z) (uid friend_uid : string) (old_status : Z)
| DeleteFriends (uid friend_uid : string) (status : Z).

(** Why a statement cannot be executed on given tables. *)
Inductive StmtFault := DuplicateKey | OutOfRange.

Definition recalledContent : string :=
  String "{" (String (ascii_of_nat 34) ("recalled" +:+ String (ascii_of_nat 34) ":true}")).

(** [INSERT]: a key that is present is an error. *)
Definition insertRow {K A} `{Countable K} (k : K) (a : A) (m : gmap K A) : StmtFault + (Z * gmap K A) :=
  match m !! k with
  | Some _ => inl DuplicateKey
  | None => inr (1, <[k := a]> m)
  end.

(** [UPDATE] of the row with a key, if it satisfies the condition; a row that is
    set to what it was is not counted as affected. *)
Definition updateRow {K A} `{Countable K} `{EqDecision A} (k : K) (cond : A -> bool) (f : A -> A)
  (m : gmap K A) : Z * gmap K A :=
  match m !! k with
  | Some a => if cond a && negb (bool_decide (f a = a)) then (1, <[k := f a]> m) else (0, m)
  | None => (0, m)
  end.

(** [DELETE] of the row with a key. *)
Definition deleteRow {K A} `{Countable K} (k : K) (m : gmap K A) : Z * gmap K A :=
  match m !! k with Some _ => (1, delete k m) | None => (0, m) end.

Definition affected {B A} (set : A -> Tables -> Tables) (t : Tables) (r : Z * A) : B + (Z * Tables) :=
  inr (r.1, set r.2 t).

Definition tried {A} (set : A -> Tables -> Tables) (t : Tables) (r : StmtFault + (Z * A))
  : StmtFault + (Z * Tables) :=
  match r with inl e => inl e | inr r => affected set t r end.

(** The rows affected and the tables after a statement. *)
Definition run_stmt (st : Stmt) (t : Tables) : StmtFault + (Z * Tables) :=
  match st with
  | InsertUser uid username h at_ =>
      tried set_users t (insertRow uid (mkUserRow username h at_ "user" 0) (t_users t))
  | UpdateUserPassword h uid =>
      affected set_users t (updateRow uid (fun _ => true) (set_ur_password_hash h) (t_users t))
  | DeleteUserRow uid => affected set_users t (deleteRow uid (t_users t))
  | UpdateRole role uid =>
      affected set_users t (updateRow uid (fun u => negb (bool_decide (ur_role u = role)))
        (set_ur_role role) (t_users t))
  | UpdateIsDisabled v uid =>
      affected set_users t (updateRow uid (fun u => negb (ur_is_disabled u =? v))
        (set_ur_is_disabled v) (t_users t))
  | InsertIgnoreMessage id row =>
      match insertRow id row (t_messages t) with
      | inl _ => inr (0, t)
      | inr r => affected set_messages t r
      end
  | UpdateRecalled id from cutoff =>
      affected set_messages t (updateRow id
        (fun m => bool_decide (mr_from_uid m = from) && (cutoff <=? mr_timestamp m))
        (set_mr_content recalledContent 1) (t_messages t))
  | UpdateContent c id from =>
      affected set_messages t (updateRow id (fun m => bool_decide (mr_from_uid m = from))
        (fun m => set_mr_content c (mr_recalled m) m) (t_messages t))
  | DeleteMessageRow id => affected set_messages t (deleteRow id (t_messages t))
  | InsertGroup id name owner at_ =>
      tried set_groups t (insertRow id (mkGroupRec name owner at_) (t_groups t))
  | InsertMember gid uid at_ =>
      tried set_group_members t (insertRow (gid, uid) at_ (t_group_members t))
  | DeleteMember gid uid => affected set_group_members t (deleteRow (gid, uid) (t_group_members t))
  | DeleteGroup id => affected set_groups t (deleteRow id (t_groups t))
  | UpdateGroupName name id =>
      affected set_groups t (updateRow id (fun _ => true)
        (fun g => mkGroupRec name (gt_owner_uid g) (gt_created_at g)) (t_groups t))
  | UpdateGroupOwner owner id =>
      affected set_groups t (updateRow id (fun _ => true)
        (fun g => mkGroupRec (gt_name g) owner (gt_created_at g)) (t_groups t))
  | UpsertUnread uid peer =>
      match t_unread t !! (uid, peer) with
      | None => inr (1, set_unread (<[(uid, peer) := 1]> (t_unread t)) t)
      | Some n =>
          if n <? 2 ^ 63 - 1 then inr (2, set_unread (<[(uid, peer) := n + 1]> (t_unread t)) t)
          else inl OutOfRange
      end
  | DeleteUnread uid peer => affected set_unread t (deleteRow (uid, peer) (t_unread t))
  | InsertFriend uid f st c u =>
      tried set_friends t (insertRow (uid, f) (mkFriendRow st c u) (t_friends t))
  | UpdateFriend st u uid f old =>
      affected set_friends t (updateRow (uid, f) (fun r => fr_status r =? old)
        (fun r => mkFriendRow st (fr_created_at r) u) (t_friends t))
  | DeleteFriends a b st =>
      let gone (p : (string * string) * FriendRow) :=
        (p.1 = (a, b) \/ p.1 = (b, a)) /\ fr_status p.2 = st in
      inr (Z.of_nat (size (filter gone (t_friends t))),
           set_friends (filter (fun p => ~ gone p) (t_friends t)) t)
  end.

(** ** Queries *)

(** A [SELECT]: the rows it matches, with the values it projects, and the
    [ORDER BY], [LIMIT] and [OFFSET] clauses.  The key orders ascending; a
    descending column is negated. *)
Record Select (A : Type) := mkSelect {
  sel_rows : Tables -> list A;
  sel_key : option (A -> Z);
  sel_limit : option nat;
  sel_offset : nat
}.
Arguments mkSelect {A}.
Arguments sel_rows {A}.
Arguments sel_key {A}.
Arguments sel_limit {A}.
Arguments sel_offset {A}.

Definition limited {A} (limit : option nat) (l : list A) : list A :=
  match limit with Some n => take n l | None => l end.

(** The answers MySQL may give: rows that compare equal come in any order. *)
Definition answers {A} (q : Select A) (t : Tables) (l : list A) : Prop :=
  exists full, full ≡ₚ sel_rows q t /\
    match sel_key q with
    | Some key => StronglySorted (fun a b => key a <= key b) full
    | None => True
    end /\ l = limited (sel_limit q) (drop (sel_offset q) full).

Definition selectAll {A} (rows : Tables -> list A) : Select A := mkSelect rows None None 0.

(** [SELECT COUNT]. *)
Definition selectCount (count : Tables -> nat) : Select Z :=
  selectAll (fun t => [Z.of_nat (count t)]).

(** ** The connection *)

Class Database (D : Type) := mkDatabase {
  Exec : Stmt -> D -> (string + Z) * D;
  Query : forall A : Type, Select A -> D -> (string + list A) * D;
  BeginTx : D -> option string * D;
  Commit : D -> option string * D;
  Rollback : D -> D;
  (** [MATCH(content) AGAINST(query IN BOOLEAN MODE)]. *)
  fulltext : string -> string -> bool
}.
Arguments Query {D _ A}.

(** [isMySQLDuplicate]. *)
Definition isMySQLDuplicate (msg : string) : bool :=
  Contains msg "Error 1062" || Contains msg "Duplicate entry".

(** [tables]: what a statement sees; [saved]: what a rollback restores. *)
Class DatabaseLaws (D : Type) `{Database D} := mkDatabaseLaws {
  tables : D -> Tables;
  saved : D -> Tables;
  Exec_law : forall st d,
    saved (Exec st d).2 = saved d /\
    match Exec st d with
    | (inr n, d') => run_stmt st (tables d) = inr (n, tables d')
    | (inl e, d') =>
        (tables d' = tables d \/ exists n, run_stmt st (tables d) = inr (n, tables d')) /\
        (isMySQLDuplicate e = true -> run_stmt st (tables d) = inl DuplicateKey)
    end;
  Query_law : forall A (q : Select A) d,
    tables (Query q d).2 = tables d /\ saved (Query q d).2 = saved d /\
    match (Query q d).1 with inr l => answers q (tables d) l | inl _ => True end;
  BeginTx_law : forall d,
    tables (BeginTx d).2 = tables d /\
    match BeginTx d with (None, d') => saved d' = tables d | _ => True end;
  Commit_law : forall d,
    match Commit d with
    | (None, d') => tables d' = tables d
    | (Some _, d') => tables d' = tables d \/ tables d' = saved d
    end;
  Rollback_law : forall d, tables (Rollback d) = saved d
}.

(** ** The client side *)

Section Client.
Context {D : Type} {DB : Database D}.

Definition onDb {A} (f : D -> A * D) : St (D * Sys) A :=
  fun '(d, s) => let (a, d') := f d in (a, (d', s)).

Definition exec (st : Stmt) : St (D * Sys) (string + Z) := onDb (Exec st).
Definition query {A} (q : Select A) : St (D * Sys) (string + list A) := onDb (Query q).

(** [QueryRowContext]: the first row, if there is one. *)
Definition queryRow {A} (q : Select A) : St (D * Sys) (string + option A) :=
  let! r := query q in
  ret (match r with inl e => inl e | inr l => inr (head l) end).

(** [Scan] into a variable; no row is an error. *)
Definition queryOne {A} (q : Select A) : St (D * Sys) (string + A) :=
  let! r := queryRow q in
  ret (match r with
       | inl e => inl e
       | inr None => inl "sql: no rows in result set"
       | inr (Some a) => inr a
       end).

(** [tx], [Rollback] deferred: the body runs in a transaction that commits if it
    succeeds.  [wrap] makes an error of the text of another. *)
Definition withTx {Err A} (wrap : string -> Err) (body : St (D * Sys) (Err + A))
  (commitText : string) : St (D * Sys) (Err + A) :=
  let! b := onDb BeginTx in
  match b with
  | Some e => ret (inl (wrap ("begin tx: " +:+ e)))
  | None =>
      let! r := body in
      match r with
      | inl e => onDb (fun d => (tt, Rollback d)) ;;! ret (inl e)
      | inr a =>
          let! c := onDb Commit in
          match c with
          | Some e => ret (inl (wrap (commitText +:+ e)))
          | None => ret (inr a)
          end
      end
  end.

End Client.

(** * Reasoning about statements and transactions

    Triples for the operations of [Sql]: what a statement, a query and a
    transaction leave in the tables, whether they succeed or not. *)

Section Facts.
Context {E : Env} {D : Type} {DB : Database D} {DL : DatabaseLaws D}.

Abbreviation Op := (St (D * Sys)).

(** What is seen and what a rollback would restore. *)
Definition at_ (t t0 : Tables) (p : D * Sys) : Prop := tables p.1 = t /\ saved p.1 = t0.

(** A failed statement: the reply or the statement was lost. *)
Definition maybe (st : Stmt) (t t' : Tables) : Prop :=
  t' = t \/ exists n, run_stmt st t = inr (n, t').

Lemma exec_triple st t t0 :
  triple (at_ t t0) (exec st) (fun r p => saved p.1 = t0 /\
    match r with
    | inr n => run_stmt st t = inr (n, tables p.1)
    | inl e => maybe st t (tables p.1) /\
        (isMySQLDuplicate e = true -> run_stmt st t = inl DuplicateKey)
    end).
Proof.
  intros [d s] [Ht Hs]. unfold exec, onDb. destruct (Exec_law st d) as [H0 H1].
  destruct (Exec st d) as [r d']. cbn [fst snd] in *. rewrite H0. split; [done|].
  subst t. by destruct r.
Qed.

Lemma query_triple {A} (q : Select A) t t0 :
  triple (at_ t t0) (query q) (fun r p => at_ t t0 p /\
    match r with inr l => answers q t l | inl _ => True end).
Proof.
  intros [d s] [Ht Hs]. unfold query, onDb. destruct (Query_law A q d) as (H0 & H1 & H2).
  destruct (Query q d) as [r d']. cbn [fst snd] in *. subst t t0. split; [by split|].
  by destruct r.
Qed.

Lemma answers_all {A} (rows : Tables -> list A) t l : answers (selectAll rows) t l -> l ≡ₚ rows t.
Proof. by intros (full & Hf & _ & ->). Qed.

(** A page of a query: the first rows in its order, and no row left out comes
    strictly before one of them. *)
Lemma answers_page {A} (rows : Tables -> list A) key n t l :
  answers (mkSelect rows (Some key) (Some n) 0) t l ->
  StronglySorted (fun a b => key a <= key b) l /\
  length l = Nat.min n (length (rows t)) /\
  exists rest, l ++ rest ≡ₚ rows t /\ (forall a b, a ∈ l -> b ∈ rest -> key a <= key b).
Proof.
  intros (full & Hf & Hs & ->). cbn in *. rewrite drop_0.
  rewrite <- (take_drop n full) in Hs. apply StronglySorted_app in Hs as (H1 & H2 & H3).
  split_and!; [done| |].
  - by rewrite length_take, <- (Permutation_length Hf).
  - exists (drop n full). rewrite take_drop. split; [done|]. intros a b Ha Hb. by apply H1.
Qed.

Lemma queryRow_triple {A} (q : Select A) t t0 :
  triple (at_ t t0) (queryRow q) (fun r p => at_ t t0 p /\
    match r with inr o => exists l, answers q t l /\ o = head l | inl _ => True end).
Proof.
  unfold queryRow. eapply triple_bind; [apply query_triple|]. intros [e|l] p [Hp Hl]; split; try done.
  by exists l.
Qed.

Lemma count_triple c t t0 :
  triple (at_ t t0) (queryOne (selectCount c)) (fun r p => at_ t t0 p /\
    match r with inr n => n = Z.of_nat (c t) | inl _ => True end).
Proof.
  unfold queryOne. eapply triple_bind; [apply queryRow_triple|].
  intros [e|o] p [Hp Ho]; [by split|]. split; [done|]. destruct Ho as (l & Hl & ->).
  apply answers_all in Hl. symmetry in Hl. apply Permutation_singleton_l in Hl. subst l. done.
Qed.

Lemma NowMilli_triple t t0 : triple (at_ t t0) NowMilli (fun _ => at_ t t0).
Proof. by intros [d s] H. Qed.

(** ** Continuations *)

Lemma triple_seq {A B} (P : D * Sys -> Prop) (m : Op A) (k : A -> Op B) Q R :
  triple P m Q -> (forall a p, Q a p -> R (k a p).1 (k a p).2) -> triple P (bind m k) R.
Proof. intros Hm Hk. eapply triple_bind; [exact Hm|]. intros a p Hp. by apply Hk. Qed.

Lemma exec_bind {A} st (k : string + Z -> Op A) t t0 Q :
  (forall e t', maybe st t t' -> (isMySQLDuplicate e = true -> run_stmt st t = inl DuplicateKey) ->
     triple (at_ t' t0) (k (inl e)) Q) ->
  (forall n t', run_stmt st t = inr (n, t') -> triple (at_ t' t0) (k (inr n)) Q) ->
  triple (at_ t t0) (bind (exec st) k) Q.
Proof.
  intros He Hn. eapply triple_seq; [apply exec_triple|]. intros [e|n] p [Hs Hp].
  - destruct Hp as [Hm Hd]. by apply (He e _ Hm Hd).
  - by apply (Hn n _ Hp).
Qed.

Lemma query_bind {A B} (q : Select A) (k : string + list A -> Op B) t t0 Q :
  (forall e, triple (at_ t t0) (k (inl e)) Q) ->
  (forall l, answers q t l -> triple (at_ t t0) (k (inr l)) Q) ->
  triple (at_ t t0) (bind (query q) k) Q.
Proof.
  intros He Hl. eapply triple_seq; [apply query_triple|]. intros [e|l] p [Hp Ha]; [by apply He|].
  by apply (Hl l Ha).
Qed.

Lemma queryRow_bind {A B} (q : Select A) (k : string + option A -> Op B) t t0 Q :
  (forall e, triple (at_ t t0) (k (inl e)) Q) ->
  (forall l, answers q t l -> triple (at_ t t0) (k (inr (head l))) Q) ->
  triple (at_ t t0) (bind (queryRow q) k) Q.
Proof.
  intros He Hl. eapply triple_seq; [apply queryRow_triple|].
  intros [e|o] p [Hp Ha]; [by apply He|]. destruct Ha as (l & Ha & ->). by apply (Hl l Ha).
Qed.

Lemma count_bind {A} c (k : string + Z -> Op A) t t0 Q :
  (forall e, triple (at_ t t0) (k (inl e)) Q) ->
  triple (at_ t t0) (k (inr (Z.of_nat (c t)))) Q ->
  triple (at_ t t0) (bind (queryOne (selectCount c)) k) Q.
Proof.
  intros He Hn. eapply triple_seq; [apply count_triple|].
  intros [e|n] p [Hp Ha]; [by apply He|]. subst n. by apply Hn.
Qed.

Lemma NowMilli_bind {A} (k : Z -> Op A) t t0 Q :
  (forall now, triple (at_ t t0) (k now) Q) -> triple (at_ t t0) (bind NowMilli k) Q.
Proof. intros Hk. eapply triple_bind; [apply NowMilli_triple|exact Hk]. Qed.

Lemma ret_at {A} (a : A) t t0 (Q : A -> D * Sys -> Prop) :
  (forall p, at_ t t0 p -> Q a p) -> triple (at_ t t0) (ret a) Q.
Proof. intros H p Hp. by apply H. Qed.

Lemma ret_tables {A} (a : A) t t0 (Q : A -> Tables -> Prop) :
  Q a t -> triple (at_ t t0) (ret a) (fun r p => Q r (tables p.1)).
Proof. intros H p [Ht _]. cbn. by rewrite Ht. Qed.

Lemma triple_pure {A} (P : D * Sys -> Prop) (X : Prop) (m : Op A) Q :
  (X -> triple P m Q) -> triple (fun p => P p /\ X) m Q.
Proof. intros H p [Hp Hx]. by apply (H Hx). Qed.

(** A transaction: if its body establishes [R] on success and only fails for
    reasons [F], it has the effect of the body or none, and none when it fails
    for the body's reason. *)
Lemma withTx_triple {Err A} (wrap : string -> Err) (body : Op (Err + A)) text t
  (R : A -> Tables -> Prop) (F : Err -> Prop) t0 :
  triple (at_ t t) body (fun r p => saved p.1 = t /\
    match r with inr a => R a (tables p.1) | inl e => F e end) ->
  triple (at_ t t0) (withTx wrap body text) (fun r p =>
    match r with
    | inr a => R a (tables p.1)
    | inl e => (F e /\ tables p.1 = t) \/
        (exists txt, e = wrap txt) /\ (tables p.1 = t \/ exists a, R a (tables p.1))
    end).
Proof.
  intros Hb [d s] [Ht _]. cbn [fst] in Ht. subst t. unfold withTx, onDb.
  pose proof (BeginTx_law d) as [H1 H2]. rewrite bind_run.
  destruct (BeginTx d) as [[e|] d1]; cbn [fst snd] in *.
  - right. split; [by eexists|by left].
  - rewrite bind_run. specialize (Hb (d1, s) (conj H1 H2)).
    destruct (body (d1, s)) as [[e|a] [d2 s2]]; cbn [fst snd] in *; destruct Hb as [Hs HR].
    + left. split; [done|]. cbn. by rewrite Rollback_law, Hs.
    + rewrite bind_run. pose proof (Commit_law d2) as Hc.
      destruct (Commit d2) as [[e|] d3]; cbn [fst snd] in *.
      * right. split; [by eexists|]. cbn [ret fst snd].
        destruct Hc as [Hc|Hc]; rewrite Hc; [right; by exists a|by left].
      * cbn [ret fst snd]. by rewrite Hc.
Qed.

(** ** Rows *)

Lemma insertRow_None {K A} `{Countable K} (k : K) (a : A) m :
  m !! k = None -> insertRow k a m = inr (1, <[k := a]> m).
Proof. unfold insertRow. by intros ->. Qed.

Lemma insertRow_inr {K A} `{Countable K} (k : K) (a : A) m r :
  insertRow k a m = inr r -> m !! k = None /\ r = (1, <[k := a]> m).
Proof. unfold insertRow. destruct (m !! k); [done|]. by intros [= <-]. Qed.

End Facts.

(** ** A database of tables and faults *)

(** How the next statement or transaction goes. *)
Inductive Outcome := Reached | Refused | Unacknowledged.

Record TableDB := mkTableDB { td_tables : Tables; td_saved : Tables; td_outcomes : list Outcome }.

Definition nextOutcome (d : TableDB) : Outcome * TableDB :=
  (default Reached (head (td_outcomes d)), mkTableDB (td_tables d) (td_saved d) (tail (td_outcomes d))).

Definition set_td (t : Tables) (d : TableDB) : TableDB := mkTableDB t (td_saved d) (td_outcomes d).

Definition faultText (e : StmtFault) : string :=
  match e with
  | DuplicateKey => "Error 1062 (23000): Duplicate entry"
  | OutOfRange => "Error 1690 (22003): BIGINT value is out of range"
  end.

Definition execTables (st : Stmt) (d : TableDB) : (string + Z) * TableDB :=
  let (o, d) := nextOutcome d in
  match o, run_stmt st (td_tables d) with
  | Refused, _ => (inl "invalid connection", d)
  | _, inl e => (inl (faultText e), d)
  | Reached, inr (n, t) => (inr n, set_td t d)
  | Unacknowledged, inr (_, t) => (inl "invalid connection", set_td t d)
  end.

Definition keyLe {A} (key : A -> Z) (a b : A) : Prop := key a <= key b.

#[export] Instance keyLe_dec {A} (key : A -> Z) a b : Decision (keyLe key a b).
Proof. unfold keyLe. apply _. Defined.

#[export] Instance keyLe_trans {A} (key : A -> Z) : Transitive (keyLe key).
Proof. intros a b c. unfold keyLe. lia. Qed.

#[export] Instance keyLe_total {A} (key : A -> Z) : Total (keyLe key).
Proof. intros a b. unfold keyLe. lia. Qed.

Definition sortBy {A} (key : option (A -> Z)) (l : list A) : list A :=
  match key with
  | Some key => merge_sort (keyLe key) l
  | None => l
  end.

Definition queryTables {A} (q : Select A) (d : TableDB) : (string + list A) * TableDB :=
  let (o, d) := nextOutcome d in
  match o with
  | Reached => (inr (limited (sel_limit q) (drop (sel_offset q) (sortBy (sel_key q)
      (sel_rows q (td_tables d))))), d)
  | _ => (inl "invalid connection", d)
  end.

Definition beginTables (d : TableDB) : option string * TableDB :=
  let (o, d) := nextOutcome d in
  match o with
  | Reached => (None, mkTableDB (td_tables d) (td_tables d) (td_outcomes d))
  | _ => (Some "invalid connection", d)
  end.

Definition commitTables (d : TableDB) : option string * TableDB :=
  let (o, d) := nextOutcome d in
  match o with
  | Reached => (None, d)
  | Refused => (Some "invalid connection", set_td (td_saved d) d)
  | Unacknowledged => (Some "invalid connection", d)
  end.

(** Words are matched as substrings. *)
#[export] Instance TableDB_Database : Database TableDB :=
  mkDatabase TableDB execTables (@queryTables) beginTables commitTables
    (fun d => set_td (td_saved d) d) (fun q c => Contains c q).

#[export] Instance TableDB_Laws : DatabaseLaws TableDB.
Proof.
  refine (mkDatabaseLaws TableDB _ td_tables td_saved _ _ _ _ _).
  - intros st d. cbn [Exec TableDB_Database]. unfold execTables, nextOutcome.
    destruct (default Reached (head (td_outcomes d)));
      cbn [td_tables]; destruct (run_stmt st (td_tables d)) as [[]|[n t]] eqn:Hr; cbn;
      split_and?; try done; try (by left); try (by right; eexists).
  - intros A q d. cbn [Query TableDB_Database]. unfold queryTables, nextOutcome.
    destruct (default Reached (head (td_outcomes d))); cbn; split_and?; try done.
    exists (sortBy (sel_key q) (sel_rows q (td_tables d))). split_and!; [|  |done].
    + unfold sortBy. destruct (sel_key q); [|done]. apply merge_sort_Permutation.
    + unfold sortBy. destruct (sel_key q) as [key|]; [|done].
      apply (StronglySorted_merge_sort (keyLe key)).
  - intros d. cbn. unfold beginTables, nextOutcome.
    by destruct (default Reached (head (td_outcomes d))).
  - intros d. cbn. unfold commitTables, nextOutcome.
    destruct (default Reached (head (td_outcomes d))); cbn; auto.
  - done.
Defined.
