(* ===== verification/Client.v ===== *)
(** * A connection's outbound side (src/internal/gateway/client.go)

    [Client] with its buffered channels, [NewClient], [Send], [Close],
    [SendPing], [SetHeartbeat] and the write loop as a step relation.  The
    theorem: what the transport is given is, in order and without loss or
    duplication, what [Send] accepted. *)

From S2P Require Import Prelude Proto Snowflake Process.

Inductive SendErr := ErrMarshal | ErrClientClosed | ErrSendBufferFull.

#[export] Instance SendErr_eq_dec : EqDecision SendErr.
Proof. solve_decision. Defined.

(** A channel is the list of what it buffers; the [closed] channel is a flag;
    [pinged] is the one slot of the [ping] channel. *)
Record Client := mkClient {
  UID : string;
  Username : string;
  sendCap : nat;
  sendBuf : list bytes;
  pinged : bool;
  closed : bool;
  transportClosed : bool;
  lastHeartbeat : Z
}.

Definition set_sendBuf (b : list bytes) (c : Client) : Client :=
  mkClient (UID c) (Username c) (sendCap c) b (pinged c) (closed c) (transportClosed c) (lastHeartbeat c).
Definition set_pinged (b : bool) (c : Client) : Client :=
  mkClient (UID c) (Username c) (sendCap c) (sendBuf c) b (closed c) (transportClosed c) (lastHeartbeat c).

Definition NewClient (uid username : string) (sendBufSize : nat) (now : Z) : Client :=
  mkClient uid username sendBufSize [] false false false now.

Definition SetHeartbeat (t : Z) (c : Client) : Client :=
  mkClient (UID c) (Username c) (sendCap c) (sendBuf c) (pinged c) (closed c) (transportClosed c) t.

(** [closeOnce.Do(...)]: the second call finds the flags set. *)
Definition Close (c : Client) : Client :=
  if closed c then c
  else mkClient (UID c) (Username c) (sendCap c) (sendBuf c) (pinged c) true true (lastHeartbeat c).

Definition SendPing (c : Client) : Client := set_pinged true c.

Definition hasRoom (c : Client) : bool := (length (sendBuf c) <? sendCap c)%nat.

(** The [select] of [Send]: on a closed client whose buffer has room both
    cases are ready, and either may be taken. *)
Definition Send `{Env, Codec} (m : Message) : St (Client * Sys) (option SendErr) :=
  match marshal m with
  | None => ret (Some ErrMarshal)
  | Some data =>
      let! c := getX in
      let enqueue := putX (set_sendBuf (sendBuf c ++ [data]) c) ;;! ret None in
      if closed c then
        if hasRoom c then
          let! first := Pick in
          if first then ret (Some ErrClientClosed) else enqueue
        else ret (Some ErrClientClosed)
      else if hasRoom c then enqueue
      else ret (Some ErrSendBufferFull)
  end.

(** ** The write loop

    [writes] is what [transport.Write] was given successfully, [lost] what it
    failed on; the loop runs until [running] is false. *)

Record Writer := mkWriter {
  client : Client;
  running : bool;
  writes : list bytes;
  lost : list bytes
}.

Inductive WriteLoop_step : Writer -> Writer -> Prop :=
| WL_closed c ws l : closed c = true ->
    WriteLoop_step (mkWriter c true ws l) (mkWriter c false ws l)
| WL_data c ws l d rest : sendBuf c = d :: rest ->
    WriteLoop_step (mkWriter c true ws l)
      (mkWriter (set_sendBuf rest c) true (ws ++ [d]) l)
| WL_data_error c ws l d rest : sendBuf c = d :: rest ->
    WriteLoop_step (mkWriter c true ws l)
      (mkWriter (set_sendBuf rest c) false ws (l ++ [d]))
| WL_ping c ws l : pinged c = true ->
    WriteLoop_step (mkWriter c true ws l) (mkWriter (set_pinged false c) true ws l)
| WL_ping_error c ws l : pinged c = true ->
    WriteLoop_step (mkWriter c true ws l) (mkWriter (set_pinged false c) false ws l).

(** Everything that can happen to a connection, with the bytes [Send] has
    accepted so far. *)
Inductive conn_reach `{E : Env, Codec} (c0 : Client) : Writer -> list bytes -> Prop :=
| reach_start : conn_reach c0 (mkWriter c0 true [] []) []
| reach_write w w' acc : conn_reach c0 w acc -> WriteLoop_step w w' -> conn_reach c0 w' acc
| reach_send_ok w acc m s c' s' d : conn_reach c0 w acc ->
    Send m (client w, s) = (None, (c', s')) -> marshal m = Some d ->
    conn_reach c0 (mkWriter c' (running w) (writes w) (lost w)) (acc ++ [d])
| reach_send_err w acc m s c' s' e : conn_reach c0 w acc ->
    Send m (client w, s) = (Some e, (c', s')) ->
    conn_reach c0 (mkWriter c' (running w) (writes w) (lost w)) acc
| reach_close w acc : conn_reach c0 w acc ->
    conn_reach c0 (mkWriter (Close (client w)) (running w) (writes w) (lost w)) acc
| reach_ping w acc : conn_reach c0 w acc ->
    conn_reach c0 (mkWriter (SendPing (client w)) (running w) (writes w) (lost w)) acc
| reach_heartbeat w acc t : conn_reach c0 w acc ->
    conn_reach c0 (mkWriter (SetHeartbeat t (client w)) (running w) (writes w) (lost w)) acc.

Section Facts.
Context {E : Env} {CD : Codec}.

(** ** One Send *)

(** Every way a [Send] can end. *)
Inductive Send_result (m : Message) (c : Client) : option SendErr -> Client -> Prop :=
| Send_marshal : marshal m = None -> Send_result m c (Some ErrMarshal) c
| Send_closed : closed c = true -> Send_result m c (Some ErrClientClosed) c
| Send_full : closed c = false -> (sendCap c <= length (sendBuf c))%nat ->
    Send_result m c (Some ErrSendBufferFull) c
| Send_ok d : marshal m = Some d -> (length (sendBuf c) < sendCap c)%nat ->
    Send_result m c None (set_sendBuf (sendBuf c ++ [d]) c).

Lemma Send_spec m c s :
  let '(r, (c', s')) := Send m (c, s) in
  Send_result m c r c' /\ sys_snow s' = sys_snow s /\ (sys_tick s <= sys_tick s')%nat.
Proof.
  unfold Send. destruct (marshal m) as [d|] eqn:Hm; simpl; [|by repeat constructor].
  unfold bind, getX, gets; simpl. unfold hasRoom.
  destruct (closed c) eqn:Hc;
    destruct (Nat.ltb_spec (length (sendBuf c)) (sendCap c)); simpl.
  - destruct (choose E (sys_tick s)); simpl;
      (split; [by first [apply Send_closed|apply Send_ok]|split; [done|lia]]).
  - split; [by apply Send_closed|done].
  - split; [by apply Send_ok|done].
  - split; [by apply Send_full|done].
Qed.

Lemma Send_inv m c s r c' s' :
  Send m (c, s) = (r, (c', s')) ->
  Send_result m c r c' /\ sys_snow s' = sys_snow s /\ (sys_tick s <= sys_tick s')%nat.
Proof. intros H. pose proof (Send_spec m c s) as Hs. by rewrite H in Hs. Qed.

(** The parts of a client no [Send] changes. *)
Lemma Send_result_frame m c r c' :
  Send_result m c r c' ->
  UID c' = UID c /\ sendCap c' = sendCap c /\ closed c' = closed c.
Proof. by intros []. Qed.

Lemma Send_result_bound m c r c' :
  Send_result m c r c' -> (length (sendBuf c) <= sendCap c)%nat ->
  (length (sendBuf c') <= sendCap c')%nat.
Proof. intros []; simpl; rewrite ?length_app; simpl; lia. Qed.

(** ** The write loop *)

Lemma conn_reach_inv c0 w acc :
  sendBuf c0 = [] -> conn_reach c0 w acc ->
  acc = writes w ++ lost w ++ sendBuf (client w) /\
  (length (lost w) <= 1)%nat /\ (running w = true -> lost w = []) /\
  sendCap (client w) = sendCap c0 /\
  (length (sendBuf (client w)) <= sendCap c0)%nat.
Proof.
  intros H0. induction 1 as [|w w' acc Hr IH Hs|w acc m s c' s' d Hr IH Hs Hd
    |w acc m s c' s' e Hr IH Hs|w acc Hr IH|w acc Hr IH|w acc t Hr IH]; simpl in *.
  - rewrite H0. simpl. repeat split; auto; lia.
  - destruct IH as (Ha & Hl & Hrun & Hcap & Hb).
    destruct Hs as [c ws l _|c ws l d rest Hd|c ws l d rest Hd|c ws l _|c ws l _];
      simpl in *; try rewrite Hd in *; rewrite ?Hrun in * by done; simpl in *;
      repeat split; auto; try lia; subst; by rewrite <- ?app_assoc.
  - apply Send_inv in Hs as [Hs _]. inversion Hs as [| | |d' Hd' Hlen]; subst.
    rewrite Hd in Hd'. simplify_eq. simpl.
    destruct IH as (-> & Hl & Hrun & Hcap & Hb). rewrite length_app. simpl.
    repeat split; auto; [|lia]. by rewrite <- !app_assoc.
  - apply Send_inv in Hs as [Hs _]. by inversion Hs; subst.
  - unfold Close. by destruct (closed (client w)).
  - done.
  - done.
Qed.

(** Whatever interleaving of sends, closes, pings, heartbeats and write
    loop steps a connection goes through, the bytes accepted by [Send] are
    exactly those handed to the transport followed by at most one frame a
    failed write lost and the frames still buffered, in that order; and the
    buffer never exceeds its capacity. *)
Theorem client_delivers_in_order uid name cap now w acc
  (Hreach : conn_reach (NewClient uid name cap now) w acc) :
  acc = writes w ++ lost w ++ sendBuf (client w) /\
  (length (lost w) <= 1)%nat /\ (running w = true -> lost w = []) /\
  (length (sendBuf (client w)) <= cap)%nat.
Proof.
  destruct (conn_reach_inv (NewClient uid name cap now) w acc eq_refl Hreach) as (Ha & Hl & Hr & Hc & Hb).
  simpl in *. auto.
Qed.

End Facts.

Lemma client_delivers_in_order_witness :
  let c := NewClient "bob" "Bob" 2 0 in
  exists d w, marshal (Codec := demoCodec) zeroMessage = Some d /\
    [d] = writes w ++ lost w ++ sendBuf (client w).
Proof.
  set (c := NewClient "bob" "Bob" 2 0).
  destruct (marshal (Codec := demoCodec) zeroMessage) as [d|] eqn:Hd; [|discriminate Hd].
  exists d, (mkWriter (set_sendBuf [] c) true [d] []). split; [done|].
  apply (client_delivers_in_order (E := steadyEnv) (CD := demoCodec) "bob" "Bob" 2 0
    (mkWriter (set_sendBuf [] c) true [d] []) [d]).
  eapply (reach_write _ (mkWriter (set_sendBuf [d] c) true [] [])).
  - eapply (reach_send_ok (E := steadyEnv) c (mkWriter c true [] []) [] zeroMessage
      (mkSys 0 (mkGenerator 0 0 0)));
      [apply reach_start|unfold Send; rewrite Hd; reflexivity|exact Hd].
  - by apply (WL_data (set_sendBuf [d] c) [] [] d []).
Defined.
