(* ===== verification/Hub.v ===== *)
(** * The connection hub (src/internal/gateway/hub.go, interfaces.go)

    The hub's two lock domains are two states: [Conn], the UID-to-client map
    with the clients it points to, and [Offline], the per-user offline queues.
    [Register] is split where it releases the lock, so that registrations
    interleave; the interface [OfflineStore] with its laws is what the router
    is written against. *)

From S2P Require Import Prelude Proto Snowflake Process Client.

(** ** Clients and the heap they live in *)

(** A [*Client]: its address and its immutable UID. *)
Record Handle := mkHandle { h_id : nat; h_uid : string }.

#[export] Instance Handle_eq_dec : EqDecision Handle.
Proof. solve_decision. Defined.

Record Conn := mkConn {
  clients : gmap string Handle;
  maxConnections : Z;
  heap : gmap nat Client
}.

Definition set_clients (m : gmap string Handle) (c : Conn) : Conn :=
  mkConn m (maxConnections c) (heap c).
Definition set_heap (h : gmap nat Client) (c : Conn) : Conn :=
  mkConn (clients c) (maxConnections c) h.

Definition NewConn : Conn := mkConn ∅ 0 ∅.

Definition SetMaxConnections (max : Z) : St (Conn * Sys) unit :=
  modify (fun '(c, s) => (mkConn (clients c) max (heap c), s)).

(** A method call on the client a handle points to.  Handles come from
    [NewClient] only, so the heap has them; [dflt] is never used. *)
Definition onClient {A} (h : Handle) (dflt : A) (m : St (Client * Sys) A)
  : St (Conn * Sys) A :=
  fun '(c, s) =>
    match heap c !! h_id h with
    | None => (dflt, (c, s))
    | Some cl =>
        let '(a, (cl', s')) := m (cl, s) in
        (a, (set_heap (<[h_id h := cl']> (heap c)) c, s'))
    end.

Definition SendTo `{Env, Codec} (h : Handle) (m : Message) : St (Conn * Sys) (option SendErr) :=
  onClient h (Some ErrClientClosed) (Send m).

Definition CloseClient (h : Handle) : St (Conn * Sys) unit :=
  onClient h tt (modify (fun '(cl, s) => (Close cl, s))).

(** ** Registration *)

Definition errServerFull : string := "server at capacity, please try later".

Definition kickMessage (content : string) : Message :=
  newMessage CmdKick 0 "" "" content 0 0.

(** What [Register] decided while it held the lock. *)
Inductive RegOutcome := Rejected | Added | Replaced (old : Handle).

Definition RegisterLocked (c : Handle) : St (Conn * Sys) RegOutcome :=
  fun '(cn, s) =>
    match clients cn !! h_uid c with
    | None =>
        if (0 <? maxConnections cn) && (maxConnections cn <=? Z.of_nat (size (clients cn)))
        then (Rejected, (cn, s))
        else (Added, (set_clients (<[h_uid c := c]> (clients cn)) cn, s))
    | Some old => (Replaced old, (set_clients (<[h_uid c := c]> (clients cn)) cn, s))
    end.

(** Notify and close, outside the lock. *)
Definition KickAndClose `{Env, Codec} (h : Handle) (content : string) : St (Conn * Sys) unit :=
  SendTo h (kickMessage content) ;;! CloseClient h.

(** The connection [Register] kicks after releasing the lock, with the text. *)
Definition toKick (c : Handle) (o : RegOutcome) : option (Handle * string) :=
  match o with
  | Rejected => Some (c, errServerFull)
  | Added => None
  | Replaced old => Some (old, "logged in from another device"%string)
  end.

Definition Register `{Env, Codec} (c : Handle) : St (Conn * Sys) unit :=
  let! o := RegisterLocked c in
  match toKick c o with
  | None => ret tt
  | Some (h, content) => KickAndClose h content
  end.

Definition Unregister (c : Handle) : St (Conn * Sys) unit :=
  modify (fun '(cn, s) =>
    match clients cn !! h_uid c with
    | Some existing =>
        if decide (existing = c)
        then (set_clients (delete (h_uid c) (clients cn)) cn, s) else (cn, s)
    | None => (cn, s)
    end).

Definition Get (uid : string) : St (Conn * Sys) (option Handle) :=
  gets (fun '(cn, _) => clients cn !! uid).
Definition IsOnline (uid : string) : St (Conn * Sys) bool :=
  gets (fun '(cn, _) => bool_decide (is_Some (clients cn !! uid))).
Definition OnlineUsers `{Env} : St (Conn * Sys) (list string) :=
  let! keys := gets (fun '(cn, _) => elements (dom (clients cn))) in RangeKeys keys.
Definition Count : St (Conn * Sys) Z :=
  gets (fun '(cn, _) => Z.of_nat (size (clients cn))).

(** ** Offline queues *)

(** The interface of interfaces.go, over the store's own state [O]. *)
Class OfflineStore (O : Type) := mkOfflineStore {
  StoreOffline : string -> Message -> St (O * Sys) unit;
  DrainOffline : string -> St (O * Sys) (list Message)
}.

(** The last [n] elements of a queue. *)
Definition lastn {A} (n : nat) (l : list A) : list A := drop (length l - n) l.

(** Its contract: per user a FIFO queue of bounded length that drops its
    oldest entries and that a drain empties. *)
Class OfflineLaws (E : Env) (O : Type) `{OfflineStore O} := mkOfflineLaws {
  off_ok : O -> Prop;
  off_limit : O -> nat;
  off_queue : O -> string -> list Message;
  store_law : forall uid m o s, off_ok o ->
    let o' := (StoreOffline uid m (o, s)).2.1 in
    off_ok o' /\ off_limit o' = off_limit o /\
    off_queue o' uid = lastn (off_limit o) (off_queue o uid ++ [m]) /\
    (forall u, u <> uid -> off_queue o' u = off_queue o u);
  drain_law : forall uid o s, off_ok o ->
    let r := DrainOffline uid (o, s) in
    off_ok r.2.1 /\ off_limit r.2.1 = off_limit o /\ r.1 = off_queue o uid /\
    off_queue r.2.1 uid = [] /\
    (forall u, u <> uid -> off_queue r.2.1 u = off_queue o u);
  store_sys : forall uid m o s, sys_wf E s -> sys_wf E (StoreOffline uid m (o, s)).2.2;
  drain_sys : forall uid o s, sys_wf E s -> sys_wf E (DrainOffline uid (o, s)).2.2
}.

(** What any offline store promises, an unreliable one too: its invariant stays,
    and its bound is what it was. *)
Class OfflineSafe (E : Env) (O : Type) `{OfflineStore O} := mkOfflineSafe {
  safe_ok : O -> Prop;
  safe_limit : O -> nat;
  store_safe : forall uid m o s, safe_ok o ->
    let o' := (StoreOffline uid m (o, s)).2.1 in safe_ok o' /\ safe_limit o' = safe_limit o;
  drain_safe : forall uid o s, safe_ok o ->
    let o' := (DrainOffline uid (o, s)).2.1 in safe_ok o' /\ safe_limit o' = safe_limit o;
  store_safe_sys : forall uid m o s, sys_wf E s -> sys_wf E (StoreOffline uid m (o, s)).2.2;
  drain_safe_sys : forall uid o s, sys_wf E s -> sys_wf E (DrainOffline uid (o, s)).2.2
}.

#[export] Instance offline_laws_safe (E : Env) (O : Type) {OS : OfflineStore O} {OL : OfflineLaws E O} :
  OfflineSafe E O.
Proof.
  refine (mkOfflineSafe E O _ off_ok off_limit _ _ store_sys drain_sys).
  - intros uid m o s Ho o'. by destruct (store_law uid m o s Ho) as (H1 & H2 & _).
  - intros uid o s Ho o'. by destruct (drain_law uid o s Ho) as (H1 & H2 & _).
Defined.

Record Offline := mkOffline {
  offline : gmap string (list Message);
  offlineMaxSize : Z
}.

Definition NewOffline (max : Z) : Offline := mkOffline ∅ max.

Definition HubStoreOffline (uid : string) (m : Message) : St (Offline * Sys) unit :=
  modify (fun '(o, s) =>
    let q := default [] (offline o !! uid) ++ [m] in
    let q :=
      if Z.of_nat (length q) >? offlineMaxSize o
      then drop (Z.to_nat (Z.of_nat (length q) - offlineMaxSize o)) q else q in
    (mkOffline (<[uid := q]> (offline o)) (offlineMaxSize o), s)).

Definition HubDrainOffline (uid : string) : St (Offline * Sys) (list Message) :=
  fun '(o, s) =>
    (default [] (offline o !! uid),
     (mkOffline (delete uid (offline o)) (offlineMaxSize o), s)).

#[export] Instance Hub_OfflineStore : OfflineStore Offline :=
  mkOfflineStore Offline HubStoreOffline HubDrainOffline.

(** ** Facts about queues *)

Lemma lastn_all {A} n (l : list A) : (length l <= n)%nat -> lastn n l = l.
Proof. intros H. unfold lastn. by replace (length l - n)%nat with 0%nat by lia. Qed.

Lemma length_lastn {A} n (l : list A) : (length (lastn n l) <= n)%nat.
Proof. unfold lastn. rewrite length_drop. lia. Qed.

Lemma lastn_lastn_app {A} n (l k : list A) :
  lastn n (lastn n l ++ k) = lastn n (l ++ k).
Proof.
  unfold lastn. rewrite !length_app, length_drop.
  destruct (decide (length l <= n)%nat).
  - replace (length l - n)%nat with 0%nat by lia. by rewrite Nat.sub_0_r.
  - set (d := (length l - n)%nat).
    replace (length l + length k - n)%nat with (d + (length l - d + length k - n))%nat by lia.
    rewrite <- drop_drop. by rewrite (drop_app_le l k d) by lia.
Qed.

Section OfflineHistory.
Context {E : Env} {O : Type} {OS : OfflineStore O} {OL : OfflineLaws E O}.

(** A history of calls by any users, and what it stores for [uid] since the
    last drain. *)
Inductive OfflineOp := OpStore (uid : string) (m : Message) | OpDrain (uid : string).

Definition offline_run1 (op : OfflineOp) : St (O * Sys) unit :=
  match op with
  | OpStore uid m => StoreOffline uid m
  | OpDrain uid => DrainOffline uid ;;! ret tt
  end.

Definition since_drain (uid : string) (acc : list Message) (op : OfflineOp) : list Message :=
  match op with
  | OpStore u m => if decide (u = uid) then acc ++ [m] else acc
  | OpDrain u => if decide (u = uid) then [] else acc
  end.

Lemma offline_step uid op o s acc :
  off_ok o -> off_queue o uid = lastn (off_limit o) acc ->
  let o' := (offline_run1 op (o, s)).2.1 in
  off_ok o' /\ off_limit o' = off_limit o /\
  off_queue o' uid = lastn (off_limit o) (since_drain uid acc op).
Proof.
  intros Hok Hq. destruct op as [u m|u]; cbn [offline_run1 since_drain].
  - destruct (store_law u m o s Hok) as (Hok' & Hl & Hown & Hoth).
    split; [done|]. split; [done|].
    case_decide as Hu; [subst u|by rewrite Hoth by congruence].
    by rewrite Hown, Hq, lastn_lastn_app.
  - rewrite bind_ret_state. cbn [fst snd].
    destruct (drain_law u o s Hok) as (Hok' & Hl & _ & Hown & Hoth).
    split; [done|]. split; [done|].
    case_decide as Hu; [subst u|by rewrite Hoth by congruence].
    by rewrite Hown.
Qed.

Lemma offline_history uid ops o s acc :
  off_ok o -> off_queue o uid = lastn (off_limit o) acc ->
  let o' := (forEach ops offline_run1 (o, s)).2.1 in
  off_ok o' /\ off_limit o' = off_limit o /\
  off_queue o' uid = lastn (off_limit o) (foldl (since_drain uid) acc ops).
Proof.
  revert o s acc. induction ops as [|op ops IH]; intros o s acc Hok Hq; [auto|].
  rewrite forEach_cons. destruct (offline_step uid op o s acc Hok Hq) as (Hok' & Hl & Hq').
  destruct (offline_run1 op (o, s)) as [[] [o1 s1]]. cbn in Hok', Hl, Hq' |- *.
  rewrite <- Hl in Hq' |- *. apply IH; done.
Qed.

End OfflineHistory.

(** ** The hub's queues implement the contract *)

Definition hub_queue (o : Offline) (uid : string) : list Message :=
  default [] (offline o !! uid).

Lemma hub_queue_insert o uid q max :
  hub_queue (mkOffline (<[uid := q]> (offline o)) max) uid = q.
Proof. unfold hub_queue. simpl. by rewrite lookup_insert_eq. Qed.

#[export] Program Instance Hub_OfflineLaws (E : Env) : OfflineLaws E Offline :=
  mkOfflineLaws E Offline Hub_OfflineStore
    (fun o => 0 <= offlineMaxSize o) (fun o => Z.to_nat (offlineMaxSize o)) hub_queue
    _ _ _ _.
Next Obligation.
  intros E uid m o s Hok. simpl in Hok |- *. repeat split; auto.
  - rewrite hub_queue_insert. unfold lastn, hub_queue. rewrite Z.gtb_ltb.
    destruct (Z.ltb_spec (offlineMaxSize o)
      (Z.of_nat (length (default [] (offline o !! uid) ++ [m])))).
    + f_equal. lia.
    + by replace (_ - _)%nat with 0%nat by lia.
  - intros u Hu. unfold hub_queue. simpl. by rewrite lookup_insert_ne by done.
Qed.
Next Obligation.
  intros E uid o s Hok. simpl. unfold hub_queue. simpl.
  rewrite lookup_delete_eq. repeat split; auto.
  intros u Hu. by rewrite lookup_delete_ne by done.
Qed.
Next Obligation. done. Qed.
Next Obligation. done. Qed.

(** In any history of stores and drains by any users, draining a user's
    queue returns, oldest first, exactly the last [max] messages stored for
    that user since the last drain, and leaves it empty. *)
Theorem hub_offline_queue_contract max ops s uid (Hmax : 0 <= max) :
  let o := (forEach ops offline_run1 (NewOffline max, s)).2.1 in
  let '(msgs, (o', _)) := HubDrainOffline uid (o, s) in
  msgs = lastn (Z.to_nat max) (foldl (since_drain uid) [] ops) /\ hub_queue o' uid = [].
Proof.
  pose proof (offline_history (E := steadyEnv) (O := Offline) uid ops (NewOffline max) s []) as H.
  destruct H as (_ & _ & Hq); [done|done|]. simpl in Hq.
  unfold HubDrainOffline. split; [exact Hq|].
  unfold hub_queue. simpl. by rewrite lookup_delete_eq.
Qed.

Lemma hub_offline_queue_contract_witness :
  let m n := setMsgId n zeroMessage in
  let ops := [OpStore "bob" (m 1); OpDrain "bob"; OpStore "bob" (m 2); OpStore "eve" (m 9);
              OpStore "bob" (m 3); OpStore "bob" (m 4)] in
  let s := mkSys 0 (mkGenerator 0 0 0) in
  (HubDrainOffline "bob" (forEach ops offline_run1 (NewOffline 2, s)).2).1 = [m 3; m 4].
Proof.
  intros m ops s.
  destruct (hub_offline_queue_contract 2 ops s "bob") as [H _]; [lia|].
  etransitivity; [exact H|]. vm_compute. reflexivity.
Defined.

(** ** Interleaved registrations

    Several goroutines run [Register]: a step is the locked part of one, or
    the notification and close it does after releasing the lock; connections
    also unregister and receive messages meanwhile.  [pending] are the
    notifications outstanding, [ever] and [left] the connections that ever
    registered and that unregistered. *)

Record HubState := mkHubState {
  conn : Conn;
  pending : list (Handle * string);
  ever : list Handle;
  left_ : list Handle
}.

Section Interleaving.
Context {E : Env} {CD : Codec}.

Inductive hub_step : HubState -> HubState -> Prop :=
| hs_register cn p ev lf c s o cn' s' :
    RegisterLocked c (cn, s) = (o, (cn', s')) ->
    hub_step (mkHubState cn p ev lf)
      (mkHubState cn' (option_list (toKick c o) ++ p) (c :: ev) lf)
| hs_finish cn p1 p2 ev lf h content s r cn' s' :
    KickAndClose h content (cn, s) = (r, (cn', s')) ->
    hub_step (mkHubState cn (p1 ++ (h, content) :: p2) ev lf)
      (mkHubState cn' (p1 ++ p2) ev lf)
| hs_unregister cn p ev lf c s r cn' s' :
    Unregister c (cn, s) = (r, (cn', s')) ->
    hub_step (mkHubState cn p ev lf) (mkHubState cn' p ev (c :: lf))
| hs_send cn p ev lf h m s r cn' s' :
    SendTo h m (cn, s) = (r, (cn', s')) ->
    hub_step (mkHubState cn p ev lf) (mkHubState cn' p ev lf)
| hs_close cn p ev lf h s r cn' s' :
    CloseClient h (cn, s) = (r, (cn', s')) ->
    hub_step (mkHubState cn p ev lf) (mkHubState cn' p ev lf).

(** The client a handle points to is closed. *)
Definition isClosed (cn : Conn) (h : Handle) : Prop :=
  match heap cn !! h_id h with Some cl => closed cl = true | None => True end.

Record hub_inv (max : Z) (st : HubState) : Prop := mkHubInv {
  inv_max : maxConnections (conn st) = max;
  inv_uid : forall uid h, clients (conn st) !! uid = Some h -> h_uid h = uid;
  inv_cap : 0 < max -> Z.of_nat (size (clients (conn st))) <= max;
  inv_ever : forall h, h ∈ ever st ->
    clients (conn st) !! h_uid h = Some h \/ h ∈ left_ st \/
    isClosed (conn st) h \/ h ∈ (pending st).*1
}.

(** Operations on clients keep the map and never reopen a client. *)
Lemma onClient_frame {A} h (d : A) m cn s r cn' s' :
  (forall cl s0, closed cl = true -> closed (m (cl, s0)).2.1 = true) ->
  onClient h d m (cn, s) = (r, (cn', s')) ->
  clients cn' = clients cn /\ maxConnections cn' = maxConnections cn /\
  (forall h', isClosed cn h' -> isClosed cn' h').
Proof.
  unfold onClient. intros Hm. destruct (heap cn !! h_id h) as [cl|] eqn:Hh.
  2: { intros [= _ <- _]. auto. }
  specialize (Hm cl s). destruct (m (cl, s)) as [a [cl' s1]].
  intros [= _ <- _]. repeat split; try done. intros h'. unfold isClosed. simpl.
  rewrite lookup_insert. case_decide as Hid; [|done]. rewrite <- Hid, Hh. exact Hm.
Qed.

Lemma Send_keeps_closed m cl s : closed cl = true -> closed (Send m (cl, s)).2.1 = true.
Proof.
  intros Hc. pose proof (Send_spec m cl s) as H.
  destruct (Send m (cl, s)) as [r [cl' s']]. destruct H as [H _].
  apply Send_result_frame in H as (_ & _ & Hcl). simpl. by rewrite Hcl.
Qed.

Lemma SendTo_frame h m cn s r cn' s' :
  SendTo h m (cn, s) = (r, (cn', s')) ->
  clients cn' = clients cn /\ maxConnections cn' = maxConnections cn /\
  (forall h', isClosed cn h' -> isClosed cn' h').
Proof. apply onClient_frame. intros. by apply Send_keeps_closed. Qed.

Lemma Close_closed cl : closed (Close cl) = true.
Proof. unfold Close. by destruct (closed cl) eqn:?. Qed.

Lemma CloseClient_frame h cn s r cn' s' :
  CloseClient h (cn, s) = (r, (cn', s')) ->
  clients cn' = clients cn /\ maxConnections cn' = maxConnections cn /\
  (forall h', isClosed cn h' -> isClosed cn' h') /\ isClosed cn' h.
Proof.
  intros H. assert (H' := H). apply onClient_frame in H' as (? & ? & ?);
    [|intros; apply Close_closed].
  repeat split; auto. revert H. unfold CloseClient, onClient, isClosed.
  destruct (heap cn !! h_id h) as [cl|] eqn:Hh; [|intros [= _ <- _]; by rewrite Hh].
  intros [= _ <- _]. simpl. rewrite lookup_insert_eq. apply Close_closed.
Qed.

Lemma KickAndClose_frame h content cn s r cn' s' :
  KickAndClose h content (cn, s) = (r, (cn', s')) ->
  clients cn' = clients cn /\ maxConnections cn' = maxConnections cn /\
  (forall h', isClosed cn h' -> isClosed cn' h') /\ isClosed cn' h.
Proof.
  unfold KickAndClose, bind. destruct (SendTo h _ (cn, s)) as [a [cn1 s1]] eqn:H1. intros H2.
  apply SendTo_frame in H1 as (Hc1 & Hm1 & Hk1).
  apply CloseClient_frame in H2 as (Hc2 & Hm2 & Hk2 & Hh).
  repeat split; [congruence|congruence|auto|done].
Qed.

Lemma RegisterLocked_inv c cn s o cn' s' :
  RegisterLocked c (cn, s) = (o, (cn', s')) ->
  heap cn' = heap cn /\ maxConnections cn' = maxConnections cn /\
  match o with
  | Rejected => clients cn' = clients cn /\ clients cn !! h_uid c = None
  | Added => clients cn' = <[h_uid c := c]> (clients cn) /\ clients cn !! h_uid c = None /\
      (0 < maxConnections cn -> Z.of_nat (size (clients cn)) < maxConnections cn)
  | Replaced old => clients cn' = <[h_uid c := c]> (clients cn) /\
      clients cn !! h_uid c = Some old
  end.
Proof.
  unfold RegisterLocked. destruct (clients cn !! h_uid c) as [old|] eqn:Hc.
  - intros [= <- <- _]. auto.
  - destruct (_ && _) eqn:Hfull; intros [= <- <- _]; repeat split; auto; simpl. lia.
Qed.

Lemma isClosed_heap cn cn' h : heap cn' = heap cn -> isClosed cn h -> isClosed cn' h.
Proof. unfold isClosed. by intros ->. Qed.

Lemma hub_inv_register max cn p ev lf c s o cn' s' :
  RegisterLocked c (cn, s) = (o, (cn', s')) ->
  hub_inv max (mkHubState cn p ev lf) ->
  hub_inv max (mkHubState cn' (option_list (toKick c o) ++ p) (c :: ev) lf).
Proof.
  intros Hr [Hm Hu Hcap Hev]. simpl in *.
  apply RegisterLocked_inv in Hr as (Hh & Hmx & Ho).
  split; simpl; [congruence|..]; destruct o as [| |old].
  - by destruct Ho as [-> _].
  - destruct Ho as [-> _]. intros uid h. rewrite lookup_insert. case_decide; naive_solver.
  - destruct Ho as [-> _]. intros uid h. rewrite lookup_insert. case_decide; naive_solver.
  - by destruct Ho as [-> _].
  - destruct Ho as (-> & Hn & Hlt). intros Hpos. rewrite map_size_insert_None by done.
    rewrite Hm in Hlt. specialize (Hlt Hpos). lia.
  - destruct Ho as [-> Hs]. rewrite map_size_insert_Some by (by eexists). done.
  - destruct Ho as [-> Hn]. intros h Hin. apply elem_of_cons in Hin as [->|Hin].
    + right; right; right. left.
    + destruct (Hev h Hin) as [?|[?|[?|?]]]; eauto using isClosed_heap.
      right; right; right. by right.
  - destruct Ho as (-> & Hn & _). intros h Hin. apply elem_of_cons in Hin as [->|Hin].
    + left. apply lookup_insert_eq.
    + destruct (Hev h Hin) as [Hc|[?|[?|?]]]; eauto using isClosed_heap.
      left. rewrite lookup_insert_ne; [done|]. intros Heq. rewrite <- Heq in Hc. congruence.
  - destruct Ho as [-> Hs]. intros h Hin. apply elem_of_cons in Hin as [->|Hin].
    + left. apply lookup_insert_eq.
    + destruct (Hev h Hin) as [Hc|[?|[?|?]]]; eauto using isClosed_heap.
      * destruct (decide (h_uid c = h_uid h)) as [Heq|Hne].
        -- right; right; right. rewrite <- Heq in Hc. simplify_eq. left.
        -- left. by rewrite lookup_insert_ne.
      * right; right; right. by right.
Qed.

(** A step that keeps the map and never reopens a client keeps the invariant. *)
Lemma hub_inv_frame max cn cn' p p' ev lf :
  clients cn' = clients cn -> maxConnections cn' = maxConnections cn ->
  (forall h, isClosed cn h -> isClosed cn' h) ->
  (forall h, h ∈ p.*1 -> h ∈ p'.*1 \/ isClosed cn' h) ->
  hub_inv max (mkHubState cn p ev lf) -> hub_inv max (mkHubState cn' p' ev lf).
Proof.
  intros Hc Hm Hk Hp [H1 H2 H3 H4]. simpl in *.
  split; simpl; rewrite ?Hc, ?Hm; auto.
  intros h Hin. destruct (H4 h Hin) as [?|[?|[?|Hpend]]]; auto.
  destruct (Hp h Hpend); auto.
Qed.

Lemma hub_inv_unregister max cn p ev lf c s r cn' s' :
  Unregister c (cn, s) = (r, (cn', s')) ->
  hub_inv max (mkHubState cn p ev lf) -> hub_inv max (mkHubState cn' p ev (c :: lf)).
Proof.
  intros Hu [H1 H2 H3 H4]. simpl in *. unfold Unregister, modify in Hu.
  destruct (clients cn !! h_uid c) as [old|] eqn:Hc; [case_decide as Hd|].
  2, 3: injection Hu as _ <- _; split; simpl; auto;
    intros h Hin; destruct (H4 h Hin) as [?|[?|[?|?]]]; auto;
    right; left; by right.
  injection Hu as _ <- _. subst old. split; simpl; auto.
  - intros uid h. rewrite lookup_delete. case_decide; [done|auto].
  - intros Hpos. specialize (H3 Hpos). rewrite map_size_delete, Hc. simpl. lia.
  - intros h Hin. destruct (H4 h Hin) as [Hh|[?|[?|?]]]; auto.
    + rewrite lookup_delete. case_decide as Heq; [|auto]. right; left.
      rewrite <- Heq, Hc in Hh. simplify_eq. by left.
    + right; left. by right.
Qed.

Lemma hub_inv_step max st st' : hub_step st st' -> hub_inv max st -> hub_inv max st'.
Proof.
  intros []; intros Hinv.
  - by eapply hub_inv_register.
  - destruct (KickAndClose_frame h content cn s r cn' s') as (? & ? & Hk & Hh); [done|].
    eapply hub_inv_frame; [done..| |exact Hinv].
    intros h'. rewrite !fmap_app, fmap_cons, !elem_of_app, elem_of_cons.
    intros [?|[->|?]]; auto.
  - by eapply hub_inv_unregister.
  - destruct (SendTo_frame h m cn s r cn' s') as (? & ? & ?); [done|].
    eapply hub_inv_frame; eauto.
  - destruct (CloseClient_frame h cn s r cn' s') as (? & ? & ? & ?); [done|].
    eapply hub_inv_frame; eauto.
Qed.

(** A hub with a connection limit, before any registration; the clients may
    already be allocated. *)
Definition hub_start (max : Z) (h : gmap nat Client) : HubState :=
  mkHubState (mkConn ∅ max h) [] [] [].

Lemma hub_inv_reach max h st : rtc hub_step (hub_start max h) st -> hub_inv max st.
Proof.
  revert st. apply rtc_ind_r.
  - split; simpl; try done.
    + intros ?. rewrite map_size_empty. lia.
    + intros c Hin. by apply elem_of_nil in Hin.
  - intros y z _ Hs Hy. by eapply hub_inv_step.
Qed.


(** a stale connection's cleanup never removes the connection that
    replaced it. *)
Theorem hub_stale_unregister old new cn s
  (Huid : h_uid old = h_uid new) (Hne : old <> new) :
  let '(_, st1) := Register new (cn, s) in
  clients (st1.1) !! h_uid new = Some new ->
  clients (Unregister old st1).2.1 !! h_uid new = Some new.
Proof.
  destruct (Register new (cn, s)) as [[] [cn1 s1]]. simpl. intros Hin.
  unfold Unregister, modify. simpl. rewrite Huid, Hin.
  rewrite decide_False by congruence. exact Hin.
Qed.

End Interleaving.


Lemma hub_stale_unregister_witness :
  let a := mkHandle 1 "bob" in
  let b := mkHandle 2 "bob" in
  let cl := NewClient "bob" "Bob" 4 0 in
  let st := (mkConn {["bob"%string := a]} 0 {[1%nat := cl; 2%nat := cl]},
             mkSys 0 (mkGenerator 0 0 0)) in
  let st1 := (@Register steadyEnv demoCodec b st).2 in
  clients (Unregister a st1).2.1 !! "bob"%string = Some b.
Proof.
  intros a b cl st st1.
  pose proof (hub_stale_unregister (E := steadyEnv) (CD := demoCodec) a b
    st.1 st.2 eq_refl) as H.
  specialize (H ltac:(discriminate)). subst st1.
  change (st.1, st.2) with st in H.
  destruct (Register b st) as [r st1] eqn:Hr.
  apply H. vm_compute in Hr. injection Hr as _ <-. vm_compute. reflexivity.
Defined.
