(* ===== verification/RedisStore.v ===== *)
(** * The Redis offline store (src/internal/gateway/redis_store.go)

    Queues of serialized messages in Redis lists, written and drained by two Lua
    scripts, with another store to fall back on.  Redis runs a script whole or not
    at all and may lose its reply.  The theorems: while Redis answers, the store
    behaves like the hub's in-memory queues; whatever happens a stored message is
    kept somewhere; what a drain leaves behind. *)

From S2P Require Import Prelude Proto Snowflake Process Client Hub.

(** ** Redis lists and scripts *)

Abbreviation Lists := (gmap string (list bytes)).

Definition rpush (key : string) (v : bytes) (m : Lists) : Lists :=
  <[key := default [] (m !! key) ++ [v]]> m.
Definition llen (key : string) (m : Lists) : Z := Z.of_nat (length (default [] (m !! key))).

(** [LTRIM key start -1]; a negative start counts from the end. *)
Definition ltrimFrom (key : string) (start : Z) (m : Lists) : Lists :=
  let q := default [] (m !! key) in
  let start := if start <? 0 then Z.max 0 (start + Z.of_nat (length q)) else start in
  let q := drop (Z.to_nat start) q in
  if bool_decide (q = []) then delete key m else <[key := q]> m.

Definition lrangeAll (key : string) (m : Lists) : list bytes := default [] (m !! key).

(** [storeScript], for a positive [maxSize]. *)
Definition storeScript (key : string) (payload : bytes) (maxSize : Z) (m : Lists) : Z * Lists :=
  let m := rpush key payload m in
  let len := llen key m in
  (len, if maxSize <? len then ltrimFrom key (- maxSize) m else m).

(** [drainScript]. *)
Definition drainScript (key : string) (m : Lists) : list bytes * Lists :=
  let msgs := lrangeAll key m in
  (msgs, if bool_decide (msgs = []) then m else delete key m).

Class RedisScripts (R : Type) := mkRedisScripts {
  RunScript : forall A : Type, (Lists -> A * Lists) -> R -> (string + A) * R
}.
Arguments RunScript {R _ A}.

Class RedisScriptsLaws (R : Type) `{RedisScripts R} := mkRedisScriptsLaws {
  lists : R -> Lists;
  RunScript_law : forall A (f : Lists -> A * Lists) r,
    match RunScript f r with
    | (inr a, r') => (a, lists r') = f (lists r)
    | (inl _, r') => lists r' = lists r \/ lists r' = (f (lists r)).2
    end
}.

(** ** The store *)

Record RedisOfflineStore (R F : Type) := mkRedisOfflineStore {
  rs_client : R;
  rs_maxSize : Z;
  rs_keyPrefix : string;
  rs_fallback : option F
}.
Arguments mkRedisOfflineStore {R F}.
Arguments rs_client {R F}.
Arguments rs_maxSize {R F}.
Arguments rs_keyPrefix {R F}.
Arguments rs_fallback {R F}.

Definition defaultKeyPrefix : string := "im:offline:".

Section Store.
Context {E : Env} {CD : Codec} {R F : Type} {RS : RedisScripts R} {FB : OfflineStore F}.

Abbreviation Store := (RedisOfflineStore R F).
Abbreviation Op := (St (Store * Sys)).

Definition NewRedisStore (client : R) (maxSize : Z) : Store :=
  mkRedisOfflineStore client maxSize defaultKeyPrefix None.

Definition WithFallback (fb : F) (rs : Store) : Store :=
  mkRedisOfflineStore (rs_client rs) (rs_maxSize rs) (rs_keyPrefix rs) (Some fb).

Definition offlineKey (rs : Store) (uid : string) : string := rs_keyPrefix rs +:+ uid.

Definition script {A} (f : Lists -> A * Lists) : Op (string + A) :=
  fun '(rs, s) =>
    let (a, r) := RunScript f (rs_client rs) in
    (a, (mkRedisOfflineStore r (rs_maxSize rs) (rs_keyPrefix rs) (rs_fallback rs), s)).

(** A call on the fallback, if there is one. *)
Definition onFallback {A} (dflt : A) (m : St (F * Sys) A) : Op A :=
  fun '(rs, s) =>
    match rs_fallback rs with
    | None => (dflt, (rs, s))
    | Some fb =>
        let '(a, (fb', s')) := m (fb, s) in
        (a, (mkRedisOfflineStore (rs_client rs) (rs_maxSize rs) (rs_keyPrefix rs) (Some fb'), s'))
    end.

Definition RedisStoreOffline (uid : string) (msg : Message) : Op unit :=
  match marshal msg with
  | None => onFallback tt (StoreOffline uid msg)
  | Some data =>
      let! rs := getX in
      let! r := script (storeScript (offlineKey rs uid) data (rs_maxSize rs)) in
      match r with
      | inl _ => onFallback tt (StoreOffline uid msg)
      | inr _ => ret tt
      end
  end.

Definition RedisDrainOffline (uid : string) : Op (list Message) :=
  let! rs := getX in
  let! r := script (drainScript (offlineKey rs uid)) in
  match r with
  | inl _ => onFallback [] (DrainOffline uid)
  | inr items => ret (omap unmarshal items)
  end.

#[export] Instance Redis_OfflineStore : OfflineStore Store :=
  mkOfflineStore Store RedisStoreOffline RedisDrainOffline.

End Store.

(** ** Queues *)

Lemma storeScript_queue key payload max m k :
  0 < max ->
  default [] ((storeScript key payload max m).2 !! k) =
  if decide (k = key) then lastn (Z.to_nat max) (default [] (m !! key) ++ [payload])
  else default [] (m !! k).
Proof.
  intros Hmax. unfold storeScript, llen, ltrimFrom, rpush. cbv zeta. cbn [snd].
  rewrite !lookup_insert_eq.
  cbn [default from_option id]. set (q := default [] (m !! key) ++ [payload]).
  case_decide as Hk.
  - subst k. destruct (Z.ltb_spec max (Z.of_nat (length q))).
    + rewrite (proj2 (Z.ltb_lt (- max) 0)) by lia.
      assert (Hd : Z.to_nat (Z.max 0 (- max + Z.of_nat (length q))) = (length q - Z.to_nat max)%nat) by lia.
      rewrite Hd. fold (lastn (Z.to_nat max) q). case_bool_decide as Hq.
      * by rewrite lookup_delete_eq, Hq.
      * by rewrite lookup_insert_eq.
    + rewrite lookup_insert_eq. cbn. symmetry. apply lastn_all. lia.
  - destruct (_ <? _); [case_bool_decide|];
      rewrite ?lookup_delete_ne, ?lookup_insert_ne by done; done.
Qed.

Lemma drainScript_queue key m k :
  (drainScript key m).1 = default [] (m !! key) /\
  default [] ((drainScript key m).2 !! k) = if decide (k = key) then [] else default [] (m !! k).
Proof.
  unfold drainScript, lrangeAll. cbn. split; [done|]. case_bool_decide as Hq; case_decide as Hk.
  - by subst k.
  - done.
  - subst k. by rewrite lookup_delete_eq.
  - by rewrite lookup_delete_ne.
Qed.

(** The last elements of related queues are related. *)
Lemma Forall2_lastn {A B} (P : A -> B -> Prop) n l k :
  Forall2 P l k -> Forall2 P (lastn n l) (lastn n k).
Proof. intros H. unfold lastn. rewrite (Forall2_length _ _ _ H). by apply Forall2_drop. Qed.

Section Facts.
Context {E : Env} {CD : Codec} {R F : Type} {RS : RedisScripts R} {RL : RedisScriptsLaws R}.
Context {FB : OfflineStore F}.

Abbreviation Store := (RedisOfflineStore R F).

(** The serialized queue of a user. *)
Definition redis_queue (rs : Store) (uid : string) : list bytes :=
  default [] (lists (rs_client rs) !! offlineKey rs uid).

Definition encodes (d : bytes) (m : Message) : Prop := unmarshal d = Some m.

Definition storable (m : Message) : Prop := wf_message m /\ is_Some (marshal m).

(** A history that stores messages the codec takes. *)
Definition op_storable (op : OfflineOp) : Prop :=
  match op with OpStore _ m => storable m | OpDrain _ => True end.

Lemma offlineKey_inj (rs : Store) u v : offlineKey rs u = offlineKey rs v -> u = v.
Proof. unfold offlineKey. apply (inj _). Qed.

(** ** Agreement with the hub's queues *)

Definition agree (rs : Store) (o : Offline) : Prop :=
  rs_maxSize rs = offlineMaxSize o /\ 0 < rs_maxSize rs /\
  forall uid, Forall2 encodes (redis_queue rs uid) (hub_queue o uid).

(** Redis answers every script. *)
Definition answering : Prop :=
  forall A (f : Lists -> A * Lists) r, exists a r', RunScript f r = (inr a, r').

Lemma omap_encodes l k : Forall2 encodes l k -> omap unmarshal l = k.
Proof. induction 1 as [|d m l k Hd H IH]; [done|]. cbn. by rewrite Hd, IH. Qed.

(** The lists drained over a history. *)
Definition drained_by {O} `{OfflineStore O} (op : OfflineOp) : St (O * Sys) (list (list Message)) :=
  match op with
  | OpStore uid m => StoreOffline uid m ;;! ret []
  | OpDrain uid => let! l := DrainOffline uid in ret [l]
  end.

Fixpoint drained {O} `{OfflineStore O} (ops : list OfflineOp) : St (O * Sys) (list (list Message)) :=
  match ops with
  | [] => ret []
  | op :: ops => let! l := drained_by op in let! ls := drained ops in ret (l ++ ls)
  end.

Lemma script_answers {A} (f : Lists -> A * Lists) (rs : Store) s :
  answering -> exists r, script f (rs, s) =
      (inr (f (lists (rs_client rs))).1,
       (mkRedisOfflineStore r (rs_maxSize rs) (rs_keyPrefix rs) (rs_fallback rs), s)) /\
    lists r = (f (lists (rs_client rs))).2.
Proof.
  intros Ha. destruct (Ha A f (rs_client rs)) as (a & r & Hr). exists r.
  pose proof (RunScript_law A f (rs_client rs)) as Hl. rewrite Hr in Hl.
  unfold script. rewrite Hr, <- Hl. done.
Qed.

Lemma drained_by_agree op rs o s1 s2 :
  answering -> op_storable op -> agree rs o ->
  let r := drained_by op (rs, s1) in
  let h := drained_by op (o, s2) in
  r.1 = h.1 /\ agree r.2.1 h.2.1.
Proof.
  intros Ha Hop (Hm & Hpos & Hq). destruct op as [uid m|uid]; cbn [drained_by].
  - rewrite !bind_ret_state. cbn [fst snd]. split; [done|].
    cbn [StoreOffline Redis_OfflineStore Hub_OfflineStore]. unfold RedisStoreOffline.
    destruct Hop as [Hwf [d Hd]]. rewrite Hd, !bind_run. cbn [getX gets fst snd].
    destruct (script_answers (storeScript (offlineKey rs uid) d (rs_maxSize rs)) rs s1 Ha) as (r & Hr & Hl).
    rewrite Hr. cbn [fst snd ret]. split_and!; [done|done|]. intros u.
    destruct (store_law (E := E) (O := Offline) uid m o s2) as (_ & _ & H1 & H2).
    { cbn. unfold off_ok. cbn. lia. }
    cbn [off_queue Hub_OfflineLaws StoreOffline Hub_OfflineStore] in H1, H2. unfold redis_queue, offlineKey. cbn [rs_client rs_keyPrefix].
    rewrite Hl, storeScript_queue by done. fold (offlineKey rs uid) (offlineKey rs u).
    case_decide as Hk.
    + apply offlineKey_inj in Hk. subst u. rewrite H1. cbn [off_limit Hub_OfflineLaws]. rewrite Hm.
      apply Forall2_lastn, Forall2_app; [apply Hq|]. constructor; [|constructor].
      by apply (unmarshal_marshal m d).
    + rewrite H2 by (intros ->; by apply Hk). apply Hq.
  - rewrite !bind_run. cbn [DrainOffline Redis_OfflineStore Hub_OfflineStore]. unfold RedisDrainOffline.
    rewrite !bind_run. cbn [getX gets fst snd].
    destruct (script_answers (drainScript (offlineKey rs uid)) rs s1 Ha) as (r & Hr & Hl).
    rewrite Hr. cbn [fst snd ret]. destruct (drainScript_queue (offlineKey rs uid) (lists (rs_client rs)) "") as [Hd _].
    rewrite Hd. split; [f_equal; exact (omap_encodes _ _ (Hq uid))|]. split_and!; [done|done|]. intros u.
    destruct (drain_law (E := E) (O := Offline) uid o s2) as (_ & _ & _ & H1 & H2).
    { cbn. unfold off_ok. cbn. lia. }
    cbn [off_queue Hub_OfflineLaws DrainOffline Hub_OfflineStore] in H1, H2.
    unfold redis_queue, offlineKey. cbn [rs_client rs_keyPrefix].
    destruct (drainScript_queue (offlineKey rs uid) (lists (rs_client rs)) (offlineKey rs u)) as [_ Hdr].
    rewrite Hl. fold (offlineKey rs u). rewrite Hdr. case_decide as Hk.
    + apply offlineKey_inj in Hk. subst u. rewrite H1. constructor.
    + rewrite H2 by (intros ->; by apply Hk). apply Hq.
Qed.

Lemma drained_agree ops rs o s1 s2 :
  answering -> Forall op_storable ops -> agree rs o ->
  (drained ops (rs, s1)).1 = (drained ops (o, s2)).1.
Proof.
  intros Ha Hops. revert rs o s1 s2. induction Hops as [|op ops Hop Hops IH]; intros rs o s1 s2 Hag; [done|].
  cbn [drained]. rewrite !bind_run.
  destruct (drained_by_agree op rs o s1 s2 Ha Hop Hag) as [H1 H2].
  destruct (drained_by op (rs, s1)) as [l [rs' s1']], (drained_by op (o, s2)) as [l' [o' s2']].
  cbn [fst snd] in H1, H2 |- *. subst l'. specialize (IH rs' o' s1' s2' H2). unfold bind.
  destruct (drained ops (rs', s1')) as [ls q], (drained ops (o', s2')) as [ls' q'].
  cbn [fst] in IH. by subst ls'.
Qed.

(** While Redis answers, the Redis offline store and the hub's in-memory
    queues give the same messages at every drain of any history, so the Redis
    lists carry the same contract: per user the last [maxSize] messages stored
    since the last drain, oldest first. *)
Theorem redis_offline_refines ops (rs : Store) s1 s2 :
  answering -> Forall op_storable ops -> 0 < rs_maxSize rs ->
  (forall uid, lists (rs_client rs) !! offlineKey rs uid = None) ->
  (drained ops (rs, s1)).1 = (drained ops (NewOffline (rs_maxSize rs), s2)).1.
Proof.
  intros Ha Hops Hmax Hempty. apply drained_agree; [done..|]. split_and!; [done|done|].
  intros uid. unfold redis_queue. rewrite Hempty. unfold hub_queue. cbn. constructor.
Qed.

Context {FL : OfflineLaws E F}.

Definition fallback_queue (rs : Store) (uid : string) : list Message :=
  match rs_fallback rs with Some fb => off_queue fb uid | None => [] end.

(** C23. Whether Redis answers, is down, or loses a reply, a message stored for a
    user is afterwards the newest of the user's queue in Redis or in the
    fallback.  A drain that Redis answers does not look at the fallback: what was
    kept there during an outage stays there, however often the user drains. *)
Theorem redis_message_kept uid m (rs : Store) s fb d :
  rs_fallback rs = Some fb -> off_ok fb -> marshal m = Some d -> 0 < rs_maxSize rs ->
  (let rs' := (RedisStoreOffline uid m (rs, s)).2.1 in
   redis_queue rs' uid = lastn (Z.to_nat (rs_maxSize rs)) (redis_queue rs uid ++ [d]) \/
   fallback_queue rs' uid = lastn (off_limit fb) (off_queue fb uid ++ [m])) /\
  (let r := RedisDrainOffline uid (rs, s) in
   match (RunScript (drainScript (offlineKey rs uid)) (rs_client rs)).1 with
   | inr _ => rs_fallback r.2.1 = Some fb /\ r.1 = omap unmarshal (redis_queue rs uid)
   | inl _ => r.1 = off_queue fb uid
   end).
Proof.
  intros Hfb Hok Hd Hmax. split.
  - unfold RedisStoreOffline. rewrite Hd, !bind_run. cbn [getX gets fst snd]. unfold script.
    pose proof (RunScript_law _ (storeScript (offlineKey rs uid) d (rs_maxSize rs)) (rs_client rs)) as Hl.
    destruct (RunScript _ (rs_client rs)) as [[e|n] r]; cbn [fst snd].
    + right. unfold onFallback. cbn [rs_fallback]. rewrite Hfb.
      destruct (store_law (E := E) uid m fb s Hok) as (_ & _ & H & _).
      by destruct (StoreOffline uid m (fb, s)) as [[] [fb' s']].
    + left. cbn [ret snd fst]. unfold redis_queue, offlineKey. cbn [rs_client rs_keyPrefix].
      apply (f_equal snd) in Hl. cbn [snd] in Hl. rewrite Hl.
      rewrite storeScript_queue by done. by rewrite decide_True.
  - unfold RedisDrainOffline. rewrite !bind_run. cbn [getX gets fst snd]. unfold script.
    pose proof (RunScript_law _ (drainScript (offlineKey rs uid)) (rs_client rs)) as Hl.
    destruct (RunScript _ (rs_client rs)) as [[e|items] r]; cbn [fst snd].
    + unfold onFallback. cbn [rs_fallback]. rewrite Hfb.
      destruct (drain_law (E := E) uid fb s Hok) as (_ & _ & H & _).
      by destruct (DrainOffline uid (fb, s)) as [l [fb' s']].
    + cbn [ret fst snd rs_fallback]. split; [done|]. apply (f_equal fst) in Hl. cbn [fst] in Hl.
      rewrite Hl. by destruct (drainScript_queue (offlineKey rs uid) (lists (rs_client rs)) "") as [-> _].
Qed.

End Facts.

(** ** Witnesses: a Redis that is up or down *)

Record SwitchRedis := mkSwitchRedis { sr_lists : Lists; sr_up : bool }.

#[export] Instance SwitchRedis_Scripts : RedisScripts SwitchRedis :=
  mkRedisScripts SwitchRedis (fun A f r =>
    if sr_up r then (inr (f (sr_lists r)).1, mkSwitchRedis (f (sr_lists r)).2 true)
    else (inl "connection refused", r)).

#[export] Instance SwitchRedis_Laws : RedisScriptsLaws SwitchRedis.
Proof.
  refine (mkRedisScriptsLaws SwitchRedis _ sr_lists _). intros A f [l up]. cbn. destruct up; cbn; [|by left].
  by destruct (f l).
Defined.

(** One that is always up is its lists. *)
#[export] Instance Lists_Scripts : RedisScripts Lists :=
  mkRedisScripts Lists (fun A f m => (inr (f m).1, (f m).2)).

#[export] Instance Lists_Laws : RedisScriptsLaws Lists.
Proof. refine (mkRedisScriptsLaws Lists _ (fun m => m) _). intros A f m. cbn. by destruct (f m). Defined.

Section Witnesses.
#[local] Existing Instance demoCodec.
#[local] Existing Instance steadyEnv.

Definition offlineMsg (n : Z) : Message := setMsgId n zeroMessage.
Definition redisSys : Sys := mkSys 0 (mkGenerator 0 0 0).

Lemma offlineMsg_storable n : in_int64 n -> storable (offlineMsg n).
Proof.
  intros Hn. split; [|by eexists]. split_and!; try done; unfold in_int64, in_int32; cbn; lia.
Qed.

Lemma Lists_answering : answering (R := Lists).
Proof. intros A f r. by eexists _, _. Qed.

Definition redisHistory : list OfflineOp :=
  [OpStore "bob" (offlineMsg 1); OpStore "bob" (offlineMsg 2); OpStore "bob" (offlineMsg 3); OpDrain "bob"; OpDrain "bob"].

Lemma redisHistory_storable : Forall op_storable redisHistory.
Proof. repeat constructor; try done; apply offlineMsg_storable; unfold in_int64; lia. Qed.

Definition emptyRedis : RedisOfflineStore Lists Offline := NewRedisStore (∅ : Lists) 2.

Lemma emptyRedis_empty uid : lists (rs_client emptyRedis) !! offlineKey emptyRedis uid = None.
Proof. done. Qed.

Lemma redis_offline_refines_witness :
  (drained redisHistory (emptyRedis, redisSys)).1 = [[offlineMsg 2; offlineMsg 3]; []].
Proof.
  assert (Hmax : 0 < rs_maxSize emptyRedis) by done.
  etransitivity; [exact (redis_offline_refines redisHistory emptyRedis redisSys redisSys
    Lists_answering redisHistory_storable Hmax emptyRedis_empty)|].
  vm_compute. reflexivity.
Defined.

(** Redis is down when the message is stored and up when the user drains. *)
Definition downRedis : RedisOfflineStore SwitchRedis Offline :=
  WithFallback (NewOffline 100) (NewRedisStore (mkSwitchRedis ∅ false) 100).

Lemma redis_message_kept_witness :
  fallback_queue (RedisStoreOffline "bob" (offlineMsg 1) (downRedis, redisSys)).2.1 "bob" = [offlineMsg 1].
Proof.
  assert (Hok : off_ok (NewOffline 100)) by (cbn; lia).
  destruct (offlineMsg_storable 1) as [_ [d Hd]]; [unfold in_int64; lia|].
  destruct (redis_message_kept "bob" (offlineMsg 1) downRedis redisSys (NewOffline 100) d
    eq_refl Hok Hd eq_refl) as [[H|H] _]; [vm_compute in H; discriminate H|exact H].
Defined.

(** Redis comes back: the message of the outage is not drained. *)
Definition recovered (rs : RedisOfflineStore SwitchRedis Offline) : RedisOfflineStore SwitchRedis Offline :=
  mkRedisOfflineStore (mkSwitchRedis (sr_lists (rs_client rs)) true) (rs_maxSize rs) (rs_keyPrefix rs) (rs_fallback rs).

Lemma outage_message_stranded :
  let rs := recovered (RedisStoreOffline "bob" (offlineMsg 1) (downRedis, redisSys)).2.1 in
  let r := RedisDrainOffline "bob" (rs, redisSys) in
  r.1 = [] /\ fallback_queue r.2.1 "bob" = [offlineMsg 1].
Proof. by vm_compute. Qed.

End Witnesses.
