(* ===== verification/HashRing.v ===== *)
(** * Consistent hashing (src/internal/gateway/hashring.go)

    The ring of virtual nodes, with CRC-32 (IEEE) computed as Go's
    [hash/crc32] does and [sort.Search] as the standard library's binary
    search.  The theorems: [Get] is the cyclic successor lookup; the ring is
    well formed after any history; adding or removing a node moves only that
    node's keys; gateways that learn of the same nodes in different orders
    route alike. *)

From S2P Require Import Prelude.

(** ** CRC-32, IEEE polynomial, reflected *)

Definition crc32_step (c : Z) : Z :=
  if Z.odd c then Z.lxor (Z.shiftr c 1) 0xEDB88320 else Z.shiftr c 1.

Definition crc32_byte (c : Z) (b : ascii) : Z :=
  Nat.iter 8 crc32_step (Z.lxor c (Z.of_N (N_of_ascii b))).

Fixpoint crc32_update (c : Z) (s : string) : Z :=
  match s with
  | EmptyString => c
  | String b s' => crc32_update (crc32_byte c b) s'
  end.

Definition ChecksumIEEE (s : string) : Z :=
  Z.lxor (crc32_update 0xFFFFFFFF s) 0xFFFFFFFF.

Example ChecksumIEEE_check : ChecksumIEEE "123456789" = 0xCBF43926.
Proof. vm_compute. reflexivity. Qed.

(** ** [sort.Search] *)

Fixpoint search_loop (fuel : nat) (f : nat -> bool) (i j : nat) : nat :=
  match fuel with
  | O => i
  | S fuel' =>
      if (i <? j)%nat then
        let h := Nat.div2 (i + j) in
        if f h then search_loop fuel' f i h else search_loop fuel' f (S h) j
      else i
  end.

(** Each iteration at least halves [j - i], so [n] of them are enough. *)
Definition Search (n : nat) (f : nat -> bool) : nat := search_loop n f 0 n.

(** ** The ring *)

Record HashRing := mkHashRing {
  ring : list Z;
  nodes : gmap Z string;
  replicas : Z;
  physCount : Z
}.

Definition NewHashRing (reps : Z) : HashRing :=
  mkHashRing [] ∅ (if reps <=? 0 then 150 else reps) 0.

(** [fmt.Sprintf("%s:%d", nodeID, i)] and its checksum. *)
Definition vnodeHash (nodeID : string) (i : Z) : Z :=
  ChecksumIEEE (nodeID +:+ String ":" (itoa i)).

Definition removeLocked (nodeID : string) (h : HashRing) : HashRing :=
  let toRemove := (filter (fun p : Z * string => p.2 = nodeID) (map_to_list (nodes h))).*1 in
  match toRemove with
  | [] => h
  | _ =>
      let nodes' := foldr delete (nodes h) toRemove in
      let filtered := filter (fun hash => is_Some (nodes' !! hash)) (ring h) in
      mkHashRing filtered nodes' (replicas h) (physCount h - 1)
  end.

Definition addReplica (nodeID : string) (h : HashRing) (i : nat) : HashRing :=
  let hash := vnodeHash nodeID (Z.of_nat i) in
  mkHashRing (ring h ++ [hash]) (<[hash := nodeID]> (nodes h)) (replicas h) (physCount h).

Definition Add (nodeID : string) (h : HashRing) : HashRing :=
  let h := removeLocked nodeID h in
  let h := mkHashRing (ring h) (nodes h) (replicas h) (physCount h + 1) in
  let h := foldl (addReplica nodeID) h (seq 0 (Z.to_nat (replicas h))) in
  mkHashRing (merge_sort Z.le (ring h)) (nodes h) (replicas h) (physCount h).

Definition Remove (nodeID : string) (h : HashRing) : HashRing := removeLocked nodeID h.

Definition Get (h : HashRing) (key : string) : string :=
  match ring h with
  | [] => ""
  | _ =>
      let hash := ChecksumIEEE key in
      let idx := Search (length (ring h)) (fun i => hash <=? default 0 (ring h !! i)) in
      let idx := if (length (ring h) <=? idx)%nat then 0%nat else idx in
      default "" (nodes h !! default 0 (ring h !! idx))
  end.

Definition Len (h : HashRing) : Z := physCount h.

(** ** Binary search finds the first index that satisfies a monotone test *)

Lemma search_loop_spec fuel (f : nat -> bool) i j :
  (j - i <= fuel)%nat -> (i <= j)%nat ->
  (forall a b, (a <= b < j)%nat -> f a = true -> f b = true) ->
  (forall a, (a < i)%nat -> f a = false) ->
  let r := search_loop fuel f i j in
  (i <= r <= j)%nat /\ (forall a, (a < r)%nat -> f a = false) /\
  ((r < j)%nat -> f r = true).
Proof.
  revert i j. induction fuel as [|fuel IH]; intros i j Hf Hij Hmono Hlow; simpl.
  { repeat split; auto; lia. }
  destruct (Nat.ltb_spec i j) as [Hlt|Hge]; [|repeat split; auto; lia].
  assert (Hh : (i <= Nat.div2 (i + j) < j)%nat).
  { rewrite Nat.div2_div. pose proof (Nat.Div0.div_lt_upper_bound (i + j) 2 j).
    pose proof (Nat.div_le_lower_bound (i + j) 2 i). lia. }
  set (h := Nat.div2 (i + j)) in *.
  destruct (f h) eqn:Hfh.
  - destruct (IH i h) as (H1 & H2 & H3); [lia|lia|..|].
    + intros a b Hab. apply Hmono. lia.
    + done.
    + split; [lia|]. split; [done|]. intros Hr.
      destruct (decide (search_loop fuel f i h < h)%nat) as [|Hn]; [auto|].
      by replace (search_loop fuel f i h) with h by lia.
  - destruct (IH (S h) j) as (H1 & H2 & H3); [lia|lia|done|..|split; [lia|done]].
    intros a Ha. destruct (f a) eqn:Hfa; [|done].
    rewrite (Hmono a h) in Hfh; [done|lia|done].
Qed.

Lemma Search_spec n (f : nat -> bool) :
  (forall a b, (a <= b < n)%nat -> f a = true -> f b = true) ->
  let r := Search n f in
  (r <= n)%nat /\ (forall a, (a < r)%nat -> f a = false) /\ ((r < n)%nat -> f r = true).
Proof.
  intros Hm. destruct (search_loop_spec n f 0 n) as (H1 & H2 & H3); [lia|lia|done|lia|].
  split; [unfold Search; lia|]. done.
Qed.

(** ** The reference: the cyclic successor of a hash in a list *)

Definition successor (l : list Z) (x : Z) : option Z :=
  match list_find (fun y => x <= y) l with
  | Some (_, y) => Some y
  | None => head l
  end.

Definition ownerOf (h : HashRing) (x : Z) : string :=
  match successor (ring h) x with
  | Some y => default "" (nodes h !! y)
  | None => ""
  end.

(** The hashes of a node's virtual nodes. *)
Definition vhashes (reps : Z) (nodeID : string) : list Z :=
  map (fun i => vnodeHash nodeID (Z.of_nat i)) (seq 0 (Z.to_nat reps)).

Record wf (h : HashRing) : Prop := mkWf {
  wf_sorted : StronglySorted Z.le (ring h);
  wf_dom : forall x, x ∈ ring h <-> is_Some (nodes h !! x);
  wf_owner : forall x id, nodes h !! x = Some id -> x ∈ vhashes (replicas h) id;
  wf_replicas : 0 < replicas h
}.

(** In a sorted list the successor is the least element at or above, or the
    least of all. *)
Definition is_successor (P : Z -> Prop) (x y : Z) : Prop :=
  P y /\ ((x <= y /\ forall z, P z -> x <= z -> y <= z) \/
          ((forall z, P z -> z < x) /\ forall z, P z -> y <= z)).

Lemma is_successor_unique P x y y' :
  is_successor P x y -> is_successor P x y' -> y = y'.
Proof.
  intros [Hy [[H1 H2]|[H1 H2]]] [Hy' [[H1' H2']|[H1' H2']]].
  - specialize (H2 y' Hy' H1'). specialize (H2' y Hy H1). lia.
  - specialize (H1' y Hy). lia.
  - specialize (H1 y' Hy'). lia.
  - specialize (H2 y' Hy'). specialize (H2' y Hy). lia.
Qed.

Lemma successor_spec l x :
  StronglySorted Z.le l ->
  match successor l x with
  | Some y => is_successor (fun z => z ∈ l) x y
  | None => l = []
  end.
Proof.
  intros Hs. unfold successor.
  destruct (list_find _ l) as [[i y]|] eqn:Hf.
  - apply list_find_Some in Hf as (Hi & Hxy & Hlt). split; [by eapply list_elem_of_lookup_2|].
    left. split; [done|]. intros z Hz Hxz. apply list_elem_of_lookup in Hz as [j Hj].
    destruct (decide (j < i)%nat) as [Hji|Hji]; [by specialize (Hlt j z Hj Hji)|].
    destruct (decide (i = j)) as [->|Hne]; [simplify_eq; lia|].
    rewrite <- (take_drop_middle l i y Hi) in Hs.
    apply StronglySorted_app in Hs as (_ & _ & Hs).
    apply StronglySorted_cons in Hs as [Hall _]. rewrite Forall_forall in Hall.
    apply Hall. apply list_elem_of_lookup. exists (j - S i)%nat.
    rewrite lookup_drop. by replace (S i + (j - S i))%nat with j by lia.
  - apply list_find_None in Hf. rewrite Forall_forall in Hf.
    destruct l as [|y l]; simpl; [done|]. split; [left|]. right. split.
    + intros z Hz. specialize (Hf z Hz). simpl in Hf. lia.
    + intros z Hz. apply StronglySorted_cons in Hs as [Hall _].
      rewrite Forall_forall in Hall. apply elem_of_cons in Hz as [->|Hz]; [lia|auto].
Qed.

Lemma lookup_sorted_le l a b (x y : Z) :
  StronglySorted Z.le l -> (a <= b)%nat -> l !! a = Some x -> l !! b = Some y -> x <= y.
Proof.
  intros Hs. revert a b. induction Hs as [|z l Hs IH Hall]; intros a b Hab Ha Hb; [done|].
  destruct a as [|a], b as [|b]; simpl in *; simplify_eq; [lia| |lia|].
  - rewrite Forall_forall in Hall. apply Hall. by eapply list_elem_of_lookup_2.
  - apply (IH a b); [lia|done|done].
Qed.

Lemma Get_owner h key :
  StronglySorted Z.le (ring h) -> Get h key = ownerOf h (ChecksumIEEE key).
Proof.
  intros Hs. unfold Get, ownerOf. set (x := ChecksumIEEE key).
  pose proof (successor_spec (ring h) x Hs) as Hsucc.
  destruct (ring h) as [|y0 l0] eqn:Hr; [done|]. rewrite <- Hr in *.
  set (f := fun i => x <=? default 0 (ring h !! i)).
  destruct (Search_spec (length (ring h)) f) as (Hle & Hbefore & Hat).
  { intros a b Hab. unfold f.
    destruct (lookup_lt_is_Some_2 (ring h) a) as [u Hu]; [lia|].
    destruct (lookup_lt_is_Some_2 (ring h) b) as [v Hv]; [lia|].
    rewrite Hu, Hv. simpl. pose proof (lookup_sorted_le _ a b u v Hs ltac:(lia) Hu Hv). lia. }
  set (i := Search _ f) in *.
  destruct (successor (ring h) x) as [y|] eqn:Hy; [|congruence].
  assert (Hgoal : default 0 (ring h !! (if (length (ring h) <=? i)%nat then 0%nat else i)) = y);
    [|by rewrite Hgoal].
  destruct (Nat.leb_spec (length (ring h)) i) as [Hge|Hlt].
  - apply (is_successor_unique (fun z => z ∈ ring h) x); [|done].
    rewrite Hr. simpl. split; [left|]. right. split.
    + intros z Hz. rewrite <- Hr in Hz. apply list_elem_of_lookup in Hz as [j Hj].
      assert (Hj' := lookup_lt_Some _ _ _ Hj). specialize (Hbefore j ltac:(lia)).
      unfold f in Hbefore. rewrite Hj in Hbefore. simpl in Hbefore. lia.
    + intros z Hz. rewrite <- Hr in Hz. apply list_elem_of_lookup in Hz as [j Hj].
      apply (lookup_sorted_le (ring h) 0 j); [done|lia|by rewrite Hr|done].
  - destruct (lookup_lt_is_Some_2 (ring h) i) as [u Hu]; [lia|]. rewrite Hu. simpl.
    apply (is_successor_unique (fun z => z ∈ ring h) x); [|done].
    specialize (Hat Hlt). unfold f in Hat. rewrite Hu in Hat. simpl in Hat.
    split; [by eapply list_elem_of_lookup_2|]. left. split; [lia|].
    intros z Hz Hxz. apply list_elem_of_lookup in Hz as [j Hj].
    apply (lookup_sorted_le (ring h) i j); [done| |done|done].
    destruct (decide (i <= j)%nat); [done|]. specialize (Hbefore j ltac:(lia)).
    unfold f in Hbefore. rewrite Hj in Hbefore. simpl in Hbefore. lia.
Qed.

(** ** What the operations do to the map of virtual nodes *)

Lemma foldr_delete_lookup (m : gmap Z string) ks x :
  foldr delete m ks !! x = if decide (x ∈ ks) then None else m !! x.
Proof.
  induction ks as [|k ks IH]; cbn [foldr];
    [destruct (decide _) as [H|_]; [by apply not_elem_of_nil in H|done]|].
  destruct (decide (x = k)) as [->|Hne].
  - rewrite lookup_delete_eq, decide_True; [done|set_solver].
  - rewrite lookup_delete_ne, IH by done.
    destruct (decide (x ∈ ks)); [rewrite decide_True|rewrite decide_False]; set_solver.
Qed.

Lemma removeLocked_nodes nodeID h x :
  nodes (removeLocked nodeID h) !! x =
  if decide (nodes h !! x = Some nodeID) then None else nodes h !! x.
Proof.
  unfold removeLocked. set (ks := (filter _ (map_to_list (nodes h))).*1).
  assert (Hks : x ∈ ks <-> nodes h !! x = Some nodeID).
  { unfold ks. rewrite list_elem_of_fmap. split.
    - intros ([y id] & -> & [Hid Hin]%list_elem_of_filter). simpl in *. subst.
      by apply elem_of_map_to_list.
    - intros H. exists (x, nodeID). split; [done|]. apply list_elem_of_filter.
      split; [done|]. by apply elem_of_map_to_list. }
  destruct ks as [|k ks'] eqn:Hk.
  - rewrite decide_False; [done|]. intros H. apply Hks in H. set_solver.
  - rewrite <- Hk in *. cbn [nodes]. rewrite foldr_delete_lookup.
    destruct (decide (x ∈ ks)), (decide (nodes h !! x = Some nodeID)); tauto.
Qed.

Lemma removeLocked_replicas nodeID h : replicas (removeLocked nodeID h) = replicas h.
Proof. unfold removeLocked. by case_match. Qed.

Lemma StronglySorted_filter (P : Z -> Prop) `{forall x, Decision (P x)} l :
  StronglySorted Z.le l -> StronglySorted Z.le (filter P l).
Proof.
  induction 1 as [|x l Hs IH Hall]; [constructor|]. rewrite filter_cons.
  case_decide; [|done]. constructor; [done|].
  rewrite Forall_forall in *. intros y [_ Hy]%list_elem_of_filter. auto.
Qed.

Lemma wf_removeLocked nodeID h : wf h -> wf (removeLocked nodeID h).
Proof.
  intros [H1 H2 H3 H4].
  assert (Hn := removeLocked_nodes nodeID h). assert (Hr := removeLocked_replicas nodeID h).
  split; [| |intros x id; rewrite Hn, Hr; case_decide; [done|apply H3]|by rewrite Hr].
  - unfold removeLocked. case_match; [done|]. by apply StronglySorted_filter.
  - intros x. unfold removeLocked in *. case_match; [apply H2|]. cbn [nodes ring] in *.
    rewrite list_elem_of_filter. split; [by intros []|].
    intros Hx. split; [done|]. rewrite Hn in Hx. apply H2.
    case_decide; [by destruct Hx|done].
Qed.

Lemma addReplicas nodeID h ixs :
  let hs := map (fun i => vnodeHash nodeID (Z.of_nat i)) ixs in
  let h' := foldl (addReplica nodeID) h ixs in
  ring h' = ring h ++ hs /\ replicas h' = replicas h /\ physCount h' = physCount h /\
  forall x, nodes h' !! x = if decide (x ∈ hs) then Some nodeID else nodes h !! x.
Proof.
  revert h. induction ixs as [|i ixs IH]; intros h; cbn [map foldl].
  { by rewrite app_nil_r. }
  destruct (IH (addReplica nodeID h i)) as (-> & -> & -> & Hx). unfold addReplica at 1 2 3.
  cbn [ring replicas physCount]. rewrite <- app_assoc. repeat split; auto. intros x. rewrite Hx.
  set (hs := map _ ixs). unfold addReplica. cbn [nodes].
  set (v := vnodeHash nodeID (Z.of_nat i)).
  destruct (decide (x ∈ hs)); [by rewrite decide_True by set_solver|].
  destruct (decide (x = v)) as [->|Hne].
  - rewrite lookup_insert_eq, decide_True; [done|set_solver].
  - rewrite lookup_insert_ne by done. rewrite decide_False; [done|set_solver].
Qed.

Lemma Add_spec nodeID h :
  let h0 := removeLocked nodeID h in
  let hs := vhashes (replicas h) nodeID in
  ring (Add nodeID h) = merge_sort Z.le (ring h0 ++ hs) /\
  replicas (Add nodeID h) = replicas h /\ physCount (Add nodeID h) = physCount h0 + 1 /\
  forall x, nodes (Add nodeID h) !! x = if decide (x ∈ hs) then Some nodeID else nodes h0 !! x.
Proof.
  cbv zeta. unfold Add.
  set (h1 := mkHashRing (ring (removeLocked nodeID h)) _ _ _).
  destruct (addReplicas nodeID h1 (seq 0 (Z.to_nat (replicas h1)))) as (E1 & E2 & E3 & E4).
  cbn [ring replicas physCount nodes]. rewrite E1, E2, E3.
  assert (Hr : replicas h1 = replicas h) by apply removeLocked_replicas.
  rewrite Hr in *. repeat split; auto.
Qed.

Lemma wf_Add nodeID h : wf h -> wf (Add nodeID h).
Proof.
  intros Hw. pose proof (wf_removeLocked nodeID h Hw) as [H1 H2 H3 H4].
  destruct (Add_spec nodeID h) as (E1 & E2 & _ & E4). rewrite removeLocked_replicas in *.
  split; [rewrite E1; apply (StronglySorted_merge_sort Z.le)| | |by rewrite E2].
  - intros x. rewrite E1, E4, merge_sort_Permutation, elem_of_app, H2.
    case_decide; [split; [eauto|by right]|]. tauto.
  - intros x id. rewrite E4, E2. case_decide; [by intros [= <-]|apply H3].
Qed.

Lemma wf_NewHashRing reps : wf (NewHashRing reps).
Proof.
  split; cbn; [constructor| |by intros ??; rewrite lookup_empty|case_match; lia].
  intros x. rewrite lookup_empty. split; [by intros ?%not_elem_of_nil|by intros []].
Qed.

(** ** [Get] is determined by the map of virtual nodes *)

Lemma ownerOf_spec h x :
  wf h ->
  (ring h = [] /\ ownerOf h x = "") \/
  exists y, is_successor (fun z => is_Some (nodes h !! z)) x y /\
            nodes h !! y = Some (ownerOf h x).
Proof.
  intros Hw. pose proof (successor_spec (ring h) x (wf_sorted h Hw)) as Hs.
  unfold ownerOf. destruct (successor (ring h) x) as [y|]; [right|by left].
  exists y. destruct Hs as [Hy Hs].
  assert (Hin : forall z, z ∈ ring h <-> is_Some (nodes h !! z)) by apply (wf_dom h Hw).
  split; [split; [by apply Hin|]|].
  - destruct Hs as [[H1 H2]|[H1 H2]]; [left|right]; (split; [try done|]); intros z Hz.
    + intros. apply H2; [by apply Hin|done].
    + intros. apply H1. by apply Hin.
    + apply H2. by apply Hin.
  - apply Hin in Hy as [id Hid]. by rewrite Hid.
Qed.

Lemma ownerOf_some h x y :
  wf h -> is_successor (fun z => is_Some (nodes h !! z)) x y ->
  nodes h !! y = Some (ownerOf h x).
Proof.
  intros Hw Hy. destruct (ownerOf_spec h x Hw) as [[Hnil _]|(y' & Hy' & Ho)].
  - destruct Hy as [Hy _]. apply (wf_dom h Hw) in Hy. rewrite Hnil in Hy.
    by apply not_elem_of_nil in Hy.
  - by rewrite (is_successor_unique _ _ _ _ Hy Hy').
Qed.

Lemma is_successor_iff (P Q : Z -> Prop) x y :
  (forall z, P z <-> Q z) -> is_successor P x y -> is_successor Q x y.
Proof. unfold is_successor. intros H. setoid_rewrite H. done. Qed.

(** A successor among more points, if it is one of the fewer, is theirs too. *)
Lemma is_successor_sub (P Q : Z -> Prop) x y :
  (forall z, Q z -> P z) -> Q y -> is_successor P x y -> is_successor Q x y.
Proof. unfold is_successor. intros H Hy [_ [[]|[]]]; (split; [done|]); [left|right]; auto. Qed.

(** ** Histories of a ring and the membership they stand for *)

Inductive RingOp :=
| RAdd (nodeID : string)
| RRemove (nodeID : string).

Definition applyOp (h : HashRing) (o : RingOp) : HashRing :=
  match o with RAdd id => Add id h | RRemove id => Remove id h end.

Definition applyMembers (M : gset string) (o : RingOp) : gset string :=
  match o with RAdd id => {[id]} ∪ M | RRemove id => M ∖ {[id]} end.

Definition run (h : HashRing) (ops : list RingOp) : HashRing := foldl applyOp h ops.
Definition members (ops : list RingOp) : gset string := foldl applyMembers ∅ ops.
Definition opNode (o : RingOp) : string :=
  match o with RAdd id => id | RRemove id => id end.

Lemma wf_applyOp h o : wf h -> wf (applyOp h o).
Proof. destruct o; [apply wf_Add|apply wf_removeLocked]. Qed.

Lemma wf_run h ops : wf h -> wf (run h ops).
Proof. revert h. induction ops; simpl; auto using wf_applyOp. Qed.

(** No two of the given nodes share a virtual-node hash. *)
Definition collision_free (reps : Z) (ids : list string) : Prop :=
  Forall (fun a => Forall (fun b => a = b \/
    Forall (fun x => x ∉ vhashes reps b) (vhashes reps a)) ids) ids.

Lemma collision_free_spec reps ids a b x :
  collision_free reps ids -> a ∈ ids -> b ∈ ids ->
  x ∈ vhashes reps a -> x ∈ vhashes reps b -> a = b.
Proof.
  unfold collision_free. rewrite Forall_forall. intros H Ha Hb Hxa Hxb.
  specialize (H a Ha). rewrite Forall_forall in H. destruct (H b Hb) as [|H']; [done|].
  rewrite Forall_forall in H'. by destruct (H' x Hxa).
Qed.

Lemma vhashes_nonempty reps id : 0 < reps -> exists x, x ∈ vhashes reps id.
Proof.
  intros H. exists (vnodeHash id (Z.of_nat 0)). apply list_elem_of_fmap. exists 0%nat.
  split; [done|]. apply elem_of_seq. lia.
Qed.

Record represents (h : HashRing) (M : gset string) : Prop := mkRepresents {
  rep_wf : wf h;
  rep_nodes : forall x id, nodes h !! x = Some id <-> id ∈ M /\ x ∈ vhashes (replicas h) id;
  rep_count : physCount h = Z.of_nat (size M)
}.

Lemma removeLocked_count nodeID h M :
  represents h M ->
  physCount (removeLocked nodeID h) = Z.of_nat (size (M ∖ {[nodeID]})).
Proof.
  intros [Hw Hn Hc]. unfold removeLocked.
  set (ks := (filter _ (map_to_list (nodes h))).*1).
  assert (Hks : forall x, x ∈ ks <-> nodes h !! x = Some nodeID).
  { intros x. unfold ks. rewrite list_elem_of_fmap. split.
    - intros ([y id] & -> & [Hid Hin]%list_elem_of_filter). simpl in *. subst.
      by apply elem_of_map_to_list.
    - intros H. exists (x, nodeID). split; [done|]. apply list_elem_of_filter.
      split; [done|]. by apply elem_of_map_to_list. }
  destruct (vhashes_nonempty (replicas h) nodeID (wf_replicas h Hw)) as [v Hv].
  destruct ks as [|k ks'].
  - destruct (decide (nodeID ∈ M)) as [Hin|Hnot].
    + assert (H : v ∈ ([] : list Z)) by by apply Hks, Hn. by apply not_elem_of_nil in H.
    + by rewrite Hc, difference_disjoint_L by set_solver.
  - assert (Hin : nodeID ∈ M) by by apply (Hn k), Hks; left.
    cbn [physCount]. rewrite Hc, size_difference by set_solver. rewrite size_singleton.
    assert (size M <> 0%nat) by (apply size_non_empty_iff; set_solver). lia.
Qed.

Lemma represents_removeLocked nodeID h M :
  represents h M -> represents (removeLocked nodeID h) (M ∖ {[nodeID]}).
Proof.
  intros Hr. pose proof (removeLocked_count nodeID h M Hr) as Hc. destruct Hr as [Hw Hn _].
  split; [by apply wf_removeLocked| |done].
  intros x id. rewrite removeLocked_nodes, removeLocked_replicas.
  case_decide as Hx; [|rewrite Hn].
  - split; [done|]. intros [Hid Hv]. assert (H : nodes h !! x = Some id) by (apply Hn; set_solver).
    set_solver.
  - split; [|set_solver]. intros [Hid Hv]. split; [|done].
    apply elem_of_difference. split; [done|]. intros ->%elem_of_singleton. by apply Hx, Hn.
Qed.

Lemma represents_Add nodeID h M ids :
  collision_free (replicas h) ids -> nodeID ∈ ids -> (forall id, id ∈ M -> id ∈ ids) ->
  represents h M -> represents (Add nodeID h) ({[nodeID]} ∪ M).
Proof.
  intros Hcf Hid HM Hr. pose proof (represents_removeLocked nodeID h M Hr) as [_ Hn Hc].
  destruct (Add_spec nodeID h) as (_ & E2 & E3 & E4). rewrite removeLocked_replicas in *.
  split; [apply wf_Add, Hr| |].
  - intros x id. rewrite E4, E2. case_decide as Hx; [|rewrite Hn; set_solver].
    split; [intros [= <-]; set_solver|]. intros [[->%elem_of_singleton|Hin]%elem_of_union Hv]; [done|].
    f_equal. by eapply collision_free_spec; eauto.
  - assert (Hm : {[nodeID]} ∪ M = {[nodeID]} ∪ (M ∖ {[nodeID]})).
    { apply set_eq. intros x. destruct (decide (x = nodeID)); set_solver. }
    rewrite E3, Hc, Hm, (size_union {[nodeID]} (M ∖ {[nodeID]})) by set_solver.
    rewrite size_singleton. lia.
Qed.

Lemma represents_run h M ids ops :
  collision_free (replicas h) ids -> (forall o, o ∈ ops -> opNode o ∈ ids) ->
  (forall id, id ∈ M -> id ∈ ids) -> represents h M ->
  represents (foldl applyOp h ops) (foldl applyMembers M ops).
Proof.
  intros Hcf. revert h M Hcf. induction ops as [|o ops IH]; intros h M Hcf Ho HM Hr; [done|].
  cbn [foldl]. assert (opNode o ∈ ids) by (apply Ho; left).
  apply IH; [|set_solver| |]; destruct o as [id|id]; cbn [applyOp applyMembers opNode] in *.
  - destruct (Add_spec id h) as (_ & -> & _). done.
  - unfold Remove. by rewrite removeLocked_replicas.
  - set_solver.
  - set_solver.
  - by eapply represents_Add.
  - by apply represents_removeLocked.
Qed.

Lemma represents_NewHashRing reps : represents (NewHashRing reps) ∅.
Proof.
  split; [apply wf_NewHashRing| |done].
  intros x id. cbn. rewrite lookup_empty. set_solver.
Qed.

Lemma represents_history reps ids ops :
  collision_free (replicas (NewHashRing reps)) ids ->
  (forall o, o ∈ ops -> opNode o ∈ ids) ->
  represents (run (NewHashRing reps) ops) (members ops).
Proof. intros H1 H2. apply (represents_run _ _ ids); auto using represents_NewHashRing. set_solver. Qed.

(** A ring that represents a set routes every key to a member. *)
Lemma represents_Get h M key : represents h M -> M <> ∅ -> Get h key ∈ M.
Proof.
  intros [Hw Hn Hc] [id Hid]%set_choose_L. rewrite Get_owner by (apply wf_sorted; done).
  destruct (vhashes_nonempty (replicas h) id (wf_replicas h Hw)) as [v Hv].
  assert (Hin : v ∈ ring h) by (apply (wf_dom _ Hw); exists id; by apply Hn).
  destruct (ownerOf_spec h (ChecksumIEEE key) Hw) as [[Hnil _]|(y & _ & Hy)].
  - rewrite Hnil in Hin. by apply not_elem_of_nil in Hin.
  - by apply Hn in Hy as [].
Qed.

Lemma run_replicas h ops : replicas (run h ops) = replicas h.
Proof.
  revert h. induction ops as [|o ops IH]; intros h; [done|]. cbn [run foldl]. unfold run in *.
  rewrite IH. destruct o as [id|id]; cbn [applyOp]; [|apply removeLocked_replicas].
  by destruct (Add_spec id h) as (_ & -> & _).
Qed.

(** Re-adding keeps every virtual node and gives away only to the new node. *)
Lemma Add_keeps nodeID h :
  wf h ->
  (forall z, is_Some (nodes h !! z) -> is_Some (nodes (Add nodeID h) !! z)) /\
  (forall z id, id <> nodeID -> nodes (Add nodeID h) !! z = Some id -> nodes h !! z = Some id).
Proof.
  intros Hw. destruct (Add_spec nodeID h) as (_ & _ & _ & E4).
  split; intros z; rewrite E4, removeLocked_nodes.
  - intros Hz. case_decide as Hv; [by eauto|]. case_decide as Hid; [|done].
    by destruct Hv; eapply wf_owner.
  - intros id Hne. case_decide; [by intros [= ?]|]. by case_decide.
Qed.

Lemma removeLocked_nil nodeID h : ring h = [] -> ring (removeLocked nodeID h) = [].
Proof. intros H. unfold removeLocked. case_match; [done|]. simpl. by rewrite H. Qed.

(** ** Properties *)

(** Whatever nodes were added and removed, [Get] returns the node of the
    first virtual node at or clockwise after the key's hash (the least one when
    there is none), and the empty string exactly when the ring is empty. *)
Theorem ring_get_successor reps ops key :
  let h := run (NewHashRing reps) ops in
  let x := ChecksumIEEE key in
  (ring h = [] /\ Get h key = "") \/
  exists y, is_successor (fun z => is_Some (nodes h !! z)) x y /\
            nodes h !! y = Some (Get h key).
Proof.
  cbv zeta. assert (Hw : wf (run (NewHashRing reps) ops)) by apply wf_run, wf_NewHashRing.
  rewrite Get_owner by apply Hw. by apply ownerOf_spec.
Qed.

(** Adding a node moves keys to that node only, and removing one moves
    that node's keys only: any other key keeps its gateway. *)
Theorem ring_minimal_disruption reps ops nodeID key :
  let h := run (NewHashRing reps) ops in
  (Get (Add nodeID h) key = Get h key \/ Get (Add nodeID h) key = nodeID) /\
  (Get h key = nodeID \/ Get (Remove nodeID h) key = Get h key).
Proof.
  cbv zeta. set (h := run (NewHashRing reps) ops).
  assert (Hw : wf h) by apply wf_run, wf_NewHashRing.
  assert (HwA := wf_Add nodeID h Hw). assert (HwR := wf_removeLocked nodeID h Hw).
  rewrite !Get_owner by (unfold Remove; apply wf_sorted; done).
  set (x := ChecksumIEEE key). split.
  - destruct (ownerOf_spec (Add nodeID h) x HwA) as [[Hnil _]|(y & Hy & Ho)].
    + destruct (vhashes_nonempty (replicas h) nodeID (wf_replicas h Hw)) as [v Hv].
      assert (Hin : v ∈ ring (Add nodeID h)).
      { apply (wf_dom _ HwA). destruct (Add_spec nodeID h) as (_ & _ & _ & ->).
        rewrite decide_True by done. eauto. }
      rewrite Hnil in Hin. by apply not_elem_of_nil in Hin.
    + destruct (decide (ownerOf (Add nodeID h) x = nodeID)); [by right|left].
      destruct (Add_keeps nodeID h Hw) as [Hsub Hback].
      assert (Hy' : nodes h !! y = Some (ownerOf (Add nodeID h) x)) by by apply Hback.
      assert (Hs : is_successor (fun z => is_Some (nodes h !! z)) x y)
        by (by eapply is_successor_sub; [exact Hsub| |exact Hy]; eauto).
      apply (ownerOf_some h) in Hs; [congruence|done].
  - destruct (ownerOf_spec h x Hw) as [[Hnil Ho]|(y & Hy & Ho)].
    + right. rewrite Ho. unfold ownerOf, Remove. by rewrite (removeLocked_nil nodeID h Hnil).
    + destruct (decide (ownerOf h x = nodeID)) as [|Hne]; [by left|right].
      assert (Hy' : nodes (Remove nodeID h) !! y = Some (ownerOf h x)).
      { unfold Remove. rewrite removeLocked_nodes, decide_False; [done|congruence]. }
      assert (Hs : is_successor (fun z => is_Some (nodes (Remove nodeID h) !! z)) x y).
      { eapply is_successor_sub; [|by eauto|exact Hy]. intros z. unfold Remove.
        rewrite removeLocked_nodes. case_decide; [by intros []|done]. }
      apply (ownerOf_some _ _ _ HwR) in Hs. unfold Remove in *. congruence.
Qed.

(** C36. Among nodes whose virtual nodes do not collide, the ring implements the
    set of its members: [Len] counts them and [Get] depends on nothing else, so
    gateways that learned of the same nodes in different orders, or through
    different joins and leaves, route every key alike. *)
Theorem ring_refines_members reps ids ops ops' key :
  collision_free (replicas (NewHashRing reps)) ids ->
  (forall o, o ∈ ops ++ ops' -> opNode o ∈ ids) ->
  members ops = members ops' ->
  let h := run (NewHashRing reps) ops in
  Len h = Z.of_nat (size (members ops)) /\
  (members ops <> ∅ -> Get h key ∈ members ops) /\
  Get (run (NewHashRing reps) ops') key = Get h key.
Proof.
  intros Hcf Ho Hm h.
  assert (Hr : represents h (members ops))
    by (eapply represents_history; [done|]; intros; apply Ho, elem_of_app; auto).
  assert (Hr' : represents (run (NewHashRing reps) ops') (members ops))
    by (rewrite Hm; eapply represents_history; [done|]; intros; apply Ho, elem_of_app; auto).
  set (h' := run _ ops') in *.
  split; [apply Hr|]. split; [by apply represents_Get|].
  destruct Hr as [Hw Hn Hc], Hr' as [Hw' Hn' _].
  rewrite !Get_owner by (apply wf_sorted; done). set (x := ChecksumIEEE key).
  assert (Hreps : replicas h' = replicas h) by (unfold h, h'; by rewrite !run_replicas).
  assert (Heq : nodes h' = nodes h).
  { apply map_eq. intros z. apply option_eq. intros id. by rewrite Hn, Hn', Hreps. }
  destruct (ownerOf_spec h x Hw) as [[Hnil Hy]|(y & Hs & Hy)].
  - unfold ownerOf, successor. rewrite Hnil. simpl. destruct (ring h') as [|z l] eqn:Hl.
    + done.
    + assert (Hin : z ∈ ring h') by (rewrite Hl; left).
      apply (wf_dom _ Hw') in Hin. rewrite Heq in Hin. apply (wf_dom _ Hw) in Hin.
      rewrite Hnil in Hin. by apply not_elem_of_nil in Hin.
  - rewrite <- Heq in Hs. apply (ownerOf_some h') in Hs; [|done]. congruence.
Qed.

Lemma ring_refines_members_witness :
  let ops := [RAdd "gw-1"; RAdd "gw-2"; RAdd "gw-3"; RRemove "gw-2"] in
  let ops' := [RAdd "gw-3"; RAdd "gw-1"] in
  Len (run (NewHashRing 5) ops) = 2 /\
  Get (run (NewHashRing 5) ops') "uid:7" = Get (run (NewHashRing 5) ops) "uid:7".
Proof.
  split; [by vm_compute|].
  refine (proj2 (proj2 (ring_refines_members 5 ["gw-1"; "gw-2"; "gw-3"]
    [RAdd "gw-1"; RAdd "gw-2"; RAdd "gw-3"; RRemove "gw-2"] [RAdd "gw-3"; RAdd "gw-1"]
    "uid:7" _ _ _))).
  - apply (bool_decide_unpack _). vm_compute. exact I.
  - intros o Ho. repeat (apply elem_of_cons in Ho as [->|Ho]; [simpl; set_solver|]).
    by apply not_elem_of_nil in Ho.
  - by vm_compute.
Defined.
