(* ===== verification/Dedup.v ===== *)
(** * The deduplication cache (src/internal/gateway/dedup.go)

    An in-memory map from "uid:seq" to the message id assigned to it, evicted
    by age, with optional Redis persistence through a bounded task queue.  The
    Redis client is the interface [RedisKV].  The theorems, with Redis and without:
    a retry within the TTL is recognised; what is recognised was marked as that very
    (uid, seq), or recovered from Redis before this process marked anything; after a
    cleanup no mark older than the TTL is recognised; what a restarted process
    recovers from Redis; the task queue stays bounded. *)

From S2P Require Import Prelude Proto Snowflake Process.

(** The two Redis commands the cache uses: [GET key] read as an integer, with
    every error (missing key, timeout, not an integer) one [None]; and
    [SET key value EX expire], whose error is only logged. *)
Class RedisKV (R : Type) := mkRedisKV {
  redisGet : string -> R -> option Z;
  redisSet : string -> Z -> Z -> R -> R
}.

Record dedupEntry := mkDedupEntry { de_msgID : Z; de_created : Z }.

Record redisTask := mkRedisTask { rt_key : string; rt_msgID : Z; rt_expire : Z }.

Definition redisTaskQueueCap : nat := 1024.

Record DedupCache (R : Type) := mkDedupCache {
  seen : gmap string dedupEntry;
  ttl : Z;
  redis : option R;
  redisKeyPF : string;
  redisTasks : list redisTask;
  marks : Z;
  stopped : bool
}.
Arguments mkDedupCache {R}. Arguments seen {R}. Arguments ttl {R}.
Arguments redis {R}. Arguments redisKeyPF {R}. Arguments redisTasks {R}.
Arguments marks {R}. Arguments stopped {R}.

Section Cache.
Context {E : Env} {R : Type} {RK : RedisKV R}.
Implicit Types d : DedupCache R.

Definition set_seen (m : gmap string dedupEntry) d : DedupCache R :=
  mkDedupCache m (ttl d) (redis d) (redisKeyPF d) (redisTasks d) (marks d) (stopped d).
Definition set_redis (r : option R) d : DedupCache R :=
  mkDedupCache (seen d) (ttl d) r (redisKeyPF d) (redisTasks d) (marks d) (stopped d).
Definition set_redisTasks (q : list redisTask) d : DedupCache R :=
  mkDedupCache (seen d) (ttl d) (redis d) (redisKeyPF d) q (marks d) (stopped d).
Definition set_marks (n : Z) d : DedupCache R :=
  mkDedupCache (seen d) (ttl d) (redis d) (redisKeyPF d) (redisTasks d) n (stopped d).

Definition NewDedupCache (t : Z) : DedupCache R :=
  mkDedupCache ∅ t None "im:dedup:" [] 0 false.

Definition SetRedis (rdb : R) : St (DedupCache R * Sys) unit :=
  let! d := getX in putX (set_redis (Some rdb) d).

(** [fmt.Sprintf("%s:%d", from, seq)]. *)
Definition dedupKey (from : string) (seq : Z) : string := from +:+ String ":" (itoa seq).

Definition IsDuplicate (from : string) (seq : Z) : St (DedupCache R * Sys) (bool * Z) :=
  let! d := getX in
  let key := dedupKey from seq in
  match seen d !! key with
  | Some entry => ret (true, de_msgID entry)
  | None =>
      match redis d with
      | Some r =>
          if marks d =? 0 then
            match redisGet (redisKeyPF d +:+ key) r with
            | Some val =>
                let! now := Now in
                putX (set_seen (<[key := mkDedupEntry val now]> (seen d)) d) ;;!
                ret (true, val)
            | None => ret (false, 0)
            end
          else ret (false, 0)
      | None => ret (false, 0)
      end
  end.

(** [select { case d.redisTasks <- t: default: }]. *)
Definition enqueueRedis (t : redisTask) d : DedupCache R :=
  if (length (redisTasks d) <? redisTaskQueueCap)%nat
  then set_redisTasks (redisTasks d ++ [t]) d else d.

Definition Mark (from : string) (seq msgID : Z) : St (DedupCache R * Sys) unit :=
  let key := dedupKey from seq in
  let! now := Now in
  let! d := getX in
  let d := set_seen (<[key := mkDedupEntry msgID now]> (seen d)) d in
  let d := set_marks (wrap64 (marks d + 1)) d in
  putX (if redis d
        then enqueueRedis (mkRedisTask key msgID (wrap64 (ttl d * 2))) d else d).

Definition Marks : St (DedupCache R * Sys) Z :=
  let! d := getX in ret (marks d).

(** One iteration of [redisWorker]: take a task off the queue and run it.  Once
    stopped, its [select] may still take a task before it sees the closed channel. *)
Definition redisWorker_step : St (DedupCache R * Sys) unit :=
  let! d := getX in
  match redisTasks d, redis d with
  | t :: q, Some r =>
      let! go := (if stopped d then Pick else ret true) in
      if go then
        putX (set_redisTasks q
          (set_redis (Some (redisSet (redisKeyPF d +:+ rt_key t) (rt_msgID t) (rt_expire t) r)) d))
      else ret tt
  | _, _ => ret tt
  end.

(** One tick of [cleanupLoop]. *)
Definition cleanup : St (DedupCache R * Sys) unit :=
  let! now := Now in
  let! d := getX in
  let cutoff := now - ttl d in
  putX (set_seen (filter (fun p : string * dedupEntry => ~ de_created p.2 < cutoff) (seen d)) d).

Definition Stop : St (DedupCache R * Sys) unit :=
  let! d := getX in
  putX (mkDedupCache (seen d) (ttl d) (redis d) (redisKeyPF d) (redisTasks d) (marks d) true).

(** ** Histories of the cache *)

Inductive DedupOp :=
| OpIsDuplicate (from : string) (seq : Z)
| OpMark (from : string) (seq msgID : Z)
| OpRedisWorker
| OpCleanup
| OpStop.

Definition dedup_run1 (op : DedupOp) : St (DedupCache R * Sys) unit :=
  match op with
  | OpIsDuplicate from seq => IsDuplicate from seq ;;! ret tt
  | OpMark from seq id => Mark from seq id
  | OpRedisWorker => redisWorker_step
  | OpCleanup => cleanup
  | OpStop => Stop
  end.

Definition dedup_run (ops : list DedupOp) : St (DedupCache R * Sys) unit :=
  forEach ops dedup_run1.

(** The cache as [NewDedupCache] and [SetRedis] leave it. *)
Definition startCache (ro : option R) (t : Z) : DedupCache R := set_redis ro (NewDedupCache t).

(** ** Lemmas *)

Lemma dedupKey_inj from seq from' seq' :
  dedupKey from seq = dedupKey from' seq' -> from = from' /\ seq = seq'.
Proof.
  intros [-> H]%sep_split_unique; auto using itoa_no_colon. split; [done|]. by apply itoa_inj.
Qed.

Lemma worker_run d s :
  redisWorker_step (d, s) =
  match redisTasks d, redis d with
  | t :: q, Some r =>
      let s' := if stopped d then mkSys (S (sys_tick s)) (sys_snow s) else s in
      if (if stopped d then choose E (sys_tick s) else true)
      then (tt, (set_redisTasks q (set_redis (Some (redisSet (redisKeyPF d +:+ rt_key t) (rt_msgID t) (rt_expire t) r)) d), s'))
      else (tt, (d, s'))
  | _, _ => (tt, (d, s))
  end.
Proof.
  unfold redisWorker_step. rewrite bind_run. cbn [getX gets fst snd].
  destruct (redisTasks d) as [|t q]; [done|]. destruct (redis d) as [r|]; [|done]. rewrite bind_run.
  destruct (stopped d); cbn [Pick ret fst snd]; [by destruct (choose E (sys_tick s))|done].
Qed.

(** The worker changes the queue and Redis only. *)
Lemma worker_frame d s :
  let q := (redisWorker_step (d, s)).2 in
  seen q.1 = seen d /\ ttl q.1 = ttl d /\ redisKeyPF q.1 = redisKeyPF d /\ marks q.1 = marks d /\
  (redis d = None <-> redis q.1 = None) /\ (redisTasks d = [] -> q.1 = d) /\ (sys_tick s <= sys_tick q.2)%nat.
Proof.
  rewrite worker_run. destruct (redisTasks d) as [|t q] eqn:Hq; [by cbn|]. destruct (redis d) as [r|] eqn:Hr; [|by cbn; rewrite Hr].
  cbv zeta. destruct (if stopped d then _ else true), (stopped d); cbn; rewrite ?Hr; split_and!; try done; lia.
Qed.

Lemma IsDuplicate_run from seq d s :
  IsDuplicate from seq (d, s) =
  match seen d !! dedupKey from seq, redis d with
  | Some e, _ => ((true, de_msgID e), (d, s))
  | None, Some r =>
      if marks d =? 0 then
        match redisGet (redisKeyPF d +:+ dedupKey from seq) r with
        | Some v => ((true, v), (set_seen (<[dedupKey from seq := mkDedupEntry v (readings E (sys_tick s))]> (seen d)) d,
                                 mkSys (S (sys_tick s)) (sys_snow s)))
        | None => ((false, 0), (d, s))
        end
      else ((false, 0), (d, s))
  | None, None => ((false, 0), (d, s))
  end.
Proof.
  unfold IsDuplicate, bind, getX, gets, ret. simpl. destruct (seen d !! _); [done|].
  destruct (redis d); [|done]. destruct (marks d =? 0); [|done]. by destruct (redisGet _ _).
Qed.

Lemma Mark_run from seq id d s :
  let d1 := set_marks (wrap64 (marks d + 1))
    (set_seen (<[dedupKey from seq := mkDedupEntry id (readings E (sys_tick s))]> (seen d)) d) in
  Mark from seq id (d, s) =
  (tt, (if redis d then enqueueRedis (mkRedisTask (dedupKey from seq) id (wrap64 (ttl d * 2))) d1 else d1,
        mkSys (S (sys_tick s)) (sys_snow s))).
Proof. done. Qed.

Lemma enqueueRedis_frame t d :
  seen (enqueueRedis t d) = seen d /\ ttl (enqueueRedis t d) = ttl d /\ marks (enqueueRedis t d) = marks d /\
  redis (enqueueRedis t d) = redis d /\ redisKeyPF (enqueueRedis t d) = redisKeyPF d.
Proof. unfold enqueueRedis. by case_match. Qed.

(** An entry stays through an operation that is no [Mark] of its key, unless a
    cleanup finds it too old. *)
Lemma dedup_run1_keeps op d s key e :
  (forall from seq id, op = OpMark from seq id -> dedupKey from seq <> key) ->
  seen d !! key = Some e ->
  let q := (dedup_run1 op (d, s)).2 in
  ttl q.1 = ttl d /\ (sys_tick s <= sys_tick q.2)%nat /\
  (seen q.1 !! key = Some e \/
   (sys_tick s < sys_tick q.2)%nat /\ de_created e < readings E (sys_tick s) - ttl d).
Proof.
  intros Hop He. destruct op as [from seq|from seq id| | |]; cbv zeta.
  - cbn [dedup_run1]. rewrite bind_snd, IsDuplicate_run. destruct (seen d !! dedupKey from seq) as [e'|] eqn:Hs; [by cbn; auto|].
    destruct (redis d) as [r|]; [|by cbn; auto]. destruct (marks d =? 0); [|by cbn; auto].
    destruct (redisGet _ _); cbn; [|by auto]. split; [done|]. split; [lia|]. left.
    rewrite lookup_insert_ne; [done|]. intros <-. congruence.
  - cbn [dedup_run1]. rewrite Mark_run. cbn [fst snd sys_tick]. split; [|split; [lia|left]].
    + destruct (redis d); [|done]. by rewrite (proj1 (proj2 (enqueueRedis_frame _ _))).
    + destruct (redis d); [rewrite (proj1 (enqueueRedis_frame _ _))|]; cbn; (rewrite lookup_insert_ne; [done|by eapply Hop]).
  - cbn [dedup_run1]. destruct (worker_frame d s) as (H1 & H2 & _ & _ & _ & _ & H3). rewrite H1. auto.
  - cbn [dedup_run1 cleanup]. unfold cleanup, bind, Now, getX, gets, putX, modify. cbn. split; [done|]. split; [lia|].
    rewrite map_lookup_filter, He. cbn. case_guard as Hc; cbn; [by left|right]. split; [lia|]. simpl in Hc. lia.
  - cbn. auto.
Qed.

Lemma not_mark_key op from seq :
  (forall id, op <> OpMark from seq id) ->
  forall from' seq' id, op = OpMark from' seq' id -> dedupKey from' seq' <> dedupKey from seq.
Proof. intros H from' seq' id -> [-> ->]%dedupKey_inj. by apply (H id). Qed.

Lemma dedup_run_snoc ops op p : (dedup_run (ops ++ [op]) p).2 = (dedup_run1 op (dedup_run ops p).2).2.
Proof. unfold dedup_run. by rewrite forEach_app, forEach_cons. Qed.

Lemma dedup_run_app ops1 ops2 p : (dedup_run (ops1 ++ ops2) p).2 = (dedup_run ops2 (dedup_run ops1 p).2).2.
Proof. unfold dedup_run. by rewrite forEach_app. Qed.

Lemma tick_later op d s : (sys_tick s <= sys_tick (dedup_run1 op (d, s)).2.2)%nat.
Proof.
  destruct op as [from seq|from seq id| | |]; cbn [dedup_run1]; try (cbn; lia).
  - rewrite bind_snd, IsDuplicate_run. cbn [ret snd]. repeat case_match; cbn; lia.
  - apply worker_frame.
Qed.

Lemma dedup_run_ttl ops p : ttl (dedup_run ops p).2.1 = ttl p.1.
Proof.
  induction ops as [|op ops IH] using rev_ind; [done|]. rewrite dedup_run_snoc, <-IH.
  destruct (dedup_run ops p).2 as [d s]. destruct op as [from seq|from seq id| | |]; cbn [dedup_run1]; try done.
  - rewrite bind_snd, IsDuplicate_run. cbn [ret snd]. by repeat case_match.
  - rewrite Mark_run. cbn [fst snd]. destruct (redis d); [|done]. by rewrite (proj1 (proj2 (enqueueRedis_frame _ _))).
  - apply worker_frame.
Qed.

Lemma Mark_entry from seq id d s :
  let q := (Mark from seq id (d, s)).2 in
  seen q.1 !! dedupKey from seq = Some (mkDedupEntry id (readings E (sys_tick s))) /\
  ttl q.1 = ttl d /\ sys_tick q.2 = S (sys_tick s).
Proof.
  rewrite Mark_run. cbv zeta. cbn [fst snd]. destruct (redis d).
  - destruct (enqueueRedis_frame (mkRedisTask (dedupKey from seq) id (wrap64 (ttl d * 2)))
      (set_marks (wrap64 (marks d + 1))
        (set_seen (<[dedupKey from seq := mkDedupEntry id (readings E (sys_tick s))]> (seen d)) d))) as (-> & -> & _).
    cbn. by rewrite lookup_insert_eq.
  - cbn. by rewrite lookup_insert_eq.
Qed.

(** Completeness: an entry stays while it is younger than the TTL. *)
Lemma seen_within_ttl from seq e ops d s :
  seen d !! dedupKey from seq = Some e -> (forall id, OpMark from seq id ∉ ops) ->
  (forall p, (sys_tick s <= p < sys_tick (dedup_run ops (d, s)).2.2)%nat ->
     readings E p - de_created e <= ttl d) ->
  let q := (dedup_run ops (d, s)).2 in
  seen q.1 !! dedupKey from seq = Some e /\ (sys_tick s <= sys_tick q.2)%nat.
Proof.
  induction ops as [|op ops IH] using rev_ind; intros He Hno Hin; [done|]. cbv zeta. rewrite dedup_run_snoc in *.
  assert (Hne : forall id, op <> OpMark from seq id) by (intros id ->; apply (Hno id); set_solver).
  assert (Httl : ttl (dedup_run ops (d, s)).2.1 = ttl d) by apply dedup_run_ttl.
  assert (Htk : (sys_tick (dedup_run ops (d, s)).2.2 <= sys_tick (dedup_run1 op (dedup_run ops (d, s)).2).2.2)%nat).
  { rewrite (surjective_pairing (dedup_run ops (d, s)).2) at 2. apply tick_later. }
  destruct IH as [H1 H2]; [done|set_solver|intros p Hp; apply Hin; lia|].
  destruct (dedup_run ops (d, s)).2 as [d1 s1]. cbn [fst snd] in *.
  destruct (dedup_run1_keeps op d1 s1 _ e (not_mark_key _ _ _ Hne) H1) as (_ & H3 & [H4|[H4 H5]]); [by split; [|lia]|].
  specialize (Hin (sys_tick s1) ltac:(lia)). lia.
Qed.

Lemma IsDuplicate_hit from seq id p :
  (exists e, seen p.1 !! dedupKey from seq = Some e /\ de_msgID e = id) ->
  (IsDuplicate from seq p).1 = (true, id).
Proof. intros (e & He & <-). destruct p as [d s]. rewrite IsDuplicate_run. cbn [fst] in He. by rewrite He. Qed.

(** ** Where an entry comes from *)

Definition isMark (op : DedupOp) : bool := match op with OpMark _ _ _ => true | _ => false end.
Definition noMarks (ops : list DedupOp) : Prop := Forall (fun op => isMark op = false) ops.

(** [id] is of the last [Mark] of the pair, made at position [n] of the clock. *)
Definition marked_at (x : DedupCache R * Sys) (ops : list DedupOp) (from : string) (seq id : Z) (n : nat) : Prop :=
  exists l l', ops = l ++ OpMark from seq id :: l' /\ (forall i, OpMark from seq i ∉ l') /\
    n = sys_tick (dedup_run l x).2.2.

(** The pair was never marked, and Redis held [id] for it when it was asked,
    before anything was marked. *)
Definition recovered (ro : option R) (ops : list DedupOp) (from : string) (seq id : Z) : Prop :=
  exists r, ro = Some r /\ redisGet ("im:dedup:" +:+ dedupKey from seq) r = Some id /\
    (forall i, OpMark from seq i ∉ ops) /\ exists l l', ops = l ++ OpIsDuplicate from seq :: l' /\ noMarks l.

Lemma marked_later x ops op from seq id n : (forall i, op <> OpMark from seq i) ->
  marked_at x ops from seq id n -> marked_at x (ops ++ [op]) from seq id n.
Proof.
  intros Hop (l & l' & -> & Hl & ->). exists l, (l' ++ [op]). split; [by rewrite <-app_assoc|]. split; [|done].
  intros i [H|H]%elem_of_app; [by apply (Hl i)|]. apply list_elem_of_singleton in H. by apply (Hop i).
Qed.

Lemma recovered_later ro ops op from seq id : (forall i, op <> OpMark from seq i) ->
  recovered ro ops from seq id -> recovered ro (ops ++ [op]) from seq id.
Proof.
  intros Hop (r & H1 & H2 & H3 & l & l' & -> & H4). exists r. split; [done|]. split; [done|]. split.
  - intros i [H|H]%elem_of_app; [by apply (H3 i)|]. apply list_elem_of_singleton in H. by apply (Hop i).
  - exists l, (l' ++ [op]). by rewrite <-app_assoc.
Qed.

Definition countMarks (ops : list DedupOp) : Z := Z.of_nat (length (List.filter isMark ops)).

Lemma countMarks_snoc ops op : countMarks (ops ++ [op]) = countMarks ops + (if isMark op then 1 else 0).
Proof.
  unfold countMarks. rewrite List.filter_app, length_app. destruct op; cbn; lia.
Qed.

Lemma countMarks_zero ops : countMarks ops = 0 -> noMarks ops.
Proof.
  induction ops as [|op ops IH] using rev_ind; [constructor|]. rewrite countMarks_snoc.
  assert (0 <= countMarks ops) by (unfold countMarks; lia). intros H0.
  apply Forall_app. destruct (isMark op) eqn:Hm; [lia|]. split; [apply IH; lia|by apply Forall_singleton].
Qed.

Lemma countMarks_bound ops : 0 <= countMarks ops <= Z.of_nat (length ops).
Proof. unfold countMarks. pose proof (List.filter_length_le isMark ops). lia. Qed.

Record cache_inv (ro : option R) (t : Z) (s : Sys) (ops : list DedupOp) (p : DedupCache R * Sys) : Prop := mkCacheInv {
  ci_prefix : redisKeyPF p.1 = "im:dedup:";
  ci_marks : marks p.1 = countMarks ops;
  ci_none : ro = None -> redis p.1 = None;
  ci_fresh : noMarks ops -> redis p.1 = ro /\ redisTasks p.1 = [];
  ci_seen : forall from seq e, seen p.1 !! dedupKey from seq = Some e ->
    (exists n, marked_at (startCache ro t, s) ops from seq (de_msgID e) n /\ de_created e = readings E n) \/
    recovered ro ops from seq (de_msgID e)
}.

(** A step after which the entries are among those there were. *)
Lemma entries_later ro t s ops op (m : gmap string dedupEntry) from seq e :
  (forall i, op <> OpMark from seq i) ->
  (forall from seq e, m !! dedupKey from seq = Some e ->
    (exists n, marked_at (startCache ro t, s) ops from seq (de_msgID e) n /\ de_created e = readings E n) \/
    recovered ro ops from seq (de_msgID e)) ->
  m !! dedupKey from seq = Some e ->
  (exists n, marked_at (startCache ro t, s) (ops ++ [op]) from seq (de_msgID e) n /\ de_created e = readings E n) \/
  recovered ro (ops ++ [op]) from seq (de_msgID e).
Proof.
  intros Hop Hm He. destruct (Hm from seq e He) as [(n & Hn & Hc)|Hr]; [left; exists n|right];
    [by split; [apply marked_later|]|by apply recovered_later].
Qed.

Lemma noMarks_snoc ops op : noMarks (ops ++ [op]) -> noMarks ops /\ isMark op = false.
Proof. intros H. apply Forall_app in H as [H1 H2]. split; [exact H1|]. by inversion H2. Qed.

Lemma cache_inv_step ro t s ops op : Z.of_nat (length (ops ++ [op])) < 2 ^ 63 ->
  cache_inv ro t s ops (dedup_run ops (startCache ro t, s)).2 ->
  cache_inv ro t s (ops ++ [op]) (dedup_run (ops ++ [op]) (startCache ro t, s)).2.
Proof.
  intros Hlen Hi. rewrite dedup_run_snoc. destruct (dedup_run ops (startCache ro t, s)).2 as [d s1] eqn:Hd.
  destruct Hi as [Hp Hm Hn Hf Hs]. cbn [fst] in *.
  destruct op as [from seq|from seq id| | |]; cbn [dedup_run1].
  - rewrite bind_snd, IsDuplicate_run. cbn [ret snd].
    assert (Hsame : cache_inv ro t s (ops ++ [OpIsDuplicate from seq]) (d, s1)).
    { split; cbn [fst]; [done|by rewrite countMarks_snoc, Z.add_0_r|done|intros [H _]%noMarks_snoc; auto|].
      intros f q e He. by eapply (entries_later ro t s ops _ (seen d)). }
    destruct (seen d !! dedupKey from seq) as [e'|] eqn:He'; [exact Hsame|].
    destruct (redis d) as [r|] eqn:Hr; [|exact Hsame]. destruct (marks d =? 0) eqn:Hz; [|exact Hsame].
    destruct (redisGet _ _) as [v|] eqn:Hg; [|exact Hsame]. destruct Hsame as [S1 S2 S3 S4 S5].
    rewrite Hm in Hz. apply Z.eqb_eq, countMarks_zero in Hz. destruct (Hf Hz) as [Hro _].
    split; try done. cbn [fst snd seen set_seen]. intros f q e.
    destruct (decide (dedupKey f q = dedupKey from seq)) as [Hk|Hk]; [|rewrite lookup_insert_ne by congruence; by apply S5].
    rewrite Hk, lookup_insert_eq. intros [= <-]. apply dedupKey_inj in Hk as [-> ->]. right. exists r. rewrite Hp in Hg.
    split; [congruence|]. split; [done|]. split; [|by exists ops, []].
    intros i [H|H]%elem_of_app; [|set_solver]. by apply (proj1 (Forall_forall _ _) Hz) in H.
  - rewrite Mark_run. cbn [snd]. set (d1 := set_marks _ _).
    assert (Hd1 : seen d1 = <[dedupKey from seq := mkDedupEntry id (readings E (sys_tick s1))]> (seen d)) by done.
    assert (Hfr : exists d2, (if redis d then enqueueRedis (mkRedisTask (dedupKey from seq) id (wrap64 (ttl d * 2))) d1 else d1) = d2 /\
      seen d2 = seen d1 /\ marks d2 = marks d1 /\ redis d2 = redis d1 /\ redisKeyPF d2 = redisKeyPF d1).
    { destruct (redis d); [|by exists d1]. eexists. split; [done|]. destruct (enqueueRedis_frame
        (mkRedisTask (dedupKey from seq) id (wrap64 (ttl d * 2))) d1) as (H1 & _ & H2 & H3 & H4). auto. }
    destruct Hfr as (d2 & -> & F1 & F2 & F3 & F4). split; cbn [fst].
    + by rewrite F4.
    + rewrite F2, countMarks_snoc. cbn [isMark]. unfold d1. cbn [marks set_marks]. rewrite Hm. apply wrap64_id.
      rewrite length_app in Hlen. cbn in Hlen. pose proof (countMarks_bound ops). unfold in_int64. lia.
    + by rewrite F3.
    + by intros [_ H]%noMarks_snoc.
    + rewrite F1, Hd1. intros f q e. destruct (decide (dedupKey f q = dedupKey from seq)) as [Hk|Hk].
      * rewrite Hk, lookup_insert_eq. intros [= <-]. apply dedupKey_inj in Hk as [-> ->]. left. exists (sys_tick s1).
        split; [|done]. exists ops, []. split; [done|]. split; [set_solver|]. by rewrite Hd.
      * rewrite lookup_insert_ne by congruence. intros He. eapply (entries_later ro t s ops _ (seen d)); [|done..]. intros i [= -> -> _]. done.
  - destruct (worker_frame d s1) as (H1 & H2 & H3 & H4 & H5 & H6 & _). split.
    + by rewrite H3.
    + by rewrite H4, countMarks_snoc, Z.add_0_r.
    + intros H. apply H5. auto.
    + intros [H _]%noMarks_snoc. destruct (Hf H) as [F1 F2]. by rewrite (H6 F2).
    + rewrite H1. intros f q e He. by eapply (entries_later ro t s ops _ (seen d)).
  - split; cbn; [done|by rewrite countMarks_snoc, Z.add_0_r|done|intros [H _]%noMarks_snoc; auto|].
    intros f q e He. apply map_lookup_filter_Some in He as [He _]. by eapply (entries_later ro t s ops _ (seen d)).
  - split; cbn; [done|by rewrite countMarks_snoc, Z.add_0_r|done|intros [H _]%noMarks_snoc; auto|].
    intros f q e He. by eapply (entries_later ro t s ops _ (seen d)).
Qed.

Lemma dedup_inv ro t s ops : Z.of_nat (length ops) < 2 ^ 63 ->
  cache_inv ro t s ops (dedup_run ops (startCache ro t, s)).2.
Proof.
  induction ops as [|op ops IH] using rev_ind; intros Hl.
  - by split.
  - apply cache_inv_step; [done|]. apply IH. rewrite length_app in Hl. cbn in Hl. lia.
Qed.

(** The task queue never exceeds its capacity, and its tasks carry twice the
    TTL. *)
Definition tasks_ok d : Prop :=
  (length (redisTasks d) <= redisTaskQueueCap)%nat /\
  Forall (fun t => rt_expire t = wrap64 (ttl d * 2)) (redisTasks d).

Lemma enqueueRedis_ok t d :
  tasks_ok d -> rt_expire t = wrap64 (ttl d * 2) -> tasks_ok (enqueueRedis t d).
Proof.
  unfold enqueueRedis. intros [Hl Hf] Ht. case_match eqn:Hc; [|done].
  apply Nat.ltb_lt in Hc. split; simpl.
  - rewrite length_app. simpl. lia.
  - apply Forall_app. split; [done|]. by repeat constructor.
Qed.

Lemma dedup_run1_tasks op d s : tasks_ok d -> tasks_ok (dedup_run1 op (d, s)).2.1.
Proof.
  intros Hd. destruct op as [from seq|from seq id| | |]; simpl.
  - unfold IsDuplicate, bind, getX, gets, ret. simpl.
    destruct (seen d !! _); [done|]. destruct (redis d); [|done].
    destruct (marks d =? 0); [|done]. by destruct (redisGet _ _).
  - destruct (redis d); [|done]. by apply enqueueRedis_ok.
  - rewrite worker_run. destruct (redisTasks d) as [|t q] eqn:Hq; [done|]. destruct (redis d); [|done].
    cbv zeta. destruct (if stopped d then _ else true); [|done]. destruct Hd as [Hl Hf]. rewrite Hq in *.
    apply Forall_cons in Hf as [Ht Hf]. split; simpl in *; [lia|done].
  - done.
  - done.
Qed.

Lemma dedup_run_tasks ops d s : tasks_ok d -> tasks_ok (dedup_run ops (d, s)).2.1.
Proof.
  revert d s. induction ops as [|op ops IH]; intros d s Hd; [done|].
  unfold dedup_run. rewrite forEach_cons.
  pose proof (dedup_run1_tasks op d s Hd) as H.
  destruct (dedup_run1 op (d, s)).2 as [d' s']. by apply IH.
Qed.

(** ** Properties *)

(** C35. The deduplication contract, with Redis or without, after any history of
    lookups, marks, Redis writes, cleanups and stops.  A retry is recognised with
    the id of the last [Mark] of its very (uid, seq) for as long as no clock
    reading since is more than the TTL past it.  Whatever is recognised has the id
    of the last [Mark] of its pair or, for a pair this process never marked, the id
    that Redis held when it was asked before the first mark; so no other sender or
    sequence number ever shadows a pair.  And right after a cleanup only marks of
    the last TTL are recognised. *)
Theorem dedup_contract ro t s ops from seq id :
  Z.of_nat (length ops) < 2 ^ 63 ->
  let start := (startCache ro t, s) in
  let st := (dedup_run ops start).2 in
  (forall n, marked_at start ops from seq id n ->
     (forall p, (n <= p < sys_tick st.2)%nat -> readings E p - readings E n <= t) ->
     (IsDuplicate from seq st).1 = (true, id)) /\
  ((IsDuplicate from seq st).1 = (true, id) ->
   (exists n, marked_at start ops from seq id n /\
      forall ops', ops = ops' ++ [OpCleanup] ->
        readings E (sys_tick (dedup_run ops' start).2.2) - t <= readings E n) \/
   recovered ro (ops ++ [OpIsDuplicate from seq]) from seq id).
Proof.
  intros Hlen start st. split.
  - intros n (l & l' & Hops & Hno & ->) Hwin. apply IsDuplicate_hit. unfold st in *. rewrite Hops in *.
    replace (l ++ OpMark from seq id :: l') with ((l ++ [OpMark from seq id]) ++ l') in * by by rewrite <-app_assoc.
    rewrite dedup_run_app, dedup_run_snoc in *.
    assert (Ht1 : ttl (dedup_run l start).2.1 = t) by apply dedup_run_ttl.
    destruct (dedup_run l start).2 as [d1 s1]. cbn [fst snd] in *.
    destruct (Mark_entry from seq id d1 s1) as (M1 & M2 & M3). cbn [dedup_run1] in *.
    destruct (Mark from seq id (d1, s1)).2 as [d2 s2]. cbn [fst snd] in *.
    exists (mkDedupEntry id (readings E (sys_tick s1))). split; [|done].
    apply seen_within_ttl; [done|done|]. intros p Hp. cbn. rewrite M2, Ht1. apply Hwin. rewrite M3 in Hp. cbn in Hp. lia.
  - pose proof (dedup_inv ro t s ops Hlen) as Hi. fold start st in Hi.
    assert (Hyoung : forall ops' e, ops = ops' ++ [OpCleanup] -> seen st.1 !! dedupKey from seq = Some e ->
      readings E (sys_tick (dedup_run ops' start).2.2) - t <= de_created e).
    { intros ops' e Hops. unfold st. rewrite Hops, dedup_run_snoc.
      assert (Ht1 : ttl (dedup_run ops' start).2.1 = t) by apply dedup_run_ttl.
      destruct (dedup_run ops' start).2 as [d1 s1]. cbn in *. rewrite <-Ht1. intros He.
      apply map_lookup_filter_Some in He as [_ He]. simpl in He. lia. }
    destruct Hi as [Hp Hm _ Hf Hs]. destruct st as [d s'] eqn:Hst. cbn [fst] in *. rewrite IsDuplicate_run.
    destruct (seen d !! dedupKey from seq) as [e|] eqn:He.
    + intros [= <-]. destruct (Hs from seq e He) as [(n & Hn & Hc)|Hr]; [left; exists n; split; [done|]|right].
      * intros ops' Hops. rewrite <-Hc. by apply Hyoung.
      * by apply recovered_later.
    + destruct (redis d) as [r|] eqn:Hr; [|done]. destruct (marks d =? 0) eqn:Hz; [|done].
      destruct (redisGet _ _) as [v|] eqn:Hg; [|done]. intros [= <-]. right.
      rewrite Hm in Hz. apply Z.eqb_eq, countMarks_zero in Hz. destruct (Hf Hz) as [Hro _]. exists r.
      rewrite Hp in Hg. split; [congruence|]. split; [done|]. split; [|by exists ops, []].
      intros i [H|H]%elem_of_app; [|set_solver]. by apply (proj1 (Forall_forall _ _) Hz) in H.
Qed.

(** With Redis: a local miss consults Redis only while this process has not
    marked any message, so after a restart the first mark ends the recovery and
    an older message that Redis still holds is accepted again as new; before
    that mark it is recognised and the entry is put back in memory.  The task
    queue stays within its 1024 entries, each with twice the TTL. *)
Theorem dedup_restart_recovery from seq val t r ops s :
  redisGet ("im:dedup:" +:+ dedupKey from seq) r = Some val ->
  let fresh := (SetRedis r (NewDedupCache t, s)).2 in
  let st := (dedup_run ops fresh).2 in
  (IsDuplicate from seq fresh).1 = (true, val) /\
  seen (IsDuplicate from seq fresh).2.1 !! dedupKey from seq =
    Some (mkDedupEntry val (readings E (sys_tick s))) /\
  (marks st.1 <> 0 -> seen st.1 !! dedupKey from seq = None ->
   (IsDuplicate from seq st).1 = (false, 0)) /\
  (length (redisTasks st.1) <= redisTaskQueueCap)%nat /\
  Forall (fun k => rt_expire k = wrap64 (t * 2)) (redisTasks st.1).
Proof.
  intros Hget fresh st.
  assert (Hf : IsDuplicate from seq fresh = ((true, val),
    (set_seen {[dedupKey from seq := mkDedupEntry val (readings E (sys_tick s))]} fresh.1,
     mkSys (S (sys_tick s)) (sys_snow s)))).
  { unfold IsDuplicate, bind, getX, gets, ret. cbn [fst snd fresh SetRedis].
    simpl. rewrite lookup_empty. by rewrite Hget. }
  rewrite Hf. split; [done|]. split; [apply lookup_insert_eq|]. split.
  - intros Hm Hs. destruct st as [d s']. simpl in *.
    unfold IsDuplicate, bind, getX, gets, ret. simpl. rewrite Hs.
    destruct (redis d); [|done]. by apply Z.eqb_neq in Hm as ->.
  - assert (H0 : tasks_ok fresh.1) by (split; simpl; [lia|constructor]).
    pose proof (dedup_run_tasks ops fresh.1 fresh.2 H0) as [H1 H2].
    pose proof (dedup_run_ttl ops fresh) as H3.
    unfold st. rewrite <- (surjective_pairing fresh) in *. rewrite H3 in H2. done.
Qed.

End Cache.

(** A Redis that is a finite map of strings to integers. *)
Definition mapRedis : RedisKV (gmap string Z) :=
  mkRedisKV _ (fun k r => r !! k) (fun k v _ r => <[k := v]> r).

Definition demoSys : Sys := mkSys 0 (mkGenerator 1 0 0).

(** A restart with Redis: one retry is recovered, one message is marked. *)
Definition demoHistory : list DedupOp :=
  [OpIsDuplicate "u1" 6; OpMark "u1" 7 42; OpRedisWorker; OpMark "u1" 8 43; OpMark "u1:7" 7 44; OpCleanup].

Definition demoCache : DedupCache (gmap string Z) * Sys :=
  (startCache (Some {[ "im:dedup:u1:6" := 41 ]}) 300000000000, demoSys).

Lemma demo_marked : marked_at (E := steadyEnv) (RK := mapRedis) demoCache demoHistory "u1" 7 42 1.
Proof.
  exists [OpIsDuplicate "u1" 6], [OpRedisWorker; OpMark "u1" 8 43; OpMark "u1:7" 7 44; OpCleanup].
  split; [reflexivity|]. split; [|reflexivity]. intros i. rewrite !elem_of_cons, elem_of_nil. naive_solver.
Qed.

Lemma demo_young p : (1 <= p < 5)%nat -> readings steadyEnv p - readings steadyEnv 1 <= 300000000000.
Proof. simpl. unfold steadyClock. lia. Qed.

Lemma dedup_contract_witness :
  (IsDuplicate (E := steadyEnv) (RK := mapRedis) "u1" 7
    (dedup_run (E := steadyEnv) (RK := mapRedis) demoHistory demoCache).2).1 = (true, 42).
Proof.
  apply (proj1 (dedup_contract (E := steadyEnv) (RK := mapRedis) (Some {[ "im:dedup:u1:6" := 41 ]}) 300000000000 demoSys
    demoHistory "u1" 7 42 ltac:(reflexivity)) 1%nat demo_marked). exact demo_young.
Defined.

Lemma dedup_restart_recovery_witness :
  (IsDuplicate (E := steadyEnv) (RK := mapRedis) "u1" 7
    (dedup_run (E := steadyEnv) (RK := mapRedis) [OpMark "u2" 1 50]
      (SetRedis {[ "im:dedup:u1:7" := 42 ]} (NewDedupCache 300000000000, demoSys)).2).2).1
  = (false, 0).
Proof.
  refine (proj1 (proj2 (proj2 (dedup_restart_recovery (E := steadyEnv) (RK := mapRedis)
    "u1" 7 42 300000000000 {[ "im:dedup:u1:7" := 42 ]} [OpMark "u2" 1 50] demoSys _))) _ _).
  - by vm_compute.
  - by vm_compute.
  - by vm_compute.
Defined.
