(* ===== verification/RateLimiter.v ===== *)
(** * The token-bucket rate limiter (src/internal/gateway/rate_limiter.go)

    Token counts are IEEE-754 binary64 numbers, computed by the Standard
    Library's executable specification of floating-point arithmetic (53 bits
    of precision, exponents up to 1024, round to nearest even), so every
    rounding of the code is in the model.  The theorems: users do not affect one
    another; the counters count every call; from a full bucket exactly [burst]
    calls pass before time moves, then a refill of whole seconds passes as many
    as the rate says. *)

From Stdlib Require Import SpecFloat.
From S2P Require Import Prelude Proto Snowflake Process.

(** ** The float64 operations the code uses *)

Definition float64 : Type := spec_float.
Definition prec : Z := 53.
Definition emax : Z := 1024.

(** [float64(z)] for an integer [z]. *)
Definition of_int (z : Z) : float64 := binary_normalize prec emax z 0 false.
Definition fadd (x y : float64) : float64 := SFadd prec emax x y.
Definition fsub (x y : float64) : float64 := SFsub prec emax x y.
Definition fmul (x y : float64) : float64 := SFmul prec emax x y.
Definition fdiv (x y : float64) : float64 := SFdiv prec emax x y.
Definition fgt (x y : float64) : bool := SFltb y x.
Definition fge (x y : float64) : bool := SFleb y x.

#[global] Arguments of_int : simpl never.
#[global] Arguments fsub : simpl never.
#[global] Arguments fge : simpl never.
#[global] Arguments fgt : simpl never.

Definition Second : Z := 1000000000.
Definition Minute : Z := 60 * Second.

(** [t.Sub(u)] of package time saturates at the range of a Duration. *)
Definition timeSub (t u : Z) : Z :=
  if t - u <? - 2 ^ 63 then - 2 ^ 63
  else if 2 ^ 63 - 1 <? t - u then 2 ^ 63 - 1 else t - u.

(** [d.Seconds()]. *)
Definition Seconds (d : Z) : float64 :=
  fadd (of_int (Z.quot d Second)) (fdiv (of_int (Z.rem d Second)) (of_int 1000000000)).

(** ** The limiter *)

Record rateBucket := mkRateBucket { tokens : float64; lastTime : Z }.

Record RateLimiter := mkRateLimiter {
  buckets : gmap string rateBucket;
  rate : float64;
  burst : Z;
  interval : Z;
  allowed : Z;
  rejected : Z
}.

Definition set_buckets (b : gmap string rateBucket) (rl : RateLimiter) : RateLimiter :=
  mkRateLimiter b (rate rl) (burst rl) (interval rl) (allowed rl) (rejected rl).
Definition addAllowed (rl : RateLimiter) : RateLimiter :=
  mkRateLimiter (buckets rl) (rate rl) (burst rl) (interval rl)
    (wrap64 (allowed rl + 1)) (rejected rl).
Definition addRejected (rl : RateLimiter) : RateLimiter :=
  mkRateLimiter (buckets rl) (rate rl) (burst rl) (interval rl)
    (allowed rl) (wrap64 (rejected rl + 1)).

Definition NewRateLimiter (rt bst cleanupInterval : Z) : RateLimiter :=
  let cleanupInterval := if cleanupInterval <=? 0 then 5 * Minute else cleanupInterval in
  mkRateLimiter ∅ (of_int rt) bst cleanupInterval 0 0.

(** The tokens of a bucket once the time since its last use is credited. *)
Definition refill (rl : RateLimiter) (b : rateBucket) (now : Z) : float64 :=
  let elapsed := Seconds (timeSub now (lastTime b)) in
  let t := fadd (tokens b) (fmul elapsed (rate rl)) in
  if fgt t (of_int (burst rl)) then of_int (burst rl) else t.

Section Limiter.
Context {E : Env}.

Definition Allow (uid : string) : St (RateLimiter * Sys) bool :=
  let! rl := getX in
  let! now := Now in
  match buckets rl !! uid with
  | None =>
      let b := mkRateBucket (fsub (of_int (burst rl)) (of_int 1)) now in
      putX (addAllowed (set_buckets (<[uid := b]> (buckets rl)) rl)) ;;! ret true
  | Some b =>
      let t := refill rl b now in
      if fge t (of_int 1) then
        let b' := mkRateBucket (fsub t (of_int 1)) now in
        putX (addAllowed (set_buckets (<[uid := b']> (buckets rl)) rl)) ;;! ret true
      else
        let b' := mkRateBucket t now in
        putX (addRejected (set_buckets (<[uid := b']> (buckets rl)) rl)) ;;! ret false
  end.

(** One tick of [cleanupLoop]. *)
Definition cleanup : St (RateLimiter * Sys) unit :=
  let! rl := getX in
  let! now := Now in
  putX (set_buckets (filter (fun p : string * rateBucket =>
    ~ interval rl < timeSub now (lastTime p.2)) (buckets rl)) rl).

Definition Allowed : St (RateLimiter * Sys) Z := let! rl := getX in ret (allowed rl).
Definition Rejected : St (RateLimiter * Sys) Z := let! rl := getX in ret (rejected rl).

(** The verdicts of a sequence of calls. *)
Fixpoint allowAll (uids : list string) : St (RateLimiter * Sys) (list bool) :=
  match uids with
  | [] => ret []
  | uid :: uids' => let! v := Allow uid in let! vs := allowAll uids' in ret (v :: vs)
  end.

(** ** Lemmas *)

Lemma Allow_frame uid rl s :
  let r := Allow uid (rl, s) in
  rate r.2.1 = rate rl /\ burst r.2.1 = burst rl /\ interval r.2.1 = interval rl /\
  r.2.2 = mkSys (S (sys_tick s)) (sys_snow s) /\
  (forall uid', uid' <> uid -> buckets r.2.1 !! uid' = buckets rl !! uid') /\
  (allowed r.2.1, rejected r.2.1) =
    if r.1 then (wrap64 (allowed rl + 1), rejected rl) else (allowed rl, wrap64 (rejected rl + 1)).
Proof.
  unfold Allow, bind, getX, gets, Now. simpl.
  destruct (buckets rl !! uid) as [b|]; [case_match|]; simpl;
    repeat split; auto; intros uid' Hne; by rewrite lookup_insert_ne.
Qed.

(** The verdict on a user depends on that user's bucket, the configuration and
    the clock only. *)
Lemma Allow_local uid rl rl' s :
  rate rl = rate rl' -> burst rl = burst rl' -> buckets rl !! uid = buckets rl' !! uid ->
  (Allow uid (rl, s)).1 = (Allow uid (rl', s)).1 /\
  buckets (Allow uid (rl, s)).2.1 !! uid = buckets (Allow uid (rl', s)).2.1 !! uid.
Proof.
  intros Hr Hb Hu. unfold Allow, bind, getX, gets, Now. simpl. rewrite Hu.
  unfold refill. rewrite Hr, Hb. set (now := readings E (sys_tick s)).
  destruct (buckets rl' !! uid) as [b|]; simpl; [case_match; simpl|]; by rewrite !lookup_insert_eq.
Qed.

End Limiter.

(** ** Whole numbers of tokens *)

Fixpoint all_below (n : nat) (f : Z -> bool) : bool :=
  match n with
  | O => true
  | S n' => f (Z.of_nat n') && all_below n' f
  end.

Lemma all_below_spec n f z : all_below n f = true -> 0 <= z < Z.of_nat n -> f z = true.
Proof.
  induction n as [|n IH]; simpl; [lia|]. intros [H1 H2]%andb_prop Hz.
  destruct (decide (z = Z.of_nat n)) as [->|]; [done|]. apply IH; [done|lia].
Qed.

Definition float_eqb (x y : float64) : bool :=
  match x, y with
  | S754_zero s, S754_zero s' => Bool.eqb s s'
  | S754_finite s m e, S754_finite s' m' e' => Bool.eqb s s' && Pos.eqb m m' && Z.eqb e e'
  | _, _ => false
  end.

Lemma float_eqb_eq x y : float_eqb x y = true -> x = y.
Proof.
  destruct x, y; simpl; try done.
  - by intros ->%Bool.eqb_prop.
  - intros [[->%Bool.eqb_prop ->%Pos.eqb_eq]%andb_prop ->%Z.eqb_eq]%andb_prop. done.
Qed.

(** The arithmetic of up to 256 whole tokens and of rates up to 256 per second
    is exact: taking one token, a refill after no time, a refill after one
    second from empty, and the two comparisons. *)
Definition whole_ok (n : Z) : bool :=
  float_eqb (fsub (of_int (n + 1)) (of_int 1)) (of_int n) &&
  fge (of_int (n + 1)) (of_int 1) &&
  float_eqb (fmul (Seconds 0) (of_int (n + 1))) (of_int 0) &&
  float_eqb (fadd (of_int n) (of_int 0)) (of_int n) &&
  float_eqb (fmul (Seconds Second) (of_int n)) (of_int n) &&
  float_eqb (fadd (of_int 0) (of_int n)) (of_int n).

Definition compare_ok (n m : Z) : bool :=
  Bool.eqb (fgt (of_int n) (of_int m)) (m <? n).

Lemma whole_check : all_below 257 whole_ok = true.
Proof. vm_compute. reflexivity. Qed.

Lemma compare_check : all_below 257 (fun n => all_below 257 (compare_ok n)) = true.
Proof. vm_compute. reflexivity. Qed.

Lemma whole_facts n :
  0 <= n <= 256 ->
  fsub (of_int (n + 1)) (of_int 1) = of_int n /\
  fge (of_int (n + 1)) (of_int 1) = true /\
  fmul (Seconds 0) (of_int (n + 1)) = of_int 0 /\
  fadd (of_int n) (of_int 0) = of_int n /\
  fmul (Seconds Second) (of_int n) = of_int n /\
  fadd (of_int 0) (of_int n) = of_int n.
Proof.
  intros Hn. pose proof (all_below_spec 257 whole_ok n whole_check ltac:(lia)) as H.
  unfold whole_ok in H. rewrite !andb_true_iff in H.
  destruct H as (((((H1 & H2) & H3) & H4) & H5) & H6).
  repeat split; auto using float_eqb_eq.
Qed.

Lemma compare_facts n m :
  0 <= n <= 256 -> 0 <= m <= 256 -> fgt (of_int n) (of_int m) = (m <? n).
Proof.
  intros Hn Hm. pose proof (all_below_spec 257 _ n compare_check ltac:(lia)) as H.
  cbv beta in H. apply (all_below_spec 257 _ m) in H; [|lia]. by apply Bool.eqb_prop.
Qed.

(** A limiter of the given whole rate and burst. *)
Definition configured (rt bst : Z) (rl : RateLimiter) : Prop :=
  rate rl = of_int rt /\ burst rl = bst /\ 1 <= rt <= 256 /\ 1 <= bst <= 256.

Lemma refill_same rt bst rl k T :
  configured rt bst rl -> 0 <= k <= bst ->
  refill rl (mkRateBucket (of_int k) T) T = of_int k.
Proof.
  intros (Hr & Hb & Hrt & Hbst) Hk. unfold refill. cbn [lastTime tokens].
  replace (timeSub T T) with 0 by (unfold timeSub; rewrite Z.sub_diag; done).
  rewrite Hr, Hb. destruct (whole_facts (rt - 1)) as (_ & _ & H3 & _); [lia|].
  replace (rt - 1 + 1) with rt in H3 by lia. rewrite H3.
  destruct (whole_facts k) as (_ & _ & _ & H4 & _); [lia|]. rewrite H4.
  rewrite compare_facts by lia. by replace (bst <? k) with false by lia.
Qed.

Lemma refill_second rt bst rl T :
  configured rt bst rl ->
  refill rl (mkRateBucket (of_int 0) T) (T + Second) = of_int (rt `min` bst).
Proof.
  intros (Hr & Hb & Hrt & Hbst). unfold refill. cbn [lastTime tokens].
  replace (timeSub (T + Second) T) with Second
    by (unfold timeSub; replace (T + Second - T) with Second by lia; done).
  rewrite Hr, Hb. destruct (whole_facts rt) as (_ & _ & _ & _ & H5 & H6); [lia|].
  rewrite H5, H6, compare_facts by lia. destruct (Z.ltb_spec bst rt); f_equal; lia.
Qed.

Section Bursts.
Context {E : Env}.

(** The verdicts of [n] calls when [k] whole tokens are available. *)
Definition verdicts (n k : nat) : list bool :=
  replicate (n `min` k) true ++ replicate (n - k) false.

Lemma verdicts_S n k : verdicts (S n) (S k) = true :: verdicts n k.
Proof. done. Qed.

Lemma verdicts_0 n : verdicts (S n) 0 = false :: verdicts n 0.
Proof. unfold verdicts. rewrite !Nat.min_0_r, !Nat.sub_0_r. done. Qed.

Definition at_instant (T : Z) (n : nat) (s : Sys) : Prop :=
  forall p, (sys_tick s <= p < sys_tick s + n)%nat -> readings E p = T.

Lemma at_instant_S T n s :
  at_instant T (S n) s ->
  readings E (sys_tick s) = T /\ at_instant T n (mkSys (S (sys_tick s)) (sys_snow s)).
Proof. intros H. split; [apply H; lia|]. intros p Hp. apply H. simpl in *. lia. Qed.

Lemma Allow_configured uid rt bst rl s :
  configured rt bst rl -> configured rt bst (Allow uid (rl, s)).2.1.
Proof.
  intros (H1 & H2 & H3 & H4). destruct (Allow_frame uid rl s) as (Hr & Hb & _).
  split; [congruence|]. split; [congruence|]. done.
Qed.

(** [n] calls at one instant, from a bucket worth [k] tokens at that instant. *)
Lemma burst_from uid rt bst T n k rl b s :
  configured rt bst rl -> Z.of_nat k <= bst ->
  buckets rl !! uid = Some b -> refill rl b T = of_int (Z.of_nat k) ->
  at_instant T n s ->
  let r := allowAll (replicate n uid) (rl, s) in
  r.1 = verdicts n k /\ configured rt bst r.2.1 /\
  sys_tick r.2.2 = (sys_tick s + n)%nat /\
  buckets r.2.1 !! uid = Some
    (match n with O => b | _ => mkRateBucket (of_int (Z.of_nat (k - n))) T end).
Proof.
  revert k rl b s. induction n as [|n IH]; intros k rl b s Hc Hk Hb Hf HT; simpl.
  { split; [done|]. split; [done|]. split; [lia|done]. }
  apply at_instant_S in HT as [HT HT']. pose proof Hc as (Hr & Hbu & Hrt & Hbst).
  set (res := Allow uid (rl, s)).
  assert (Hstep : res.1 = (0 <? Z.of_nat k) /\
    buckets res.2.1 !! uid = Some (mkRateBucket (of_int (Z.of_nat (k - 1))) T)).
  { unfold res, Allow, bind, getX, gets, Now. simpl. rewrite Hb, HT, Hf.
    destruct k as [|k].
    - replace (fge (of_int (Z.of_nat 0)) (of_int 1)) with false by (vm_compute; done).
      simpl. by rewrite lookup_insert_eq.
    - destruct (whole_facts (Z.of_nat k)) as (H1 & H2 & _); [lia|].
      replace (Z.of_nat k + 1) with (Z.of_nat (S k)) in * by lia.
      rewrite H2, H1. simpl. rewrite lookup_insert_eq, Nat.sub_0_r. split; [symmetry; apply Z.ltb_lt; lia|done]. }
  destruct Hstep as [Hv Hb'].
  assert (Hc' := Allow_configured uid rt bst rl s Hc). fold res in Hc'.
  assert (Ht : res.2.2 = mkSys (S (sys_tick s)) (sys_snow s)) by apply Allow_frame.
  unfold bind. fold res. destruct res as [v [rl' s']]. simpl in *. subst v s'.
  destruct (IH (k - 1)%nat rl' _ (mkSys (S (sys_tick s)) (sys_snow s)) Hc' ltac:(lia) Hb')
    as (H1 & H2 & H3 & H4); [by eapply refill_same; [exact Hc'|lia]|done|].
  destruct (allowAll (replicate n uid) _) as [vs [rl'' s'']]. simpl in *.
  split; [|split; [done|split; [lia|]]].
  - rewrite H1. destruct k as [|k]; [by rewrite verdicts_0|].
    rewrite verdicts_S. simpl. by rewrite Nat.sub_0_r.
  - rewrite H4. destruct n as [|n]; do 3 f_equal; lia.
Qed.

Lemma allowAll_S uid n rl s :
  allowAll (replicate (S n) uid) (rl, s) =
  let r := Allow uid (rl, s) in
  let r' := allowAll (replicate n uid) r.2 in (r.1 :: r'.1, r'.2).
Proof.
  simpl. unfold bind. destruct (Allow uid (rl, s)) as [v p]. simpl.
  by destruct (allowAll _ p).
Qed.

(** The first call of a user opens a full bucket and takes one token. *)
Lemma burst_first uid rt bst ci T n s :
  1 <= rt <= 256 -> 1 <= bst <= 256 -> at_instant T (S n) s ->
  let r := allowAll (replicate (S n) uid) (NewRateLimiter rt bst ci, s) in
  r.1 = verdicts (S n) (Z.to_nat bst) /\ configured rt bst r.2.1 /\
  sys_tick r.2.2 = (sys_tick s + S n)%nat /\
  buckets r.2.1 !! uid = Some (mkRateBucket (of_int (Z.of_nat (Z.to_nat bst - S n))) T).
Proof.
  intros Hrt Hbst HT. cbv zeta. rewrite allowAll_S. apply at_instant_S in HT as [HT HT'].
  set (k := (Z.to_nat bst - 1)%nat). set (rl := NewRateLimiter rt bst ci).
  assert (Hc : configured rt bst rl) by done.
  set (b' := mkRateBucket (of_int (Z.of_nat k)) T).
  assert (Hstep : (Allow uid (rl, s)).1 = true /\ buckets (Allow uid (rl, s)).2.1 !! uid = Some b').
  { unfold Allow, bind, getX, gets, Now. simpl. rewrite lookup_empty. simpl.
    rewrite lookup_insert_eq, HT. split; [done|]. destruct (whole_facts (Z.of_nat k)) as (H1 & _); [lia|].
    unfold b'. rewrite <- H1. do 4 f_equal. lia. }
  assert (Hc' := Allow_configured uid rt bst rl s Hc).
  assert (Ht : (Allow uid (rl, s)).2.2 = mkSys (S (sys_tick s)) (sys_snow s)) by apply Allow_frame.
  destruct Hstep as [Hv Hb']. destruct (Allow uid (rl, s)) as [v [rl' s']]. simpl in *. subst v s'.
  destruct (burst_from uid rt bst T n k rl' b' _ Hc' ltac:(lia) Hb'
    ltac:(eapply refill_same; [exact Hc'|lia]) HT') as (H1 & H2 & H3 & H4).
  split; [|split; [done|split; [simpl in H3; lia|]]].
  - rewrite H1. replace (Z.to_nat bst) with (S k) by lia. by rewrite verdicts_S.
  - rewrite H4. destruct n as [|n]; unfold b'; do 3 f_equal; lia.
Qed.

Lemma allowAll_frame uids uid rl s :
  uid ∉ uids ->
  let r := allowAll uids (rl, s) in
  rate r.2.1 = rate rl /\ burst r.2.1 = burst rl /\
  buckets r.2.1 !! uid = buckets rl !! uid.
Proof.
  revert rl s. induction uids as [|u uids IH]; intros rl s Hno; [done|].
  simpl. unfold bind. destruct (Allow_frame u rl s) as (H1 & H2 & _ & _ & H5 & _).
  specialize (H5 uid ltac:(set_solver)).
  destruct (Allow u (rl, s)) as [v [rl' s']]. simpl in *.
  destruct (IH rl' s' ltac:(set_solver)) as (H1' & H2' & H3').
  destruct (allowAll uids (rl', s')) as [vs [rl'' s'']]. simpl in *.
  repeat split; congruence.
Qed.

(** ** Properties *)

(** C37. With whole rate and burst settings up to 256, a user who calls any number
    of times at one instant gets exactly [burst] calls through and the rest
    rejected; after the burst is spent, one second later exactly
    [min rate burst] calls pass. *)
Theorem rate_burst_exact uid rt bst ci T n m s :
  1 <= rt <= 256 -> 1 <= bst <= 256 -> (Z.to_nat bst <= n)%nat ->
  at_instant T n s ->
  let r := allowAll (replicate n uid) (NewRateLimiter rt bst ci, s) in
  r.1 = verdicts n (Z.to_nat bst) /\
  (at_instant (T + Second) m r.2.2 ->
   (allowAll (replicate m uid) r.2).1 = verdicts m (Z.to_nat (rt `min` bst))).
Proof.
  intros Hrt Hbst Hn HT. destruct n as [|n]; [lia|].
  destruct (burst_first uid rt bst ci T n s Hrt Hbst HT) as (H1 & H2 & _ & H4).
  split; [done|]. intros HT2. set (r := allowAll _ _) in *.
  rewrite (surjective_pairing r.2).
  eapply burst_from; [exact H2| |exact H4| |exact HT2].
  - lia.
  - replace (Z.to_nat bst - S n)%nat with O by lia.
    rewrite (refill_second rt bst) by done. f_equal. lia.
Qed.

(** A user's verdict is a function of that user's own bucket: after any
    calls by other users it is what it would have been without them at that
    moment; every call adds one to exactly one of the two counters, on the side
    of its verdict; and a user's first call passes whatever the configuration. *)
Theorem rate_isolation uid others rl s :
  uid ∉ others ->
  let st := (allowAll others (rl, s)).2 in
  (Allow uid st).1 = (Allow uid (rl, st.2)).1 /\
  (allowed (Allow uid st).2.1, rejected (Allow uid st).2.1) =
    (if (Allow uid st).1 then (wrap64 (allowed st.1 + 1), rejected st.1)
     else (allowed st.1, wrap64 (rejected st.1 + 1))) /\
  (buckets rl !! uid = None -> (Allow uid st).1 = true).
Proof.
  intros Hno st.
  assert (Hfr : rate st.1 = rate rl /\ burst st.1 = burst rl /\
                buckets st.1 !! uid = buckets rl !! uid).
  { apply (allowAll_frame others uid rl s Hno). }
  destruct Hfr as (Hr & Hb & Hu).
  assert (Heq : (Allow uid st).1 = (Allow uid (rl, st.2)).1)
    by (rewrite (surjective_pairing st); by apply Allow_local).
  split; [done|]. split; [rewrite (surjective_pairing st); apply Allow_frame|].
  intros Hn. rewrite Heq. unfold Allow, bind, getX, gets, Now. simpl. by rewrite Hn.
Qed.

End Bursts.

(** A clock that stands still at 2024-01-01 for three readings, then is one
    second later for two, then runs. *)
Definition burstClock (p : nat) : Z :=
  (if (p <? 3)%nat then 1704067200000 else if (p <? 5)%nat then 1704067201000
   else 1704067201000 + 20 * Z.of_nat p) * 1000000.

Lemma burstClock_pos p : 0 <= burstClock p.
Proof. unfold burstClock. repeat case_match; lia. Qed.

Lemma burstClock_back p q : (p <= q)%nat -> burstClock p - burstClock q < 2 ^ 62.
Proof.
  intros H. unfold burstClock.
  destruct (Nat.ltb_spec p 3), (Nat.ltb_spec q 3), (Nat.ltb_spec p 5), (Nat.ltb_spec q 5); lia.
Qed.

Lemma burstClock_live p : exists k, (k <= 6)%nat /\
  UnixMilli (burstClock p) + 10 < UnixMilli (burstClock (p + k)).
Proof.
  exists 6%nat. split; [lia|]. unfold burstClock, UnixMilli. rewrite !Z.div_mul by lia.
  destruct (Nat.ltb_spec p 3), (Nat.ltb_spec (p + 6) 3), (Nat.ltb_spec p 5),
    (Nat.ltb_spec (p + 6) 5); lia.
Qed.

Lemma burst_runtime : forall n : nat, 0 <= 0 < 2 ^ 64 /\ 0 <= 1 < 2 ^ 63.
Proof. lia. Qed.

Definition burstEnv : Env :=
  mkEnv burstClock 6 (fun _ => true) (fun _ l => l) (fun _ => 0) (fun _ => 1)
    burstClock_pos burstClock_back burstClock_live (fun _ _ => reflexivity _) burst_runtime.

Lemma rate_burst_exact_witness :
  let s := mkSys 0 (mkGenerator 1 0 0) in
  let r := allowAll (E := burstEnv) (replicate 3 "u") (NewRateLimiter 1 2 0, s) in
  r.1 = [true; true; false] /\
  (allowAll (E := burstEnv) (replicate 2 "u") r.2).1 = [true; false].
Proof.
  destruct (rate_burst_exact (E := burstEnv) "u" 1 2 0 (1704067200000 * 1000000) 3 2
    (mkSys 0 (mkGenerator 1 0 0))) as [H1 H2]; [lia|lia|simpl; lia| |].
  - intros p Hp. simpl in *. unfold burstClock. by destruct (Nat.ltb_spec p 3); [|lia].
  - split; [exact H1|]. apply H2. intros p Hp. vm_compute in Hp. simpl. unfold burstClock.
    destruct (Nat.ltb_spec p 3), (Nat.ltb_spec p 5); try lia. done.
Defined.

Lemma rate_isolation_witness :
  let s := mkSys 0 (mkGenerator 1 0 0) in
  let st := (allowAll (E := steadyEnv) ["a"; "b"; "a"] (NewRateLimiter 1 1 0, s)).2 in
  (Allow (E := steadyEnv) "u" st).1 = true.
Proof.
  apply (rate_isolation (E := steadyEnv) "u" ["a"; "b"; "a"] (NewRateLimiter 1 1 0)
    (mkSys 0 (mkGenerator 1 0 0))).
  - set_solver.
  - done.
Defined.
