(* ===== verification/Unread.v ===== *)
(** * Unread counters (src/internal/gateway/unread_tracker.go)

    The [UnreadTracker] interface, the laws its clients rely on (stated through
    an abstract table of counters), and the in-memory implementation, which is
    shown to satisfy them.  The theorem: a counter is the number of messages
    since the reader last marked the conversation read. *)

From S2P Require Import Prelude Proto Snowflake Process.

(** ** The interface *)

Class UnreadTracker (U : Type) := mkUnreadTracker {
  Increment : string -> string -> St (U * Sys) unit;
  MarkRead : string -> string -> St (U * Sys) unit;
  GetCounts : string -> St (U * Sys) (gmap string Z);
  GetCount : string -> string -> St (U * Sys) Z
}.

(** [count u uid peer] is the abstract table: what [uid] has not read of
    [peer]. *)
Class UnreadLaws (E : Env) (U : Type) `{UnreadTracker U} := mkUnreadLaws {
  count : U -> string -> string -> Z;
  count_Increment : forall to from u s a b,
    count (Increment to from (u, s)).2.1 a b =
    if bool_decide (to <> from /\ a = to /\ b = from)
    then wrap64 (count u a b + 1) else count u a b;
  count_MarkRead : forall reader peer u s a b,
    count (MarkRead reader peer (u, s)).2.1 a b =
    if bool_decide (a = reader /\ b = peer) then 0 else count u a b;
  GetCount_count : forall uid peer u s,
    (GetCount uid peer (u, s)).1 = count u uid peer /\ (GetCount uid peer (u, s)).2.1 = u;
  GetCounts_count : forall uid u s,
    (forall peer, default 0 ((GetCounts uid (u, s)).1 !! peer) = count u uid peer) /\
    (GetCounts uid (u, s)).2.1 = u;
  unread_sys : forall to from u s,
    sys_wf E s -> sys_wf E (Increment to from (u, s)).2.2 /\
      sys_wf E (MarkRead to from (u, s)).2.2 /\ sys_wf E (GetCounts to (u, s)).2.2 /\
      sys_wf E (GetCount to from (u, s)).2.2
}.

(** ** The in-memory tracker *)

Record InMemoryUnreadTracker := mkInMemoryUnreadTracker {
  counts : gmap string (gmap string Z)
}.

Definition NewInMemoryUnreadTracker : InMemoryUnreadTracker := mkInMemoryUnreadTracker ∅.

Definition MemIncrement (toUID fromUID : string) : St (InMemoryUnreadTracker * Sys) unit :=
  if bool_decide (toUID = fromUID) then ret tt
  else
    let! t := getX in
    let inner := match counts t !! toUID with Some inner => inner | None => ∅ end in
    let inner := <[fromUID := wrap64 (default 0 (inner !! fromUID) + 1)]> inner in
    putX (mkInMemoryUnreadTracker (<[toUID := inner]> (counts t))).

Definition MemMarkRead (readerUID peerUID : string) : St (InMemoryUnreadTracker * Sys) unit :=
  let! t := getX in
  match counts t !! readerUID with
  | None => ret tt
  | Some inner =>
      let inner := delete peerUID inner in
      if (size inner =? 0)%nat
      then putX (mkInMemoryUnreadTracker (delete readerUID (counts t)))
      else putX (mkInMemoryUnreadTracker (<[readerUID := inner]> (counts t)))
  end.

Definition MemGetCounts (uid : string) : St (InMemoryUnreadTracker * Sys) (gmap string Z) :=
  let! t := getX in
  ret (match counts t !! uid with None => ∅ | Some inner => inner end).

Definition MemGetCount (uid peerUID : string) : St (InMemoryUnreadTracker * Sys) Z :=
  let! t := getX in
  ret (match counts t !! uid with None => 0 | Some inner => default 0 (inner !! peerUID) end).

#[export] Instance InMemory_UnreadTracker : UnreadTracker InMemoryUnreadTracker :=
  mkUnreadTracker _ MemIncrement MemMarkRead MemGetCounts MemGetCount.

Definition MemCount (t : InMemoryUnreadTracker) (uid peer : string) : Z :=
  default 0 (counts t !! uid ≫= fun inner => inner !! peer).

Lemma MemCount_lookup t uid peer :
  MemCount t uid peer =
  match counts t !! uid with None => 0 | Some inner => default 0 (inner !! peer) end.
Proof. unfold MemCount. by destruct (counts t !! uid). Qed.

Lemma MemIncrement_count to from t s a b :
  MemCount (MemIncrement to from (t, s)).2.1 a b =
  if bool_decide (to <> from /\ a = to /\ b = from)
  then wrap64 (MemCount t a b + 1) else MemCount t a b.
Proof.
  unfold MemIncrement. destruct (decide (to = from)) as [->|Hne].
  { rewrite bool_decide_true by done. by rewrite bool_decide_false by tauto. }
  rewrite bool_decide_false by done. rewrite !MemCount_lookup. simpl.
  destruct (decide (a = to)) as [->|Ha].
  - rewrite lookup_insert_eq. destruct (decide (b = from)) as [->|Hb].
    + rewrite lookup_insert_eq, bool_decide_true by done. by destruct (counts t !! to).
    + rewrite lookup_insert_ne by done. rewrite bool_decide_false by tauto.
      destruct (counts t !! to); [done|]. by rewrite lookup_empty.
  - rewrite lookup_insert_ne by done. by rewrite bool_decide_false by tauto.
Qed.

Lemma MemMarkRead_count reader peer t s a b :
  MemCount (MemMarkRead reader peer (t, s)).2.1 a b =
  if bool_decide (a = reader /\ b = peer) then 0 else MemCount t a b.
Proof.
  unfold MemMarkRead, bind, getX, gets. rewrite !MemCount_lookup. simpl.
  destruct (counts t !! reader) as [inner|] eqn:Hr.
  2:{ simpl. case_bool_decide as H; [|done]. destruct H as [-> ->]. by rewrite Hr. }
  destruct (Nat.eqb_spec (size (delete peer inner)) 0) as [He|He]; simpl.
  - apply map_size_empty_iff in He. destruct (decide (a = reader)) as [->|Ha].
    + rewrite lookup_delete_eq, Hr. case_bool_decide as Hb; [done|].
      assert (H : delete peer inner !! b = None) by (rewrite He; apply lookup_empty).
      rewrite lookup_delete_ne in H by naive_solver. by rewrite H.
    + rewrite lookup_delete_ne by done. by rewrite bool_decide_false by tauto.
  - destruct (decide (a = reader)) as [->|Ha].
    + rewrite lookup_insert_eq, Hr. case_bool_decide as Hb.
      * destruct Hb as [_ ->]. by rewrite lookup_delete_eq.
      * by rewrite lookup_delete_ne by naive_solver.
    + rewrite lookup_insert_ne by done. by rewrite bool_decide_false by tauto.
Qed.

Lemma MemGetCount_count uid peer t s :
  (MemGetCount uid peer (t, s)).1 = MemCount t uid peer /\
  (MemGetCount uid peer (t, s)).2.1 = t.
Proof. split; [by rewrite MemCount_lookup|done]. Qed.

Lemma MemGetCounts_count uid t s :
  (forall peer, default 0 ((MemGetCounts uid (t, s)).1 !! peer) = MemCount t uid peer) /\
  (MemGetCounts uid (t, s)).2.1 = t.
Proof.
  split; [|done]. intros peer. rewrite MemCount_lookup. simpl.
  destruct (counts t !! uid); [done|]. by rewrite lookup_empty.
Qed.

Lemma MemUnread_sys (E : Env) to from t s :
  sys_wf E s -> sys_wf E (MemIncrement to from (t, s)).2.2 /\
    sys_wf E (MemMarkRead to from (t, s)).2.2 /\ sys_wf E (MemGetCounts to (t, s)).2.2 /\
    sys_wf E (MemGetCount to from (t, s)).2.2.
Proof.
  intros Hs. split_and!; try exact Hs.
  - unfold MemIncrement. case_bool_decide; exact Hs.
  - unfold MemMarkRead, bind, getX, gets. simpl.
    destruct (counts t !! to); [|exact Hs]. case_match; exact Hs.
Qed.

#[export] Instance InMemory_UnreadLaws (E : Env) : UnreadLaws E InMemoryUnreadTracker :=
  mkUnreadLaws E _ _ MemCount MemIncrement_count MemMarkRead_count MemGetCount_count
    MemGetCounts_count (MemUnread_sys E).

(** No user has an empty table, and counters that are present are positive as
    long as they have not wrapped. *)
Definition no_empty (t : InMemoryUnreadTracker) : Prop :=
  forall uid, counts t !! uid <> Some ∅.

Lemma no_empty_MemIncrement to from t s : no_empty t -> no_empty (MemIncrement to from (t, s)).2.1.
Proof.
  unfold no_empty, MemIncrement. intros H uid. case_bool_decide; [apply H|]. simpl.
  destruct (decide (uid = to)) as [->|Hne].
  - rewrite lookup_insert_eq. intros [= He]. by apply insert_non_empty in He.
  - by rewrite lookup_insert_ne.
Qed.

Lemma no_empty_MemMarkRead reader peer t s :
  no_empty t -> no_empty (MemMarkRead reader peer (t, s)).2.1.
Proof.
  unfold no_empty, MemMarkRead, bind, getX, gets. intros H uid. simpl.
  destruct (counts t !! reader) as [inner|]; [|apply H].
  destruct (Nat.eqb_spec (size (delete peer inner)) 0) as [He|He]; simpl;
    (destruct (decide (uid = reader)) as [->|Hne];
      [rewrite ?lookup_delete_eq, ?lookup_insert_eq
      |rewrite ?lookup_delete_ne, ?lookup_insert_ne by done; apply H]); [done|].
  intros [= He']. apply He. by rewrite He', map_size_empty.
Qed.

(** ** Histories *)

Inductive UnreadOp := OpIncrement (to from : string) | OpMarkRead (reader peer : string).

Section Histories.
Context {E : Env} {U : Type} {UT : UnreadTracker U} {UL : UnreadLaws E U}.

Definition unread_run1 (op : UnreadOp) : St (U * Sys) unit :=
  match op with
  | OpIncrement to from => Increment to from
  | OpMarkRead reader peer => MarkRead reader peer
  end.

(** How many messages of [peer] reached [uid] since [uid] last read [peer]. *)
Definition unread_spec (uid peer : string) (n : Z) (op : UnreadOp) : Z :=
  match op with
  | OpIncrement to from =>
      if bool_decide (to <> from /\ uid = to /\ peer = from) then n + 1 else n
  | OpMarkRead reader p => if bool_decide (uid = reader /\ peer = p) then 0 else n
  end.

Lemma wrap64_succ z : wrap64 (wrap64 z + 1) = wrap64 (z + 1).
Proof.
  unfold wrap64. replace ((z + 2 ^ 63) mod 2 ^ 64 - 2 ^ 63 + 1 + 2 ^ 63)
    with ((z + 2 ^ 63) mod 2 ^ 64 + 1) by lia.
  rewrite Z.add_mod_idemp_l by lia. do 2 f_equal. lia.
Qed.

Lemma unread_run_count ops n u s uid peer :
  count u uid peer = wrap64 n ->
  count (forEach ops unread_run1 (u, s)).2.1 uid peer =
    wrap64 (foldl (unread_spec uid peer) n ops).
Proof.
  revert n u s. induction ops as [|op ops IH]; intros n u s H; [done|].
  rewrite forEach_cons. cbn [foldl].
  assert (H' : count (unread_run1 op (u, s)).2.1 uid peer = wrap64 (unread_spec uid peer n op)).
  { destruct op as [to from|reader p]; simpl.
    - rewrite count_Increment. case_bool_decide; [|done]. by rewrite H, wrap64_succ.
    - rewrite count_MarkRead. by case_bool_decide. }
  destruct (unread_run1 op (u, s)).2 as [u' s']. by apply IH.
Qed.

End Histories.

(** After any history, the in-memory tracker's counter of a conversation is
    the number of messages since the reader last read it (messages to oneself
    count for nothing), conversations do not affect one another, both query
    operations agree and change nothing, and no empty table is kept. *)
Theorem unread_counts_since_read (E : Env) ops s uid peer :
  let st := (forEach ops unread_run1 (NewInMemoryUnreadTracker, s)).2 in
  let n := wrap64 (foldl (unread_spec uid peer) 0 ops) in
  GetCount uid peer st = (n, st) /\
  (exists m, GetCounts uid st = (m, st) /\ default 0 (m !! peer) = n) /\
  no_empty st.1.
Proof.
  intros st n.
  assert (Hc : MemCount st.1 uid peer = n) by by apply (unread_run_count (UL := InMemory_UnreadLaws E)).
  split; [|split].
  - unfold GetCount, InMemory_UnreadTracker, MemGetCount, bind, getX, gets, ret.
    by rewrite <- Hc, MemCount_lookup.
  - unfold GetCounts, InMemory_UnreadTracker, MemGetCounts, bind, getX, gets, ret.
    eexists. split; [done|]. rewrite <- Hc, MemCount_lookup.
    destruct (counts st.1 !! uid); [done|]. by rewrite lookup_empty.
  - assert (H : forall ops u s', no_empty u -> no_empty (forEach ops unread_run1 (u, s')).2.1).
    { clear. intros ops. induction ops as [|op ops IH]; intros u s' Hu; [done|].
      rewrite forEach_cons.
      assert (Hu' : no_empty (unread_run1 op (u, s')).2.1)
        by (destruct op; [by apply no_empty_MemIncrement|by apply no_empty_MemMarkRead]).
      destruct (unread_run1 op (u, s')).2 as [u' s'']. by apply IH. }
    by apply H.
Qed.
