(* ===== verification/GroupStore.v ===== *)
(** * Groups (src/internal/gateway/group_store.go)

    The [GroupStore] interface, its laws (stated through an abstract map of
    groups), and the in-memory implementation, which satisfies them.  The
    theorems: every operation on every branch, failures leaving the store as it
    was; the invariant of the store over any history; what happens to ownership
    when the owner leaves. *)

From S2P Require Import Prelude Proto Snowflake Process.

(** The sentinel errors, and any other error of a store by its text. *)
Inductive GroupErr :=
| ErrGroupNotFound | ErrNotOwner | ErrAlreadyMember | ErrNotMember | ErrGroupIDExists
| ErrStore (text : string).

#[export] Instance GroupErr_eq_dec : EqDecision GroupErr.
Proof. solve_decision. Defined.

Definition GroupErr_text (e : GroupErr) : string :=
  match e with
  | ErrGroupNotFound => "group not found"
  | ErrNotOwner => "only the group owner can perform this action"
  | ErrAlreadyMember => "user is already a member of this group"
  | ErrNotMember => "user is not a member of this group"
  | ErrGroupIDExists => "group ID already exists"
  | ErrStore text => text
  end.

(** [Members] is [map[string]bool] with [true] values only. *)
Record Group := mkGroup {
  ID : string;
  Name : string;
  OwnerUID : string;
  Members : gset string;
  CreatedAt : Z
}.

Definition set_Members (m : gset string) (g : Group) : Group :=
  mkGroup (ID g) (Name g) (OwnerUID g) m (CreatedAt g).
Definition set_Name (n : string) (g : Group) : Group :=
  mkGroup (ID g) n (OwnerUID g) (Members g) (CreatedAt g).
Definition set_OwnerUID (o : string) (g : Group) : Group :=
  mkGroup (ID g) (Name g) o (Members g) (CreatedAt g).

(** ** The interface *)

Class GroupStore (G : Type) := mkGroupStore {
  Create : string -> string -> list string -> St (G * Sys) (GroupErr + Group);
  AddMember : string -> string -> St (G * Sys) (option GroupErr);
  RemoveMember : string -> string -> St (G * Sys) (option GroupErr);
  GetMembers : string -> St (G * Sys) (GroupErr + list string);
  IsMember : string -> string -> St (G * Sys) bool;
  GetUserGroups : string -> St (G * Sys) (GroupErr + list Group);
  Get : string -> St (G * Sys) (GroupErr + Group);
  UpdateName : string -> string -> St (G * Sys) (option GroupErr);
  TransferOwnership : string -> string -> string -> St (G * Sys) (option GroupErr)
}.

(** ** The abstract store: a map of groups and the effect of each operation *)

Definition initial_members (ownerUID : string) (members : list string) : gset string :=
  {[ownerUID]} ∪ list_to_set (filter (fun uid => uid <> "" /\ uid <> ownerUID) members).

Definition add_spec (groupID uid : string) (M : gmap string Group)
  : option GroupErr * gmap string Group :=
  match M !! groupID with
  | None => (Some ErrGroupNotFound, M)
  | Some g => if bool_decide (uid ∈ Members g) then (Some ErrAlreadyMember, M)
              else (None, <[groupID := set_Members ({[uid]} ∪ Members g) g]> M)
  end.

Definition remove_spec (groupID uid : string) (M : gmap string Group)
  : option GroupErr * gmap string Group :=
  match M !! groupID with
  | None => (Some ErrGroupNotFound, M)
  | Some g => if bool_decide (uid ∈ Members g) then
                if bool_decide (Members g ∖ {[uid]} = ∅) then (None, delete groupID M)
                else (None, <[groupID := set_Members (Members g ∖ {[uid]}) g]> M)
              else (Some ErrNotMember, M)
  end.

Definition rename_spec (groupID newName : string) (M : gmap string Group)
  : option GroupErr * gmap string Group :=
  match M !! groupID with
  | None => (Some ErrGroupNotFound, M)
  | Some g => (None, <[groupID := set_Name newName g]> M)
  end.

Definition transfer_spec (groupID fromUID toUID : string) (M : gmap string Group)
  : option GroupErr * gmap string Group :=
  match M !! groupID with
  | None => (Some ErrGroupNotFound, M)
  | Some g => if bool_decide (OwnerUID g = fromUID) then
                if bool_decide (toUID ∈ Members g)
                then (None, <[groupID := set_OwnerUID toUID g]> M)
                else (Some ErrNotMember, M)
              else (Some ErrNotOwner, M)
  end.

(** What a client of a store may rely on. *)
Class GroupLaws (E : Env) (G : Type) `{GroupStore G} := mkGroupLaws {
  groupsOf : G -> gmap string Group;
  AddMember_law : forall gid uid g s,
    ((AddMember gid uid (g, s)).1, groupsOf (AddMember gid uid (g, s)).2.1)
    = add_spec gid uid (groupsOf g);
  RemoveMember_law : forall gid uid g s,
    ((RemoveMember gid uid (g, s)).1, groupsOf (RemoveMember gid uid (g, s)).2.1)
    = remove_spec gid uid (groupsOf g);
  UpdateName_law : forall gid name g s,
    ((UpdateName gid name (g, s)).1, groupsOf (UpdateName gid name (g, s)).2.1)
    = rename_spec gid name (groupsOf g);
  TransferOwnership_law : forall gid from to g s,
    ((TransferOwnership gid from to (g, s)).1, groupsOf (TransferOwnership gid from to (g, s)).2.1)
    = transfer_spec gid from to (groupsOf g);
  GetMembers_law : forall gid g s,
    match groupsOf g !! gid with
    | None => (GetMembers gid (g, s)).1 = inl ErrGroupNotFound
    | Some gr => exists l, (GetMembers gid (g, s)).1 = inr l /\ l ≡ₚ elements (Members gr)
    end /\ (GetMembers gid (g, s)).2.1 = g;
  Get_law : forall gid g s,
    (Get gid (g, s)).1 =
      match groupsOf g !! gid with None => inl ErrGroupNotFound | Some gr => inr gr end /\
    (Get gid (g, s)).2.1 = g;
  GetUserGroups_law : forall uid g s, (GetUserGroups uid (g, s)).2.1 = g;
  Create_law : forall name owner members g s,
    match (Create name owner members (g, s)).1 with
    | inl _ => groupsOf (Create name owner members (g, s)).2.1 = groupsOf g
    | inr gr => groupsOf g !! ID gr = None /\ OwnerUID gr = owner /\
        Members gr = initial_members owner members /\
        groupsOf (Create name owner members (g, s)).2.1 = <[ID gr := gr]> (groupsOf g)
    end;
  groups_sys : forall gid uid a b l g s,
    sys_wf E s ->
    sys_wf E (Create a b l (g, s)).2.2 /\ sys_wf E (AddMember gid uid (g, s)).2.2 /\
    sys_wf E (RemoveMember gid uid (g, s)).2.2 /\ sys_wf E (GetMembers gid (g, s)).2.2 /\
    sys_wf E (Get gid (g, s)).2.2 /\ sys_wf E (GetUserGroups uid (g, s)).2.2
}.

(** ** The in-memory store *)

Record InMemoryGroupStore := mkInMemoryGroupStore { groups : gmap string Group }.

Definition NewInMemoryGroupStore : InMemoryGroupStore := mkInMemoryGroupStore ∅.

Section InMemory.
Context {E : Env}.

(** [fmt.Sprintf("g_%d", s.snow.Next())]. *)
Definition newGroupID : St (InMemoryGroupStore * Sys) string :=
  let! n := NextID in ret ("g_" +:+ itoa n).

Definition MemCreate (name ownerUID : string) (members : list string)
  : St (InMemoryGroupStore * Sys) (GroupErr + Group) :=
  let! id := newGroupID in
  let memberMap := foldl (fun m uid =>
    if bool_decide (uid <> "" /\ uid <> ownerUID) then {[uid]} ∪ m else m)
    {[ownerUID]} members in
  let! now := NowMilli in
  let g := mkGroup id name ownerUID memberMap now in
  let! s := getX in
  match groups s !! id with
  | Some _ => ret (inl ErrGroupIDExists)
  | None => putX (mkInMemoryGroupStore (<[id := g]> (groups s))) ;;! ret (inr g)
  end.

Definition MemAddMember (groupID uid : string)
  : St (InMemoryGroupStore * Sys) (option GroupErr) :=
  let! s := getX in
  match groups s !! groupID with
  | None => ret (Some ErrGroupNotFound)
  | Some g =>
      if bool_decide (uid ∈ Members g) then ret (Some ErrAlreadyMember)
      else
        let g := set_Members ({[uid]} ∪ Members g) g in
        putX (mkInMemoryGroupStore (<[groupID := g]> (groups s))) ;;! ret None
  end.

Definition MemRemoveMember (groupID uid : string)
  : St (InMemoryGroupStore * Sys) (option GroupErr) :=
  let! s := getX in
  match groups s !! groupID with
  | None => ret (Some ErrGroupNotFound)
  | Some g =>
      if negb (bool_decide (uid ∈ Members g)) then ret (Some ErrNotMember)
      else
        let g := set_Members (Members g ∖ {[uid]}) g in
        (if (size (Members g) =? 0)%nat
         then putX (mkInMemoryGroupStore (delete groupID (groups s)))
         else putX (mkInMemoryGroupStore (<[groupID := g]> (groups s)))) ;;!
        ret None
  end.

Definition MemGetMembers (groupID : string)
  : St (InMemoryGroupStore * Sys) (GroupErr + list string) :=
  let! s := getX in
  match groups s !! groupID with
  | None => ret (inl ErrGroupNotFound)
  | Some g => let! members := RangeKeys (elements (Members g)) in ret (inr members)
  end.

Definition MemIsMember (groupID uid : string) : St (InMemoryGroupStore * Sys) bool :=
  let! s := getX in
  match groups s !! groupID with
  | None => ret false
  | Some g => ret (bool_decide (uid ∈ Members g))
  end.

Definition MemGetUserGroups (uid : string)
  : St (InMemoryGroupStore * Sys) (GroupErr + list Group) :=
  let! s := getX in
  let! ids := RangeKeys (map_to_list (groups s)).*1 in
  ret (inr (filter (fun g => uid ∈ Members g) (omap (fun id => groups s !! id) ids))).

Definition MemGet (groupID : string) : St (InMemoryGroupStore * Sys) (GroupErr + Group) :=
  let! s := getX in
  match groups s !! groupID with
  | None => ret (inl ErrGroupNotFound)
  | Some g => ret (inr g)
  end.

Definition MemUpdateName (groupID newName : string)
  : St (InMemoryGroupStore * Sys) (option GroupErr) :=
  let! s := getX in
  match groups s !! groupID with
  | None => ret (Some ErrGroupNotFound)
  | Some g =>
      putX (mkInMemoryGroupStore (<[groupID := set_Name newName g]> (groups s))) ;;! ret None
  end.

Definition MemTransferOwnership (groupID fromUID toUID : string)
  : St (InMemoryGroupStore * Sys) (option GroupErr) :=
  let! s := getX in
  match groups s !! groupID with
  | None => ret (Some ErrGroupNotFound)
  | Some g =>
      if bool_decide (OwnerUID g <> fromUID) then ret (Some ErrNotOwner)
      else if negb (bool_decide (toUID ∈ Members g)) then ret (Some ErrNotMember)
      else
        putX (mkInMemoryGroupStore (<[groupID := set_OwnerUID toUID g]> (groups s))) ;;!
        ret None
  end.

End InMemory.

#[export] Instance InMemory_GroupStore `{Env} : GroupStore InMemoryGroupStore :=
  mkGroupStore _ MemCreate MemAddMember MemRemoveMember MemGetMembers MemIsMember
    MemGetUserGroups MemGet MemUpdateName MemTransferOwnership.

(** ** The implementation meets the abstract store *)

Section Laws.
Context {E : Env}.
Implicit Types g : InMemoryGroupStore.

Lemma memberMap_spec ownerUID members :
  foldl (fun m uid => if bool_decide (uid <> "" /\ uid <> ownerUID) then {[uid]} ∪ m else m)
    ({[ownerUID]} : gset string) members = initial_members ownerUID members.
Proof.
  unfold initial_members. generalize ({[ownerUID]} : gset string) as m.
  induction members as [|uid members IH]; intros m; cbn [foldl].
  - rewrite filter_nil. set_solver.
  - rewrite IH, filter_cons. case_bool_decide as H; case_decide as H'; try tauto.
    cbn [list_to_set]. set_solver.
Qed.

Lemma MemAddMember_spec gid uid g s :
  let r := MemAddMember gid uid (g, s) in
  (r.1, groups r.2.1) = add_spec gid uid (groups g) /\ r.2.2 = s.
Proof.
  unfold MemAddMember, add_spec, bind, getX, gets. simpl.
  destruct (groups g !! gid) as [gr|]; [|done]. by case_bool_decide.
Qed.

Lemma MemRemoveMember_spec gid uid g s :
  let r := MemRemoveMember gid uid (g, s) in
  (r.1, groups r.2.1) = remove_spec gid uid (groups g) /\ r.2.2 = s.
Proof.
  unfold MemRemoveMember, remove_spec, bind, getX, gets. simpl.
  destruct (groups g !! gid) as [gr|]; [|done]. case_bool_decide; simpl; [|done].
  destruct (Nat.eqb_spec (size (Members gr ∖ {[uid]})) 0) as [He|He].
  - rewrite bool_decide_true; [done|]. by apply size_empty_iff, leibniz_equiv in He.
  - rewrite bool_decide_false; [done|]. intros He'. apply He. by rewrite He', size_empty.
Qed.

Lemma MemUpdateName_spec gid n g s :
  let r := MemUpdateName gid n (g, s) in
  (r.1, groups r.2.1) = rename_spec gid n (groups g) /\ r.2.2 = s.
Proof.
  unfold MemUpdateName, rename_spec, bind, getX, gets. simpl.
  by destruct (groups g !! gid).
Qed.

Lemma MemTransferOwnership_spec gid a b g s :
  let r := MemTransferOwnership gid a b (g, s) in
  (r.1, groups r.2.1) = transfer_spec gid a b (groups g) /\ r.2.2 = s.
Proof.
  unfold MemTransferOwnership, transfer_spec, bind, getX, gets. simpl.
  destruct (groups g !! gid) as [gr|]; [|done].
  destruct (decide (OwnerUID gr = a)) as [He|He].
  - rewrite bool_decide_false by tauto. rewrite (bool_decide_true (OwnerUID gr = a)) by done.
    by case_bool_decide.
  - by rewrite bool_decide_true, bool_decide_false.
Qed.

Lemma MemGetMembers_spec gid g s :
  match groups g !! gid with
  | None => (MemGetMembers gid (g, s)).1 = inl ErrGroupNotFound
  | Some gr => exists l, (MemGetMembers gid (g, s)).1 = inr l /\ l ≡ₚ elements (Members gr)
  end /\ (MemGetMembers gid (g, s)).2.1 = g.
Proof.
  unfold MemGetMembers, bind, getX, gets. simpl. destruct (groups g !! gid) as [gr|]; [|done].
  simpl. split; [|done]. eexists. split; [done|]. apply order_perm.
Qed.

Lemma MemGet_spec gid g s :
  (MemGet gid (g, s)).1 =
    match groups g !! gid with None => inl ErrGroupNotFound | Some gr => inr gr end /\
  (MemGet gid (g, s)).2.1 = g.
Proof. unfold MemGet, bind, getX, gets. simpl. by destruct (groups g !! gid). Qed.

(** [Create] stores a fresh group under its id, or refuses when the generator
    repeated itself (as it does when it returns 0 twice). *)
Lemma MemCreate_spec name owner members g s :
  let r := MemCreate name owner members (g, s) in
  exists gr, ID gr = "g_" +:+ itoa (NextID (g, s)).1 /\ Name gr = name /\
    OwnerUID gr = owner /\ Members gr = initial_members owner members /\
    match groups g !! ID gr with
    | Some _ => r.1 = inl ErrGroupIDExists /\ r.2.1 = g
    | None => r.1 = inr gr /\ groups r.2.1 = <[ID gr := gr]> (groups g)
    end.
Proof.
  pose proof (memberMap_spec owner members) as Hm.
  unfold MemCreate, newGroupID, bind. simpl.
  destruct (Next E (sys_snow s) (sys_tick s)) as [[n gen] t]. simpl. rewrite Hm.
  eexists (mkGroup ("g_" +:+ itoa n) name owner (initial_members owner members) _).
  split_and!; [done..|]. simpl. destruct (groups g !! _); done.
Qed.

Lemma MemGroup_sys gid uid a b l g s :
  sys_wf E s ->
  sys_wf E (MemCreate a b l (g, s)).2.2 /\ sys_wf E (MemAddMember gid uid (g, s)).2.2 /\
  sys_wf E (MemRemoveMember gid uid (g, s)).2.2 /\ sys_wf E (MemGetMembers gid (g, s)).2.2 /\
  sys_wf E (MemGet gid (g, s)).2.2 /\ sys_wf E (MemGetUserGroups uid (g, s)).2.2.
Proof.
  intros Hs. split_and!.
  - unfold MemCreate, newGroupID, bind.
    destruct (observes_NextID (E := E) g s) as [_ H1]. specialize (H1 Hs).
    destruct (NextID (g, s)) as [n [g' s']]. simpl in H1 |- *.
    apply sys_wf_tick1 in H1. destruct (groups g' !! _); exact H1.
  - destruct (MemAddMember_spec gid uid g s) as [_ ->]. done.
  - destruct (MemRemoveMember_spec gid uid g s) as [_ ->]. done.
  - unfold MemGetMembers, bind, getX, gets. simpl. destruct (groups g !! gid); [|exact Hs].
    by apply sys_wf_tick1.
  - unfold MemGet, bind, getX, gets. simpl. by destruct (groups g !! gid).
  - by apply sys_wf_tick1.
Qed.

End Laws.

Lemma InMemory_add_law (E : Env) gid uid g s :
  ((MemAddMember gid uid (g, s)).1, groups (MemAddMember gid uid (g, s)).2.1)
  = add_spec gid uid (groups g).
Proof. apply MemAddMember_spec. Qed.
Lemma InMemory_remove_law (E : Env) gid uid g s :
  ((MemRemoveMember gid uid (g, s)).1, groups (MemRemoveMember gid uid (g, s)).2.1)
  = remove_spec gid uid (groups g).
Proof. apply MemRemoveMember_spec. Qed.
Lemma InMemory_rename_law (E : Env) gid name g s :
  ((MemUpdateName gid name (g, s)).1, groups (MemUpdateName gid name (g, s)).2.1)
  = rename_spec gid name (groups g).
Proof. apply MemUpdateName_spec. Qed.
Lemma InMemory_transfer_law (E : Env) gid a b g s :
  ((MemTransferOwnership gid a b (g, s)).1, groups (MemTransferOwnership gid a b (g, s)).2.1)
  = transfer_spec gid a b (groups g).
Proof. apply MemTransferOwnership_spec. Qed.
Lemma InMemory_list_law (E : Env) uid g s : (MemGetUserGroups uid (g, s)).2.1 = g.
Proof. done. Qed.
Lemma InMemory_create_law (E : Env) name owner members g s :
  match (MemCreate name owner members (g, s)).1 with
  | inl _ => groups (MemCreate name owner members (g, s)).2.1 = groups g
  | inr gr => groups g !! ID gr = None /\ OwnerUID gr = owner /\
      Members gr = initial_members owner members /\
      groups (MemCreate name owner members (g, s)).2.1 = <[ID gr := gr]> (groups g)
  end.
Proof.
  destruct (MemCreate_spec name owner members g s) as (gr & _ & _ & Ho & Hm & Hr).
  destruct (groups g !! ID gr) eqn:Hg; destruct Hr as [H1 H2]; rewrite H1.
  - by rewrite H2.
  - done.
Qed.

#[export] Instance InMemory_GroupLaws (E : Env) : GroupLaws E InMemoryGroupStore :=
  mkGroupLaws E _ _ groups (InMemory_add_law E) (InMemory_remove_law E)
    (InMemory_rename_law E) (InMemory_transfer_law E)
    MemGetMembers_spec MemGet_spec (InMemory_list_law E) (InMemory_create_law E) MemGroup_sys.

(** ** Histories of the in-memory store *)

Inductive GroupOp :=
| OpCreate (name owner : string) (members : list string)
| OpAdd (gid uid : string)
| OpRemove (gid uid : string)
| OpRename (gid name : string)
| OpTransfer (gid from to : string).

Section Histories.
Context {E : Env}.

Definition group_run1 (op : GroupOp) : St (InMemoryGroupStore * Sys) unit :=
  match op with
  | OpCreate n o l => MemCreate n o l ;;! ret tt
  | OpAdd gid uid => MemAddMember gid uid ;;! ret tt
  | OpRemove gid uid => MemRemoveMember gid uid ;;! ret tt
  | OpRename gid n => MemUpdateName gid n ;;! ret tt
  | OpTransfer gid a b => MemTransferOwnership gid a b ;;! ret tt
  end.

(** Groups are kept under their own id and are never empty. *)
Definition groups_ok (M : gmap string Group) : Prop :=
  forall gid g, M !! gid = Some g -> ID g = gid /\ Members g <> ∅.

Lemma groups_ok_insert M gid g :
  groups_ok M -> ID g = gid -> Members g <> ∅ -> groups_ok (<[gid := g]> M).
Proof.
  intros H Hid Hm gid' g'. destruct (decide (gid' = gid)) as [->|Hne].
  - rewrite lookup_insert_eq. intros [= <-]. done.
  - rewrite lookup_insert_ne by done. apply H.
Qed.

Lemma groups_ok_step op g s : groups_ok (groups g) -> groups_ok (groups (group_run1 op (g, s)).2.1).
Proof.
  intros H. destruct op as [n o l|gid uid|gid uid|gid n|gid a b]; unfold group_run1;
    rewrite bind_ret_state; cbn [snd].
  - destruct (MemCreate_spec n o l g s) as (gr & _ & _ & _ & Hm & Hr).
    destruct (groups g !! ID gr); destruct Hr as [_ ->]; [done|].
    apply groups_ok_insert; [done..|]. rewrite Hm. unfold initial_members. set_solver.
  - destruct (MemAddMember_spec gid uid g s) as [Hs _]. apply (f_equal snd) in Hs. simpl in Hs.
    rewrite Hs. unfold add_spec. destruct (groups g !! gid) as [gr|] eqn:Hg; [|done].
    destruct (H gid gr Hg). case_bool_decide; [done|]. apply groups_ok_insert; [done..|].
    simpl. set_solver.
  - destruct (MemRemoveMember_spec gid uid g s) as [Hs _]. apply (f_equal snd) in Hs. simpl in Hs.
    rewrite Hs. unfold remove_spec. destruct (groups g !! gid) as [gr|] eqn:Hg; [|done].
    destruct (H gid gr Hg). case_bool_decide; [|done]. case_bool_decide; simpl.
    + intros gid' g' [_ Hl]%lookup_delete_Some. by apply H.
    + by apply groups_ok_insert.
  - destruct (MemUpdateName_spec gid n g s) as [Hs _]. apply (f_equal snd) in Hs. simpl in Hs.
    rewrite Hs. unfold rename_spec. destruct (groups g !! gid) as [gr|] eqn:Hg; [|done].
    destruct (H gid gr Hg). by apply groups_ok_insert.
  - destruct (MemTransferOwnership_spec gid a b g s) as [Hs _]. apply (f_equal snd) in Hs.
    simpl in Hs. rewrite Hs. unfold transfer_spec.
    destruct (groups g !! gid) as [gr|] eqn:Hg; [|done]. destruct (H gid gr Hg).
    repeat case_bool_decide; try done. by apply groups_ok_insert.
Qed.

Lemma groups_ok_run ops g s :
  groups_ok (groups g) -> groups_ok (groups (forEach ops group_run1 (g, s)).2.1).
Proof.
  revert g s. induction ops as [|op ops IH]; intros g s H; [done|].
  rewrite forEach_cons. pose proof (groups_ok_step op g s H) as H'.
  destruct (group_run1 op (g, s)).2 as [g' s']. by apply IH.
Qed.

Lemma MemIsMember_spec gid uid g s :
  MemIsMember gid uid (g, s) =
  (match groups g !! gid with Some gr => bool_decide (uid ∈ Members gr) | None => false end,
   (g, s)).
Proof. unfold MemIsMember, bind, getX, gets. simpl. by destruct (groups g !! gid). Qed.

Lemma MemGetUserGroups_spec uid g s :
  exists l, (MemGetUserGroups uid (g, s)).1 = inr l /\
    (MemGetUserGroups uid (g, s)).2.1 = g /\
    l ≡ₚ filter (fun gr => uid ∈ Members gr) (map_to_list (groups g)).*2.
Proof.
  unfold MemGetUserGroups, bind, getX, gets. simpl. eexists. split; [done|]. split; [done|].
  set (ids := order E _ _). assert (Hids : ids ≡ₚ (map_to_list (groups g)).*1) by apply order_perm.
  apply filter_Permutation. rewrite Hids.
  assert (Hall : forall l, (forall p, p ∈ l -> groups g !! p.1 = Some p.2) ->
    omap (fun id => groups g !! id) l.*1 = l.*2).
  { induction l as [|[k v] l IH]; intros Hl; [done|]. cbn [fmap list_fmap fst snd].
    cbn [omap list_omap]. specialize (Hl (k, v)) as Hk. simpl in Hk. rewrite Hk by left. f_equal.
    apply IH. intros p Hp. apply Hl. by right. }
  rewrite Hall; [done|]. intros [k v] Hp. by apply elem_of_map_to_list.
Qed.

(** ** Properties *)


(** Over any history of the in-memory store every group is kept under its
    own id and has a member; it disappears with its last member. *)
Theorem group_store_invariant ops s gid g uid :
  let st := (forEach ops group_run1 (NewInMemoryGroupStore, s)).2 in
  groups st.1 !! gid = Some g ->
  ID g = gid /\ (exists u, u ∈ Members g) /\
  ((forall u, u ∈ Members g -> u = uid) ->
   groups (MemRemoveMember gid uid st).2.1 !! gid = None).
Proof.
  intros st Hg.
  assert (Hok : groups_ok (groups st.1)) by by apply groups_ok_run.
  destruct (Hok gid g Hg) as [Hid Hne]. split; [done|]. apply set_choose_L in Hne as [u Hu].
  split; [by exists u|]. intros Hall.
  destruct (MemRemoveMember_spec gid uid st.1 st.2) as [Hs _]. apply (f_equal snd) in Hs.
  rewrite <- surjective_pairing in Hs. simpl in Hs. rewrite Hs. unfold remove_spec. rewrite Hg.
  rewrite (bool_decide_true (uid ∈ Members g)) by by rewrite <- (Hall u).
  rewrite bool_decide_true by set_solver. apply lookup_delete_eq.
Qed.

(** An owner can leave a group that has other members: the group stays with
    an owner who is not a member, and from then on no member can transfer or
    be recognised as its owner; only the departed owner still can. *)
Theorem group_owner_may_leave gid gr u g s :
  groups g !! gid = Some gr -> OwnerUID gr ∈ Members gr -> u ∈ Members gr ->
  u <> OwnerUID gr ->
  let r := MemRemoveMember gid (OwnerUID gr) (g, s) in
  r.1 = None /\
  (exists gr', groups r.2.1 !! gid = Some gr' /\ OwnerUID gr' = OwnerUID gr /\
     OwnerUID gr' ∉ Members gr') /\
  (forall v w, v <> OwnerUID gr -> (MemTransferOwnership gid v w r.2).1 = Some ErrNotOwner) /\
  (MemTransferOwnership gid (OwnerUID gr) u r.2).1 = None.
Proof.
  intros Hg Ho Hu Hne r.
  destruct (MemRemoveMember_spec gid (OwnerUID gr) g s) as [Hs _]. fold r in Hs.
  unfold remove_spec in Hs. rewrite Hg, bool_decide_true, bool_decide_false in Hs by set_solver.
  injection Hs as Hr1 Hr2. split; [done|].
  assert (Hl : groups r.2.1 !! gid = Some (set_Members (Members gr ∖ {[OwnerUID gr]}) gr))
    by (rewrite Hr2; apply lookup_insert_eq).
  split; [eexists; split; [exact Hl|]; simpl; set_solver|].
  assert (Ht : forall v w, (MemTransferOwnership gid v w r.2).1 =
    (transfer_spec gid v w (groups r.2.1)).1).
  { intros v w. destruct (MemTransferOwnership_spec gid v w r.2.1 r.2.2) as [H _].
    rewrite <- surjective_pairing in H. by rewrite <- H. }
  split; [intros v w Hv|]; rewrite Ht; unfold transfer_spec; rewrite Hl; simpl.
  - by rewrite bool_decide_false.
  - by rewrite bool_decide_true, bool_decide_true by set_solver.
Qed.

End Histories.

Definition demoSys : Sys := mkSys 0 (mkGenerator 1 0 0).

Definition demoGroup : Group := mkGroup "g_1" "team" "alice" {["alice"; "bob"]} 0.

Lemma group_store_invariant_witness :
  let gr := mkGroup "g_4198400" "team" "alice" {["alice"]} 1704067200021 in
  ID gr = "g_4198400" /\ exists u, u ∈ Members gr.
Proof.
  assert (Hg : groups (forEach [OpCreate "team" "alice" []]
      (group_run1 (E := steadyEnv)) (NewInMemoryGroupStore, demoSys)).2.1 !! "g_4198400" =
    Some (mkGroup "g_4198400" "team" "alice" {["alice"]} 1704067200021)) by (vm_compute; done).
  destruct (group_store_invariant (E := steadyEnv) [OpCreate "team" "alice" []] demoSys
    "g_4198400" _ "alice" Hg) as (H1 & H2 & _).
  split; [exact H1|exact H2].
Defined.

Lemma group_owner_may_leave_witness :
  (MemRemoveMember "g_1" "alice"
     (mkInMemoryGroupStore {[ "g_1" := demoGroup ]}, demoSys)).1 = None.
Proof.
  apply (group_owner_may_leave "g_1" demoGroup "bob"
    (mkInMemoryGroupStore {[ "g_1" := demoGroup ]}) demoSys).
  - by apply lookup_singleton_Some.
  - unfold demoGroup. simpl. set_solver.
  - unfold demoGroup. simpl. set_solver.
  - done.
Defined.
