(* ===== verification/Json.v ===== *)
(** * encoding/json, as the gateway uses it

    [Marshal] prints maps with sorted keys and strings with Go's escapes (HTML
    characters included); [Unmarshal] scans the whole input first, then fills
    the fields of a struct, matching their names up to case.  A decoded value
    is one [json]; the handlers' structs are filled from it by the [field_*]
    functions.  Only whether [Unmarshal] fails is modelled, not the wording of
    its errors. *)

From S2P Require Import Prelude.

Inductive json :=
| JNull
| JBool (b : bool)
| JNumber (literal : string)
| JString (s : string)
| JArray (l : list json)
| JObject (fields : list (string * json)).

Definition JInt (z : Z) : json := JNumber (itoa z).

(** ** Bytes *)

Definition code (c : ascii) : Z := Z.of_N (N_of_ascii c).
Definition chr (z : Z) : ascii := ascii_of_N (Z.to_N z).

Definition hexdigit (n : Z) : ascii := if n <? 10 then chr (48 + n) else chr (87 + n).

Definition unhex (c : ascii) : option Z :=
  let n := code c in
  if (48 <=? n) && (n <=? 57) then Some (n - 48)
  else if (97 <=? n) && (n <=? 102) then Some (n - 87)
  else if (65 <=? n) && (n <=? 70) then Some (n - 55)
  else None.

Definition continuation (c : ascii) : bool := (128 <=? code c) && (code c <=? 191).

(** The rune that starts [s] and the rest, as [utf8.DecodeRune] has it; [None]
    when the first byte does not start a valid sequence. *)
Definition decodeRune (s : string) : option (Z * string) :=
  match s with
  | EmptyString => None
  | String a s1 =>
      let x := code a in
      if x <? 128 then Some (x, s1)
      else match s1 with
      | EmptyString => None
      | String b s2 =>
          if negb (continuation b) then None
          else if (194 <=? x) && (x <=? 223)
          then Some ((x - 192) * 64 + (code b - 128), s2)
          else match s2 with
          | EmptyString => None
          | String c s3 =>
              if negb (continuation c) then None
              else
                let r := (x - 224) * 4096 + (code b - 128) * 64 + (code c - 128) in
                if (224 <=? x) && (x <=? 239)
                then if (r <? 2048) || ((55296 <=? r) && (r <=? 57343)) then None
                     else Some (r, s3)
                else match s3 with
                | EmptyString => None
                | String d s4 =>
                    let r := (x - 240) * 262144 + (code b - 128) * 4096 +
                             (code c - 128) * 64 + (code d - 128) in
                    if continuation d && (240 <=? x) && (x <=? 244) &&
                       (65536 <=? r) && (r <=? 1114111)
                    then Some (r, s4) else None
                end
          end
      end
  end.

Definition encodeRune (r : Z) : string :=
  if r <? 128 then String (chr r) ""
  else if r <? 2048 then
    String (chr (192 + Z.shiftr r 6)) (String (chr (128 + Z.land r 63)) "")
  else if (55296 <=? r) && (r <=? 57343) || (1114111 <? r) then
    String (chr 239) (String (chr 191) (String (chr 189) ""))
  else if r <? 65536 then
    String (chr (224 + Z.shiftr r 12))
      (String (chr (128 + Z.land (Z.shiftr r 6) 63)) (String (chr (128 + Z.land r 63)) ""))
  else
    String (chr (240 + Z.shiftr r 18))
      (String (chr (128 + Z.land (Z.shiftr r 12) 63))
        (String (chr (128 + Z.land (Z.shiftr r 6) 63)) (String (chr (128 + Z.land r 63)) ""))).

Definition backslash : ascii := chr 92.
Definition quote : ascii := chr 34.

(** ** Printing *)

Definition uEscape (r : Z) : string :=
  String backslash (String "u" (String (hexdigit (Z.shiftr r 12))
    (String (hexdigit (Z.land (Z.shiftr r 8) 15)) (String (hexdigit (Z.land (Z.shiftr r 4) 15))
      (String (hexdigit (Z.land r 15)) ""))))).

Definition escapeASCII (r : Z) : string :=
  if (r =? 34) || (r =? 92) then String backslash (String (chr r) "")
  else if r =? 8 then String backslash "b"
  else if r =? 12 then String backslash "f"
  else if r =? 10 then String backslash "n"
  else if r =? 13 then String backslash "r"
  else if r =? 9 then String backslash "t"
  else if (r <? 32) || (r =? 60) || (r =? 62) || (r =? 38) then uEscape r
  else String (chr r) "".

Fixpoint escape (fuel : nat) (s : string) : string :=
  match fuel, s with
  | O, _ | _, EmptyString => ""
  | S fuel, String _ s1 =>
      match decodeRune s with
      | None => uEscape 65533 +:+ escape fuel s1
      | Some (r, s') =>
          (if r <? 128 then escapeASCII r
           else if (r =? 8232) || (r =? 8233) then uEscape r
           else encodeRune r) +:+ escape fuel s'
      end
  end.

Definition printString (s : string) : string :=
  String quote (escape (String.length s) s +:+ String quote "").

Fixpoint print (v : json) : string :=
  match v with
  | JNull => "null"
  | JBool b => if b then "true" else "false"
  | JNumber t => t
  | JString s => printString s
  | JArray l =>
      String "[" (String.concat "," (map print l) +:+ "]")
  | JObject fs =>
      String "{" (String.concat ","
        (map (fun f => match f with (k, x) => printString k +:+ String ":" (print x) end) fs)
        +:+ "}")
  end.

(** [json.Marshal] of a map: the keys in order. *)
Definition jmap (fs : list (string * json)) : json :=
  JObject (merge_sort (fun a b => String.le a.1 b.1) fs).

(** A nil slice is printed as [null]. *)
Definition jstrings (l : option (list string)) : json :=
  match l with None => JNull | Some l => JArray (map JString l) end.

(** ** Scanning *)

Fixpoint skipWS (s : string) : string :=
  match s with
  | String c s' =>
      let n := code c in
      if (n =? 32) || (n =? 9) || (n =? 13) || (n =? 10) then skipWS s' else s
  | EmptyString => s
  end.

Definition hex4 (s : string) : option (Z * string) :=
  match s with
  | String a (String b (String c (String d s'))) =>
      match unhex a, unhex b, unhex c, unhex d with
      | Some a, Some b, Some c, Some d => Some (a * 4096 + b * 256 + c * 16 + d, s')
      | _, _, _, _ => None
      end
  | _ => None
  end.

(** The two halves of a surrogate pair, or U+FFFD. *)
Definition surrogate (r : Z) (s : string) : Z * string :=
  if (55296 <=? r) && (r <=? 57343) then
    match s with
    | String a (String b s1) =>
        if (code a =? 92) && (code b =? 117) then
          match hex4 s1 with
          | Some (r2, s2) =>
              if (r <? 56320) && (56320 <=? r2) && (r2 <=? 57343)
              then (65536 + (r - 55296) * 1024 + (r2 - 56320), s2) else (65533, s)
          | None => (65533, s)
          end
        else (65533, s)
    | _ => (65533, s)
    end
  else (r, s).

Definition unescape (c : ascii) : option string :=
  let n := code c in
  if (n =? 34) || (n =? 92) || (n =? 47) then Some (String c "")
  else if n =? 98 then Some (String (chr 8) "")
  else if n =? 102 then Some (String (chr 12) "")
  else if n =? 110 then Some (String (chr 10) "")
  else if n =? 114 then Some (String (chr 13) "")
  else if n =? 116 then Some (String (chr 9) "")
  else None.

(** The rest of a string literal, after its opening quote. *)
Fixpoint scanString (fuel : nat) (s : string) : option (string * string) :=
  match fuel, s with
  | O, _ | _, EmptyString => None
  | S fuel, String c s1 =>
      let n := code c in
      let emit (t s' : string) :=
        match scanString fuel s' with Some (r, s'') => Some (t +:+ r, s'') | None => None end in
      if n =? 34 then Some ("", s1)
      else if n <? 32 then None
      else if n =? 92 then
        match s1 with
        | EmptyString => None
        | String e s2 =>
            if code e =? 117 then
              match hex4 s2 with
              | Some (r, s3) => let (r, s4) := surrogate r s3 in emit (encodeRune r) s4
              | None => None
              end
            else match unescape e with Some t => emit t s2 | None => None end
        end
      else match decodeRune s with
           | Some (r, s') => emit (encodeRune r) s'
           | None => emit (encodeRune 65533) s1
           end
  end.

Definition isDigit (c : ascii) : bool := (48 <=? code c) && (code c <=? 57).

Fixpoint takeDigits (s : string) : string * string :=
  match s with
  | String c s' => if isDigit c then let (d, r) := takeDigits s' in (String c d, r) else ("", s)
  | EmptyString => ("", s)
  end.

(** The rest of a number, after its integer part: (.[0-9]+)?([eE][+-]?[0-9]+)? *)
Definition scanFraction (int s : string) : option (string * string) :=
  let frac := match s with
    | String c s' => if code c =? 46 then
        match takeDigits s' with ("", _) => None | (d, r) => Some (String "." d, r) end
        else Some ("", s)
    | EmptyString => Some ("", s) end in
  match frac with
  | None => None
  | Some (frac, s) =>
      match s with
      | String c s' =>
          if (code c =? 101) || (code c =? 69) then
            let '(sg, s') := match s' with
              | String c' s'' =>
                  if (code c' =? 43) || (code c' =? 45) then (String c' "", s'') else ("", s')
              | EmptyString => ("", s') end in
            match takeDigits s' with
            | ("", _) => None
            | (d, r) => Some (int +:+ frac +:+ String "e" (sg +:+ d), r)
            end
          else Some (int +:+ frac, s)
      | EmptyString => Some (int +:+ frac, s)
      end
  end.

(** -?(0|[1-9][0-9]* ) and then a fraction and an exponent, or nothing. *)
Definition scanNumber (s : string) : option (string * string) :=
  let '(sign, s) := match s with
    | String c s' => if code c =? 45 then ("-", s') else ("", s)
    | EmptyString => ("", s) end in
  let '(int, s) := match s with
    | String c s' => if code c =? 48 then ("0", s') else takeDigits s
    | EmptyString => ("", s) end in
  match int with
  | EmptyString => None
  | _ => scanFraction (sign +:+ int) s
  end.

Fixpoint stripPrefix (p s : string) : option string :=
  match p, s with
  | EmptyString, _ => Some s
  | String a p', String b s' => if bool_decide (a = b) then stripPrefix p' s' else None
  | _, _ => None
  end.

(** One value; [depth] is how much deeper it may nest. *)
Fixpoint scanValue (fuel depth : nat) (s : string) {struct fuel} : option (json * string) :=
  match fuel with
  | O => None
  | S fuel =>
      let s := skipWS s in
      match s with
      | EmptyString => None
      | String c s1 =>
          let n := code c in
          if n =? 34 then
            match scanString (String.length s) s1 with
            | Some (t, r) => Some (JString t, r) | None => None end
          else if n =? 91 then
            match depth with
            | O => None
            | S depth =>
                match skipWS s1 with
                | String c' r => if code c' =? 93 then Some (JArray [], r)
                                 else scanElems fuel depth s1
                | EmptyString => None
                end
            end
          else if n =? 123 then
            match depth with
            | O => None
            | S depth =>
                match skipWS s1 with
                | String c' r => if code c' =? 125 then Some (JObject [], r)
                                 else scanFields fuel depth s1
                | EmptyString => None
                end
            end
          else if n =? 116 then
            match stripPrefix "true" s with Some r => Some (JBool true, r) | None => None end
          else if n =? 102 then
            match stripPrefix "false" s with Some r => Some (JBool false, r) | None => None end
          else if n =? 110 then
            match stripPrefix "null" s with Some r => Some (JNull, r) | None => None end
          else match scanNumber s with Some (t, r) => Some (JNumber t, r) | None => None end
      end
  end
with scanElems (fuel depth : nat) (s : string) {struct fuel} : option (json * string) :=
  match fuel with
  | O => None
  | S fuel =>
      match scanValue fuel depth s with
      | None => None
      | Some (v, r) =>
          match skipWS r with
          | EmptyString => None
          | String c r' =>
              if code c =? 93 then Some (JArray [v], r')
              else if code c =? 44 then
                match scanElems fuel depth r' with
                | Some (JArray l, r'') => Some (JArray (v :: l), r'')
                | _ => None
                end
              else None
          end
      end
  end
with scanFields (fuel depth : nat) (s : string) {struct fuel} : option (json * string) :=
  match fuel with
  | O => None
  | S fuel =>
      match skipWS s with
      | String c s1 =>
          if negb (code c =? 34) then None
          else match scanString (String.length s) s1 with
          | None => None
          | Some (k, r) =>
              match skipWS r with
              | EmptyString => None
              | String c r =>
                  if negb (code c =? 58) then None
                  else match scanValue fuel depth r with
                  | None => None
                  | Some (v, r) =>
                      match skipWS r with
                      | EmptyString => None
                      | String c r =>
                          if code c =? 125 then Some (JObject [(k, v)], r)
                          else if code c =? 44 then
                            match scanFields fuel depth r with
                            | Some (JObject l, r'') => Some (JObject ((k, v) :: l), r'')
                            | _ => None
                            end
                          else None
                      end
                  end
              end
          end
      | EmptyString => None
      end
  end.

Definition maxNestingDepth : nat := Z.to_nat 10000.

(** The value of a whole document.  Every call of a scanner either consumes a
    byte or descends once from one that did, so three times the length is
    enough fuel. *)
Definition Parse (s : string) : option json :=
  match scanValue (3 * String.length s + 3) maxNestingDepth s with
  | Some (v, r) => match skipWS r with EmptyString => Some v | _ => None end
  | None => None
  end.

(** ** Struct fields

    [encoding/json] folds the case of a key before it looks for a field; the
    only non-ASCII characters that fold to a letter are U+017F (to S) and
    U+212A (to K). *)

Fixpoint foldName (s : string) : string :=
  match s with
  | EmptyString => ""
  | String a s' =>
      if (97 <=? code a) && (code a <=? 122) then String (chr (code a - 32)) (foldName s')
      else match s' with
      | String b s'' =>
          if (code a =? 197) && (code b =? 191) then String "S" (foldName s'')
          else match s'' with
          | String c s3 =>
              if (code a =? 226) && (code b =? 132) && (code c =? 170)
              then String "K" (foldName s3) else String a (foldName s')
          | EmptyString => String a (foldName s')
          end
      | EmptyString => String a ""
      end
  end.

(** The values given to a field, in order; every one is decoded, the last
    stays. *)
Definition valuesOf (name : string) (fs : list (string * json)) : list json :=
  omap (fun f : string * json => if bool_decide (foldName f.1 = foldName name) then Some f.2 else None) fs.

Definition decodeString (old : option string) (v : json) : option string :=
  match old, v with
  | Some _, JString s => Some s
  | Some o, JNull => Some o
  | _, _ => None
  end.

Definition field_string (name : string) (fs : list (string * json)) : option string :=
  foldl decodeString (Some "") (valuesOf name fs).

(** [strconv.ParseInt(literal, 10, 64)] and the range check of the field. *)
Fixpoint digitsValue (acc : Z) (s : string) : option Z :=
  match s with
  | EmptyString => Some acc
  | String c s' => if isDigit c then digitsValue (acc * 10 + (code c - 48)) s' else None
  end.

Definition parseInt (t : string) : option Z :=
  match t with
  | String c t' =>
      if code c =? 45
      then match t' with EmptyString => None | _ => match digitsValue 0 t' with Some z => Some (- z) | None => None end end
      else digitsValue 0 t
  | EmptyString => None
  end.

Definition decodeInt (lo hi : Z) (old : option Z) (v : json) : option Z :=
  match old, v with
  | Some _, JNumber t =>
      match parseInt t with
      | Some z => if (lo <=? z) && (z <=? hi) then Some z else None
      | None => None
      end
  | Some o, JNull => Some o
  | _, _ => None
  end.

Definition field_int64 (name : string) (fs : list (string * json)) : option Z :=
  foldl (decodeInt (- 2 ^ 63) (2 ^ 63 - 1)) (Some 0) (valuesOf name fs).
Definition field_int32 (name : string) (fs : list (string * json)) : option Z :=
  foldl (decodeInt (- 2 ^ 31) (2 ^ 31 - 1)) (Some 0) (valuesOf name fs).

(** A [[]string]: a null element keeps what the slice held at that place. *)
Fixpoint decodeStrings (old : list string) (l : list json) : option (list string) :=
  match l with
  | [] => Some []
  | v :: l' =>
      match decodeString (Some (default "" (head old))) v, decodeStrings (tail old) l' with
      | Some s, Some r => Some (s :: r)
      | _, _ => None
      end
  end.

Definition decodeStringSlice (old : option (list string)) (v : json) : option (list string) :=
  match old, v with
  | Some o, JArray l => decodeStrings o l
  | Some _, JNull => Some []
  | _, _ => None
  end.

Definition field_strings (name : string) (fs : list (string * json)) : option (list string) :=
  foldl decodeStringSlice (Some []) (valuesOf name fs).

(** The fields of the object a document holds; [null] leaves the struct as it
    is; anything else is an error. *)
Definition UnmarshalObject (s : string) : option (list (string * json)) :=
  match Parse s with
  | Some (JObject fs) => Some fs
  | Some JNull => Some []
  | _ => None
  end.

(** ** Tests *)

Definition q (s : string) : string := String quote (s +:+ String quote "").

Example print_sorted :
  print (jmap [("uid", JString "a<b"); ("counts", jmap [("z", JInt 3); ("b", JInt (-1))])]) =
  String "{" (q "counts" +:+ ":{" +:+ q "b" +:+ ":-1," +:+ q "z" +:+ ":3}," +:+
    q "uid" +:+ ":" +:+ q (String "a" (String backslash "u003cb")) +:+ "}").
Proof. vm_compute. reflexivity. Qed.

Example parse_request :
  (fs ← UnmarshalObject (" { " +:+ q "Name" +:+ " : " +:+ q "team" +:+ ", " +:+ q "members" +:+
     ":[" +:+ q "a" +:+ " , " +:+ q "b" +:+ "], " +:+ q "x" +:+ ":[1,{}] } ");
   n ← field_string "name" fs; m ← field_strings "members" fs; Some (n, m))
  = Some ("team", ["a"; "b"]).
Proof. vm_compute. reflexivity. Qed.

Example parse_errors :
  map Parse ["{"; "[1,]"; "01"; "1 2"; "tru"; q (String (chr 10) "")] =
  [None; None; None; None; None; None].
Proof. vm_compute. reflexivity. Qed.

Example unicode_roundtrip :
  let s := String (chr 228) (String (chr 189) (String (chr 160) (String (chr 9) "&x"))) in
  Parse (print (JString s)) = Some (JString s).
Proof. vm_compute. reflexivity. Qed.
