(* ===== verification/JsonFacts.v ===== *)
(** * The JSON scanner and the printer

    Every scanner gives the same answer with any fuel beyond a bound linear in
    its input, so [Parse] and [printString], which start above the bounds, never
    fail or stop for want of fuel; and what is printed is read back. *)

From S2P Require Import Prelude Json.

Notation slen := String.length.

(** ** What a scanner leaves is no longer than what it is given *)

Lemma skipWS_le s : (slen (skipWS s) <= slen s)%nat.
Proof. induction s as [|c s IH]; simpl; [lia|]. destruct (_ || _); simpl; lia. Qed.

Lemma decodeRune_lt s r s' : decodeRune s = Some (r, s') -> (slen s' < slen s)%nat.
Proof.
  unfold decodeRune. intros H.
  repeat (case_match; simplify_eq; simpl; try lia).
Qed.

Lemma hex4_lt s r s' : hex4 s = Some (r, s') -> (slen s' < slen s)%nat.
Proof. unfold hex4. intros H. repeat (case_match; simplify_eq; simpl; try lia). Qed.

Lemma surrogate_le r s : (slen (surrogate r s).2 <= slen s)%nat.
Proof.
  unfold surrogate. repeat (case_match; simpl; try lia).
  match goal with H : hex4 _ = Some _ |- _ => apply hex4_lt in H end. lia.
Qed.

Lemma takeDigits_le s d r : takeDigits s = (d, r) -> (slen r <= slen s)%nat.
Proof.
  revert d r. induction s as [|c s IH]; intros d r; simpl; [by intros [= <- <-]|].
  destruct (isDigit c); [|by intros [= <- <-]]. destruct (takeDigits s) as [d' r'].
  intros [= <- <-]. specialize (IH d' r' eq_refl). lia.
Qed.

Lemma stripPrefix_le p s r : stripPrefix p s = Some r -> (slen r <= slen s)%nat.
Proof.
  revert s. induction p as [|a p IH]; intros s; simpl; [by intros [= ->]|].
  destruct s as [|b s]; [done|]. case_bool_decide; [|done]. intros Hr%IH. simpl. lia.
Qed.

Lemma scanNumber_le s t r : scanNumber s = Some (t, r) -> (slen r <= slen s)%nat.
Proof.
  unfold scanNumber, scanFraction. intros H.
  repeat (case_match; simplify_eq; simpl in *; try lia);
    repeat match goal with
    | H : takeDigits _ = _ |- _ => apply takeDigits_le in H; simpl in H
    end; lia.
Qed.

(** ** String literals *)

Lemma scanString_lt f s t r : scanString f s = Some (t, r) -> (slen r < slen s)%nat.
Proof.
  revert s t r. induction f as [|f IH]; intros s t r; [done|]. destruct s as [|c s1]; [done|].
  assert (Hemit : forall x s', (slen s' <= slen s1)%nat ->
    match scanString f s' with Some (y, s'') => Some (x +:+ y, s'') | None => None end = Some (t, r) ->
    (slen r < slen (String c s1))%nat).
  { intros x s' Hs. destruct (scanString f s') as [[y s'']|] eqn:Hf; [|done].
    intros [= _ <-]. apply IH in Hf. simpl. lia. }
  cbn [scanString]. cbv zeta. destruct (_ =? 34); [intros [= _ <-]; simpl; lia|].
  destruct (_ <? 32); [done|]. destruct (_ =? 92).
  - destruct s1 as [|e s2]; [done|]. destruct (_ =? 117).
    + destruct (hex4 s2) as [[q s3]|] eqn:Hh; [|done]. pose proof (surrogate_le q s3) as Hs.
      destruct (surrogate q s3) as [q' s4]. apply hex4_lt in Hh. apply Hemit. simpl in *. lia.
    + destruct (unescape e); [|done]. apply Hemit. simpl. lia.
  - destruct (decodeRune (String c s1)) as [[q s']|] eqn:Hd; [|by apply Hemit].
    apply decodeRune_lt in Hd. apply Hemit. simpl in Hd. lia.
Qed.

Lemma scanString_fuel f f' s :
  (slen s < f)%nat -> (slen s < f')%nat -> scanString f s = scanString f' s.
Proof.
  revert f' s. induction f as [|f IH]; intros f' s Hf Hf'; [lia|].
  destruct f' as [|f']; [lia|]. destruct s as [|c s1]; [done|]. simpl in Hf, Hf'.
  cbn [scanString]. cbv zeta. destruct (_ =? 34); [done|]. destruct (_ <? 32); [done|].
  assert (Hs : forall s', (slen s' <= slen s1)%nat -> scanString f s' = scanString f' s')
    by (intros; apply IH; lia).
  destruct (_ =? 92).
  - destruct s1 as [|e s2]; [done|]. simpl in Hs. destruct (_ =? 117).
    + destruct (hex4 s2) as [[q s3]|] eqn:Hh; [|done]. pose proof (surrogate_le q s3) as Hq.
      destruct (surrogate q s3) as [q' s4]. apply hex4_lt in Hh. simpl in Hq.
      rewrite Hs by lia. done.
    + destruct (unescape e); [|done]. rewrite Hs by lia. done.
  - destruct (decodeRune (String c s1)) as [[q s']|] eqn:Hd; [|by rewrite Hs by lia].
    apply decodeRune_lt in Hd. simpl in Hd. rewrite Hs by lia. done.
Qed.

(** Escaping a string uses at most one unit per byte. *)
Lemma escape_fuel f f' s : (slen s <= f)%nat -> (slen s <= f')%nat -> escape f s = escape f' s.
Proof.
  revert f' s. induction f as [|f IH]; intros f' s Hf Hf'.
  - destruct s; [by destruct f'|simpl in Hf; lia].
  - destruct s as [|c s1]; [by destruct f'|]. destruct f' as [|f']; [simpl in Hf'; lia|].
    simpl in Hf, Hf'. cbn [escape]. destruct (decodeRune (String c s1)) as [[q s']|] eqn:Hd.
    + apply decodeRune_lt in Hd. simpl in Hd. rewrite (IH f' s') by lia. done.
    + rewrite (IH f' s1) by lia. done.
Qed.

(** ** Values *)

(** What is left after a value, the elements of an array or the fields of an
    object. *)
Lemma scan_le f :
  (forall d s v r, scanValue f d s = Some (v, r) -> (slen r <= slen s)%nat) /\
  (forall d s v r, scanElems f d s = Some (v, r) -> (slen r <= slen s)%nat) /\
  (forall d s v r, scanFields f d s = Some (v, r) -> (slen r <= slen s)%nat).
Proof.
  induction f as [|f (IHv & IHe & IHf)]; [done|]. split_and!; intros d s v r.
  - cbn [scanValue]. cbv zeta. pose proof (skipWS_le s) as Hw.
    destruct (skipWS s) as [|c s1]; [done|]. pose proof (skipWS_le s1) as Hw1. simpl in Hw.
    assert (Hlit : forall p (w : json), match stripPrefix p (String c s1) with
      Some r' => Some (w, r') | None => None end = Some (v, r) -> (slen r <= slen s)%nat).
    { intros p w. destruct (stripPrefix p (String c s1)) as [r'|] eqn:Hp; [|done].
      intros [= _ <-]. apply stripPrefix_le in Hp. simpl in Hp. lia. }
    destruct (_ =? 34).
    { destruct (scanString _ s1) as [[t r']|] eqn:Hk; [|done]. intros [= _ <-].
      apply scanString_lt in Hk. lia. }
    destruct (_ =? 91).
    { destruct d; [done|]. destruct (skipWS s1) as [|c' r']; [done|]. simpl in Hw1.
      destruct (_ =? 93); [intros [= _ <-]; lia|]. intros H%IHe. lia. }
    destruct (_ =? 123).
    { destruct d; [done|]. destruct (skipWS s1) as [|c' r']; [done|]. simpl in Hw1.
      destruct (_ =? 125); [intros [= _ <-]; lia|]. intros H%IHf. lia. }
    destruct (_ =? 116); [apply Hlit|]. destruct (_ =? 102); [apply Hlit|].
    destruct (_ =? 110); [apply Hlit|].
    destruct (scanNumber (String c s1)) as [[t r']|] eqn:Hn; [|done]. intros [= _ <-].
    apply scanNumber_le in Hn. simpl in Hn. lia.
  - cbn [scanElems]. destruct (scanValue f d s) as [[v1 r1]|] eqn:Hv; [|done].
    apply IHv in Hv. pose proof (skipWS_le r1) as Hw. destruct (skipWS r1) as [|c r2]; [done|].
    simpl in Hw. destruct (_ =? 93); [intros [= _ <-]; lia|]. destruct (_ =? 44); [|done].
    destruct (scanElems f d r2) as [[[] r3]|] eqn:He; try done. intros [= _ <-].
    apply IHe in He. lia.
  - cbn [scanFields]. pose proof (skipWS_le s) as Hw. destruct (skipWS s) as [|c s1]; [done|].
    destruct (negb _); [done|].
    destruct (scanString _ s1) as [[k r1]|] eqn:Hk; [|done]. apply scanString_lt in Hk.
    pose proof (skipWS_le r1) as Hw1. destruct (skipWS r1) as [|c1 r2]; [done|].
    destruct (negb _); [done|]. destruct (scanValue f d r2) as [[v1 r3]|] eqn:Hv; [|done].
    apply IHv in Hv. pose proof (skipWS_le r3) as Hw3. destruct (skipWS r3) as [|c3 r4]; [done|].
    simpl in *. destruct (_ =? 125); [intros [= _ <-]; lia|]. destruct (_ =? 44); [|done].
    destruct (scanFields f d r4) as [[[] r5]|] eqn:Hf; try done. intros [= _ <-].
    apply IHf in Hf. lia.
Qed.

(** Two units per byte, and one more for each step into an array or object. *)
Lemma scan_fuel f :
  (forall f' d s, (2 * slen s < f)%nat -> (2 * slen s < f')%nat ->
     scanValue f d s = scanValue f' d s) /\
  (forall f' d s, (2 * slen s + 1 < f)%nat -> (2 * slen s + 1 < f')%nat ->
     scanElems f d s = scanElems f' d s) /\
  (forall f' d s, (2 * slen s < f)%nat -> (2 * slen s < f')%nat ->
     scanFields f d s = scanFields f' d s).
Proof.
  induction f as [|f (IHv & IHe & IHf)]; [by split_and!; intros; lia|].
  split_and!; intros f' d s H H'; (destruct f' as [|f']; [lia|]).
  - cbn [scanValue]. cbv zeta. pose proof (skipWS_le s) as Hw.
    destruct (skipWS s) as [|c s1]; [done|]. simpl in Hw.
    destruct (_ =? 34); [done|]. destruct (_ =? 91).
    + destruct d; [done|]. destruct (skipWS s1); [done|]. by rewrite (IHe f') by lia.
    + destruct (_ =? 123); [|done]. destruct d; [done|]. destruct (skipWS s1); [done|].
      by rewrite (IHf f') by lia.
  - cbn [scanElems]. rewrite (IHv f' d s) by lia.
    destruct (scanValue f' d s) as [[v r]|] eqn:Hv; [|done]. apply (scan_le f') in Hv.
    pose proof (skipWS_le r) as Hw. destruct (skipWS r) as [|c r']; [done|]. simpl in Hw.
    destruct (_ =? 93); [done|]. destruct (_ =? 44); [|done]. by rewrite (IHe f') by lia.
  - cbn [scanFields]. pose proof (skipWS_le s) as Hw. destruct (skipWS s) as [|c s1]; [done|].
    simpl in Hw. destruct (negb _); [done|].
    destruct (scanString _ s1) as [[k r]|] eqn:Hk; [|done]. apply scanString_lt in Hk.
    pose proof (skipWS_le r) as Hw1. destruct (skipWS r) as [|c1 r1]; [done|]. simpl in Hw1.
    destruct (negb _); [done|]. rewrite (IHv f' d r1) by lia.
    destruct (scanValue f' d r1) as [[v r2]|] eqn:Hv; [|done]. apply (scan_le f') in Hv.
    pose proof (skipWS_le r2) as Hw2. destruct (skipWS r2) as [|c2 r3]; [done|]. simpl in Hw2.
    destruct (_ =? 125); [done|]. destruct (_ =? 44); [|done]. by rewrite (IHf f') by lia.
Qed.

(** More fuel never changes what [Parse] answers. *)
Lemma Parse_fuel f s :
  (3 * slen s + 3 <= f)%nat ->
  Parse s = match scanValue f maxNestingDepth s with
    | Some (v, r) => match skipWS r with EmptyString => Some v | _ => None end
    | None => None
    end.
Proof. intros H. unfold Parse. by rewrite (proj1 (scan_fuel _) f maxNestingDepth s) by lia. Qed.

(** * What is printed as JSON is read back

    For documents whose strings are valid UTF-8 and whose numbers are integers,
    [Parse] inverts [print]: the escapes of the printer are undone by the
    scanner, rune by rune. *)

(** ** Bytes and runes *)

Lemma append_cons a s t : (String a s +:+ t)%string = String a (s +:+ t)%string.
Proof. done. Qed.

Lemma append_nil t : ("" +:+ t)%string = t.
Proof. done. Qed.

Lemma append_assoc s t u : ((s +:+ t) +:+ u)%string = (s +:+ (t +:+ u))%string.
Proof. induction s as [|c s IH]; [done|]. by rewrite !append_cons, IH. Qed.

Lemma code_range c : 0 <= code c < 256.
Proof. unfold code. pose proof (N_ascii_bounded c). lia. Qed.

Lemma chr_code c : chr (code c) = c.
Proof. unfold chr, code. by rewrite N2Z.id, ascii_N_embedding. Qed.

Lemma code_chr z : 0 <= z < 256 -> code (chr z) = z.
Proof. intros Hz. unfold code, chr. rewrite N_ascii_embedding; lia. Qed.

Lemma land63 z : Z.land z 63 = z mod 64.
Proof. change 63 with (Z.ones 6). by rewrite Z.land_ones. Qed.

(** The encodings of two, three and four bytes. *)
Lemma encode2 a b :
  194 <= a <= 223 -> 128 <= b <= 191 ->
  encodeRune ((a - 192) * 64 + (b - 128)) = String (chr a) (String (chr b) "").
Proof.
  intros Ha Hb. set (r := (a - 192) * 64 + (b - 128)).
  assert (Hr : r / 64 = a - 192 /\ r mod 64 = b - 128) by (unfold r; Z.to_euclidean_division_equations; lia).
  unfold encodeRune. rewrite !land63, !Z.shiftr_div_pow2 by lia. change (2 ^ 6) with 64.
  destruct (Z.ltb_spec r 128); [lia|]. destruct (Z.ltb_spec r 2048); [|lia].
  destruct Hr as [-> ->]. by replace (192 + (a - 192)) with a by lia; replace (128 + (b - 128)) with b by lia.
Qed.

Lemma encode3 a b c :
  let r := (a - 224) * 4096 + (b - 128) * 64 + (c - 128) in
  224 <= a <= 239 -> 128 <= b <= 191 -> 128 <= c <= 191 -> 2048 <= r ->
  (55296 <=? r) && (r <=? 57343) = false ->
  encodeRune r = String (chr a) (String (chr b) (String (chr c) "")).
Proof.
  intros r Ha Hb Hc Hr1 Hr2.
  assert (Hr : r / 4096 = a - 224 /\ r / 64 mod 64 = b - 128 /\ r mod 64 = c - 128)
    by (unfold r; Z.to_euclidean_division_equations; lia).
  assert (Hlt : r < 65536) by (unfold r; lia).
  unfold encodeRune. rewrite !land63, !Z.shiftr_div_pow2, Hr2 by lia.
  change (2 ^ 6) with 64. change (2 ^ 12) with 4096.
  destruct (Z.ltb_spec r 128); [lia|]. destruct (Z.ltb_spec r 2048); [lia|].
  destruct (Z.ltb_spec 1114111 r); [lia|]. destruct (Z.ltb_spec r 65536); [|lia]. cbn [orb].
  destruct Hr as (-> & -> & ->). replace (224 + (a - 224)) with a by lia.
  by replace (128 + (b - 128)) with b by lia; replace (128 + (c - 128)) with c by lia.
Qed.

Lemma encode4 a b c d :
  let r := (a - 240) * 262144 + (b - 128) * 4096 + (c - 128) * 64 + (d - 128) in
  240 <= a <= 244 -> 128 <= b <= 191 -> 128 <= c <= 191 -> 128 <= d <= 191 -> 65536 <= r <= 1114111 ->
  encodeRune r = String (chr a) (String (chr b) (String (chr c) (String (chr d) ""))).
Proof.
  intros r Ha Hb Hc Hd Hr1.
  assert (Hr : r / 262144 = a - 240 /\ r / 4096 mod 64 = b - 128 /\ r / 64 mod 64 = c - 128 /\
    r mod 64 = d - 128) by (unfold r; Z.to_euclidean_division_equations; lia).
  unfold encodeRune. rewrite !land63, !Z.shiftr_div_pow2 by lia.
  change (2 ^ 6) with 64. change (2 ^ 12) with 4096. change (2 ^ 18) with 262144.
  destruct (Z.ltb_spec r 128); [lia|]. destruct (Z.ltb_spec r 2048); [lia|].
  destruct (Z.leb_spec r 57343); [lia|]. rewrite andb_false_r.
  destruct (Z.ltb_spec 1114111 r); [lia|]. destruct (Z.ltb_spec r 65536); [lia|]. cbn [orb].
  destruct Hr as (-> & -> & -> & ->). replace (240 + (a - 240)) with a by lia.
  by replace (128 + (b - 128)) with b by lia; replace (128 + (c - 128)) with c by lia;
    replace (128 + (d - 128)) with d by lia.
Qed.

Lemma continuation_range c : continuation c = true -> 128 <= code c <= 191.
Proof. unfold continuation. lia. Qed.

(** A sequence that decodes is the encoding of its rune, whatever follows. *)
Lemma decodeRune_inv s r s' :
  decodeRune s = Some (r, s') ->
  0 <= r /\ s = (encodeRune r +:+ s')%string /\ forall t, decodeRune (encodeRune r +:+ t) = Some (r, t).
Proof.
  destruct s as [|a s1]; [done|]. cbn [decodeRune]. pose proof (code_range a) as Ha'.
  destruct (code a <? 128) eqn:Ha.
  { intros [= <- <-]. unfold encodeRune. rewrite Ha, chr_code. split; [lia|]. split; [done|].
    intros t. rewrite ?append_cons, append_nil. cbn [decodeRune]. by rewrite Ha. }
  destruct s1 as [|b s2]; [done|]. destruct (continuation b) eqn:Hb; [|done]. cbn [negb].
  pose proof (continuation_range b Hb) as Hb'.
  destruct ((194 <=? code a) && (code a <=? 223)) eqn:H2.
  { intros [= <- <-]. rewrite encode2, !chr_code by lia. split; [lia|]. split; [done|].
    intros t. rewrite ?append_cons, append_nil. cbn [decodeRune]. by rewrite Ha, Hb, H2. }
  destruct s2 as [|c s3]; [done|]. destruct (continuation c) eqn:Hc; [|done]. cbn [negb].
  pose proof (continuation_range c Hc) as Hc'.
  destruct ((224 <=? code a) && (code a <=? 239)) eqn:H3.
  { match goal with |- (if ?b then _ else _) = _ -> _ => destruct b eqn:Hbad end; [done|]. intros [= <- <-]. pose proof Hbad as [Hr1 Hr2]%orb_false_iff.
    rewrite encode3, !chr_code by lia. split; [lia|]. split; [done|].
    intros t. rewrite ?append_cons, append_nil. cbn [decodeRune]. by rewrite Ha, Hb, H2, Hc, H3, Hbad. }
  destruct s3 as [|d s4]; [done|]. destruct (continuation d) eqn:Hd; [|done].
  pose proof (continuation_range d Hd) as Hd'.
    match goal with |- (if ?b then _ else _) = _ -> _ => destruct b eqn:Hok end; [|done]. intros [= <- <-].
  rewrite encode4, !chr_code by lia. split; [lia|]. split; [done|].
    intros t. rewrite ?append_cons, append_nil. cbn [decodeRune]. by rewrite Ha, Hb, H2, Hc, H3, Hd, Hok.
Qed.

(** ** Strings *)

(** Every byte belongs to the encoding of a rune. *)
Fixpoint validUTF8 (fuel : nat) (s : string) : bool :=
  match fuel, s with
  | _, EmptyString => true
  | O, _ => false
  | S fuel, _ => match decodeRune s with Some (_, s') => validUTF8 fuel s' | None => false end
  end.

Definition utf8 (s : string) : Prop := validUTF8 (slen s) s = true.

Definition emit (t : string) (r : option (string * string)) : option (string * string) :=
  match r with Some (y, s'') => Some ((t +:+ y)%string, s'') | None => None end.

(** One turn of [scanString], over what scans the rest. *)
Definition scanStep (rec : string -> option (string * string)) (s : string) : option (string * string) :=
  match s with
  | EmptyString => None
  | String c s1 =>
      let n := code c in
      if n =? 34 then Some (""%string, s1)
      else if n <? 32 then None
      else if n =? 92 then
        match s1 with
        | EmptyString => None
        | String e s2 =>
            if code e =? 117 then
              match hex4 s2 with
              | Some (r, s3) => let (r, s4) := surrogate r s3 in emit (encodeRune r) (rec s4)
              | None => None
              end
            else match unescape e with Some t => emit t (rec s2) | None => None end
        end
      else match decodeRune s with
           | Some (r, s') => emit (encodeRune r) (rec s')
           | None => emit (encodeRune 65533) (rec s1)
           end
  end.

Lemma scanString_S f s : scanString (S f) s = scanStep (scanString f) s.
Proof. by destruct s. Qed.

(** The scanner reads back each escape in one turn. *)
Lemma step_ascii rec c t :
  code c < 128 -> scanStep rec (escapeASCII (code c) +:+ t) = emit (String c "") (rec t).
Proof.
  intros Hc. destruct c as [[] [] [] [] [] [] [] []]; 
    first [exfalso; revert Hc; vm_compute; congruence|vm_compute; reflexivity].
Qed.

Lemma step_separator rec r t :
  r = 8232 \/ r = 8233 -> scanStep rec (uEscape r +:+ t) = emit (encodeRune r) (rec t).
Proof. intros [->| ->]; vm_compute; reflexivity. Qed.

Lemma encodeRune_high r :
  128 <= r -> exists a s, encodeRune r = String a s /\ 192 <= code a.
Proof.
  intros Hr. unfold encodeRune. rewrite (proj2 (Z.ltb_ge _ _) Hr), !Z.shiftr_div_pow2 by lia.
  change (2 ^ 6) with 64. change (2 ^ 12) with 4096. change (2 ^ 18) with 262144.
  destruct (Z.ltb_spec r 2048).
  { eexists _, _. split; [reflexivity|]. rewrite code_chr; Z.to_euclidean_division_equations; lia. }
  destruct (_ || _) eqn:Hbad; [by eexists _, _|]. apply orb_false_iff in Hbad as [_ Hbad].
  destruct (Z.ltb_spec r 65536);
    (eexists _, _; split; [reflexivity|]; rewrite code_chr; Z.to_euclidean_division_equations; lia).
Qed.

Lemma step_rune rec s r s' t :
  decodeRune s = Some (r, s') -> 128 <= r ->
  scanStep rec (encodeRune r +:+ t) = emit (encodeRune r) (rec t).
Proof.
  intros Hd Hr. destruct (decodeRune_inv s r s' Hd) as (_ & _ & Ht). specialize (Ht t).
  destruct (encodeRune_high r Hr) as (a & u & He & Ha). rewrite He, append_cons in Ht |- *. cbn [scanStep].
  destruct (Z.eqb_spec (code a) 34); [lia|]. destruct (Z.ltb_spec (code a) 32); [lia|].
  destruct (Z.eqb_spec (code a) 92); [lia|]. by rewrite Ht, He.
Qed.

(** A string literal is read back. *)
Lemma scan_escape n s f t :
  validUTF8 n s = true -> (slen s < f)%nat ->
  scanString f (escape n s +:+ String quote t) = Some (s, t).
Proof.
  revert s f. induction n as [|n IH]; intros s f Hv Hf; (destruct f as [|f]; [lia|]);
    (destruct s as [|c s1]; [done|]); [done|].
  cbn [validUTF8] in Hv. cbn [escape]. rewrite scanString_S.
  destruct (decodeRune (String c s1)) as [[r s']|] eqn:Hd; [|done].
  pose proof (decodeRune_lt _ _ _ Hd) as Hlt. destruct (decodeRune_inv _ _ _ Hd) as (Hr & Hs & _).
  assert (Hrest : scanString f (escape n s' +:+ String quote t) = Some (s', t)) by (apply IH; [done|lia]).
  rewrite append_assoc. rewrite Hs. destruct (Z.ltb_spec r 128) as [H128|H128].
  - assert (He : encodeRune r = String (chr r) "") by (unfold encodeRune; by rewrite (proj2 (Z.ltb_lt _ _) H128)).
    replace r with (code (chr r)) at 1 by (apply code_chr; lia).
    rewrite step_ascii, Hrest, He by (rewrite code_chr; lia). done.
  - destruct ((r =? 8232) || (r =? 8233)) eqn:Hsep.
    + rewrite step_separator, Hrest by lia. done.
    + by rewrite (step_rune _ _ _ _ _ Hd), Hrest by lia.
Qed.

(** ** Numbers *)

Fixpoint digits (s : string) : bool :=
  match s with EmptyString => true | String c s' => isDigit c && digits s' end.

Lemma digits_append s t : digits (s +:+ t) = digits s && digits t.
Proof. induction s as [|c s IH]; [done|]. rewrite append_cons. cbn [digits]. by rewrite IH, andb_assoc. Qed.

(** What may follow a number. *)
Definition ends (s : string) : bool :=
  match s with
  | EmptyString => true
  | String c _ => negb (isDigit c || (code c =? 46) || (code c =? 101) || (code c =? 69))
  end.

Lemma takeDigits_all d rest :
  digits d = true -> ends rest = true -> takeDigits (d +:+ rest) = (d, rest).
Proof.
  intros Hd Hr. induction d as [|c d IH].
  - destruct rest as [|c rest]; [done|]. cbn in Hr |- *. rewrite append_nil. cbn. by destruct (isDigit c).
  - cbn in Hd. apply andb_true_iff in Hd as [Hc Hd]. rewrite append_cons. cbn [takeDigits].
    by rewrite Hc, IH.
Qed.

Lemma pretty_N_char_digit d :
  (d < 10)%N -> isDigit (pretty_N_char d) = true /\ code (pretty_N_char d) = 48 + Z.of_N d.
Proof.
  intros Hd. assert (H : (d = 0 \/ d = 1 \/ d = 2 \/ d = 3 \/ d = 4 \/ d = 5 \/ d = 6 \/ d = 7 \/ d = 8 \/ d = 9)%N)
    by lia.
  destruct_or! H; subst; by vm_compute.
Qed.

(** A positive number is digits that do not start with zero. *)
Lemma pretty_N_go_digits x t :
  (0 < x)%N -> exists c d, pretty_N_go x t = String c (d +:+ t) /\ isDigit c = true /\ code c <> 48 /\ digits d = true.
Proof.
  revert t. induction (N.lt_wf_0 x) as [x _ IH]; intros t Hx.
  rewrite pretty_N_go_step by lia. set (m := (x mod 10)%N).
  assert (Hm : (m < 10)%N) by (by apply N.mod_lt). destruct (pretty_N_char_digit m Hm) as [H1 H2].
  destruct (decide (x / 10 = 0)%N) as [Hz|Hz].
  - rewrite Hz, pretty_N_go_0. exists (pretty_N_char m), ""%string. split_and!; [done|done| |done].
    rewrite H2. apply N.div_small_iff in Hz; [|done]. unfold m. rewrite N.mod_small by done. clear -Hx. lia.
  - assert (Hlt : (x / 10 < x)%N) by (by apply N.div_lt).
    assert (Hpos : (0 < x / 10)%N) by (by apply N.neq_0_lt_0).
    destruct (IH (x / 10)%N Hlt (String (pretty_N_char m) t) Hpos)
      as (c & d & -> & Hc & H48 & Hd).
    exists c, (d +:+ String (pretty_N_char m) "")%string. split_and!; [by rewrite append_assoc|done|done|].
    rewrite digits_append. cbn [digits]. by rewrite Hd, H1.
Qed.

Lemma append_empty (s : string) : (s +:+ "")%string = s.
Proof. induction s as [|c s IH]; [done|]. by rewrite append_cons, IH. Qed.

Lemma length_append (a b : string) : String.length (a +:+ b) = (String.length a + String.length b)%nat.
Proof. induction a as [|c a IH]; [done|]. cbn. by rewrite <- IH. Qed.

(** What an integer looks like in decimal. *)
Lemma itoa_shape z :
  itoa z = "0"%string \/ exists sign c d, itoa z = (sign +:+ String c d)%string /\ (sign = "" \/ sign = "-")%string /\
    isDigit c = true /\ code c <> 48 /\ digits d = true.
Proof.
  unfold itoa, pretty, pretty_Z, pretty, pretty_positive, pretty, pretty_N.
  destruct z as [|p|p]; [by left|right..]; rewrite decide_False by done;
    destruct (pretty_N_go_digits (N.pos p) "" ltac:(lia)) as (c & d & -> & Hc & H48 & Hd).
  - exists ""%string, c, d. split_and!; [by rewrite append_nil, append_empty|by left|done..].
  - exists "-"%string, c, d. split_and!; [|by right|done..].
    by rewrite append_empty, append_cons, append_nil.
Qed.

Lemma scanFraction_ends int rest : ends rest = true -> scanFraction int rest = Some (int, rest).
Proof.
  unfold scanFraction. destruct rest as [|c r]; cbn; [by rewrite append_empty|].
  destruct (Z.eqb_spec (code c) 46); [by rewrite orb_true_r|].
  destruct (Z.eqb_spec (code c) 101); [by rewrite orb_true_r|].
  destruct (Z.eqb_spec (code c) 69); [by rewrite orb_true_r|]. by rewrite append_empty.
Qed.

Lemma scanNumber_itoa z rest : ends rest = true -> scanNumber (itoa z +:+ rest) = Some (itoa z, rest).
Proof.
  intros He. destruct (itoa_shape z) as [->|(sign & c & d & -> & Hs & Hc & H48 & Hd)].
  { rewrite append_cons, append_nil. unfold scanNumber. cbn. by apply scanFraction_ends. }
  assert (Ht : takeDigits (String c d +:+ rest) = (String c d, rest))
    by (apply takeDigits_all; [cbn; by rewrite Hc|done]).
  assert (H45 : code c <> 45) by (unfold isDigit in Hc; lia).
  rewrite append_assoc. unfold scanNumber. destruct Hs as [-> | ->]; rewrite ?append_nil, ?append_cons, ?append_nil in *.
  - rewrite (proj2 (Z.eqb_neq _ _) H45), (proj2 (Z.eqb_neq _ _) H48), Ht. by apply scanFraction_ends.
  - cbn [code N_of_ascii]. change (code "-" =? 45) with true. cbv iota.
    rewrite (proj2 (Z.eqb_neq _ _) H48), Ht. by apply scanFraction_ends.
Qed.

(** ** Documents *)

(** The documents [print] writes in a form [Parse] reads: integers, valid
    UTF-8 and at most [d] arrays and objects inside each other. *)
Inductive printable : nat -> json -> Prop :=
| PrintableNull d : printable d JNull
| PrintableBool d b : printable d (JBool b)
| PrintableInt d z : printable d (JInt z)
| PrintableString d s : utf8 s -> printable d (JString s)
| PrintableArray d l : Forall (printable d) l -> printable (S d) (JArray l)
| PrintableObject d fs :
    Forall (fun f => utf8 f.1 /\ printable d f.2) fs -> printable (S d) (JObject fs).

(** What starts a value: no white space, no closing bracket. *)
Definition starts (s : string) : bool :=
  match s with
  | String c _ => negb ((code c =? 32) || (code c =? 9) || (code c =? 13) || (code c =? 10) || (code c =? 93))
  | EmptyString => false
  end.

Lemma starts_skipWS s : starts s = true -> skipWS s = s.
Proof. destruct s as [|c s]; [done|]. cbn. intros H. apply negb_true_iff, orb_false_iff in H as [-> _]. done. Qed.

Lemma itoa_cons z : exists c s, itoa z = String c s /\ (code c = 45 \/ isDigit c = true).
Proof.
  destruct (itoa_shape z) as [->|(sign & c & d & -> & [-> | ->] & Hc & _)].
  - exists "0"%char, ""%string. by split; [|right].
  - exists c, d. by split; [|right].
  - exists "-"%char, (String c d). by split; [|left].
Qed.

Lemma printable_starts d v rest : printable d v -> starts (print v +:+ rest) = true.
Proof.
  intros [| | d' z | | |]; try done; [by destruct b|].
  cbn [JInt print]. destruct (itoa_cons z) as (c & s & -> & Hc). rewrite append_cons. cbn.
  unfold isDigit in Hc. lia.
Qed.

(** A string literal is read back, as a value or as the name of a field. *)
Lemma scan_literal s rest :
  utf8 s -> scanString (slen (printString s +:+ rest)) ((escape (slen s) s +:+ String quote "") +:+ rest) = Some (s, rest).
Proof.
  intros Hs. rewrite append_assoc, append_cons, append_nil.
  set (f := slen (printString s +:+ rest)). 
  rewrite (scanString_fuel f (S (f + slen s))); [apply scan_escape; [done|lia]| |];
    unfold f, printString; rewrite append_cons; cbn; rewrite !length_append; cbn; rewrite ?length_append; cbn; lia.
Qed.

Lemma scan_string f d s rest :
  utf8 s -> scanValue (S f) d (printString s +:+ rest) = Some (JString s, rest).
Proof.
  intros Hs. pose proof (scan_literal s rest Hs) as Hl. unfold printString in Hl |- *.
  rewrite append_cons in Hl |- *. cbn [scanValue skipWS]. cbv zeta. change (code quote) with 34. cbv iota beta.
  cbn [Z.eqb Pos.eqb orb]. by rewrite Hl.
Qed.

Lemma scan_int f d z rest :
  ends rest = true -> scanValue (S f) d (itoa z +:+ rest) = Some (JInt z, rest).
Proof.
  intros He. pose proof (scanNumber_itoa z rest He) as Hn. 
  cbn [scanValue]. rewrite (starts_skipWS (itoa z +:+ rest)) by apply (printable_starts 0 (JInt z)), PrintableInt.
  destruct (itoa_cons z) as (c & s & Hz & Hc). rewrite Hz in Hn |- *. rewrite append_cons in Hn |- *.
  unfold isDigit in Hc. cbv zeta.
  assert (Hne : forall n, n = 34 \/ n = 91 \/ n = 123 \/ n = 116 \/ n = 102 \/ n = 110 -> (code c =? n) = false)
    by (intros; lia).
  rewrite !Hne, Hn by lia. unfold JInt. by rewrite Hz.
Qed.

(** The elements of an array and the fields of an object, when each value is
    read back. *)
Definition reads (d : nat) (v : json) : Prop :=
  forall f rest, ends rest = true -> (2 * slen (print v +:+ rest) < f)%nat ->
    scanValue f d (print v +:+ rest) = Some (v, rest).

Lemma concat_comma x y l t :
  (String.concat "," (x :: y :: l) +:+ t)%string = (x +:+ String "," (String.concat "," (y :: l) +:+ t))%string.
Proof. change (String.concat "," (x :: y :: l)) with (x +:+ ("," +:+ String.concat "," (y :: l)))%string.
  by rewrite !append_assoc. Qed.

Lemma concat_one x t : (String.concat "," [x] +:+ t)%string = (x +:+ t)%string.
Proof. done. Qed.

Ltac lengths := repeat first [rewrite !append_cons in * | rewrite !length_append in * | progress cbn [String.length] in *].

Lemma scan_elems d l : l <> [] -> Forall (reads d) l -> forall f rest,
  let s := (String.concat "," (map print l) +:+ String "]" rest)%string in
  (2 * slen s + 1 < f)%nat -> scanElems f d s = Some (JArray l, rest).
Proof.
  intros Hne Hl. induction Hl as [|v l Hv Hl IH]; [done|]. intros f rest s Hf. unfold s in *. clear s.
  destruct f as [|f]; [lia|]. cbn [scanElems]. destruct l as [|w l]; cbn [map] in *.
  - rewrite concat_one in *. by rewrite Hv by (done || lia).
  - rewrite concat_comma in *. rewrite Hv by (done || lia). cbn [skipWS].
    change (code ",") with 44. cbn [Z.eqb Pos.eqb orb]. rewrite IH; [done..|]. lengths. lia.
Qed.

Lemma scan_fields d fs : fs <> [] -> Forall (fun f => utf8 f.1 /\ reads d f.2) fs -> forall f rest,
  let s := (String.concat "," (map (fun f : string * json => match f with (k, x) => printString k +:+ String ":" (print x) end) fs)
     +:+ String "}" rest)%string in
  (2 * slen s < f)%nat -> scanFields f d s = Some (JObject fs, rest).
Proof.
  intros Hne Hl. induction Hl as [|[k v] l [Hk Hv] Hl IH]; [done|]. intros f rest s Hf. unfold s in *. clear s.
  destruct f as [|f]; [lia|]. cbn [fst snd] in *.
  assert (Hstep : forall t, (2 * slen ((printString k +:+ String ":" (print v)) +:+ t) < S f)%nat -> ends t = true ->
    scanFields (S f) d ((printString k +:+ String ":" (print v)) +:+ t) =
    match skipWS t with
    | EmptyString => None
    | String c r =>
        if code c =? 125 then Some (JObject [(k, v)], r)
        else if code c =? 44 then
          match scanFields f d r with
          | Some (JObject l, r'') => Some (JObject ((k, v) :: l), r'')
          | _ => None
          end
        else None
    end).
  { intros t Ht He. rewrite append_assoc, append_cons in Ht |- *.
    pose proof (scan_literal k (String ":" (print v +:+ t)) Hk) as Hlit.
    unfold printString in Hlit, Ht |- *. rewrite append_cons in Hlit, Ht |- *.
    cbn [scanFields skipWS]. change (code quote) with 34. cbn [Z.eqb Pos.eqb orb negb]. rewrite Hlit.
    cbn [skipWS]. change (code ":") with 58. cbn [Z.eqb Pos.eqb orb negb]. rewrite Hv; [done|done|].
    clear Hlit. lengths. lia. }
  destruct l as [|w l]; cbn [map] in *.
  - rewrite concat_one in *. by rewrite Hstep by done.
  - rewrite concat_comma in *. rewrite Hstep by done. cbn [skipWS]. change (code ",") with 44.
    cbn [Z.eqb Pos.eqb orb]. rewrite IH; [done..|]. lengths. lia.
Qed.

Lemma scan_print d v : printable d v -> reads d v.
Proof.
  revert v. induction d as [|d IH]; intros v Hv f rest He Hf; (destruct f as [|f]; [lia|]);
    inversion Hv as [| ? [] | | | ? l Hl | ? fs Hl]; subst; try done; cbn [print JInt] in *; try by apply scan_int.
  1,2: by apply scan_string.
  - rewrite append_cons, append_assoc, append_cons, append_nil.
    cbn [scanValue skipWS]. cbv zeta. do 2 (change (code "[") with 91; cbn [Z.eqb Pos.eqb orb]).
    destruct l as [|v l]; [done|].
    assert (Hs : starts (String.concat "," (map print (v :: l)) +:+ String "]" rest) = true).
    { apply Forall_cons in Hl as [Hv1 _]. destruct l as [|w l]; cbn [map];
        rewrite ?concat_comma, ?concat_one; by eapply printable_starts. }
    rewrite starts_skipWS by done. match goal with |- match ?t with _ => _ end = _ => destruct t as [|c s] eqn:Hc end; [done|].
    assert (H93 : (code c =? 93) = false) by (cbn in Hs; lia). rewrite H93, <- Hc.
    apply scan_elems; [done| |].
    + eapply Forall_impl; [exact Hl|]. intros w Hw. by apply IH.
    + cbn [print] in Hf. lengths. lia.
  - rewrite append_cons, append_assoc, append_cons, append_nil.
    cbn [scanValue skipWS]. cbv zeta. do 2 (change (code "{") with 123; cbn [Z.eqb Pos.eqb orb]).
    destruct fs as [|[k v] fs]; [done|].
    match goal with |- match skipWS ?s with _ => _ end = _ => assert (Hs : exists t, s = String quote t) end.
    { destruct fs as [|w fs]; cbn [map]; rewrite ?concat_comma, ?concat_one; unfold printString;
        rewrite !append_cons; eauto. }
    destruct Hs as [t Ht]. rewrite Ht. cbn [skipWS]. change (code quote) with 34. cbn [Z.eqb Pos.eqb orb].
    rewrite <- Ht. apply scan_fields; [done| |].
    + eapply Forall_impl; [exact Hl|]. intros w [Hk Hw]. split; [done|by apply IH].
    + cbn [print] in Hf. clear Ht. lengths. lia.
Qed.

(** ** Round trip *)

Lemma Parse_print v : printable maxNestingDepth v -> Parse (print v) = Some v.
Proof.
  intros Hv. unfold Parse. pose proof (scan_print _ _ Hv (3 * slen (print v) + 3)%nat "") as H.
  rewrite !append_empty in H. by rewrite H by (done || lia).
Qed.

(** ** Decoded integers *)

Lemma digitsValue_go x s : digitsValue 0 (pretty_N_go x s) = digitsValue (Z.of_N x) s.
Proof.
  revert s. induction (N.lt_wf_0 x) as [x _ IH]; intros s.
  destruct (decide (x = 0)%N) as [->|Hne]; [by rewrite pretty_N_go_0|].
  rewrite pretty_N_go_step by lia. rewrite IH by (apply N.div_lt; lia).
  destruct (pretty_N_char_digit (x mod 10)) as [H1 H2]; [by apply N.mod_lt|].
  cbn [digitsValue]. rewrite H1, H2. f_equal.
  rewrite N2Z.inj_div, N2Z.inj_mod. pose proof (Z.div_mod (Z.of_N x) 10 ltac:(lia)). lia.
Qed.

Lemma digitsValue_pos p : digitsValue 0 (pretty_N_go (N.pos p) "") = Some (Z.pos p).
Proof. by rewrite digitsValue_go. Qed.

Lemma parseInt_itoa z : parseInt (itoa z) = Some z.
Proof.
  unfold itoa, pretty, pretty_Z, pretty, pretty_positive, pretty, pretty_N.
  destruct z as [|p|p]; [done|..]; rewrite decide_False by done;
    pose proof (digitsValue_pos p) as Hv;
    destruct (pretty_N_go_digits (N.pos p) "" ltac:(lia)) as (c & d & Hs & Hc & _); rewrite Hs in Hv |- *.
  - unfold parseInt. unfold isDigit in Hc. destruct (Z.eqb_spec (code c) 45); [lia|done].
  - rewrite append_cons, append_nil. unfold parseInt. change (code "-" =? 45) with true. cbv iota.
    by rewrite Hv.
Qed.
