(* ===== verification/Url.v ===== *)
(** * net/url: the encoding of forms and queries

    [QueryEscape], [Values.Encode] and [ParseQuery], byte by byte, and their
    round trip: what a client encodes is what a server reads, keys in order. *)

From S2P Require Import Prelude GoStrings Json JsonFacts.

(** ** Escaping *)

Definition between (lo hi : Z) (c : ascii) : bool := (lo <=? code c) && (code c <=? hi).

(** A byte [shouldEscape] leaves alone in a query component. *)
Definition unreserved (c : ascii) : bool :=
  between 97 122 c || between 65 90 c || between 48 57 c ||
  bool_decide (c ∈ ["-"; "_"; "."; "~"]%char).

Definition upperhex (n : Z) : ascii := if n <? 10 then chr (48 + n) else chr (55 + n).

Definition escapeByte (c : ascii) : string :=
  if bool_decide (c = " "%char) then "+"
  else if unreserved c then String c ""
  else String "%" (String (upperhex (Z.shiftr (code c) 4)) (String (upperhex (Z.land (code c) 15)) "")).

Definition QueryEscape (s : string) : string := replaceBytes escapeByte s.

(** An incomplete escape is an error. *)
Fixpoint QueryUnescape (s : string) : option string :=
  match s with
  | EmptyString => Some ""
  | String c s1 =>
      if bool_decide (c = "%"%char) then
        match s1 with
        | String a (String b s2) =>
            match unhex a, unhex b with
            | Some a, Some b => String (chr (a * 16 + b)) <$> QueryUnescape s2
            | _, _ => None
            end
        | _ => None
        end
      else String (if bool_decide (c = "+"%char) then " "%char else c) <$> QueryUnescape s1
  end.

(** ** Values *)

(** [url.Values] as the pairs it holds; a key may repeat. *)
Abbreviation Params := (list (string * string)).

(** [v.Set]. *)
Definition paramsSet (key value : string) (v : Params) : Params :=
  filter (fun p : string * string => p.1 <> key) v ++ [(key, value)].

(** The keys in order, the values of a key in the order they were added. *)
Definition sortParams (v : Params) : Params := merge_sort (fun a b => String.le a.1 b.1) v.

Definition encodePair (p : string * string) : string := QueryEscape p.1 +:+ String "=" (QueryEscape p.2).

Definition Encode (v : Params) : string := String.concat "&" (map encodePair (sortParams v)).

(** [strings.Cut] at a byte. *)
Fixpoint Cut (c : ascii) (s : string) : string * string :=
  match s with
  | EmptyString => ("", "")
  | String a s => if bool_decide (a = c) then ("", s) else let (x, y) := Cut c s in (String a x, y)
  end.

Fixpoint hasByte (c : ascii) (s : string) : bool :=
  match s with EmptyString => false | String a s => bool_decide (a = c) || hasByte c s end.

(** One piece of a query; [None] when it is malformed. *)
Definition parsePiece (piece : string) : option Params :=
  if hasByte ";" piece then None
  else match piece with
  | EmptyString => Some []
  | _ =>
      let (key, value) := Cut "=" piece in
      match QueryUnescape key, QueryUnescape value with
      | Some key, Some value => Some [(key, value)]
      | _, _ => None
      end
  end.

(** [ParseQuery]: the pairs of the well-formed pieces, and whether there was a
    malformed one. *)
Definition ParseQuery (query : string) : Params * bool :=
  let pieces := map parsePiece (Split "&" query) in
  (concat (map (default []) pieces), existsb (fun p => bool_decide (p = None)) pieces).

(** ** What is escaped is read back *)

Lemma escapeByte_unescape c t :
  QueryUnescape (escapeByte c +:+ t) = String c <$> QueryUnescape t.
Proof. destruct c as [[] [] [] [] [] [] [] []]; reflexivity. Qed.

Lemma QueryUnescape_escape s : QueryUnescape (QueryEscape s) = Some s.
Proof.
  induction s as [|c s IH]; [done|]. cbn [QueryEscape replaceBytes].
  change (replaceBytes escapeByte s) with (QueryEscape s). by rewrite escapeByte_unescape, IH.
Qed.

(** The separators do not occur in what is escaped. *)
Lemma no_char_app c s t : no_char c (s +:+ t)%string <-> no_char c s /\ no_char c t.
Proof. induction s as [|a s IH]; [by rewrite append_nil; cbn; tauto|]. rewrite append_cons. cbn [no_char]. tauto. Qed.

Lemma escapeByte_no_char c a : a ∈ ["&"; "="; ";"]%char -> no_char a (escapeByte c).
Proof.
  rewrite !elem_of_cons, elem_of_nil. intros [->|[->|[->|[]]]];
    destruct c as [[] [] [] [] [] [] [] []]; by vm_compute.
Qed.

Lemma QueryEscape_no_char s a : a ∈ ["&"; "="; ";"]%char -> no_char a (QueryEscape s).
Proof.
  intros Ha. induction s as [|c s IH]; [done|]. cbn [QueryEscape replaceBytes].
  apply no_char_app. split; [by apply escapeByte_no_char|done].
Qed.

Lemma Split_no_char c s : no_char c s -> Split c s = [s].
Proof.
  induction s as [|a s IH]; [done|]. intros [Ha Hs]. cbn [Split].
  rewrite bool_decide_eq_false_2 by done. by rewrite IH.
Qed.

Lemma Split_app c s t : no_char c s -> Split c (s +:+ String c t) = s :: Split c t.
Proof.
  induction s as [|a s IH]; [intros _; rewrite append_nil; cbn; by rewrite bool_decide_eq_true_2|].
  intros [Ha Hs]. rewrite append_cons. cbn [Split]. rewrite bool_decide_eq_false_2 by done. by rewrite IH.
Qed.

(** [strings.Split] undoes [strings.Join]. *)
Lemma Split_concat c l :
  l <> [] -> Forall (no_char c) l -> Split c (String.concat (String c "") l) = l.
Proof.
  intros Hne Hl. induction Hl as [|s l Hs Hl IH]; [done|].
  destruct l as [|t l]; [by apply Split_no_char|].
  change (String.concat (String c "") (s :: t :: l)) with (s +:+ (String c "" +:+ String.concat (String c "") (t :: l)))%string.
  rewrite append_cons, append_nil, Split_app, IH by done. done.
Qed.

Lemma Cut_no_char c s t : no_char c s -> Cut c (s +:+ String c t) = (s, t).
Proof.
  induction s as [|a s IH]; [intros _; rewrite append_nil; cbn; by rewrite bool_decide_eq_true_2|].
  intros [Ha Hs]. rewrite append_cons. cbn [Cut]. rewrite bool_decide_eq_false_2 by done. by rewrite IH.
Qed.

Lemma hasByte_no_char c s : no_char c s -> hasByte c s = false.
Proof.
  induction s as [|a s IH]; [done|]. intros [Ha Hs]. cbn. by rewrite bool_decide_eq_false_2, IH.
Qed.

Lemma encodePair_no_char a p : a ∈ ["&"; ";"]%char -> no_char a (encodePair p).
Proof.
  intros Ha. assert (Hin : a ∈ ["&"; "="; ";"]%char) by set_solver.
  unfold encodePair. apply no_char_app. split; [by apply QueryEscape_no_char|].
  cbn [no_char]. split; [set_solver|by apply QueryEscape_no_char].
Qed.

Lemma parsePiece_encodePair p : parsePiece (encodePair p) = Some [p].
Proof.
  unfold parsePiece. rewrite hasByte_no_char by (apply encodePair_no_char; set_solver).
  destruct (encodePair p) as [|a s] eqn:He.
  - exfalso. apply (f_equal String.length) in He. unfold encodePair in He. rewrite length_append in He.
    cbn in He. lia.
  - rewrite <- He. unfold encodePair. rewrite Cut_no_char by (apply QueryEscape_no_char; set_solver).
    rewrite !QueryUnescape_escape. by destruct p.
Qed.

(** What is encoded is parsed without an error, in the order of the keys. *)
Lemma ParseQuery_Encode v : ParseQuery (Encode v) = (sortParams v, false).
Proof.
  unfold ParseQuery, Encode. destruct (sortParams v) as [|p l]; [done|].
  rewrite Split_concat; [|done|].
  2: { apply Forall_fmap, Forall_true. intros q. apply encodePair_no_char. set_solver. }
  cbv zeta. generalize (p :: l). clear p l. intros l.
  f_equal; induction l as [|p l IH]; cbn [map concat existsb]; rewrite ?parsePiece_encodePair; [done| |done|done].
  cbn. by rewrite IH.
Qed.

(** A query component is left alone where the characters allow it. *)
Example encode_example :
  Encode [("uid", "a b&c"); ("q", "50%"); ("token", "x.y-z_~")] = "q=50%25&token=x.y-z_~&uid=a+b%26c".
Proof. vm_compute. reflexivity. Qed.

Example parse_malformed : ParseQuery "a=1&b=%zz&&c;d=2&e" = ([("a", "1"); ("e", "")], true).
Proof. vm_compute. reflexivity. Qed.
