(* ===== verification/Stores.v ===== *)
(** * The persistence interfaces (src/internal/repo/repo.go)

    [MessageStore], [FriendStore] and [UserStore] as operations on a store's
    state; an error is its text.  The MySQL implementations talk to a database
    and may read the clock, so the operations are on the store and the process
    state. *)

From S2P Require Import Prelude Proto Snowflake Process.

Record SearchParams := mkSearchParams {
  sp_UID : string;
  sp_Query : string;
  sp_Peer : string;
  sp_ChatType : Z;
  sp_MsgType : Z;
  sp_Before : Z;
  sp_After : Z;
  sp_Limit : Z;
  sp_Cursor : Z
}.

Definition zeroSearchParams : SearchParams := mkSearchParams "" "" "" 0 0 0 0 0 0.

Definition set_sp_UID (u : string) (p : SearchParams) : SearchParams :=
  mkSearchParams u (sp_Query p) (sp_Peer p) (sp_ChatType p) (sp_MsgType p) (sp_Before p)
    (sp_After p) (sp_Limit p) (sp_Cursor p).
Definition set_sp_Limit (n : Z) (p : SearchParams) : SearchParams :=
  mkSearchParams (sp_UID p) (sp_Query p) (sp_Peer p) (sp_ChatType p) (sp_MsgType p)
    (sp_Before p) (sp_After p) n (sp_Cursor p).

Record SearchResult := mkSearchResult {
  sr_Messages : list Message;
  sr_Count : Z;
  sr_NextCursor : Z
}.

Class MessageStore (MS : Type) := mkMessageStore {
  Save : Message -> St (MS * Sys) (option string);
  QueryHistory : string -> string -> Z -> Z -> St (MS * Sys) (string + list Message);
  QueryGroupHistory : string -> Z -> Z -> St (MS * Sys) (string + list Message);
  SearchMessages : SearchParams -> St (MS * Sys) (string + option SearchResult);
  RecallMessage : Z -> string -> Z -> St (MS * Sys) (option string);
  UpdateMessageContent : Z -> string -> string -> St (MS * Sys) (option string);
  BrowseMessages : Z -> Z -> St (MS * Sys) (string + list Message);
  DeleteMessage : Z -> St (MS * Sys) (option string);
  CountMessages : St (MS * Sys) (string + Z)
}.

Record User := mkUser {
  u_UID : string;
  u_Username : string;
  u_PasswordHash : string;
  u_Role : string;
  u_IsDisabled : bool;
  u_CreatedAt : Z
}.

(** [ListUsers] returns a page and the number of all users. *)
Class UserStore (US : Type) := mkUserStore {
  CreateUser : User -> St (US * Sys) (option string);
  GetByUID : string -> St (US * Sys) (string + option User);
  UpdatePassword : string -> string -> St (US * Sys) (option string);
  ListUsers : Z -> Z -> St (US * Sys) (string + (list User * Z));
  DeleteUser : string -> St (US * Sys) (option string);
  UpdateUserRole : string -> string -> St (US * Sys) (option string);
  UpdateUserDisabled : string -> bool -> St (US * Sys) (option string);
  CountUsers : St (US * Sys) (string + Z)
}.

(** What a client of a user store may rely on: the users as a map; an error may
    leave an operation done or not. *)
Class UserLaws (US : Type) `{UserStore US} := mkUserLaws {
  users_of : US -> gmap string User;
  CreateUser_law : forall u us y,
    match CreateUser u (us, y) with
    | (None, (us', _)) => users_of us !! u_UID u = None /\
        users_of us' = <[u_UID u := mkUser (u_UID u) (u_Username u) (u_PasswordHash u) "user" false
          (u_CreatedAt u)]> (users_of us)
    | _ => True
    end;
  GetByUID_law : forall uid us y,
    users_of (GetByUID uid (us, y)).2.1 = users_of us /\
    match (GetByUID uid (us, y)).1 with
    | inr o => o = users_of us !! uid
    | inl _ => True
    end;
  UpdatePassword_law : forall uid h us y,
    match UpdatePassword uid h (us, y) with
    | (None, (us', _)) => exists u, users_of us !! uid = Some u /\
        users_of us' = <[uid := mkUser (u_UID u) (u_Username u) h (u_Role u) (u_IsDisabled u)
          (u_CreatedAt u)]> (users_of us)
    | _ => True
    end
}.

Definition FriendStatusPending : Z := 0.
Definition FriendStatusAccepted : Z := 1.
Definition FriendStatusRejected : Z := 2.

Record Friend := mkFriend {
  f_UID : string;
  f_FriendUID : string;
  f_Status : Z;
  f_CreatedAt : Z
}.

Record FriendRequest := mkFriendRequest {
  fq_FromUID : string;
  fq_Username : string;
  fq_CreatedAt : Z
}.

Class FriendStore (FS : Type) := mkFriendStore {
  SendRequest : string -> string -> St (FS * Sys) (option string);
  AcceptRequest : string -> string -> St (FS * Sys) (option string);
  RejectRequest : string -> string -> St (FS * Sys) (option string);
  RemoveFriend : string -> string -> St (FS * Sys) (option string);
  GetFriends : string -> St (FS * Sys) (string + list Friend);
  GetPendingRequests : string -> St (FS * Sys) (string + list FriendRequest)
}.

(** [Forwarder] of src/internal/gateway/grpc_forwarder.go: whether the peer
    delivered online, or the text of the error. *)
Class Forwarder (F : Type) := mkForwarder {
  Forward : string -> Message -> St (F * Sys) (string + bool)
}.
