(* ===== verification/MySQLMessages.v ===== *)
(** * The MySQL message store (src/internal/repo/mysql.go)

    [MySQLStore] as the router's [MessageStore] and the administrator's message
    methods, statement by statement. *)

From S2P Require Import Prelude GoStrings Proto Snowflake Process Sql Stores.

(** ** Rows *)

(** What [Scan] and the code after it make of a row. *)
Definition scanMessage (p : Z * MessageRow) : Message :=
  mkMessage (mr_seq p.2) p.1 (mr_cmd p.2) (mr_from_uid p.2) (mr_to_uid p.2) (mr_chat_type p.2)
    (mr_msg_type p.2) (if mr_recalled p.2 =? 1 then recalledContent else mr_content p.2)
    (mr_timestamp p.2) (mr_need_ack p.2 =? 1).

Definition messageRow (msg : Message) : MessageRow :=
  mkMessageRow (Seq msg) (Cmd msg) (From msg) (To msg) (ChatType msg) (MsgType msg) (Content msg)
    (Timestamp msg) (if NeedAck msg then 1 else 0) 0.

(** The rows that satisfy a condition; newest first, at most [limit]. *)
Definition messagesWhere (cond : Z * MessageRow -> bool) (t : Tables) : list (Z * MessageRow) :=
  filter (fun p => cond p = true) (map_to_list (t_messages t)).

Definition newest (p : Z * MessageRow) : Z := - mr_timestamp p.2.

Definition selectMessages (cond : Z * MessageRow -> bool) (limit : Z) : Select (Z * MessageRow) :=
  mkSelect (messagesWhere cond) (Some newest) (Some (Z.to_nat limit)) 0.

(** ** Conditions *)

Definition between (uid1 uid2 : string) (p : Z * MessageRow) : bool :=
  bool_decide (mr_from_uid p.2 = uid1 /\ mr_to_uid p.2 = uid2 \/
               mr_from_uid p.2 = uid2 /\ mr_to_uid p.2 = uid1).

Definition historyCond (uid1 uid2 : string) (before : Z) (p : Z * MessageRow) : bool :=
  between uid1 uid2 p && (mr_timestamp p.2 <? before).

Definition groupCond (groupID : string) (before : Z) (p : Z * MessageRow) : bool :=
  bool_decide (mr_to_uid p.2 = groupID) && (mr_chat_type p.2 =? 2) && (mr_timestamp p.2 <? before).

(** [escapeBooleanMode]. *)
Definition booleanModeSpecial : list nat := [43; 45; 62; 60; 40; 41; 126; 42; 34; 64]%nat.

Definition escapeByte (a : ascii) : string :=
  if bool_decide (nat_of_ascii a ∈ booleanModeSpecial) then String (ascii_of_nat 92) (String a EmptyString)
  else String a EmptyString.

Definition escapeBooleanMode (s : string) : string := replaceBytes escapeByte s.

Section Store.
Context {E : Env} {D : Type} {DB : Database D}.

Abbreviation Op := (St (D * Sys)).

(** The optional conditions of [SearchMessages]. *)
Definition searchCond (params : SearchParams) (queryText : string) (p : Z * MessageRow) : bool :=
  fulltext queryText (mr_content p.2) &&
  (if bool_decide (sp_Peer params <> "") then between (sp_UID params) (sp_Peer params) p
   else bool_decide (mr_from_uid p.2 = sp_UID params \/ mr_to_uid p.2 = sp_UID params)) &&
  (if 0 <? sp_ChatType params then mr_chat_type p.2 =? sp_ChatType params else true) &&
  (if 0 <? sp_MsgType params then mr_msg_type p.2 =? sp_MsgType params else true) &&
  (if 0 <? sp_Before params then mr_timestamp p.2 <? sp_Before params else true) &&
  (if 0 <? sp_After params then sp_After params <? mr_timestamp p.2 else true) &&
  (if 0 <? sp_Cursor params then p.1 <? sp_Cursor params else true).

(** ** Operations *)

Definition queryMessages (cond : Z * MessageRow -> bool) (limit : Z) (text : string)
  : Op (string + list Message) :=
  let! rows := query (selectMessages cond limit) in
  ret (match rows with
       | inl e => inl (text +:+ e)
       | inr rows => inr (map scanMessage rows)
       end).

Definition SqlSave (msg : Message) : Op (option string) :=
  let! r := exec (InsertIgnoreMessage (MsgId msg) (messageRow msg)) in
  ret (match r with inl e => Some ("insert message: " +:+ e) | inr _ => None end).

Definition SqlRecallMessage (msgID : Z) (fromUID : string) (recallWindowMs : Z) : Op (option string) :=
  let! now := NowMilli in
  let cutoff := wrap64 (now - recallWindowMs) in
  let! r := exec (UpdateRecalled msgID fromUID cutoff) in
  ret (match r with
       | inl e => Some ("recall message: " +:+ e)
       | inr n => if n =? 0
                  then Some ("message " +:+ itoa msgID +:+ " not found or not owned by " +:+ fromUID)
                  else None
       end).

Definition SqlUpdateMessageContent (msgID : Z) (fromUID newContent : string) : Op (option string) :=
  let! r := exec (UpdateContent newContent msgID fromUID) in
  ret (match r with
       | inl e => Some ("update message content: " +:+ e)
       | inr n => if n =? 0 then Some ("message " +:+ itoa msgID +:+ " not found") else None
       end).

Definition SqlQueryHistory (uid1 uid2 : string) (before limit : Z) : Op (string + list Message) :=
  let limit := if (limit <=? 0) || (200 <? limit) then 50 else limit in
  queryMessages (historyCond uid1 uid2 before) limit "query history: ".

Definition SqlQueryGroupHistory (groupID : string) (before limit : Z) : Op (string + list Message) :=
  let limit := if (limit <=? 0) || (200 <? limit) then 50 else limit in
  queryMessages (groupCond groupID before) limit "query group history: ".

(** [SearchMessages] of a non-nil argument. *)
Definition SqlSearchMessages (params : SearchParams) : Op (string + option SearchResult) :=
  let limit := if sp_Limit params <=? 0 then 20 else sp_Limit params in
  let limit := if 50 <? limit then 50 else limit in
  let queryText := TrimSpace (sp_Query params) in
  if bool_decide (queryText = "") then ret (inr (Some (mkSearchResult [] 0 0)))
  else
    let! rows := queryMessages (searchCond params (escapeBooleanMode queryText)) (limit + 1) "search: " in
    ret (match rows with
         | inl e => inl e
         | inr msgs =>
             let hasMore := limit <? Z.of_nat (length msgs) in
             let msgs := if hasMore then take (Z.to_nat limit) msgs else msgs in
             let nextCursor := if hasMore then
                                 match last msgs with Some m => MsgId m | None => 0 end
                               else 0 in
             inr (Some (mkSearchResult msgs (Z.of_nat (length msgs)) nextCursor))
         end).

(** ** The administrator's methods *)

Definition SqlBrowseMessages (before limit : Z) : Op (string + list Message) :=
  let limit := if (limit <=? 0) || (100 <? limit) then 50 else limit in
  let! before := if before <=? 0 then NowMilli else ret before in
  queryMessages (fun p => mr_timestamp p.2 <? before) limit "browse messages: ".

Definition SqlDeleteMessage (msgID : Z) : Op (option string) :=
  let! r := exec (DeleteMessageRow msgID) in
  ret (match r with
       | inl e => Some ("delete message: " +:+ e)
       | inr n => if n =? 0 then Some ("message " +:+ itoa msgID +:+ " not found") else None
       end).

Definition SqlCountMessages : Op (string + Z) :=
  let! r := queryOne (selectCount (fun t => size (t_messages t))) in
  ret (match r with inl e => inl ("count messages: " +:+ e) | inr n => inr n end).

End Store.

#[export] Instance MySQL_MessageStore {E : Env} {D} {DB : Database D} : MessageStore D :=
  mkMessageStore D SqlSave SqlQueryHistory SqlQueryGroupHistory SqlSearchMessages SqlRecallMessage
    SqlUpdateMessageContent SqlBrowseMessages SqlDeleteMessage SqlCountMessages.
