(* ===== verification/MySQLMessageFacts.v ===== *)
(** * The MySQL message store: pages, authorship, searches

    What a page of history is; what may happen to a stored message over any
    history of the router's calls on a database that may fail; and that
    following the cursors of a search enumerates its results. *)

From S2P Require Import Prelude GoStrings Proto Snowflake Process Sql Stores MySQLMessages.

(** ** Pages *)

(** The [n] newest of the rows that satisfy the condition, newest first. *)
Definition newest_page (t : Tables) (cond : Z * MessageRow -> bool) (n : Z) (l : list Message) : Prop :=
  exists rows rest, l = map scanMessage rows /\ rows ++ rest ≡ₚ messagesWhere cond t /\
    StronglySorted (fun a b => newest a <= newest b) rows /\
    length rows = Nat.min (Z.to_nat n) (length (messagesWhere cond t)) /\
    (forall a b, a ∈ rows -> b ∈ rest -> newest a <= newest b).

Lemma elem_of_messagesWhere cond t id row :
  (id, row) ∈ messagesWhere cond t <-> t_messages t !! id = Some row /\ cond (id, row) = true.
Proof. unfold messagesWhere. rewrite list_elem_of_filter, elem_of_map_to_list. tauto. Qed.

Lemma messagesWhere_NoDup cond t : NoDup (messagesWhere cond t).
Proof. apply NoDup_filter, NoDup_map_to_list. Qed.

Lemma newest_page_in t cond n l m :
  newest_page t cond n l -> m ∈ l ->
  exists id row, m = scanMessage (id, row) /\ t_messages t !! id = Some row /\ cond (id, row) = true.
Proof.
  intros (rows & rest & -> & Hp & _) Hm. apply list_elem_of_fmap in Hm as ([id row] & -> & Hin).
  exists id, row. split; [done|]. apply elem_of_messagesWhere. rewrite <- Hp. apply elem_of_app. by left.
Qed.

Section Facts.
Context {E : Env} {D : Type} {DB : Database D} {DL : DatabaseLaws D}.

Abbreviation Op := (St (D * Sys)).

Lemma queryMessages_triple cond limit text t t0 :
  triple (at_ t t0) (queryMessages cond limit text) (fun r p => at_ t t0 p /\
    match r with
    | inr l => newest_page t cond limit l
    | inl e => exists e', e = (text +:+ e')%string
    end).
Proof.
  unfold queryMessages. apply query_bind.
  - intros e. apply ret_at. intros p Hp. split; [done|by eexists].
  - intros l Hl. apply ret_at. intros p Hp. split; [done|].
    apply answers_page in Hl as (Hs & Hlen & rest & Hr & Hle). by exists l, rest.
Qed.

(** ** What calls do to the stored messages *)

Inductive MsgOp :=
| MSave (msg : Message)
| MRecall (id : Z) (from : string) (window : Z)
| MEdit (id : Z) (from content : string)
| MDelete (id : Z).

#[export] Instance MsgOp_eq_dec : EqDecision MsgOp.
Proof. solve_decision. Defined.

Definition sql_message (op : MsgOp) : Op (option string) :=
  match op with
  | MSave msg => SqlSave msg
  | MRecall id from w => SqlRecallMessage id from w
  | MEdit id from c => SqlUpdateMessageContent id from c
  | MDelete id => SqlDeleteMessage id
  end.

Definition sql_messages (ops : list MsgOp) : Op unit := forEach ops (fun op => sql_message op ;;! ret tt).

(** What identifies a message stays. *)
Definition same_message (a b : MessageRow) : Prop :=
  mr_seq a = mr_seq b /\ mr_cmd a = mr_cmd b /\ mr_from_uid a = mr_from_uid b /\
  mr_to_uid a = mr_to_uid b /\ mr_chat_type a = mr_chat_type b /\ mr_msg_type a = mr_msg_type b /\
  mr_timestamp a = mr_timestamp b /\ mr_need_ack a = mr_need_ack b.

(** A recall or an edit of a message in its author's name. *)
Definition by_author (id : Z) (author : string) (op : MsgOp) : Prop :=
  match op with
  | MRecall i u _ | MEdit i u _ => i = id /\ u = author
  | MSave _ | MDelete _ => False
  end.

Definition recalls (id : Z) (author : string) (op : MsgOp) : Prop :=
  match op with MRecall i u _ => i = id /\ u = author | _ => False end.

(** How calls [ops] may change a stored message. *)
Definition evolved (id : Z) (ops : list MsgOp) (row row' : MessageRow) : Prop :=
  same_message row row' /\ (mr_recalled row = 1 -> mr_recalled row' = 1) /\
  (mr_recalled row' <> mr_recalled row -> exists op, op ∈ ops /\ recalls id (mr_from_uid row) op) /\
  (mr_content row' <> mr_content row -> exists op, op ∈ ops /\ by_author id (mr_from_uid row) op).

(** What a stored row becomes, unless it is deleted, and where a row comes from. *)
Definition kept (ops : list MsgOp) (t t' : Tables) : Prop :=
  forall id row, t_messages t !! id = Some row -> MDelete id ∉ ops ->
    exists row', t_messages t' !! id = Some row' /\ evolved id ops row row'.

Definition comes_from (ops : list MsgOp) (t t' : Tables) : Prop :=
  forall id row', t_messages t' !! id = Some row' ->
    (exists row, t_messages t !! id = Some row /\ evolved id ops row row') \/
    (exists msg, MSave msg ∈ ops /\ MsgId msg = id /\ evolved id ops (messageRow msg) row').

Definition grows (ops : list MsgOp) (t t' : Tables) : Prop := kept ops t t' /\ comes_from ops t t'.

Lemma evolved_refl id ops row : evolved id ops row row.
Proof. split; [by repeat split|]. split_and!; congruence. Qed.

Lemma evolved_trans id ops1 ops2 row row2 row3 :
  evolved id ops1 row row2 -> evolved id ops2 row2 row3 -> evolved id (ops1 ++ ops2) row row3.
Proof.
  intros (Hs1 & Ha1 & Hb1 & Hc1) (Hs2 & Ha2 & Hb2 & Hc2).
  assert (Hf : mr_from_uid row2 = mr_from_uid row) by (symmetry; apply Hs1).
  rewrite Hf in Hb2, Hc2. unfold evolved, same_message in *. split_and?; try (destruct_and?; first [congruence | by auto]).
  - intros Hne. destruct (decide (mr_recalled row2 = mr_recalled row)) as [He|Hne'].
    + destruct Hb2 as (op & Hop & H); [congruence|]. exists op. set_solver.
    + destruct (Hb1 Hne') as (op & Hop & H). exists op. set_solver.
  - intros Hne. destruct (decide (mr_content row2 = mr_content row)) as [He|Hne'].
    + destruct Hc2 as (op & Hop & H); [congruence|]. exists op. set_solver.
    + destruct (Hc1 Hne') as (op & Hop & H). exists op. set_solver.
Qed.

(** A row that stays, among more calls. *)
Lemma evolved_later id ops1 ops2 row row' : evolved id ops2 row row' -> evolved id (ops1 ++ ops2) row row'.
Proof. apply evolved_trans, evolved_refl. Qed.

Lemma grows_refl ops t : grows ops t t.
Proof.
  split; intros id row H; [intros _; exists row|left; exists row]; (split; [done|apply evolved_refl]).
Qed.

Lemma grows_trans ops1 ops2 t1 t2 t3 :
  grows ops1 t1 t2 -> grows ops2 t2 t3 -> grows (ops1 ++ ops2) t1 t3.
Proof.
  intros [K1 O1] [K2 O2]. split.
  - intros id row Hr Hd. destruct (K1 id row Hr ltac:(set_solver)) as (row2 & Hr2 & He1).
    destruct (K2 id row2 Hr2 ltac:(set_solver)) as (row3 & Hr3 & He2). exists row3.
    split; [done|by eapply evolved_trans].
  - intros id row3 Hr3. destruct (O2 id row3 Hr3) as [(row2 & Hr2 & He2)|(m & Hm & Hid & He)].
    + destruct (O1 id row2 Hr2) as [(row & Hr & He1)|(m & Hm & Hid & He1)]; [left; exists row|right; exists m; split; [set_solver|]];
        (split; [done|by eapply evolved_trans]).
    + right. exists m. split; [set_solver|]. split; [done|by apply evolved_later].
Qed.

(** An update of one row. *)
Lemma grows_update ops id cond f n t t' :
  affected set_messages t (updateRow id cond f (t_messages t)) = inr (n, t') :> (StmtFault + _) ->
  (forall row, cond row = true -> evolved id ops row (f row)) -> grows ops t t'.
Proof.
  unfold affected, updateRow. intros H Hev. assert (Hid : set_messages (t_messages t) t = t) by by destruct t.
  destruct (t_messages t !! id) as [row|] eqn:Hr; cbn in H.
  - destruct (cond row) eqn:Hc; cbn in H.
    2:{ injection H as _ <-. rewrite Hid. apply grows_refl. }
    case_bool_decide; cbn in H; injection H as _ <-; [rewrite Hid; apply grows_refl|].
    split; intros id' row' Hr'; cbn in *; destruct (decide (id' = id)) as [->|Hne].
    + intros _. rewrite Hr in Hr'. injection Hr' as <-. exists (f row). rewrite lookup_insert_eq. auto.
    + intros _. exists row'. rewrite lookup_insert_ne by done. split; [done|apply evolved_refl].
    + rewrite lookup_insert_eq in Hr'. injection Hr' as <-. left. exists row. auto.
    + rewrite lookup_insert_ne in Hr' by done. left. exists row'. split; [done|apply evolved_refl].
  - injection H as _ <-. rewrite Hid. apply grows_refl.
Qed.

Lemma stmt_grows op st n t t' :
  run_stmt st t = inr (n, t') ->
  match op, st with
  | MSave msg, InsertIgnoreMessage id row => id = MsgId msg /\ row = messageRow msg
  | MRecall id u _, UpdateRecalled id' u' _ => id' = id /\ u' = u
  | MEdit id u c, UpdateContent c' id' u' => id' = id /\ u' = u /\ c' = c
  | MDelete id, DeleteMessageRow id' => id' = id
  | _, _ => False
  end -> grows [op] t t'.
Proof.
  intros Hr Hop. destruct op as [msg|id u w|id u c|id], st; try done; cbn in Hr.
  - destruct Hop as [-> ->]. unfold insertRow in Hr.
    destruct (t_messages t !! MsgId msg) as [r|] eqn:Hl; cbn in Hr; injection Hr as _ <-; [apply grows_refl|].
    split; intros id' row' H; cbn in *.
    + intros _. exists row'. rewrite lookup_insert_ne by congruence. split; [done|apply evolved_refl].
    + destruct (decide (id' = MsgId msg)) as [->|Hne].
      * rewrite lookup_insert_eq in H. injection H as <-. right. exists msg. split; [by left|].
        split; [done|apply evolved_refl].
      * rewrite lookup_insert_ne in H by done. left. exists row'. split; [done|apply evolved_refl].
  - destruct Hop as [-> ->]. eapply grows_update; [exact Hr|]. intros row Hc. cbn in Hc.
    apply andb_true_iff in Hc as [Hc _]. apply bool_decide_eq_true in Hc.
    split; [by repeat split|]. split_and!; [done| |]; intros _; exists (MRecall id u w);
      (split; [by left|by cbn]).
  - destruct Hop as (-> & -> & ->). eapply grows_update; [exact Hr|]. intros row Hc. cbn in Hc.
    apply bool_decide_eq_true in Hc. split; [by repeat split|]. split_and!; [done|done|].
    intros _. exists (MEdit id u c). split; [by left|by cbn].
  - subst. unfold deleteRow, affected in Hr. destruct (t_messages t !! id) as [r|] eqn:Hl; cbn in Hr; injection Hr as _ <-.
    + split; intros id' row' H; cbn in *.
      * intros Hd. exists row'. rewrite lookup_delete_ne by set_solver. split; [done|apply evolved_refl].
      * apply lookup_delete_Some in H as [_ H]. left. exists row'. split; [done|apply evolved_refl].
    + replace (set_messages (t_messages t) t) with t by (by destruct t). apply grows_refl.
Qed.

Lemma maybe_grows op st t t' :
  maybe st t t' -> (forall n, run_stmt st t = inr (n, t') -> grows [op] t t') -> grows [op] t t'.
Proof. intros [->|[n H]] Hg; [apply grows_refl|by apply (Hg n)]. Qed.

Lemma sql_message_grows op t t0 :
  triple (at_ t t0) (sql_message op) (fun _ p => grows [op] t (tables p.1)).
Proof.
  destruct op as [msg|id u w|id u c|id]; cbn [sql_message];
    unfold SqlSave, SqlRecallMessage, SqlUpdateMessageContent, SqlDeleteMessage;
    try (apply NowMilli_bind; intros now); apply exec_bind.
  all: try (intros e t' Hm _; apply ret_at; intros p [-> _]; apply (maybe_grows _ _ _ _ Hm);
            intros n Hr; by apply (stmt_grows _ _ _ _ _ Hr)).
  all: intros n t' Hr; apply ret_at; intros p [-> _]; by apply (stmt_grows _ _ _ _ _ Hr).
Qed.

Lemma sql_messages_grow ops d s : grows ops (tables d) (tables (sql_messages ops (d, s)).2.1).
Proof.
  revert d s. induction ops as [|op ops IH]; intros d s; [apply grows_refl|].
  unfold sql_messages. rewrite forEach_cons, bind_ret_state. cbn [snd].
  pose proof (sql_message_grows op (tables d) (saved d) (d, s) (conj eq_refl eq_refl)) as H.
  destruct (sql_message op (d, s)) as [r [d' s']]. cbn [snd fst] in H |- *.
  apply (grows_trans [op] ops _ _ _ H). apply IH.
Qed.

(** A recall that succeeds was the author's, in the window, and took effect. *)
Definition recall_effect (id : Z) (from : string) (w now : Z) (t t' : Tables) : Prop :=
  exists row, t_messages t !! id = Some row /\ mr_from_uid row = from /\
    wrap64 (now - w) <= mr_timestamp row /\
    t' = set_messages (<[id := set_mr_content recalledContent 1 row]> (t_messages t)) t.

Lemma SqlRecallMessage_triple id from w t t0 s :
  triple (fun p => at_ t t0 p /\ p.2 = s) (SqlRecallMessage id from w) (fun r p =>
    match r with
    | None => recall_effect id from w (nowMs E (sys_tick s)) t (tables p.1)
    | Some _ => tables p.1 = t \/ recall_effect id from w (nowMs E (sys_tick s)) t (tables p.1)
    end).
Proof.
  unfold SqlRecallMessage. eapply triple_bind with
    (Q := fun now p => at_ t t0 p /\ now = nowMs E (sys_tick s)).
  { intros [d s'] [Hp Hs]. cbn in Hs. by subst s'. }
  intros now. apply triple_pure. intros ->. set (now := nowMs E (sys_tick s)).
  assert (Hrun : forall n t', run_stmt (UpdateRecalled id from (wrap64 (now - w))) t = inr (n, t') ->
    if n =? 0 then t' = t else recall_effect id from w now t t').
  { intros n t' H. cbn in H. unfold affected, updateRow in H.
    assert (Hid : set_messages (t_messages t) t = t) by by destruct t.
    destruct (t_messages t !! id) as [row|] eqn:Hr; cbn in H; [|injection H as <- <-; exact Hid].
    case_bool_decide as Hf; cbn in H; [|injection H as <- <-; exact Hid].
    destruct (_ <=? _) eqn:Hw; cbn in H; [|injection H as <- <-; exact Hid].
    case_bool_decide; cbn in H; injection H as <- <-; [exact Hid|].
    exists row. split_and!; [done|done|by apply Z.leb_le|done]. }
  apply exec_bind.
  - intros e t' Hm _. apply ret_at. intros p [-> _]. destruct Hm as [->|[n Hn]]; [by left|].
    specialize (Hrun n t' Hn). destruct (n =? 0); [by left|by right].
  - intros n t' Hn. specialize (Hrun n t' Hn). apply ret_at. intros p [-> _].
    destruct (n =? 0); [by left|done].
Qed.

(** ** Properties *)

(** A row is read as the message it was made from. *)
Lemma scan_messageRow msg : scanMessage (MsgId msg, messageRow msg) = msg.
Proof. destruct msg as [? ? ? ? ? ? ? ? ? []]; reflexivity. Qed.

(** What a save and a deletion that are not reported as failed have done. *)
Lemma SqlSave_done msg t t0 :
  triple (at_ t t0) (SqlSave msg) (fun r p => r = None -> exists row, t_messages (tables p.1) !! MsgId msg = Some row /\
    (t_messages t !! MsgId msg = None -> row = messageRow msg)).
Proof.
  unfold SqlSave. apply exec_bind; [by intros; apply ret_at|]. intros n t' Hr. apply ret_at. intros p [-> _] _.
  cbn in Hr. unfold insertRow in Hr. destruct (t_messages t !! MsgId msg) as [r|] eqn:Hl; cbn in Hr; injection Hr as _ <-.
  - exists r. cbn. by rewrite Hl.
  - exists (messageRow msg). cbn. by rewrite lookup_insert_eq.
Qed.

Lemma SqlDeleteMessage_done id t t0 :
  triple (at_ t t0) (SqlDeleteMessage id) (fun r p => r = None ->
    is_Some (t_messages t !! id) /\ t_messages (tables p.1) !! id = None).
Proof.
  unfold SqlDeleteMessage. apply exec_bind; [by intros; apply ret_at|]. intros n t' Hr. apply ret_at. intros p [-> _] Hn.
  cbn in Hr. unfold deleteRow, affected in Hr. destruct (t_messages t !! id) as [r|] eqn:Hl; cbn in Hr; injection Hr as <- <-.
  - cbn. by rewrite lookup_delete_eq.
  - done.
Qed.

(** How a stored message may look after the calls [ops]: the same message, its
    content as shown changed only by its author, and shown as recalled for good. *)
Definition lives_on (id : Z) (ops : list MsgOp) (row row' : MessageRow) : Prop :=
  let shown := fun row => Content (scanMessage (id, row)) in
  same_message row row' /\
  (shown row' <> shown row -> exists op, op ∈ ops /\ by_author id (mr_from_uid row) op) /\
  (mr_recalled row = 1 -> shown row' = recalledContent).

Lemma evolved_lives_on id ops row row' : evolved id ops row row' -> lives_on id ops row row'.
Proof.
  intros (Hs & Ha & Hb & Hc). split; [done|]. cbn. split.
  - intros Hne. destruct (decide (mr_recalled row' = mr_recalled row)) as [He|Hr1].
    + apply Hc. rewrite He in Hne. by destruct (mr_recalled row =? 1).
    + destruct (Hb Hr1) as (op & Hop & H). exists op. split; [done|]. by destruct op.
  - intros H1. by rewrite (Ha H1).
Qed.

(** C15. Whatever saves, recalls, edits and deletions the store serves, in any
    order and on a database whose statements or replies may be lost: a stored
    message that is not deleted stays stored; whatever is stored in the end was
    stored before or saved by one of the calls; and either way it keeps the sender,
    recipient, type and time it was stored or saved with, what a reader is shown of
    it changes only by a recall or an edit in its sender's name, and once recalled
    it is shown as recalled whatever is saved or edited later.  A save that
    succeeds has stored the message, to be read as it was, unless its id was taken;
    a deletion that succeeds has removed it. *)
Theorem mysql_message_life ops d s :
  let t := tables d in let t' := tables (sql_messages ops (d, s)).2.1 in
  (forall id row, t_messages t !! id = Some row -> MDelete id ∉ ops ->
     exists row', t_messages t' !! id = Some row' /\ lives_on id ops row row') /\
  (forall id row', t_messages t' !! id = Some row' ->
     (exists row, t_messages t !! id = Some row /\ lives_on id ops row row') \/
     (exists msg, MSave msg ∈ ops /\ MsgId msg = id /\ lives_on id ops (messageRow msg) row')) /\
  (forall msg, let r := SqlSave msg (d, s) in r.1 = None ->
     exists row, t_messages (tables r.2.1) !! MsgId msg = Some row /\
       (t_messages t !! MsgId msg = None -> row = messageRow msg /\ scanMessage (MsgId msg, row) = msg)) /\
  (forall id, let r := SqlDeleteMessage id (d, s) in r.1 = None ->
     is_Some (t_messages t !! id) /\ t_messages (tables r.2.1) !! id = None).
Proof.
  intros t t'. destruct (sql_messages_grow ops d s) as [Hk Ho]. fold t t' in Hk, Ho. split_and!.
  - intros id row Hr Hd. destruct (Hk id row Hr Hd) as (row' & Hr' & He). exists row'.
    split; [done|by apply evolved_lives_on].
  - intros id row' Hr. destruct (Ho id row' Hr) as [(row & H & He)|(m & H1 & H2 & He)]; apply evolved_lives_on in He; eauto.
  - intros msg r Hr. destruct (SqlSave_done msg t (saved d) (d, s) (conj eq_refl eq_refl) Hr) as (row & H1 & H2).
    exists row. split; [done|]. intros Hn. rewrite (H2 Hn). split; [done|apply scan_messageRow].
  - intros id. by apply (SqlDeleteMessage_done id t (saved d) (d, s)).
Qed.

(** A page of history: the rows of the conversation (or the group) before the
    given time, at most the limit (50 when it is not between 1 and 200), newest
    first, none left out that is newer than one shown; recalled messages are
    shown as such; nothing is changed. *)
Theorem mysql_history_pages uid1 uid2 gid before limit d s :
  let t := tables d in
  let n := if (limit <=? 0) || (200 <? limit) then 50 else limit in
  let page := fun cond (r : string + list Message) =>
    match r with inr l => newest_page t cond n l /\ Z.of_nat (length l) <= 200 | inl _ => True end in
  let r1 := SqlQueryHistory uid1 uid2 before limit (d, s) in
  let r2 := SqlQueryGroupHistory gid before limit (d, s) in
  page (historyCond uid1 uid2 before) r1.1 /\ page (groupCond gid before) r2.1 /\
  tables r1.2.1 = t /\ tables r2.2.1 = t /\
  (forall l m, r1.1 = inr l -> m ∈ l -> Timestamp m < before /\
     (From m = uid1 /\ To m = uid2 \/ From m = uid2 /\ To m = uid1)).
Proof.
  intros t n page r1 r2. assert (Hat : at_ t (saved d) (d, s)) by done.
  assert (Hn : 0 < n <= 200) by (unfold n; repeat case_match; lia).
  assert (Hpage : forall cond text, let r := queryMessages cond n text (d, s) in
    page cond r.1 /\ tables r.2.1 = t).
  { intros cond text. destruct (queryMessages_triple cond n text t (saved d) _ Hat) as [[Ht _] Hl].
    split; [|done]. unfold page. destruct (queryMessages cond n text (d, s)).1 as [e|l]; [done|].
    split; [done|]. destruct Hl as (rows & rest & -> & _ & _ & Hlen & _). rewrite length_map, Hlen. lia. }
  destruct (Hpage (historyCond uid1 uid2 before) "query history: ") as [H1 H1'].
  destruct (Hpage (groupCond gid before) "query group history: ") as [H2 H2'].
  split_and!; [exact H1|exact H2|exact H1'|exact H2'|]. intros l m Hl Hm.
  change (queryMessages (historyCond uid1 uid2 before) n "query history: " (d, s)) with r1 in H1.
  rewrite Hl in H1. destruct H1 as [H1 _].
  destruct (newest_page_in _ _ _ _ _ H1 Hm) as (id & row & -> & _ & Hc).
  unfold historyCond, between in Hc. apply andb_true_iff in Hc as [Hb Ht].
  apply bool_decide_eq_true in Hb. apply Z.ltb_lt in Ht. done.
Qed.

(** ** Following the cursors of a search *)

Definition set_sp_Cursor (c : Z) (p : SearchParams) : SearchParams :=
  mkSearchParams (sp_UID p) (sp_Query p) (sp_Peer p) (sp_ChatType p) (sp_MsgType p)
    (sp_Before p) (sp_After p) (sp_Limit p) c.

(** A client that asks for pages until there is no next one, at most [fuel]. *)
Fixpoint searchPages (fuel : nat) (params : SearchParams) (cursor : Z) : Op (string + list Message) :=
  match fuel with
  | O => ret (inl "more pages")
  | S fuel =>
      let! r := SqlSearchMessages (set_sp_Cursor cursor params) in
      match r with
      | inl e => ret (inl e)
      | inr None => ret (inr [])
      | inr (Some res) =>
          if sr_NextCursor res =? 0 then ret (inr (sr_Messages res))
          else
            let! rest := searchPages fuel params (sr_NextCursor res) in
            ret (match rest with inl e => inl e | inr l => inr (sr_Messages res ++ l) end)
      end
  end.

(** Ids are positive, and grow with the time of the message. *)
Definition aligned (t : Tables) : Prop :=
  forall id row id' row', t_messages t !! id = Some row -> t_messages t !! id' = Some row' ->
    0 < id /\ (id < id' -> mr_timestamp row < mr_timestamp row').

Definition searchMatch (params : SearchParams) (cursor : Z) : Z * MessageRow -> bool :=
  searchCond (set_sp_Cursor cursor params) (escapeBooleanMode (TrimSpace (sp_Query params))).

Lemma searchMatch_cursor params c c' p :
  0 < c' -> (0 < c -> c' < c) ->
  searchMatch params c' p = searchMatch params c p && (p.1 <? c').
Proof.
  intros Hc Hcc. unfold searchMatch, searchCond. cbn [sp_Cursor set_sp_Cursor sp_Peer sp_UID
    sp_ChatType sp_MsgType sp_Before sp_After].
  rewrite (proj2 (Z.ltb_lt 0 c') Hc). rewrite <- !andb_assoc. do 6 f_equal.
  destruct (0 <? c) eqn:H; [|done]. apply Z.ltb_lt in H. specialize (Hcc H).
  destruct (p.1 <? c') eqn:H1, (p.1 <? c) eqn:H2; try done.
  apply Z.ltb_lt in H1. apply Z.ltb_ge in H2. lia.
Qed.

(** In aligned tables a page cuts the matching rows at its last id. *)
Lemma page_cut params c t pg (x : Z * MessageRow) rest :
  aligned t -> pg ++ x :: rest ≡ₚ messagesWhere (searchMatch params c) t ->
  (0 < c -> x.1 < c) ->
  (forall a, a ∈ pg -> newest a <= newest x) -> (forall b, b ∈ rest -> newest x <= newest b) ->
  rest ≡ₚ messagesWhere (searchMatch params x.1) t.
Proof.
  intros Hal Hp Hc Hpg Hrest.
  assert (Hn : NoDup (pg ++ x :: rest)) by (rewrite Hp; apply messagesWhere_NoDup).
  assert (Hin : forall p, p ∈ pg ++ x :: rest -> t_messages t !! p.1 = Some p.2).
  { intros [id row]. rewrite Hp, elem_of_messagesWhere. tauto. }
  assert (Hx : t_messages t !! x.1 = Some x.2) by (apply Hin; set_solver).
  assert (Hpos : 0 < x.1) by by destruct (Hal _ _ _ _ Hx Hx).
  apply NoDup_Permutation.
  - apply NoDup_app in Hn as (_ & _ & Hn). by apply NoDup_cons in Hn as [_ Hn].
  - apply messagesWhere_NoDup.
  - intros [id row]. rewrite elem_of_messagesWhere, (searchMatch_cursor params c x.1) by done.
    rewrite andb_true_iff, Z.ltb_lt. cbn [fst].
    rewrite (and_assoc (_ = Some _)), <- elem_of_messagesWhere, <- Hp. split.
    + intros Hr. split; [set_solver|].
      assert (Hid : t_messages t !! id = Some row) by (apply (Hin (id, row)); set_solver).
      destruct (decide (id = x.1)) as [->|Hne].
      * exfalso. rewrite Hx in Hid. assert (x = (x.1, row)) as Hxx by (destruct x; cbn in *; congruence).
        rewrite <- Hxx in Hr. apply NoDup_app in Hn as (_ & _ & Hn). by apply NoDup_cons in Hn as [Hn _].
      * specialize (Hrest _ Hr). unfold newest in Hrest. cbn in Hrest.
        destruct (Hal _ _ _ _ Hx Hid) as [_ H]. destruct (Z.lt_total id x.1) as [|[|]]; [done|done|lia].
    + intros [Hr Hlt]. apply elem_of_app in Hr as [Hr|[Hr|Hr]%elem_of_cons]; [| |done].
      * exfalso. specialize (Hpg _ Hr). unfold newest in Hpg. cbn in Hpg.
        assert (Hid : t_messages t !! id = Some row) by (apply (Hin (id, row)); set_solver).
        destruct (Hal _ _ _ _ Hid Hx) as [_ H]. lia.
      * exfalso. subst x. cbn in Hlt. lia.
Qed.

Definition searchLimit (params : SearchParams) : Z :=
  let limit := if sp_Limit params <=? 0 then 20 else sp_Limit params in
  if 50 <? limit then 50 else limit.

Lemma searchLimit_bounds params : 1 <= searchLimit params <= 50.
Proof. unfold searchLimit. repeat case_match; lia. Qed.

(** One page: the matching rows are [pg] and what the next cursor selects. *)
Lemma SqlSearchMessages_page params c t t0 :
  aligned t -> TrimSpace (sp_Query params) <> "" ->
  triple (at_ t t0) (SqlSearchMessages (set_sp_Cursor c params)) (fun r p => at_ t t0 p /\
    match r with
    | inl e => exists e', e = ("search: " +:+ e')%string
    | inr None => False
    | inr (Some res) => exists pg rest, sr_Messages res = map scanMessage pg /\
        sr_Count res = Z.of_nat (length pg) /\ Z.of_nat (length pg) <= searchLimit params /\
        pg ++ rest ≡ₚ messagesWhere (searchMatch params c) t /\
        StronglySorted (fun a b => newest a <= newest b) pg /\
        (forall a b, a ∈ pg -> b ∈ rest -> newest a <= newest b) /\
        if sr_NextCursor res =? 0 then rest = []
        else Z.of_nat (length pg) = searchLimit params /\
          rest ≡ₚ messagesWhere (searchMatch params (sr_NextCursor res)) t
    end).
Proof.
  intros Hal Hq. unfold SqlSearchMessages. cbn [sp_Limit sp_Query set_sp_Cursor].
  rewrite bool_decide_false by done. fold (searchLimit params).
  set (L := searchLimit params). pose proof (searchLimit_bounds params) as HL. fold L in HL.
  eapply triple_seq; [apply queryMessages_triple|]. intros [e|l] p [Hp Hl]; (split; [done|]); [done|].
  destruct Hl as (rows & rest & -> & Hperm & Hs & Hlen & Hle). rewrite length_map.
  set (n := length (messagesWhere _ t)) in Hlen.
  assert (Hn : length (rows ++ rest) = n) by by apply Permutation_length.
  rewrite length_app in Hn. destruct (L <? Z.of_nat (length rows)) eqn:Hm.
  - apply Z.ltb_lt in Hm. assert (Hlr : length rows = S (Z.to_nat L)) by lia.
    destruct (lookup_lt_is_Some_2 rows (pred (Z.to_nat L))) as [x Hx]; [lia|].
    set (k := Z.to_nat L) in *. assert (Hk : k = S (pred k)) by lia.
    assert (Hsplit : take k rows = take (pred k) rows ++ [x]) by (rewrite Hk; by apply take_S_r).
    exists (take k rows), (drop k rows ++ rest). cbn [sr_Messages sr_Count sr_NextCursor].
    rewrite <- fmap_take.
    assert (Hlen' : length (take k rows) = k) by (rewrite length_take; lia).
    assert (Hperm' : take k rows ++ drop k rows ++ rest ≡ₚ messagesWhere (searchMatch params c) t)
      by by rewrite app_assoc, take_drop.
    rewrite <- (take_drop k rows) in Hs. apply StronglySorted_app in Hs as (Ho & Hs1 & Hs2).
    assert (Hord : forall a b, a ∈ take k rows -> b ∈ drop k rows ++ rest -> newest a <= newest b).
    { intros a b Ha [Hb|Hb]%elem_of_app; [by apply Ho|]. apply Hle; [|done].
      rewrite <- (take_drop k rows). apply elem_of_app. by left. }
    split; [done|]. split; [by rewrite length_fmap|]. split; [lia|]. split; [done|]. split; [done|].
    split; [done|]. rewrite Hsplit. rewrite fmap_app, last_app. cbn [fmap list_fmap last MsgId scanMessage].
    assert (Hxin : x ∈ take k rows) by (rewrite Hsplit; set_solver).
    assert (Hxm : x ∈ messagesWhere (searchMatch params c) t) by (rewrite <- Hperm'; set_solver).
    destruct x as [id row]. apply elem_of_messagesWhere in Hxm as [Hid Hcond].
    destruct (Hal _ _ _ _ Hid Hid) as [Hpos _]. cbn [fst]. rewrite (proj2 (Z.eqb_neq id 0)) by lia.
    split; [rewrite <-Hsplit; lia|].
    apply (page_cut params c t (take (pred k) rows) (id, row)); [done| | | |].
    + by rewrite <- Hperm', Hsplit, <- app_assoc.
    + intros Hc. cbn. unfold searchMatch, searchCond in Hcond. cbn [sp_Cursor set_sp_Cursor fst] in Hcond.
      rewrite (proj2 (Z.ltb_lt 0 c) Hc) in Hcond. apply andb_true_iff in Hcond as [_ Hcond].
      by apply Z.ltb_lt in Hcond.
    + intros a Ha. rewrite Hsplit in Hs1. apply StronglySorted_app in Hs1 as (Ho1 & _).
      apply Ho1; [done|]. by left.
    + intros b Hb. by apply Hord.
  - apply Z.ltb_ge in Hm. assert (rest = []) as -> by (apply length_zero_iff_nil; lia).
    exists rows, []. cbn [sr_Messages sr_Count sr_NextCursor]. cbn [Z.eqb].
    rewrite length_map, app_nil_r in *. by split_and!.
Qed.

Lemma searchPages_triple fuel params c t t0 :
  aligned t -> TrimSpace (sp_Query params) <> "" ->
  Z.of_nat (length (messagesWhere (searchMatch params c) t)) < Z.of_nat fuel * searchLimit params ->
  triple (at_ t t0) (searchPages fuel params c) (fun r p => at_ t t0 p /\
    match r with
    | inl e => exists e', e = ("search: " +:+ e')%string
    | inr l => exists rows, l = map scanMessage rows /\
        rows ≡ₚ messagesWhere (searchMatch params c) t /\
        StronglySorted (fun a b => newest a <= newest b) rows
    end).
Proof.
  intros Hal Hq. revert c. induction fuel as [|fuel IH]; intros c Hf; [lia|]. cbn [searchPages].
  eapply triple_bind; [by apply SqlSearchMessages_page|]. intros [e|[res|]].
  - by intros p Hp.
  - apply triple_pure. intros (pg & rest & Hm & _ & _ & Hp & Hs & Ho & Hn).
    destruct (sr_NextCursor res =? 0).
    + subst rest. rewrite app_nil_r in Hp. apply ret_at. intros p Hat. split; [done|]. by exists pg.
    + destruct Hn as [Hne Hr]. eapply triple_seq.
      * apply (IH (sr_NextCursor res)). rewrite <- Hr. apply Permutation_length in Hp.
        rewrite length_app in Hp. lia.
      * intros [e|l] p [Hat Hl]; (split; [done|]); [done|]. destruct Hl as (rows & -> & Hrows & Hsr).
        exists (pg ++ rows). rewrite Hm, map_app. split; [done|].
        split; [by rewrite Hrows, <- Hr|]. apply StronglySorted_app. split; [|done].
        intros a b Ha Hb. apply Ho; [done|]. by rewrite Hr, <- Hrows.
  - by intros p [_ []].
Qed.

(** Whatever the times are: a page holds matching rows, and its cursor is the id
    of one of them. *)
Lemma SqlSearchMessages_any params c t t0 :
  TrimSpace (sp_Query params) <> "" ->
  triple (at_ t t0) (SqlSearchMessages (set_sp_Cursor c params)) (fun r p => at_ t t0 p /\
    match r with
    | inl e => exists e', e = ("search: " +:+ e')%string
    | inr None => False
    | inr (Some res) =>
        (forall m, m ∈ sr_Messages res -> exists x, x ∈ messagesWhere (searchMatch params c) t /\ m = scanMessage x) /\
        (sr_NextCursor res <> 0 -> exists row, (sr_NextCursor res, row) ∈ messagesWhere (searchMatch params c) t)
    end).
Proof.
  intros Hq. unfold SqlSearchMessages. cbn [sp_Limit sp_Query set_sp_Cursor]. rewrite bool_decide_false by done.
  fold (searchLimit params).
  eapply triple_seq; [apply queryMessages_triple|]. intros [e|l] p [Hp Hl]; (split; [done|]); [done|].
  assert (Hin : forall m, m ∈ l -> exists x, x ∈ messagesWhere (searchMatch params c) t /\ m = scanMessage x).
  { intros m Hm. destruct (newest_page_in _ _ _ _ _ Hl Hm) as (id & row & -> & Hrow). exists (id, row).
    split; [|done]. by apply elem_of_messagesWhere. }
  destruct (searchLimit params <? _); cbn [sr_Messages sr_NextCursor]; [|by split]. split.
  - intros m Hm. apply Hin. by apply subseteq_take in Hm.
  - intros Hne. destruct (last _) as [m|] eqn:Hlast; [|done]. apply last_Some_elem_of in Hlast.
    destruct (Hin m) as ([id row] & Hx & ->); [by apply subseteq_take in Hlast|].
    by exists row.
Qed.

Definition positive_ids (t : Tables) : Prop := forall id row, t_messages t !! id = Some row -> 0 < id.

Lemma match_cursor_lt params c x : 0 < c -> searchMatch params c x = true -> x.1 < c.
Proof.
  intros Hc. unfold searchMatch, searchCond. cbn [sp_Cursor set_sp_Cursor].
  rewrite (proj2 (Z.ltb_lt 0 c) Hc). intros H. apply andb_true_iff in H as [_ H]. by apply Z.ltb_lt in H.
Qed.

(** Following a cursor leaves fewer rows, among those there were. *)
Lemma cursor_fewer params c t x row :
  positive_ids t -> (x, row) ∈ messagesWhere (searchMatch params c) t ->
  (x, row) :: messagesWhere (searchMatch params x) t ⊆+ messagesWhere (searchMatch params c) t.
Proof.
  intros Hpos Hx. pose proof Hx as Hx'. apply elem_of_messagesWhere in Hx' as [Hrow Hc].
  assert (Hx0 : 0 < x) by by eapply Hpos.
  assert (Hlt : 0 < c -> x < c) by (intros H0; by apply (match_cursor_lt params c (x, row) H0)).
  apply NoDup_submseteq.
  - constructor; [|apply messagesWhere_NoDup]. rewrite elem_of_messagesWhere. intros [_ Hm].
    apply match_cursor_lt in Hm; [cbn in Hm; lia|done].
  - intros [id r]. rewrite elem_of_cons. intros [->|H]; [done|]. apply elem_of_messagesWhere in H as [H1 H2].
    apply elem_of_messagesWhere. split; [done|]. rewrite (searchMatch_cursor params c x) in H2 by done.
    by apply andb_true_iff in H2 as [H2 _].
Qed.

Lemma searchPages_any fuel params c t t0 :
  positive_ids t -> TrimSpace (sp_Query params) <> "" ->
  (length (messagesWhere (searchMatch params c) t) < fuel)%nat ->
  triple (at_ t t0) (searchPages fuel params c) (fun r p => at_ t t0 p /\
    match r with
    | inl e => exists e', e = ("search: " +:+ e')%string
    | inr l => forall m, m ∈ l -> exists x, x ∈ messagesWhere (searchMatch params c) t /\ m = scanMessage x
    end).
Proof.
  intros Hpos Hq. revert c. induction fuel as [|fuel IH]; intros c Hf; [lia|]. cbn [searchPages].
  eapply triple_bind; [by apply SqlSearchMessages_any|]. intros [e|[res|]].
  - by intros p Hp.
  - apply triple_pure. intros [Hin Hnext]. destruct (sr_NextCursor res =? 0) eqn:Hz.
    + apply ret_at. by intros p Hat.
    + apply Z.eqb_neq in Hz. destruct (Hnext Hz) as [row Hrow]. pose proof (cursor_fewer params c t _ row Hpos Hrow) as Hsub.
      eapply triple_seq.
      * apply (IH (sr_NextCursor res)). apply submseteq_length in Hsub. cbn in Hsub. lia.
      * intros [e|l] p [Hat Hl]; (split; [done|]); [done|]. intros m [Hm|Hm]%elem_of_app; [by apply Hin|].
        destruct (Hl m Hm) as (y & Hy & ->). exists y. split; [|done]. eapply elem_of_submseteq; [|exact Hsub]. by right.
  - by intros p [_ []].
Qed.

Lemma searchMatch_access params c p :
  searchMatch params c p = true ->
  mr_from_uid p.2 = sp_UID params \/ mr_to_uid p.2 = sp_UID params.
Proof.
  unfold searchMatch, searchCond, between. cbn [sp_Peer sp_UID set_sp_Cursor].
  intros H. do 5 (apply andb_true_iff in H as [H _]). apply andb_true_iff in H as [_ H].
  case_bool_decide; apply bool_decide_eq_true in H; tauto.
Qed.

(** C26. A page of a search has at most 50 messages, each sent by or to the
    searching user.  A client that follows the cursors comes to the end, when ids
    are positive, in at most one request more than there are messages, and has been
    shown only messages that match; it fails only if a query fails.  That it is
    shown each of them once, newest first, in at most one request more than the
    pages they fill, is so where ids grow strictly with the messages' times, not in
    general ([search_page_skips], [search_page_repeats]). *)
Theorem mysql_search_pages params d s :
  let t := tables d in
  let matching := messagesWhere (searchMatch params 0) t in
  TrimSpace (sp_Query params) <> "" ->
  (let r := SqlSearchMessages params (d, s) in
   forall res, r.1 = inr (Some res) -> Z.of_nat (length (sr_Messages res)) <= 50 /\
     forall m, m ∈ sr_Messages res -> From m = sp_UID params \/ To m = sp_UID params) /\
  (positive_ids t ->
   let r := searchPages (S (size (t_messages t))) params 0 (d, s) in
   tables r.2.1 = t /\
   match r.1 with
   | inl e => exists e', e = ("search: " +:+ e')%string
   | inr l => forall m, m ∈ l -> exists x, x ∈ matching /\ m = scanMessage x
   end) /\
  (aligned t ->
   let r := searchPages (S (length matching / Z.to_nat (searchLimit params))) params 0 (d, s) in
   tables r.2.1 = t /\
   match r.1 with
   | inl e => exists e', e = ("search: " +:+ e')%string
   | inr l => exists rows, l = map scanMessage rows /\ rows ≡ₚ matching /\
       StronglySorted (fun a b => newest a <= newest b) rows
   end).
Proof.
  intros t matching Hq. assert (Hat : at_ t (saved d) (d, s)) by done. split; [|split].
  - cbv zeta. cut (triple (at_ t (saved d)) (SqlSearchMessages params) (fun r _ =>
      forall res, r = inr (Some res) -> Z.of_nat (length (sr_Messages res)) <= 50 /\
        forall m, m ∈ sr_Messages res -> From m = sp_UID params \/ To m = sp_UID params)).
    { intros H res Hr. by apply (H (d, s) Hat). }
    unfold SqlSearchMessages. rewrite bool_decide_false by done. fold (searchLimit params).
    pose proof (searchLimit_bounds params) as HL.
    eapply triple_seq; [apply queryMessages_triple|]. intros [e|l] p [_ Hl] res; [done|].
    intros [= <-]. cbn [sr_Messages]. split.
    + destruct Hl as (rows & rest & -> & _). destruct (_ <? _) eqn:Hm; [|apply Z.ltb_ge in Hm; lia].
      rewrite length_take. lia.
    + intros m Hm. assert (Hin : m ∈ l).
      { destruct (_ <? _); [|done]. rewrite <- (take_drop (Z.to_nat (searchLimit params)) l).
        apply elem_of_app. by left. }
      destruct (newest_page_in _ _ _ _ _ Hl Hin) as (id & row & -> & _ & Hc).
      change (searchCond params) with (searchCond (set_sp_Cursor (sp_Cursor params) params)) in Hc.
      by apply (searchMatch_access params (sp_Cursor params) (id, row)).
  - intros Hpos. destruct (searchPages_any (S (size (t_messages t))) params 0 t (saved d) Hpos Hq) with (s := (d, s))
      as [[Ht _] Hr]; [|done|by split].
    unfold messagesWhere. pose proof (length_filter (fun p => searchMatch params 0 p = true) (map_to_list (t_messages t))) as Hlf.
    rewrite length_map_to_list in Hlf. lia.
  - intros Hal. destruct (searchPages_triple (S (length matching / Z.to_nat (searchLimit params))) params 0 t (saved d) Hal Hq)
      with (s := (d, s)) as [[Ht _] Hr]; [|done|by split].
    pose proof (searchLimit_bounds params) as HL. fold matching.
    pose proof (Nat.div_mod_eq (length matching) (Z.to_nat (searchLimit params))) as Hdm.
    pose proof (Nat.mod_upper_bound (length matching) (Z.to_nat (searchLimit params)) ltac:(lia)) as Hmu. nia.
Qed.

End Facts.

(** ** Witnesses *)

Definition hello (from to : string) (ts : Z) : MessageRow :=
  mkMessageRow 1 1 from to 1 1 "hello" ts 1 0.

Definition chatTables : Tables :=
  set_messages {[ 10 := hello "alice" "bob" 5; 20 := hello "bob" "alice" 6; 30 := hello "alice" "bob" 7 ]}
    emptyTables.

Definition chatDB (o : list Outcome) : TableDB := mkTableDB chatTables emptyTables o.

Definition helloSearch : SearchParams := mkSearchParams "alice" " hello" "" 0 0 0 0 1 0.

Definition chatDemoSys : Sys := mkSys 0 (mkGenerator 1 0 0).

Lemma chatTables_aligned : aligned chatTables.
Proof.
  intros id row id' row' H H'. cbn in H, H'.
  rewrite !lookup_insert_Some, lookup_singleton_Some in H, H'.
  destruct H as [[<- <-]|[_ [[<- <-]|[_ [<- <-]]]]], H' as [[<- <-]|[_ [[<- <-]|[_ [<- <-]]]]]; cbn; lia.
Qed.

Lemma mysql_search_pages_witness :
  let d := chatDB [] in
  let n := length (messagesWhere (searchMatch helloSearch 0) (tables d)) in
  let r := searchPages (S (n / Z.to_nat (searchLimit helloSearch))) helloSearch 0 (d, chatDemoSys) in
  r.1 = inr (map scanMessage
    [(30, hello "alice" "bob" 7); (20, hello "bob" "alice" 6); (10, hello "alice" "bob" 5)]) /\
  tables r.2.1 = tables d.
Proof.
  intros d n r. split; [vm_compute; reflexivity|].
  assert (Hq : TrimSpace (sp_Query helloSearch) <> "") by done.
  destruct (mysql_search_pages helloSearch d chatDemoSys Hq) as (_ & _ & H).
  destruct (H chatTables_aligned) as [H1 _]. exact H1.
Defined.

Definition lifeOps : list MsgOp := [MEdit 10 "bob" "forged"; MDelete 20; MEdit 10 "alice" "hi"].

Lemma mysql_message_life_witness :
  exists row', t_messages (tables (sql_messages (E := steadyEnv) lifeOps
      (chatDB [Reached; Reached; Unacknowledged], chatDemoSys)).2.1) !! 10 = Some row' /\
    lives_on 10 lifeOps (hello "alice" "bob" 5) row' /\ mr_content row' = "hi".
Proof.
  destruct (mysql_message_life (E := steadyEnv) lifeOps (chatDB [Reached; Reached; Unacknowledged]) chatDemoSys) as [H _].
  destruct (H 10 (hello "alice" "bob" 5) eq_refl ltac:(unfold lifeOps; set_solver)) as (row' & H1 & H2).
  exists row'. split; [exact H1|]. split; [exact H2|].
  vm_compute in H1. injection H1 as <-. reflexivity.
Defined.

(** The cursor is an id but pages are cut by time: two messages of the same
    millisecond on either side of a cut, and the second is never found. *)
Definition twinTables : Tables :=
  set_messages {[ 10 := hello "alice" "bob" 5; 20 := hello "bob" "alice" 5 ]} emptyTables.

Lemma search_page_skips :
  exists t, (exists row row', t_messages t !! 10 = Some row /\ t_messages t !! 20 = Some row' /\
      mr_timestamp row <= mr_timestamp row') /\
    (searchPages 3 helloSearch 0 (mkTableDB t emptyTables [], chatDemoSys)).1 =
      inr [scanMessage (10, hello "alice" "bob" 5)].
Proof.
  exists twinTables. split.
  - exists (hello "alice" "bob" 5), (hello "bob" "alice" 5). by split_and!.
  - vm_compute. reflexivity.
Qed.

(** Ids against the times: the cursor is the id of the oldest message of a page,
    and a newer one below it is found again. *)
Definition backwardTables : Tables :=
  set_messages {[ 10 := hello "alice" "bob" 7; 20 := hello "bob" "alice" 6; 30 := hello "alice" "bob" 5 ]}
    emptyTables.

Lemma search_page_repeats :
  (searchPages 4 (mkSearchParams "alice" " hello" "" 0 0 0 0 2 0) 0
     (mkTableDB backwardTables emptyTables [], chatDemoSys)).1 =
  inr [scanMessage (10, hello "alice" "bob" 7); scanMessage (20, hello "bob" "alice" 6);
       scanMessage (10, hello "alice" "bob" 7)].
Proof. by vm_compute. Qed.

(** An edit to the content the message has, or a second recall, is reported as
    not found. *)
Lemma repeated_update_not_found :
  let s := (chatDB [], chatDemoSys) in
  (SqlUpdateMessageContent 10 "alice" "hello" s).1 = Some "message 10 not found" /\
  (SqlRecallMessage (E := steadyEnv) 10 "alice" (2 ^ 62) s).1 = None /\
  (SqlRecallMessage (E := steadyEnv) 10 "alice" (2 ^ 62) (SqlRecallMessage (E := steadyEnv) 10 "alice" (2 ^ 62) s).2).1 =
    Some "message 10 not found or not owned by alice".
Proof. by vm_compute. Qed.
