(* ===== verification/LogicClient.v ===== *)
(** * The client of the Logic service (src/internal/gateway/grpc_client.go)

    The generated gRPC stub is the interface [LogicRPC]: a call returns a
    response, or the text of the transport's error, and may change the state of
    the connection and of the service behind it.  The client wraps each call;
    a nil client (gRPC disabled) answers with nothing and no error. *)

From S2P Require Import Prelude Proto Snowflake Process Stores.

(** ** Requests and responses (src/api/proto/logic.proto) *)

Record HistoryRequest := mkHistoryRequest {
  hq_Uid : string; hq_Peer : string; hq_Before : Z; hq_Limit : Z }.
Record SearchRequest := mkSearchRequest {
  sq_Uid : string; sq_Query : string; sq_Peer : string; sq_ChatType : Z; sq_MsgType : Z;
  sq_Before : Z; sq_After : Z; sq_Limit : Z; sq_Cursor : Z }.
Record SearchResponse := mkSearchResponse {
  sresp_Messages : list Message; sresp_Count : Z; sresp_NextCursor : Z }.
Record UserResponse := mkUserResponse { ur_Uid : string; ur_Username : string; ur_Found : bool }.
Record GroupInfo := mkGroupInfo {
  gi_Id : string; gi_Name : string; gi_OwnerUid : string; gi_Members : option (list string);
  gi_CreatedAt : Z }.
Record CreateGroupResponse := mkCreateGroupResponse {
  cg_Group : option GroupInfo; cg_Error : string }.
Record JoinGroupResponse := mkJoinGroupResponse { jg_Ok : bool; jg_Error : string }.
Record LeaveGroupResponse := mkLeaveGroupResponse {
  lg_Ok : bool; lg_Deleted : bool; lg_Error : string }.
Record GetGroupResponse := mkGetGroupResponse {
  gg_Group : option GroupInfo; gg_Found : bool }.

(** A Go slice: [None] is nil. *)
Definition slice_list {A} (l : option (list A)) : list A := default [] l.

Class LogicRPC (L : Type) := mkLogicRPC {
  rpc_QueryHistory : HistoryRequest -> L -> (string + list Message) * L;
  rpc_GetUser : string -> L -> (string + UserResponse) * L;
  rpc_SearchMessages : SearchRequest -> L -> (string + SearchResponse) * L;
  rpc_CreateGroup : string -> string -> L -> (string + CreateGroupResponse) * L;
  rpc_JoinGroup : string -> string -> L -> (string + JoinGroupResponse) * L;
  rpc_LeaveGroup : string -> string -> L -> (string + LeaveGroupResponse) * L;
  rpc_GetGroup : string -> L -> (string + GetGroupResponse) * L;
  rpc_ListGroups : string -> L -> (string + list GroupInfo) * L;
  rpc_IncrementUnread : string -> string -> L -> (string + Z) * L;
  rpc_MarkRead : string -> string -> L -> (string + bool) * L;
  rpc_GetUnreadCounts : string -> L -> (string + list (string * Z)) * L
}.

Section Client.
Context {L : Type} {RPC : LogicRPC L}.

(** A method of the client: [nilResult] when the receiver is nil, else one call
    and what is made of its outcome. *)
Definition call {R A} (nilResult : A) (rpc : L -> (string + R) * L) (k : (string + R) -> A)
  : St (option L * Sys) A :=
  fun '(c, s) =>
    match c with
    | None => (nilResult, (None, s))
    | Some l => let (r, l') := rpc l in (k r, (Some l', s))
    end.

Definition ClientQueryHistory (uid peer : string) (before limit : Z)
  : St (option L * Sys) (string + list Message) :=
  call (inr []) (rpc_QueryHistory (mkHistoryRequest uid peer before (wrap32 limit)))
    (fun r => r).

Definition ClientQueryGroupHistory (groupID : string) (before limit : Z)
  : St (option L * Sys) (string + list Message) :=
  call (inr []) (rpc_QueryHistory (mkHistoryRequest groupID "" before (wrap32 limit)))
    (fun r => r).

Definition ClientSearchMessages (params : SearchParams)
  : St (option L * Sys) (string + option SearchResult) :=
  let req := mkSearchRequest (sp_UID params) (sp_Query params) (sp_Peer params)
    (sp_ChatType params) (sp_MsgType params) (sp_Before params) (sp_After params)
    (wrap32 (sp_Limit params)) (sp_Cursor params) in
  call (inr None) (rpc_SearchMessages req) (fun r =>
    match r with
    | inl err => inl err
    | inr resp =>
        inr (Some (mkSearchResult (sresp_Messages resp) (sresp_Count resp) (sresp_NextCursor resp)))
    end).

Definition GetUser (uid : string) : St (option L * Sys) (string + option (string * string)) :=
  call (inr None) (rpc_GetUser uid) (fun r =>
    match r with
    | inl err => inl err
    | inr resp => if negb (ur_Found resp) then inr None
                  else inr (Some (ur_Uid resp, ur_Username resp))
    end).

Definition CreateGroupClient (name ownerUID : string)
  : St (option L * Sys) (string + option GroupInfo) :=
  call (inr None) (rpc_CreateGroup name ownerUID) (fun r =>
    match r with
    | inl err => inl err
    | inr resp => if bool_decide (cg_Error resp <> "") then inl (cg_Error resp)
                  else inr (cg_Group resp)
    end).

Definition JoinGroupClient (groupID uid : string) : St (option L * Sys) (option string) :=
  call None (rpc_JoinGroup groupID uid) (fun r =>
    match r with
    | inl err => Some err
    | inr resp => if bool_decide (jg_Error resp <> "") then Some (jg_Error resp) else None
    end).

Definition LeaveGroupClient (groupID uid : string) : St (option L * Sys) (string + bool) :=
  call (inr false) (rpc_LeaveGroup groupID uid) (fun r =>
    match r with
    | inl err => inl err
    | inr resp => if bool_decide (lg_Error resp <> "") then inl (lg_Error resp)
                  else inr (lg_Deleted resp)
    end).

Definition GetGroupClient (groupID : string)
  : St (option L * Sys) (string + option GroupInfo) :=
  call (inr None) (rpc_GetGroup groupID) (fun r =>
    match r with
    | inl err => inl err
    | inr resp => if negb (gg_Found resp) then inr None else inr (gg_Group resp)
    end).

Definition ListGroupsClient (uid : string) : St (option L * Sys) (string + list GroupInfo) :=
  call (inr []) (rpc_ListGroups uid) (fun r => r).

Definition IncrementUnreadClient (uid peer : string) : St (option L * Sys) (string + Z) :=
  call (inr 0) (rpc_IncrementUnread uid peer) (fun r => r).

Definition MarkReadClient (reader peer : string) : St (option L * Sys) (option string) :=
  call None (rpc_MarkRead reader peer) (fun r =>
    match r with
    | inl err => Some err
    | inr ok => if negb ok then Some "mark read failed" else None
    end).

(** The counts as a map: of two entries for one peer the later stays. *)
Definition GetUnreadCountsClient (uid : string)
  : St (option L * Sys) (string + option (gmap string Z)) :=
  call (inr None) (rpc_GetUnreadCounts uid) (fun r =>
    match r with
    | inl err => inl err
    | inr counts => inr (Some (foldl (fun m uc => <[uc.1 := uc.2]> m) ∅ counts))
    end).

(** A call never touches the process state. *)
Lemma call_sys {R A} (nilResult : A) (rpc : L -> (string + R) * L) k c s :
  (call nilResult rpc k (c, s)).2.2 = s.
Proof. unfold call. destruct c as [l|]; [|done]. by destruct (rpc l). Qed.

(** A configured client stays configured, a nil one nil. *)
Lemma call_nil {R A} (nilResult : A) (rpc : L -> (string + R) * L) k c s :
  is_Some (call nilResult rpc k (c, s)).2.1 <-> is_Some c.
Proof.
  unfold call. destruct c as [l|]; [|done]. destruct (rpc l). simpl.
  split; intros _; by eexists.
Qed.

End Client.
