(* ===== verification/LogicServer.v ===== *)
(** * The Logic service (src/internal/logic/server.go)

    The server behind [LogicClient]: each RPC over interfaces for the MySQL
    stores, with the errors it swallows and those it passes on.  It is an
    instance of [LogicRPC]; a call that would panic ends the connection. *)

From S2P Require Import Prelude Proto Snowflake Process Stores LogicClient.

(** ** The stores (src/internal/repo) *)

Record GroupRow := mkGroupRow {
  gr_ID : string; gr_Name : string; gr_OwnerUID : string; gr_CreatedAt : Z }.

Class GroupTable (T : Type) := mkGroupTable {
  CreateGroup : string -> string -> list string -> St (T * Sys) (string + GroupRow);
  TableAddMember : string -> string -> St (T * Sys) (option string);
  TableRemoveMember : string -> string -> St (T * Sys) (string + bool);
  GetGroup : string -> St (T * Sys) (string + GroupRow);
  TableGetMembers : string -> St (T * Sys) (string + list string);
  ListGroups : string -> St (T * Sys) (string + list GroupRow)
}.

Class UnreadTable (T : Type) := mkUnreadTable {
  TableIncrement : string -> string -> St (T * Sys) (string + Z);
  TableMarkRead : string -> string -> St (T * Sys) (option string);
  TableGetCounts : string -> St (T * Sys) (string + gmap string Z)
}.

(** ** The server *)

(** [userRepo] is an interface value: nil, or a [*MySQLStore], which may itself
    be nil. *)
Record LogicServer (MS US GT UT : Type) := mkLogicServer {
  ls_mysql : option MS;
  ls_userRepo : option (option US);
  ls_groupStore : option GT;
  ls_unreadStore : option UT;
  ls_sys : Sys
}.
Arguments mkLogicServer {MS US GT UT}.
Arguments ls_mysql {MS US GT UT}.
Arguments ls_userRepo {MS US GT UT}.
Arguments ls_groupStore {MS US GT UT}.
Arguments ls_unreadStore {MS US GT UT}.
Arguments ls_sys {MS US GT UT}.

Section Server.
Context {E : Env} {MS US GT UT : Type}.
Context {MSI : MessageStore MS} {USI : UserStore US} {GTI : GroupTable GT} {UTI : UnreadTable UT}.

Abbreviation Server := (LogicServer MS US GT UT).

(** The database a server is built on: its tables. *)
Record MySQLHandle := mkMySQLHandle { db_messages : MS; db_users : US; db_groups : GT; db_unread : UT }.

Definition NewServer (mysql : option MySQLHandle) (workerID : Z) (tick : nat) (g0 : Generator)
  : Server :=
  match mysql with
  | None => mkLogicServer None (Some None) None None (mkSys tick g0)
  | Some db =>
      let workerID := if workerID <=? 0 then 2 else workerID in
      match Snowflake.New workerID with
      | None => mkLogicServer (Some (db_messages db)) (Some (Some (db_users db))) None
                  (Some (db_unread db)) (mkSys tick g0)
      | Some sf => mkLogicServer (Some (db_messages db)) (Some (Some (db_users db)))
                     (Some (db_groups db)) (Some (db_unread db)) (mkSys tick sf)
      end
  end.

(** Running an operation of a store inside the server. *)
Definition withMsgs {A} (x : MS) (m : St (MS * Sys) A) (l : Server) : A * Server :=
  let '(a, (x', s')) := m (x, ls_sys l) in
  (a, mkLogicServer (Some x') (ls_userRepo l) (ls_groupStore l) (ls_unreadStore l) s').
Definition withUsers {A} (x : US) (m : St (US * Sys) A) (l : Server) : A * Server :=
  let '(a, (x', s')) := m (x, ls_sys l) in
  (a, mkLogicServer (ls_mysql l) (Some (Some x')) (ls_groupStore l) (ls_unreadStore l) s').
Definition withGroups {A} (x : GT) (m : St (GT * Sys) A) (l : Server) : A * Server :=
  let '(a, (x', s')) := m (x, ls_sys l) in
  (a, mkLogicServer (ls_mysql l) (ls_userRepo l) (Some x') (ls_unreadStore l) s').
Definition withUnread {A} (x : UT) (m : St (UT * Sys) A) (l : Server) : A * Server :=
  let '(a, (x', s')) := m (x, ls_sys l) in
  (a, mkLogicServer (ls_mysql l) (ls_userRepo l) (ls_groupStore l) (Some x') s').

Definition ServerQueryHistory (req : HistoryRequest) (l : Server) : list Message * Server :=
  match ls_mysql l with
  | None => ([], l)
  | Some ms =>
      let limit := if hq_Limit req <=? 0 then 30 else hq_Limit req in
      let limit := if 100 <? limit then 100 else limit in
      let (res, l') := withMsgs ms
        (let! before := (if hq_Before req <=? 0 then NowMilli else ret (hq_Before req)) in
         Stores.QueryHistory (hq_Uid req) (hq_Peer req) before limit) l in
      (match res with inl _ => [] | inr msgs => msgs end, l')
  end.

Definition ServerSearchMessages (req : SearchRequest) (l : Server) : SearchResponse * Server :=
  match ls_mysql l with
  | None => (mkSearchResponse [] 0 0, l)
  | Some ms =>
      let params := mkSearchParams (sq_Uid req) (sq_Query req) (sq_Peer req) (sq_ChatType req)
        (sq_MsgType req) (sq_Before req) (sq_After req) (sq_Limit req) (sq_Cursor req) in
      let (res, l') := withMsgs ms (Stores.SearchMessages params) l in
      (match res with
       | inr (Some r) => mkSearchResponse (sr_Messages r) (wrap32 (sr_Count r)) (sr_NextCursor r)
       | _ => mkSearchResponse [] 0 0
       end, l')
  end.

Definition groupInfoFromRow (g : GroupRow) (members : option (list string)) : GroupInfo :=
  mkGroupInfo (gr_ID g) (gr_Name g) (gr_OwnerUID g) members (gr_CreatedAt g).

(** [members, _ := s.groupStore.GetMembers(ctx, g.ID)]. *)
Definition membersOf (gid : string) : St (GT * Sys) (option (list string)) :=
  let! res := TableGetMembers gid in
  ret (match res with inl _ => None | inr ms => Some ms end).

Definition notAvailable : string := "group store not available".

Definition ServerCreateGroup (name owner : string) (l : Server) : CreateGroupResponse * Server :=
  match ls_groupStore l with
  | None => (mkCreateGroupResponse None notAvailable, l)
  | Some gt => withGroups gt
      (let! res := CreateGroup name owner [] in
       match res with
       | inl err => ret (mkCreateGroupResponse None err)
       | inr g => let! ms := membersOf (gr_ID g) in
                  ret (mkCreateGroupResponse (Some (groupInfoFromRow g ms)) "")
       end) l
  end.

Definition ServerJoinGroup (gid uid : string) (l : Server) : JoinGroupResponse * Server :=
  match ls_groupStore l with
  | None => (mkJoinGroupResponse false notAvailable, l)
  | Some gt => withGroups gt
      (let! err := TableAddMember gid uid in
       ret (match err with
            | Some e => mkJoinGroupResponse false e
            | None => mkJoinGroupResponse true ""
            end)) l
  end.

Definition ServerLeaveGroup (gid uid : string) (l : Server) : LeaveGroupResponse * Server :=
  match ls_groupStore l with
  | None => (mkLeaveGroupResponse false false notAvailable, l)
  | Some gt => withGroups gt
      (let! res := TableRemoveMember gid uid in
       ret (match res with
            | inl e => mkLeaveGroupResponse false false e
            | inr deleted => mkLeaveGroupResponse true deleted ""
            end)) l
  end.

Definition ServerGetGroup (gid : string) (l : Server) : GetGroupResponse * Server :=
  match ls_groupStore l with
  | None => (mkGetGroupResponse None false, l)
  | Some gt => withGroups gt
      (let! res := GetGroup gid in
       match res with
       | inl _ => ret (mkGetGroupResponse None false)
       | inr g => let! ms := membersOf (gr_ID g) in
                  ret (mkGetGroupResponse (Some (groupInfoFromRow g ms)) true)
       end) l
  end.

Fixpoint groupInfos (groups : list GroupRow) : St (GT * Sys) (list GroupInfo) :=
  match groups with
  | [] => ret []
  | g :: rest =>
      let! ms := membersOf (gr_ID g) in
      let! out := groupInfos rest in ret (groupInfoFromRow g ms :: out)
  end.

Definition ServerListGroups (uid : string) (l : Server) : list GroupInfo * Server :=
  match ls_groupStore l with
  | None => ([], l)
  | Some gt => withGroups gt
      (let! res := ListGroups uid in
       match res with inl _ => ret [] | inr groups => groupInfos groups end) l
  end.

(** [inl tt]: the call panics on a nil [*MySQLStore]. *)
Definition ServerGetUser (uid : string) (l : Server) : (unit + UserResponse) * Server :=
  match ls_userRepo l with
  | None => (inr (mkUserResponse "" "" false), l)
  | Some None => (inl tt, l)
  | Some (Some us) =>
      let (res, l') := withUsers us (GetByUID uid) l in
      (inr (match res with
            | inr (Some u) => mkUserResponse (u_UID u) (u_Username u) true
            | _ => mkUserResponse "" "" false
            end), l')
  end.

Definition ServerIncrementUnread (uid peer : string) (l : Server) : Z * Server :=
  match ls_unreadStore l with
  | None => (0, l)
  | Some ut =>
      let (res, l') := withUnread ut (TableIncrement uid peer) l in
      (match res with inl _ => 0 | inr n => n end, l')
  end.

Definition ServerMarkRead (reader peer : string) (l : Server) : bool * Server :=
  match ls_unreadStore l with
  | None => (false, l)
  | Some ut =>
      let (err, l') := withUnread ut (TableMarkRead reader peer) l in
      (match err with Some _ => false | None => true end, l')
  end.

(** The map as a list of pairs, in the order a [range] visits it. *)
Definition rangeCounts (counts : gmap string Z) : St (UT * Sys) (list (string * Z)) :=
  let! keys := RangeKeys (elements (dom counts)) in
  ret (map (fun k => (k, default 0 (counts !! k))) keys).

Definition ServerGetUnreadCounts (uid : string) (l : Server) : list (string * Z) * Server :=
  match ls_unreadStore l with
  | None => ([], l)
  | Some ut => withUnread ut
      (let! res := TableGetCounts uid in
       match res with inl _ => ret [] | inr counts => rangeCounts counts end) l
  end.

(** The server as the other end of the client's connection; it never answers
    with a gRPC error of its own. *)
Context (crashed : string).

#[export] Instance LogicServer_LogicRPC : LogicRPC Server :=
  mkLogicRPC Server
    (fun req l => let (r, l') := ServerQueryHistory req l in (inr r, l'))
    (fun uid l => let (r, l') := ServerGetUser uid l in
       (match r with inl _ => inl crashed | inr u => inr u end, l'))
    (fun req l => let (r, l') := ServerSearchMessages req l in (inr r, l'))
    (fun n o l => let (r, l') := ServerCreateGroup n o l in (inr r, l'))
    (fun g u l => let (r, l') := ServerJoinGroup g u l in (inr r, l'))
    (fun g u l => let (r, l') := ServerLeaveGroup g u l in (inr r, l'))
    (fun g l => let (r, l') := ServerGetGroup g l in (inr r, l'))
    (fun u l => let (r, l') := ServerListGroups u l in (inr r, l'))
    (fun u p l => let (r, l') := ServerIncrementUnread u p l in (inr r, l'))
    (fun u p l => let (r, l') := ServerMarkRead u p l in (inr r, l'))
    (fun u l => let (r, l') := ServerGetUnreadCounts u l in (inr r, l')).

(** ** Client and server together *)

Lemma foldl_insert_lookup (f : string -> Z) keys (acc : gmap string Z) k :
  foldl (fun m (uc : string * Z) => <[uc.1 := uc.2]> m) acc (map (fun k => (k, f k)) keys) !! k =
  if decide (k ∈ keys) then Some (f k) else acc !! k.
Proof.
  revert acc. induction keys as [|a keys IH]; intros acc; [by rewrite decide_False by apply not_elem_of_nil|].
  simpl. rewrite IH. destruct (decide (k ∈ keys)) as [Hk|Hk].
  - by rewrite decide_True by (by right).
  - destruct (decide (k = a)) as [->|Hne].
    + rewrite decide_True by left. by rewrite lookup_insert_eq.
    + rewrite decide_False by (rewrite elem_of_cons; tauto). by rewrite lookup_insert_ne.
Qed.

(** The counts a client rebuilds are the counts that were ranged over, in
    whatever order. *)
Lemma rangeCounts_rebuilt counts p :
  foldl (fun m (uc : string * Z) => <[uc.1 := uc.2]> m) ∅ (rangeCounts counts p).1 = counts.
Proof.
  destruct p as [u s]. unfold rangeCounts, bind.
  pose proof (RangeKeys_perm (elements (dom counts)) u s) as Hp.
  destruct (RangeKeys _ (u, s)) as [keys q]. simpl in *. apply map_eq. intros k.
  rewrite foldl_insert_lookup. destruct (decide (k ∈ keys)) as [Hk|Hk].
  - rewrite Hp in Hk. apply elem_of_elements, elem_of_dom in Hk as [v Hv]. by rewrite Hv.
  - rewrite lookup_empty. symmetry. apply not_elem_of_dom. by rewrite <- elem_of_elements, <- Hp.
Qed.

Lemma withGroups_fst {A} x (m : St (GT * Sys) A) l : (withGroups x m l).1 = (m (x, ls_sys l)).1.
Proof. unfold withGroups. by destruct (m (x, ls_sys l)) as [a [x' s']]. Qed.
Lemma withUnread_fst {A} x (m : St (UT * Sys) A) l : (withUnread x m l).1 = (m (x, ls_sys l)).1.
Proof. unfold withUnread. by destruct (m (x, ls_sys l)) as [a [x' s']]. Qed.

Lemma call_some {R A} (nilR : A) (rpc : Server -> (string + R) * Server) k l s :
  (call nilR rpc k (Some l, s)).1 = k (rpc l).1.
Proof. unfold call. by destruct (rpc l). Qed.

Lemma answered {R} (x : R * Server) : (let (r, l') := x in (inr r : string + R, l')).1 = inr x.1.
Proof. by destruct x. Qed.

Lemma call_state {R A} (nilR : A) (rpc : Server -> (string + R) * Server) k l s :
  (call nilR rpc k (Some l, s)).2.1 = Some (rpc l).2.
Proof. unfold call. by destruct (rpc l). Qed.

Lemma answered_state {R} (x : R * Server) : (let (r, l') := x in (inr r : string + R, l')).2 = x.2.
Proof. by destruct x. Qed.

Lemma withGroups_state {A} x (m : St (GT * Sys) A) l :
  ls_groupStore (withGroups x m l).2 = Some (m (x, ls_sys l)).2.1.
Proof. unfold withGroups. by destruct (m (x, ls_sys l)) as [a [x' s']]. Qed.
Lemma withUnread_state {A} x (m : St (UT * Sys) A) l :
  ls_unreadStore (withUnread x m l).2 = Some (m (x, ls_sys l)).2.1.
Proof. unfold withUnread. by destruct (m (x, ls_sys l)) as [a [x' s']]. Qed.
Lemma withMsgs_fst {A} x (m : St (MS * Sys) A) l : (withMsgs x m l).1 = (m (x, ls_sys l)).1.
Proof. unfold withMsgs. by destruct (m (x, ls_sys l)) as [a [x' s']]. Qed.
Lemma withUsers_fst {A} x (m : St (US * Sys) A) l : (withUsers x m l).1 = (m (x, ls_sys l)).1.
Proof. unfold withUsers. by destruct (m (x, ls_sys l)) as [a [x' s']]. Qed.

(** The members of the groups, read one after the other. *)
Fixpoint allMembers (rows : list GroupRow) : St (GT * Sys) (list (option (list string))) :=
  match rows with
  | [] => ret []
  | g :: rest => let! ms := membersOf (gr_ID g) in let! out := allMembers rest in ret (ms :: out)
  end.

Definition infosWith (rows : list GroupRow) (mss : list (option (list string))) : list GroupInfo :=
  map (fun x : GroupRow * option (list string) => groupInfoFromRow x.1 x.2) (zip rows mss).

Lemma groupInfos_run rows p : (groupInfos rows p).1 = infosWith rows (allMembers rows p).1.
Proof.
  revert p. induction rows as [|g rows IH]; intros p; [done|]. cbn [groupInfos allMembers]. rewrite !bind_run.
  destruct (membersOf (gr_ID g) p) as [m q]. cbn [fst snd]. specialize (IH q).
  rewrite ?bind_run. destruct (groupInfos rows q) as [out q'], (allMembers rows q) as [mss q'']. cbn in *. by rewrite IH.
Qed.

(** The errors of the group tables have a text. *)
Definition errors_speak (gt : GT) (s : Sys) : Prop :=
  (forall n o, (CreateGroup n o [] (gt, s)).1 <> inl "") /\
  (forall g u, (TableAddMember g u (gt, s)).1 <> Some "") /\
  (forall g u, (TableRemoveMember g u (gt, s)).1 <> inl "").

(** A service with all its stores. *)
Definition connected (l : Server) (ms : MS) (us : US) (gt : GT) (ut : UT) : Prop :=
  ls_mysql l = Some ms /\ ls_userRepo l = Some (Some us) /\ ls_groupStore l = Some gt /\ ls_unreadStore l = Some ut.

(** The page size the service asks for. *)
Definition servedLimit (limit : Z) : Z :=
  let n := if wrap32 limit <=? 0 then 30 else wrap32 limit in if 100 <? n then 100 else n.

(** What a search returns by the service: no result, as on an error, is an empty
    one; the count goes through 32 bits. *)
Definition servedSearch (r : string + option SearchResult) : SearchResult :=
  match r with
  | inr (Some r) => mkSearchResult (sr_Messages r) (wrap32 (sr_Count r)) (sr_NextCursor r)
  | _ => mkSearchResult [] 0 0
  end.

Section Answers.
Context (l : Server) (ms : MS) (us : US) (gt : GT) (ut : UT) (Hl : connected l ms us gt ut).
Let tables := (gt, ls_sys l).

Lemma history_answer uid peer before limit s : 0 < before ->
  (ClientQueryHistory uid peer before limit (Some l, s)).1 =
  inr (match (Stores.QueryHistory uid peer before (servedLimit limit) (ms, ls_sys l)).1 with inl _ => [] | inr msgs => msgs end).
Proof.
  intros Hb. destruct Hl as (H1 & _). unfold ClientQueryHistory. rewrite call_some. cbn [rpc_QueryHistory LogicServer_LogicRPC].
  rewrite answered. unfold ServerQueryHistory. rewrite H1. cbn [hq_Before hq_Uid hq_Peer hq_Limit].
  replace (before <=? 0) with false by lia.
  match goal with |- context [withMsgs ms ?m l] => pose proof (withMsgs_fst ms m l) as Hw; destruct (withMsgs ms m l) as [r l'] end.
  cbn [fst] in *. rewrite Hw, bind_run. done.
Qed.

Lemma search_answer params s :
  (ClientSearchMessages params (Some l, s)).1 =
  inr (Some (servedSearch (Stores.SearchMessages (mkSearchParams (sp_UID params) (sp_Query params) (sp_Peer params)
    (sp_ChatType params) (sp_MsgType params) (sp_Before params) (sp_After params) (wrap32 (sp_Limit params))
    (sp_Cursor params)) (ms, ls_sys l)).1)).
Proof.
  destruct Hl as (H1 & _). unfold ClientSearchMessages. rewrite call_some. cbn [rpc_SearchMessages LogicServer_LogicRPC].
  rewrite answered. unfold ServerSearchMessages. rewrite H1.
  cbn [sq_Uid sq_Query sq_Peer sq_ChatType sq_MsgType sq_Before sq_After sq_Limit sq_Cursor].
  match goal with |- context [withMsgs ms ?m l] => pose proof (withMsgs_fst ms m l) as Hw; destruct (withMsgs ms m l) as [r l'] end.
  cbn [fst] in *. rewrite <-Hw. by destruct r as [e|[r|]].
Qed.

Lemma user_answer uid s :
  (LogicClient.GetUser uid (Some l, s)).1 =
  inr (match (GetByUID uid (us, ls_sys l)).1 with inr (Some u) => Some (u_UID u, u_Username u) | _ => None end).
Proof.
  destruct Hl as (_ & H2 & _). unfold LogicClient.GetUser. rewrite call_some. cbn [rpc_GetUser LogicServer_LogicRPC].
  unfold ServerGetUser. rewrite H2. pose proof (withUsers_fst us (GetByUID uid) l) as Hw.
  destruct (withUsers us (GetByUID uid) l) as [r l']. cbn [fst] in *. rewrite <-Hw. by destruct r as [e|[u|]].
Qed.

(** The answers about groups, and what they leave of the table. *)
Lemma join_answer g u s : errors_speak gt (ls_sys l) ->
  let r := JoinGroupClient g u (Some l, s) in
  r.1 = (TableAddMember g u tables).1 /\
  (ls_groupStore <$> r.2.1) = Some (Some (TableAddMember g u tables).2.1).
Proof.
  intros (_ & He & _). destruct Hl as (_ & _ & H3 & _). cbv zeta. unfold JoinGroupClient. rewrite call_some, call_state.
  cbn [rpc_JoinGroup LogicServer_LogicRPC]. rewrite answered, answered_state. unfold ServerJoinGroup. rewrite H3.
  cbn [fmap option_fmap option_map]. rewrite withGroups_fst, withGroups_state, !bind_run. fold tables.
  specialize (He g u). fold tables in He. destruct (TableAddMember g u tables) as [[e|] q]; cbn in *; [|done].
  by rewrite bool_decide_true by congruence.
Qed.

Lemma leave_answer g u s : errors_speak gt (ls_sys l) ->
  let r := LeaveGroupClient g u (Some l, s) in
  r.1 = (TableRemoveMember g u tables).1 /\
  (ls_groupStore <$> r.2.1) = Some (Some (TableRemoveMember g u tables).2.1).
Proof.
  intros (_ & _ & He). destruct Hl as (_ & _ & H3 & _). cbv zeta. unfold LeaveGroupClient. rewrite call_some, call_state.
  cbn [rpc_LeaveGroup LogicServer_LogicRPC]. rewrite answered, answered_state. unfold ServerLeaveGroup. rewrite H3.
  cbn [fmap option_fmap option_map]. rewrite withGroups_fst, withGroups_state, !bind_run. fold tables.
  specialize (He g u). fold tables in He. destruct (TableRemoveMember g u tables) as [[e|b] q]; cbn in *; [|done].
  by rewrite bool_decide_true by congruence.
Qed.

Lemma create_answer n o s : errors_speak gt (ls_sys l) ->
  let r := CreateGroupClient n o (Some l, s) in
  match CreateGroup n o [] tables with
  | (inl e, q) => r.1 = inl e /\ (ls_groupStore <$> r.2.1) = Some (Some q.1)
  | (inr row, q) => r.1 = inr (Some (groupInfoFromRow row (membersOf (gr_ID row) q).1)) /\
      (ls_groupStore <$> r.2.1) = Some (Some (membersOf (gr_ID row) q).2.1)
  end.
Proof.
  intros (He & _ & _). destruct Hl as (_ & _ & H3 & _). cbv zeta. unfold CreateGroupClient. rewrite call_some, call_state.
  cbn [rpc_CreateGroup LogicServer_LogicRPC]. rewrite answered, answered_state. unfold ServerCreateGroup. rewrite H3.
  cbn [fmap option_fmap option_map]. rewrite withGroups_fst, withGroups_state, !bind_run. fold tables.
  specialize (He n o). fold tables in He. destruct (CreateGroup n o [] tables) as [[e|row] q]; cbn [fst snd] in *.
  - split; [|done]. cbn. by rewrite bool_decide_true by congruence.
  - rewrite !bind_run. by destruct (membersOf (gr_ID row) q) as [m q'].
Qed.

Lemma get_answer g s :
  (GetGroupClient g (Some l, s)).1 =
  match GetGroup g tables with
  | (inl _, _) => inr None
  | (inr row, q) => inr (Some (groupInfoFromRow row (membersOf (gr_ID row) q).1))
  end.
Proof.
  destruct Hl as (_ & _ & H3 & _). unfold GetGroupClient. rewrite call_some. cbn [rpc_GetGroup LogicServer_LogicRPC].
  rewrite answered. unfold ServerGetGroup. rewrite H3, withGroups_fst, bind_run. fold tables.
  destruct (GetGroup g tables) as [[e|row] q]; [done|]. cbn [fst snd]. rewrite bind_run.
  by destruct (membersOf (gr_ID row) q) as [m q'].
Qed.

(** The groups of a user, in the order of the table, each with its members, or
    without them where they could not be read. *)
Lemma list_answer u s :
  (ListGroupsClient u (Some l, s)).1 =
  match ListGroups u tables with
  | (inl _, _) => inr []
  | (inr rows, q) => inr (infosWith rows (allMembers rows q).1)
  end.
Proof.
  destruct Hl as (_ & _ & H3 & _). unfold ListGroupsClient. rewrite call_some. cbn [rpc_ListGroups LogicServer_LogicRPC].
  rewrite answered. unfold ServerListGroups. rewrite H3, withGroups_fst, bind_run. fold tables.
  destruct (ListGroups u tables) as [[e|rows] q]; [done|]. cbn [fst snd].
  by rewrite groupInfos_run.
Qed.

Lemma increment_answer u p s :
  let r := IncrementUnreadClient u p (Some l, s) in
  r.1 = inr (match (TableIncrement u p (ut, ls_sys l)).1 with inl _ => 0 | inr n => n end) /\
  (ls_unreadStore <$> r.2.1) = Some (Some (TableIncrement u p (ut, ls_sys l)).2.1).
Proof.
  destruct Hl as (_ & _ & _ & H4). cbv zeta. unfold IncrementUnreadClient. rewrite call_some, call_state.
  cbn [rpc_IncrementUnread LogicServer_LogicRPC]. rewrite answered, answered_state. unfold ServerIncrementUnread. rewrite H4.
  pose proof (withUnread_fst ut (TableIncrement u p) l) as Hw. pose proof (withUnread_state ut (TableIncrement u p) l) as Hs.
  destruct (withUnread ut (TableIncrement u p) l) as [r l']. cbn [fst snd] in *. rewrite <-Hw.
  cbn [fmap option_fmap option_map]. by rewrite <-Hs.
Qed.

Lemma markread_answer u p s :
  let r := MarkReadClient u p (Some l, s) in
  r.1 = match (TableMarkRead u p (ut, ls_sys l)).1 with Some _ => Some "mark read failed" | None => None end /\
  (ls_unreadStore <$> r.2.1) = Some (Some (TableMarkRead u p (ut, ls_sys l)).2.1).
Proof.
  destruct Hl as (_ & _ & _ & H4). cbv zeta. unfold MarkReadClient. rewrite call_some, call_state.
  cbn [rpc_MarkRead LogicServer_LogicRPC]. rewrite answered, answered_state. unfold ServerMarkRead. rewrite H4.
  pose proof (withUnread_fst ut (TableMarkRead u p) l) as Hw. pose proof (withUnread_state ut (TableMarkRead u p) l) as Hs.
  destruct (withUnread ut (TableMarkRead u p) l) as [r l']. cbn [fst snd] in *. rewrite <-Hw.
  cbn [fmap option_fmap option_map]. rewrite <-Hs. by destruct r.
Qed.

Lemma counts_answer u s :
  (GetUnreadCountsClient u (Some l, s)).1 =
  inr (Some (match (TableGetCounts u (ut, ls_sys l)).1 with inl _ => ∅ | inr counts => counts end)).
Proof.
  destruct Hl as (_ & _ & _ & H4). unfold GetUnreadCountsClient. rewrite call_some.
  cbn [rpc_GetUnreadCounts LogicServer_LogicRPC]. rewrite answered. unfold ServerGetUnreadCounts.
  rewrite H4, withUnread_fst. unfold bind at 1.
  destruct (TableGetCounts u (ut, ls_sys l)) as [[e|counts] q]; [done|]. by rewrite rangeCounts_rebuilt.
Qed.

End Answers.

(** C38. What the gateway's client gets, by each of the eleven calls, from a Logic
    service with its stores, and what it learns of their errors.  Creating, joining
    and leaving a group answer as the group table, its errors by their text, and
    leave the table as its operation does.  Everything else hides the error: a
    history, a search, the groups of a user and the unread counts are empty, a user
    or a group that cannot be read is not found, a failed increment answers zero,
    and of a failed read mark only that it failed is told.  Without an error they
    are the table's answers: the history of a page between 1 and 100 messages, the
    search with its count in 32 bits, the counts as the map the table returned,
    whatever the order in which it was serialised. *)
Theorem logic_client_reads_stores (l : Server) ms us gt ut s :
  connected l ms us gt ut -> errors_speak gt (ls_sys l) ->
  let tables := (gt, ls_sys l) in let counts := (ut, ls_sys l) in
  (forall uid peer before limit, 0 < before ->
     (ClientQueryHistory uid peer before limit (Some l, s)).1 =
     inr (match (Stores.QueryHistory uid peer before (servedLimit limit) (ms, ls_sys l)).1 with
          | inl _ => [] | inr msgs => msgs end)) /\
  (forall params, (ClientSearchMessages params (Some l, s)).1 =
     inr (Some (servedSearch (Stores.SearchMessages (mkSearchParams (sp_UID params) (sp_Query params)
       (sp_Peer params) (sp_ChatType params) (sp_MsgType params) (sp_Before params) (sp_After params)
       (wrap32 (sp_Limit params)) (sp_Cursor params)) (ms, ls_sys l)).1))) /\
  (forall uid, (LogicClient.GetUser uid (Some l, s)).1 =
     inr (match (GetByUID uid (us, ls_sys l)).1 with
          | inr (Some u) => Some (u_UID u, u_Username u) | _ => None end)) /\
  (forall n o, let r := CreateGroupClient n o (Some l, s) in
     match CreateGroup n o [] tables with
     | (inl e, q) => r.1 = inl e /\ (ls_groupStore <$> r.2.1) = Some (Some q.1)
     | (inr row, q) => r.1 = inr (Some (groupInfoFromRow row (membersOf (gr_ID row) q).1)) /\
         (ls_groupStore <$> r.2.1) = Some (Some (membersOf (gr_ID row) q).2.1)
     end) /\
  (forall g u, let r := JoinGroupClient g u (Some l, s) in r.1 = (TableAddMember g u tables).1 /\
     (ls_groupStore <$> r.2.1) = Some (Some (TableAddMember g u tables).2.1)) /\
  (forall g u, let r := LeaveGroupClient g u (Some l, s) in r.1 = (TableRemoveMember g u tables).1 /\
     (ls_groupStore <$> r.2.1) = Some (Some (TableRemoveMember g u tables).2.1)) /\
  (forall g, (GetGroupClient g (Some l, s)).1 =
     match GetGroup g tables with
     | (inl _, _) => inr None
     | (inr row, q) => inr (Some (groupInfoFromRow row (membersOf (gr_ID row) q).1))
     end) /\
  (forall u, (ListGroupsClient u (Some l, s)).1 =
     match ListGroups u tables with
     | (inl _, _) => inr []
     | (inr rows, q) => inr (infosWith rows (allMembers rows q).1)
     end) /\
  (forall u p, let r := IncrementUnreadClient u p (Some l, s) in
     r.1 = inr (match (TableIncrement u p counts).1 with inl _ => 0 | inr n => n end) /\
     (ls_unreadStore <$> r.2.1) = Some (Some (TableIncrement u p counts).2.1)) /\
  (forall u p, let r := MarkReadClient u p (Some l, s) in
     r.1 = match (TableMarkRead u p counts).1 with Some _ => Some "mark read failed" | None => None end /\
     (ls_unreadStore <$> r.2.1) = Some (Some (TableMarkRead u p counts).2.1)) /\
  (forall u, (GetUnreadCountsClient u (Some l, s)).1 =
     inr (Some (match (TableGetCounts u counts).1 with inl _ => ∅ | inr m => m end))).
Proof.
  intros Hl He tables counts. split_and!; intros.
  - by apply (history_answer l ms us gt ut Hl).
  - by apply (search_answer l ms us gt ut Hl).
  - by apply (user_answer l ms us gt ut Hl).
  - by apply (create_answer l ms us gt ut Hl).
  - by apply (join_answer l ms us gt ut Hl).
  - by apply (leave_answer l ms us gt ut Hl).
  - by apply (get_answer l ms us gt ut Hl).
  - by apply (list_answer l ms us gt ut Hl).
  - by apply (increment_answer l ms us gt ut Hl).
  - by apply (markread_answer l ms us gt ut Hl).
  - by apply (counts_answer l ms us gt ut Hl).
Qed.

(** [NewServer] without a database stores a nil [*MySQLStore] in the interface
    field, which [GetUser] then does not recognise as nil. *)
Lemma nil_database_panics w n g uid : (ServerGetUser uid (NewServer None w n g)).1 = inl tt.
Proof. done. Qed.

End Server.

(** ** Concrete tables *)

Section Demo.
#[local] Existing Instance steadyEnv.

(** Groups by id, with their members; the first member owns the group. *)
#[local] Instance demoGroupTable : GroupTable (gmap string (list string)) :=
  mkGroupTable _
    (fun n o ms '(t, s) => (inr (mkGroupRow n n o 0), (<[n := o :: ms]> t, s)))
    (fun g u '(t, s) => match t !! g with
       | None => (Some "group not found", (t, s))
       | Some ms => (None, (<[g := ms ++ [u]]> t, s)) end)
    (fun g u '(t, s) => match t !! g with
       | None => (inl "group not found", (t, s))
       | Some ms => (inr false, (<[g := filter (fun m => m <> u) ms]> t, s)) end)
    (fun g '(t, s) => match t !! g with
       | None => (inl "group not found", (t, s))
       | Some ms => (inr (mkGroupRow g g (default "" (head ms)) 0), (t, s)) end)
    (fun g '(t, s) => (inr (default [] (t !! g)), (t, s)))
    (fun u '(t, s) => (inr [], (t, s))).

#[local] Instance demoUnreadTable : UnreadTable (gmap string (gmap string Z)) :=
  mkUnreadTable _
    (fun u p '(t, s) => (inr 1, (t, s)))
    (fun u p '(t, s) => (None, (t, s)))
    (fun u '(t, s) => (inr (default ∅ (t !! u)), (t, s))).

#[local] Instance noUsers : UserStore unit :=
  mkUserStore _ (fun _ x => (None, x)) (fun _ x => (inr None, x)) (fun _ _ x => (None, x))
    (fun _ _ x => (inr ([], 0), x)) (fun _ x => (None, x)) (fun _ _ x => (None, x))
    (fun _ _ x => (None, x)) (fun x => (inr 0, x)).
#[local] Instance noMessages : MessageStore unit :=
  mkMessageStore _ (fun _ x => (None, x)) (fun _ _ _ _ x => (inr [], x))
    (fun _ _ _ x => (inr [], x)) (fun _ x => (inr None, x)) (fun _ _ _ x => (None, x))
    (fun _ _ _ x => (None, x)) (fun _ _ x => (inr [], x)) (fun _ x => (None, x)) (fun x => (inr 0, x)).

Definition demoTables : gmap string (list string) := {[ "g_9" := ["alice"; "bob"] ]}.
Definition demoUnread : gmap string (gmap string Z) := {[ "bob" := {[ "alice" := 3; "carol" := 1 ]} ]}.
Definition demoServer : LogicServer unit unit (gmap string (list string)) (gmap string (gmap string Z)) :=
  mkLogicServer (Some tt) (Some (Some tt)) (Some demoTables) (Some demoUnread)
    (mkSys 0 (mkGenerator 2 0 0)).

Lemma demo_speak : errors_speak demoTables (ls_sys demoServer).
Proof.
  split; [done|]. split; intros g u; cbn [TableAddMember TableRemoveMember demoGroupTable];
    by destruct (demoTables !! g).
Qed.

Lemma logic_client_reads_stores_witness :
  (GetUnreadCountsClient (RPC := LogicServer_LogicRPC "") "bob" (Some demoServer, ls_sys demoServer)).1 =
  inr (Some {[ "alice" := 3; "carol" := 1 ]}).
Proof.
  assert (Hl : connected demoServer tt tt demoTables demoUnread) by (split_and!; reflexivity).
  destruct (logic_client_reads_stores "" demoServer tt tt demoTables demoUnread (ls_sys demoServer) Hl demo_speak)
    as (_ & _ & _ & _ & _ & _ & _ & _ & _ & _ & H).
  exact (H "bob").
Defined.
End Demo.
