(* ===== verification/MySQLGroups.v ===== *)
(** * The MySQL group store (src/internal/repo/mysql_group.go and
    src/internal/gateway/mysql_group_store.go)

    [repo.MySQLGroupStore], statement by statement with its transactions, and
    the gateway's adapter over it, which is an instance of [GroupStore]; the
    repository's store is the [GroupTable] of the Logic service. *)

From S2P Require Import Prelude Proto Snowflake Process Sql Stores GroupStore LogicClient LogicServer.

(** ** Queries *)

Definition countGroup (id : string) : Select Z :=
  selectCount (fun t => match t_groups t !! id with Some _ => 1 | None => 0 end)%nat.

(** The members of a group with the times they joined. *)
Definition memberRows (id : string) (t : Tables) : list (string * Z) :=
  omap (fun p : (string * string) * Z => if bool_decide (p.1.1 = id) then Some (p.1.2, p.2) else None)
    (map_to_list (t_group_members t)).

Definition countMembers (id : string) : Select Z := selectCount (fun t => length (memberRows id t)).

Definition countMember (id uid : string) : Select Z :=
  selectCount (fun t => match t_group_members t !! (id, uid) with Some _ => 1 | None => 0 end)%nat.

Definition selectMembers (id : string) : Select (string * Z) :=
  mkSelect (memberRows id) (Some snd) None 0.

Definition selectGroup (id : string) : Select GroupRow :=
  selectAll (fun t => match t_groups t !! id with
    | Some g => [mkGroupRow id (gt_name g) (gt_owner_uid g) (gt_created_at g)]
    | None => []
    end).

(** The inner join of the groups and a user's memberships. *)
Definition selectUserGroups (uid : string) : Select GroupRow :=
  mkSelect (fun t => omap (fun p : string * GroupRec =>
      match t_group_members t !! (p.1, uid) with
      | Some _ => Some (mkGroupRow p.1 (gt_name p.2) (gt_owner_uid p.2) (gt_created_at p.2))
      | None => None
      end) (map_to_list (t_groups t)))
    (Some (fun g => - gr_CreatedAt g)) None 0.

Section Repo.
Context {E : Env} {D : Type} {DB : Database D}.

(** Whether the store was given an id function. *)
Context (dsID : bool).

Abbreviation Op := (St (D * Sys)).

Definition wrapped (text e : string) : GroupErr := ErrStore (text +:+ e).

Definition newGroupIDSQL : Op string :=
  if dsID then let! n := NextID in ret ("g_" +:+ itoa n)
  else let! ns := Now in ret ("g_" +:+ itoa ns).

(** The initial members, the owner and empty names left out. *)
Fixpoint insertMembers (id ownerUID : string) (now : Z) (members : list string)
  : Op (GroupErr + unit) :=
  match members with
  | [] => ret (inr tt)
  | uid :: members =>
      if bool_decide (uid = "" \/ uid = ownerUID) then insertMembers id ownerUID now members
      else
        let! r := exec (InsertMember id uid now) in
        match r with
        | inl e => ret (inl (wrapped ("insert member " +:+ uid +:+ ": ") e))
        | inr _ => insertMembers id ownerUID now members
        end
  end.

Definition createBody (id name ownerUID : string) (members : list string) (now : Z)
  : Op (GroupErr + GroupRow) :=
  let! r := exec (InsertGroup id name ownerUID now) in
  match r with
  | inl e => ret (inl (wrapped "insert group: " e))
  | inr _ =>
      let! r := exec (InsertMember id ownerUID now) in
      match r with
      | inl e => ret (inl (wrapped "insert owner member: " e))
      | inr _ =>
          let! r := insertMembers id ownerUID now members in
          match r with
          | inl e => ret (inl e)
          | inr _ => ret (inr (mkGroupRow id name ownerUID now))
          end
      end
  end.

Definition SqlCreateGroup (name ownerUID : string) (members : list string)
  : Op (GroupErr + GroupRow) :=
  let! id := newGroupIDSQL in
  let! now := NowMilli in
  withTx ErrStore (createBody id name ownerUID members now) "commit: ".

(** [AddMember] after its check. *)
Definition addInsert (groupID uid : string) : Op (option GroupErr) :=
  let! now := NowMilli in
  let! r := exec (InsertMember groupID uid now) in
  match r with
  | inl e =>
      if isMySQLDuplicate e then ret (Some ErrAlreadyMember)
      else ret (Some (wrapped "insert member: " e))
  | inr _ => ret None
  end.

Definition SqlAddMember (groupID uid : string) : Op (option GroupErr) :=
  let! exists_ := queryOne (countGroup groupID) in
  match exists_ with
  | inl e => ret (Some (wrapped "check group: " e))
  | inr n =>
      if n =? 0 then ret (Some ErrGroupNotFound)
      else addInsert groupID uid
  end.

Definition removeBody (groupID uid : string) : Op (GroupErr + bool) :=
  let! count := queryOne (countMembers groupID) in
  match count with
  | inl e => ret (inl (wrapped "count members: " e))
  | inr memberCount =>
      let! exists_ := queryOne (countGroup groupID) in
      match exists_ with
      | inl e => ret (inl (wrapped "check group: " e))
      | inr n =>
          if n =? 0 then ret (inl ErrGroupNotFound)
          else
            let! r := exec (DeleteMember groupID uid) in
            match r with
            | inl e => ret (inl (wrapped "delete member: " e))
            | inr affected =>
                if affected =? 0 then ret (inl ErrNotMember)
                else if memberCount <=? 1 then
                  let! r := exec (DeleteGroup groupID) in
                  match r with
                  | inl e => ret (inl (wrapped "delete empty group: " e))
                  | inr _ => ret (inr true)
                  end
                else ret (inr false)
            end
      end
  end.

(** Whether the group was deleted. *)
Definition SqlRemoveMember (groupID uid : string) : Op (GroupErr + bool) :=
  withTx ErrStore (removeBody groupID uid) "commit: ".

Definition SqlGetMembers (groupID : string) : Op (GroupErr + list string) :=
  let! rows := query (selectMembers groupID) in
  match rows with
  | inl e => ret (inl (wrapped "query members: " e))
  | inr [] =>
      let! exists_ := queryOne (countGroup groupID) in
      match exists_ with
      | inl e => ret (inl (wrapped "check group: " e))
      | inr n => ret (if n =? 0 then inl ErrGroupNotFound else inr [])
      end
  | inr rows => ret (inr (map fst rows))
  end.

Definition SqlGetGroup (groupID : string) : Op (GroupErr + GroupRow) :=
  let! row := queryRow (selectGroup groupID) in
  match row with
  | inl e => ret (inl (wrapped "select group: " e))
  | inr None => ret (inl ErrGroupNotFound)
  | inr (Some g) => ret (inr g)
  end.

Definition SqlListGroups (uid : string) : Op (GroupErr + list GroupRow) :=
  let! rows := query (selectUserGroups uid) in
  match rows with
  | inl e => ret (inl (wrapped "query user groups: " e))
  | inr rows => ret (inr rows)
  end.

Definition SqlIsMember (groupID uid : string) : Op bool :=
  let! count := queryOne (countMember groupID uid) in
  ret (match count with inl _ => false | inr n => 0 <? n end).

Definition SqlUpdateName (groupID newName : string) : Op (option GroupErr) :=
  let! r := exec (UpdateGroupName newName groupID) in
  match r with
  | inl e => ret (Some (wrapped "update group name: " e))
  | inr n => ret (if n =? 0 then Some ErrGroupNotFound else None)
  end.

Definition transferBody (groupID fromUID toUID : string) : Op (GroupErr + unit) :=
  let! row := queryRow (selectGroup groupID) in
  match row with
  | inl e => ret (inl (wrapped "select group: " e))
  | inr None => ret (inl ErrGroupNotFound)
  | inr (Some g) =>
      if bool_decide (gr_OwnerUID g <> fromUID) then ret (inl ErrNotOwner)
      else
        let! exists_ := queryOne (countMember groupID toUID) in
        match exists_ with
        | inl e => ret (inl (wrapped "check member: " e))
        | inr n =>
            if n =? 0 then ret (inl ErrNotMember)
            else
              let! r := exec (UpdateGroupOwner toUID groupID) in
              match r with
              | inl e => ret (inl (wrapped "update owner: " e))
              | inr _ => ret (inr tt)
              end
        end
  end.

(** The error of [Commit] is returned as it is. *)
Definition SqlTransferOwnership (groupID fromUID toUID : string) : Op (option GroupErr) :=
  let! r := withTx ErrStore (transferBody groupID fromUID toUID) "" in
  ret (match r with inl e => Some e | inr _ => None end).

Definition SqlGetMembersForGroup (groupID : string) : Op (GroupErr + (GroupRow * list string)) :=
  let! g := SqlGetGroup groupID in
  match g with
  | inl e => ret (inl e)
  | inr g =>
      let! members := SqlGetMembers groupID in
      ret (match members with inl e => inl e | inr l => inr (g, l) end)
  end.

(** ** The gateway's adapter *)

(** The sentinel errors of the two packages correspond; others pass through. *)
Definition groupFromRow (row : GroupRow) (members : gset string) : Group :=
  mkGroup (gr_ID row) (gr_Name row) (gr_OwnerUID row) members (gr_CreatedAt row).

Definition AdapterCreate (name ownerUID : string) (members : list string) : Op (GroupErr + Group) :=
  let! r := SqlCreateGroup name ownerUID members in
  ret (match r with
       | inl e => inl e
       | inr row => inr (groupFromRow row (foldl (fun m uid =>
           if bool_decide (uid <> "" /\ uid <> ownerUID) then {[uid]} ∪ m else m)
           {[ownerUID]} members))
       end).

Definition AdapterRemoveMember (groupID uid : string) : Op (option GroupErr) :=
  let! r := SqlRemoveMember groupID uid in
  ret (match r with inl e => Some e | inr _ => None end).

(** The groups of the rows with their members; the first error ends it. *)
Fixpoint fillGroups (rows : list GroupRow) : Op (GroupErr + list Group) :=
  match rows with
  | [] => ret (inr [])
  | row :: rows =>
      let! members := SqlGetMembers (gr_ID row) in
      match members with
      | inl e => ret (inl e)
      | inr l =>
          let! rest := fillGroups rows in
          ret (match rest with
               | inl e => inl e
               | inr gs => inr (groupFromRow row (list_to_set l) :: gs)
               end)
      end
  end.

Definition AdapterGetUserGroups (uid : string) : Op (GroupErr + list Group) :=
  let! rows := SqlListGroups uid in
  match rows with
  | inl e => ret (inl e)
  | inr rows => fillGroups rows
  end.

Definition AdapterGet (groupID : string) : Op (GroupErr + Group) :=
  let! r := SqlGetMembersForGroup groupID in
  ret (match r with
       | inl e => inl e
       | inr (row, members) => inr (groupFromRow row (list_to_set members))
       end).

End Repo.

(** [NewMySQLGroupStore] of the gateway gives the snowflake generator. *)
#[export] Instance MySQL_GroupStore {E : Env} {D} {DB : Database D} : GroupStore D :=
  mkGroupStore D (AdapterCreate true) SqlAddMember AdapterRemoveMember SqlGetMembers SqlIsMember
    AdapterGetUserGroups AdapterGet SqlUpdateName SqlTransferOwnership.

(** The errors cross gRPC as their text. *)
Definition textErr {A} (r : GroupErr + A) : string + A :=
  match r with inl e => inl (GroupErr_text e) | inr a => inr a end.

#[export] Instance MySQL_GroupTable {E : Env} {D} {DB : Database D} : GroupTable D :=
  mkGroupTable D
    (fun name owner members => let! r := SqlCreateGroup true name owner members in ret (textErr r))
    (fun gid uid => let! r := SqlAddMember gid uid in ret (option_map GroupErr_text r))
    (fun gid uid => let! r := SqlRemoveMember gid uid in ret (textErr r))
    (fun gid => let! r := SqlGetGroup gid in ret (textErr r))
    (fun gid => let! r := SqlGetMembers gid in ret (textErr r))
    (fun uid => let! r := SqlListGroups uid in ret (textErr r)).
