(* ===== verification/MySQLGroupFacts.v ===== *)
(** * The MySQL group store against the abstract map of groups

    The abstraction of the tables to a map of groups, the consistency of the two
    tables, and the refinement over histories: on a database whose statements and
    transactions may fail, every operation has the effect its specification gives
    or none, and reports which unless the connection failed. *)

From S2P Require Import Prelude Proto Snowflake Process Sql Stores GroupStore LogicClient.
From S2P Require Import LogicServer MySQLGroups.

(** ** The abstraction *)

Definition membersIn (t : Tables) (gid : string) : gset string :=
  list_to_set (memberRows gid t).*1.

Definition groupIn (t : Tables) (gid : string) (g : GroupRec) : Group :=
  mkGroup gid (gt_name g) (gt_owner_uid g) (membersIn t gid) (gt_created_at g).

Definition groupsIn (t : Tables) : gmap string Group :=
  map_imap (fun gid g => Some (groupIn t gid g)) (t_groups t).

(** A membership is of a group that exists, and a group has a member. *)
Definition consistent (t : Tables) : Prop :=
  (forall gid uid, is_Some (t_group_members t !! (gid, uid)) -> is_Some (t_groups t !! gid)) /\
  (forall gid, is_Some (t_groups t !! gid) -> exists uid, is_Some (t_group_members t !! (gid, uid))).

Lemma elem_of_memberRows t gid uid at_ :
  (uid, at_) ∈ memberRows gid t <-> t_group_members t !! (gid, uid) = Some at_.
Proof.
  unfold memberRows. rewrite list_elem_of_omap. split.
  - intros ([[g u] a] & Hin & Hs). apply elem_of_map_to_list in Hin. cbn in Hs.
    case_bool_decide; by simplify_eq.
  - intros H. exists ((gid, uid), at_). rewrite elem_of_map_to_list. split; [done|]. cbn.
    by rewrite bool_decide_true.
Qed.

Lemma elem_of_membersIn t gid uid :
  uid ∈ membersIn t gid <-> is_Some (t_group_members t !! (gid, uid)).
Proof.
  unfold membersIn. rewrite elem_of_list_to_set, list_elem_of_fmap. split.
  - intros ([u a] & -> & H). apply elem_of_memberRows in H. by eexists.
  - intros [a H]. exists (uid, a). by rewrite elem_of_memberRows.
Qed.

Lemma memberRows_NoDup t gid : NoDup (memberRows gid t).*1.
Proof.
  unfold memberRows. pose proof (NoDup_map_to_list (t_group_members t)) as Hn.
  assert (Hk : NoDup (map_to_list (t_group_members t)).*1) by apply NoDup_fst_map_to_list.
  clear Hn. induction (map_to_list (t_group_members t)) as [|[[g u] a] l IH]; [constructor|].
  cbn in Hk |- *. apply NoDup_cons in Hk as [Hnin Hk]. case_bool_decide; cbn; [|by apply IH].
  subst g. constructor; [|by apply IH]. rewrite list_elem_of_fmap. intros ([u' a'] & -> & Hin).
  apply list_elem_of_omap in Hin as ([[g2 u2] a2] & Hin & Hs). cbn in Hs.
  case_bool_decide; simplify_eq. apply Hnin, list_elem_of_fmap. by exists ((gid, u'), a').
Qed.

Lemma size_membersIn t gid : size (membersIn t gid) = length (memberRows gid t).
Proof.
  unfold membersIn. rewrite size_list_to_set by apply memberRows_NoDup. by rewrite length_fmap.
Qed.

Lemma lookup_groupsIn t gid : groupsIn t !! gid = groupIn t gid <$> t_groups t !! gid.
Proof. unfold groupsIn. rewrite map_lookup_imap. by destruct (t_groups t !! gid). Qed.

Lemma consistent_empty t gid : consistent t -> t_groups t !! gid = None -> membersIn t gid = ∅.
Proof.
  intros [Hc _] Hn. apply set_eq. intros u. rewrite elem_of_membersIn.
  split; [|set_solver]. intros H. destruct (Hc gid u H). congruence.
Qed.

Lemma groupIn_ext t t' gid g :
  (forall u, is_Some (t_group_members t !! (gid, u)) <-> is_Some (t_group_members t' !! (gid, u))) ->
  groupIn t gid g = groupIn t' gid g.
Proof.
  intros H. unfold groupIn. f_equal. apply set_eq. intros u. rewrite !elem_of_membersIn. apply H.
Qed.

(** A change confined to one group. *)
Lemma groupsIn_insert t t' gid g G :
  t_groups t' = <[gid := g]> (t_groups t) ->
  (forall gid' u, gid' <> gid ->
     is_Some (t_group_members t !! (gid', u)) <-> is_Some (t_group_members t' !! (gid', u))) ->
  groupIn t' gid g = G -> groupsIn t' = <[gid := G]> (groupsIn t).
Proof.
  intros Hg Hm HG. apply map_eq. intros gid'. rewrite lookup_groupsIn, Hg.
  destruct (decide (gid' = gid)) as [->|Hne].
  - rewrite !lookup_insert_eq. cbn. by rewrite HG.
  - rewrite !lookup_insert_ne, lookup_groupsIn by done. destruct (t_groups t !! gid'); [|done].
    cbn. f_equal. symmetry. apply groupIn_ext. intros u. by apply Hm.
Qed.

Lemma groupsIn_delete t t' gid :
  t_groups t' = delete gid (t_groups t) ->
  (forall gid' u, gid' <> gid ->
     is_Some (t_group_members t !! (gid', u)) <-> is_Some (t_group_members t' !! (gid', u))) ->
  groupsIn t' = delete gid (groupsIn t).
Proof.
  intros Hg Hm. apply map_eq. intros gid'. rewrite lookup_groupsIn, Hg.
  destruct (decide (gid' = gid)) as [->|Hne]; [by rewrite !lookup_delete_eq|].
  rewrite !lookup_delete_ne, lookup_groupsIn by done. destruct (t_groups t !! gid'); [|done].
  cbn. f_equal. symmetry. apply groupIn_ext. intros u. by apply Hm.
Qed.

(** ** The specification of a history *)

Definition op_spec (op : GroupOp) (M : gmap string Group) : option GroupErr * gmap string Group :=
  match op with
  | OpCreate _ _ _ => (None, M)
  | OpAdd gid uid => add_spec gid uid M
  | OpRemove gid uid => remove_spec gid uid M
  | OpRename gid name => rename_spec gid name M
  | OpTransfer gid a b => transfer_spec gid a b M
  end.

(** The creation of a group under a key that is free. *)
Definition created name owner members (M M' : gmap string Group) : Prop :=
  exists gr, M !! ID gr = None /\ Name gr = name /\ OwnerUID gr = owner /\
    Members gr = initial_members owner members /\ M' = <[ID gr := gr]> M.

Definition whole (op : GroupOp) (M M' : gmap string Group) : Prop :=
  match op with
  | OpCreate name owner members => created name owner members M M'
  | _ => op_spec op M = (None, M')
  end.

(** An operation reports [r] and leaves [M']: a failure of the connection leaves
    the effect whole or absent; renaming to the name the group has reports that
    there is no such group. *)
Inductive group_step (op : GroupOp) (M : gmap string Group) : option GroupErr -> gmap string Group -> Prop :=
| step_ok M' : whole op M M' -> group_step op M None M'
| step_refused e : op_spec op M = (Some e, M) -> group_step op M (Some e) M
| step_fault text M' : M' = M \/ whole op M M' -> group_step op M (Some (ErrStore text)) M'
| step_same_name gid g : op = OpRename gid (Name g) -> M !! gid = Some g ->
    group_step op M (Some ErrGroupNotFound) M.

Inductive group_trace : gmap string Group -> list (GroupOp * option GroupErr) -> gmap string Group -> Prop :=
| trace_nil M : group_trace M [] M
| trace_cons op r l M M' M'' : group_step op M r M' -> group_trace M' l M'' ->
    group_trace M ((op, r) :: l) M''.

Section Facts.
Context {E : Env} {D : Type} {DB : Database D} {DL : DatabaseLaws D}.

Abbreviation Op := (St (D * Sys)).

Definition err {A} (r : GroupErr + A) : option GroupErr :=
  match r with inl e => Some e | inr _ => None end.

(** What an operation does to the tables. *)
Definition sql_group (op : GroupOp) : Op (option GroupErr) :=
  match op with
  | OpCreate name owner members => let! r := AdapterCreate true name owner members in ret (err r)
  | OpAdd gid uid => SqlAddMember gid uid
  | OpRemove gid uid => AdapterRemoveMember gid uid
  | OpRename gid name => SqlUpdateName gid name
  | OpTransfer gid a b => SqlTransferOwnership gid a b
  end.

Fixpoint sql_groups (ops : list GroupOp) : Op (list (option GroupErr)) :=
  match ops with
  | [] => ret []
  | op :: ops => let! r := sql_group op in let! rs := sql_groups ops in ret (r :: rs)
  end.

Definition fits (op : GroupOp) (t : Tables) (r : option GroupErr) (t' : Tables) : Prop :=
  group_step op (groupsIn t) r (groupsIn t') /\ consistent t'.

Definition takes (op : GroupOp) (t t' : Tables) : Prop :=
  whole op (groupsIn t) (groupsIn t') /\ consistent t'.

Lemma fits_fault op t text : consistent t -> fits op t (Some (ErrStore text)) t.
Proof. intros Hc. split; [|done]. apply step_fault. by left. Qed.

Lemma fits_ok op t t' : takes op t t' -> fits op t None t'.
Proof. intros [Hw Hc]. split; [|done]. by apply step_ok. Qed.

Lemma fits_lost op t t' text : takes op t t' -> fits op t (Some (ErrStore text)) t'.
Proof. intros [Hw Hc]. split; [|done]. apply step_fault. by right. Qed.

Lemma fits_refused op t e :
  consistent t -> op_spec op (groupsIn t) = (Some e, groupsIn t) -> fits op t (Some e) t.
Proof. intros Hc Hs. split; [|done]. by apply step_refused. Qed.

(** A single statement after the guards of the operation. *)
Lemma fits_maybe op st t t' text :
  consistent t -> (forall n t', run_stmt st t = inr (n, t') -> takes op t t') ->
  maybe st t t' -> fits op t (Some (ErrStore text)) t'.
Proof. intros Hc Hw [->|[n Hn]]; [by apply fits_fault|by eapply fits_lost, Hw]. Qed.

(** A transaction whose body reports the specification's errors. *)
Lemma withTx_fits {A} op (body : Op (GroupErr + A)) text t t0 :
  consistent t ->
  triple (at_ t t) body (fun r p => saved p.1 = t /\
    match r with inr _ => takes op t (tables p.1) | inl e => fits op t (Some e) t end) ->
  triple (at_ t t0) (withTx ErrStore body text) (fun r p => fits op t (err r) (tables p.1)).
Proof.
  intros Hc Hb. eapply triple_conseq;
    [apply (withTx_triple ErrStore body text t (fun _ => takes op t) (fun e => fits op t (Some e) t) t0 Hb)
    |done|].
  intros [e|a] p; cbn; [|apply fits_ok].
  intros [[HF ->]|([txt ->] & [->|[_ Hw]])]; [done|by apply fits_fault|by apply fits_lost].
Qed.

(** ** The statements *)

Lemma insert_takes gid uid now n t t' :
  consistent t -> is_Some (t_groups t !! gid) ->
  run_stmt (InsertMember gid uid now) t = inr (n, t') -> takes (OpAdd gid uid) t t'.
Proof.
  intros [Hc1 Hc2] [g Hg]. cbn. intros H. destruct (insertRow _ _ _) as [|r] eqn:Hr; [done|].
  apply insertRow_inr in Hr as [Hn ->]. unfold tried, affected in H. injection H as _ <-.
  split.
  - cbn. unfold add_spec. rewrite lookup_groupsIn, Hg. cbn.
    rewrite bool_decide_false by (rewrite elem_of_membersIn, Hn; by intros []). f_equal. symmetry.
    apply (groupsIn_insert t _ gid g).
    + cbn. symmetry. by apply insert_id.
    + intros gid' u Hne. cbn. by rewrite lookup_insert_ne by congruence.
    + unfold groupIn, set_Members. cbn. f_equal. apply set_eq. intros u.
      rewrite elem_of_union, elem_of_singleton, !elem_of_membersIn. cbn.
      destruct (decide (u = uid)) as [->|Hu]; [rewrite lookup_insert_eq; naive_solver|].
      rewrite lookup_insert_ne by congruence. naive_solver.
  - split; cbn.
    + intros gid' u. destruct (decide (gid' = gid)) as [->|Hne]; [by rewrite Hg|].
      rewrite lookup_insert_ne by congruence. apply Hc1.
    + intros gid' H'. destruct (Hc2 gid' H') as [u Hu]. exists u.
      destruct (decide ((gid, uid) = (gid', u))) as [<-|Hne]; [by rewrite lookup_insert_eq|].
      by rewrite lookup_insert_ne.
Qed.

Lemma SqlAddMember_fits gid uid t t0 :
  consistent t ->
  triple (at_ t t0) (SqlAddMember gid uid) (fun r p => fits (OpAdd gid uid) t r (tables p.1)).
Proof.
  intros Hc. unfold SqlAddMember. apply count_bind.
  { intros e. apply ret_tables. by apply fits_fault. }
  destruct (t_groups t !! gid) as [g|] eqn:Hg; cbn [Z.of_nat Z.eqb].
  2:{ apply ret_tables, fits_refused; [done|]. cbn. unfold add_spec. by rewrite lookup_groupsIn, Hg. }
  unfold addInsert. apply NowMilli_bind. intros now.
  assert (Hw : forall n t', run_stmt (InsertMember gid uid now) t = inr (n, t') ->
    takes (OpAdd gid uid) t t') by (intros n t'; apply insert_takes; [done|by eexists]).
  apply exec_bind.
  - intros e t' Hm Hd. destruct (isMySQLDuplicate e).
    + specialize (Hd eq_refl). apply ret_tables.
      destruct Hm as [->|[n Hm]]; [|congruence]. apply fits_refused; [done|].
      cbn in Hd |- *. unfold insertRow in Hd.
      destruct (t_group_members t !! (gid, uid)) eqn:Hl; [|done].
      unfold add_spec. rewrite lookup_groupsIn, Hg. cbn.
      by rewrite bool_decide_true by by apply elem_of_membersIn.
    + apply ret_tables. by eapply fits_maybe.
  - intros n t' Hr. apply ret_tables, fits_ok. by eapply Hw.
Qed.

Lemma update_group gid f n t t' :
  consistent t -> affected set_groups t (updateRow gid (fun _ => true) f (t_groups t)) = inr (n, t') :> (StmtFault + _) ->
  match t_groups t !! gid with
  | None => n = 0 /\ t' = t
  | Some g => groupsIn t' = <[gid := groupIn t gid (f g)]> (groupsIn t) /\ consistent t' /\
      (n =? 0 = true -> f g = g /\ t' = t)
  end.
Proof.
  intros Hc. unfold affected, updateRow.
  assert (Hid : set_groups (t_groups t) t = t) by by destruct t.
  destruct (t_groups t !! gid) as [g|] eqn:Hg; cbn; [|rewrite Hid; by intros [= <- <-]].
  assert (Hin : forall t', t_groups t' = <[gid := f g]> (t_groups t) ->
    t_group_members t' = t_group_members t -> groupsIn t' = <[gid := groupIn t gid (f g)]> (groupsIn t)).
  { intros t1 H1 H2. apply (groupsIn_insert t t1 gid (f g)); [done|by rewrite H2|].
    apply groupIn_ext. intros u. by rewrite H2. }
  case_bool_decide as Hf; cbn; intros [= <- <-].
  - rewrite Hid. split_and!; [|done|done]. apply Hin; [|done]. rewrite Hf. symmetry. by apply insert_id.
  - split_and!; [by apply Hin| |done]. destruct Hc as [Hc1 Hc2].
    assert (Hsome : forall gid', is_Some (<[gid := f g]> (t_groups t) !! gid') <-> is_Some (t_groups t !! gid')).
    { intros gid'. destruct (decide (gid' = gid)) as [->|Hne]; [by rewrite lookup_insert_eq, Hg|].
      by rewrite lookup_insert_ne. }
    split; cbn; intros gid'; [intros u|]; rewrite Hsome; [apply Hc1|apply Hc2].
Qed.

Lemma rename_takes gid name n t t' :
  consistent t -> run_stmt (UpdateGroupName name gid) t = inr (n, t') ->
  if n =? 0 then fits (OpRename gid name) t (Some ErrGroupNotFound) t' /\ t' = t
  else takes (OpRename gid name) t t'.
Proof.
  intros Hc Hr. apply update_group in Hr; [|done]. destruct (t_groups t !! gid) as [g|] eqn:Hg.
  - destruct Hr as (Hi & Hc' & Hz). destruct (n =? 0).
    + destruct (Hz eq_refl) as [Hf ->]. split; [|done]. split; [|done].
      apply (step_same_name _ _ gid (groupIn t gid g)).
      * cbn. f_equal. by rewrite <- Hf at 1.
      * by rewrite lookup_groupsIn, Hg.
    + split; [|done]. cbn. unfold rename_spec. rewrite lookup_groupsIn, Hg. cbn. by rewrite Hi.
  - destruct Hr as [-> ->]. split; [|done]. apply fits_refused; [done|].
    cbn. unfold rename_spec. by rewrite lookup_groupsIn, Hg.
Qed.

Lemma SqlUpdateName_fits gid name t t0 :
  consistent t ->
  triple (at_ t t0) (SqlUpdateName gid name) (fun r p => fits (OpRename gid name) t r (tables p.1)).
Proof.
  intros Hc. unfold SqlUpdateName. apply exec_bind.
  - intros e t' Hm _. apply ret_tables. destruct Hm as [->|[n Hn]]; [by apply fits_fault|].
    apply rename_takes in Hn; [|done]. destruct (n =? 0); [|by apply fits_lost].
    destruct Hn as [_ ->]. by apply fits_fault.
  - intros n t' Hn. apply rename_takes in Hn; [|done]. apply ret_tables.
    destruct (n =? 0); [by destruct Hn|by apply fits_ok].
Qed.

Lemma head_selectGroup gid t l :
  answers (selectGroup gid) t l ->
  head l = (fun g => mkGroupRow gid (gt_name g) (gt_owner_uid g) (gt_created_at g)) <$> t_groups t !! gid.
Proof.
  intros Hl. apply answers_all in Hl. destruct (t_groups t !! gid).
  - symmetry in Hl. apply Permutation_singleton_l in Hl. by subst l.
  - symmetry in Hl. apply Permutation_nil_l in Hl. by subst l.
Qed.

Lemma SqlTransferOwnership_fits gid a b t t0 :
  consistent t ->
  triple (at_ t t0) (SqlTransferOwnership gid a b)
    (fun r p => fits (OpTransfer gid a b) t r (tables p.1)).
Proof.
  intros Hc. unfold SqlTransferOwnership.
  eapply triple_seq; [apply withTx_fits; [done|]|by intros [] p].
  assert (Hf : forall text : string, fits (OpTransfer gid a b) t (Some (ErrStore text)) t)
    by by intros; apply fits_fault.
  unfold transferBody. apply queryRow_bind; [intros e; apply ret_at; intros p [_ Hp]; split; [exact Hp|apply Hf]|].
  intros l Hl. rewrite (head_selectGroup gid t l Hl).
  assert (Hs : op_spec (OpTransfer gid a b) (groupsIn t) = transfer_spec gid a b (groupsIn t)) by done.
  unfold transfer_spec in Hs. rewrite lookup_groupsIn in Hs.
  destruct (t_groups t !! gid) as [g|] eqn:Hg; cbn in Hs |- *.
  2:{ apply ret_at. intros p [_ ?]. split; [done|]. by apply fits_refused. }
  destruct (decide (gt_owner_uid g = a)) as [Ho|Ho].
  2:{ rewrite bool_decide_true by done. rewrite bool_decide_false in Hs by done.
      apply ret_at. intros p [_ ?]. split; [done|]. by apply fits_refused. }
  rewrite bool_decide_false by tauto. rewrite bool_decide_true in Hs by done.
  apply count_bind; [intros e; apply ret_at; intros p [_ Hp]; split; [exact Hp|apply Hf]|].
  destruct (t_group_members t !! (gid, b)) as [jt|] eqn:Hm; cbn.
  2:{ rewrite bool_decide_false in Hs by (rewrite elem_of_membersIn, Hm; by intros []).
      apply ret_at. intros p [_ ?]. split; [done|]. by apply fits_refused. }
  rewrite bool_decide_true in Hs by (apply elem_of_membersIn; by eexists).
  apply exec_bind; [intros e t1 _ _; apply ret_at; intros p [_ Hp]; split; [exact Hp|apply Hf]|].
  intros n t' Hr. apply ret_at. intros p [-> ?]. split; [done|].
  apply update_group in Hr; [|done]. rewrite Hg in Hr. destruct Hr as (Hi & Hc' & _).
  split; [|done]. cbn. by rewrite Hs, Hi.
Qed.

(** The two ways the tables are left when a member is removed. *)
Lemma members_deleted gid uid u t gid' :
  is_Some (t_group_members (set_group_members (delete (gid, uid) (t_group_members t)) t) !! (gid', u)) <->
  is_Some (t_group_members t !! (gid', u)) /\ (gid', u) <> (gid, uid).
Proof.
  cbn. destruct (decide ((gid', u) = (gid, uid))) as [->|Hne].
  - rewrite lookup_delete_eq. split; [by intros []|tauto].
  - rewrite lookup_delete_ne by done. tauto.
Qed.

Lemma remove_takes_keep gid uid g t :
  consistent t -> t_groups t !! gid = Some g -> uid ∈ membersIn t gid ->
  membersIn t gid ∖ {[uid]} <> ∅ ->
  takes (OpRemove gid uid) t (set_group_members (delete (gid, uid) (t_group_members t)) t).
Proof.
  intros [Hc1 Hc2] Hg Hu Hne. split.
  - cbn. unfold remove_spec. rewrite lookup_groupsIn, Hg. cbn.
    rewrite bool_decide_true, bool_decide_false by done. f_equal. symmetry.
    apply (groupsIn_insert t _ gid g).
    + cbn. symmetry. by apply insert_id.
    + intros gid' u Hg'. rewrite members_deleted. naive_solver.
    + unfold groupIn, set_Members. cbn. f_equal. apply set_eq. intros u.
      rewrite elem_of_difference, elem_of_singleton, !elem_of_membersIn, members_deleted. naive_solver.
  - split.
    + intros gid' u [H _]%members_deleted. by apply (Hc1 gid' u).
    + cbn [t_groups set_group_members]. intros gid' H.
      destruct (decide (gid' = gid)) as [->|Hg'].
      * apply set_choose_L in Hne as [u Hin]. exists u. rewrite members_deleted.
        rewrite elem_of_difference, elem_of_singleton, elem_of_membersIn in Hin. naive_solver.
      * destruct (Hc2 gid' H) as [u Hin]. exists u. rewrite members_deleted. naive_solver.
Qed.

Lemma remove_takes_last gid uid g t :
  consistent t -> t_groups t !! gid = Some g -> uid ∈ membersIn t gid ->
  membersIn t gid ∖ {[uid]} = ∅ ->
  takes (OpRemove gid uid) t
    (set_groups (delete gid (t_groups t)) (set_group_members (delete (gid, uid) (t_group_members t)) t)).
Proof.
  intros [Hc1 Hc2] Hg Hu He. set (t1 := set_group_members _ t).
  assert (Hm : forall gid' u, is_Some (t_group_members (set_groups (delete gid (t_groups t)) t1) !! (gid', u))
    <-> is_Some (t_group_members t !! (gid', u)) /\ gid' <> gid).
  { intros gid' u. change (t_group_members (set_groups _ t1)) with (t_group_members t1).
    unfold t1. rewrite members_deleted. split; [|naive_solver]. intros [H Hn]. split; [done|].
    intros ->. assert (u ∈ membersIn t gid ∖ {[uid]}); [|set_solver].
    rewrite elem_of_difference, elem_of_singleton, elem_of_membersIn. naive_solver. }
  split.
  - cbn [whole op_spec]. unfold remove_spec. rewrite lookup_groupsIn, Hg. cbn [fmap option_fmap option_map].
    cbn [groupIn Members]. rewrite !bool_decide_true by done. f_equal. symmetry.
    apply groupsIn_delete; [done|]. intros gid' u Hne. rewrite Hm. tauto.
  - split.
    + intros gid' u [H Hne]%Hm. cbn. rewrite lookup_delete_ne by done. by apply (Hc1 gid' u).
    + intros gid'. cbn [t_groups set_groups]. destruct (decide (gid' = gid)) as [->|Hne].
      * rewrite lookup_delete_eq. by intros [].
      * rewrite lookup_delete_ne by done. intros H. destruct (Hc2 gid' H) as [u Hin].
        exists u. by apply Hm.
Qed.

Lemma membersIn_last t gid uid :
  uid ∈ membersIn t gid ->
  if Z.of_nat (length (memberRows gid t)) <=? 1 then membersIn t gid ∖ {[uid]} = ∅
  else membersIn t gid ∖ {[uid]} <> ∅.
Proof.
  intros Hu. assert (Hs : size (membersIn t gid ∖ {[uid]}) = (length (memberRows gid t) - 1)%nat).
  { rewrite size_difference by set_solver. by rewrite size_singleton, size_membersIn. }
  destruct (Z.leb_spec (Z.of_nat (length (memberRows gid t))) 1).
  - apply leibniz_equiv, size_empty_inv. lia.
  - intros He. rewrite He, size_empty in Hs. lia.
Qed.

Lemma SqlRemoveMember_fits gid uid t t0 :
  consistent t ->
  triple (at_ t t0) (AdapterRemoveMember gid uid)
    (fun r p => fits (OpRemove gid uid) t r (tables p.1)).
Proof.
  intros Hc. unfold AdapterRemoveMember, SqlRemoveMember.
  eapply triple_seq; [apply withTx_fits; [done|]|by intros [] p].
  assert (Hf : forall text : string, fits (OpRemove gid uid) t (Some (ErrStore text)) t)
    by by intros; apply fits_fault.
  unfold removeBody. apply count_bind; [intros e; apply ret_at; intros p [_ Hp]; split; [exact Hp|apply Hf]|].
  apply count_bind; [intros e; apply ret_at; intros p [_ Hp]; split; [exact Hp|apply Hf]|].
  assert (Hs : op_spec (OpRemove gid uid) (groupsIn t) = remove_spec gid uid (groupsIn t)) by done.
  unfold remove_spec in Hs. rewrite lookup_groupsIn in Hs.
  destruct (t_groups t !! gid) as [g|] eqn:Hg; cbn in Hs |- *.
  2:{ apply ret_at. intros p [_ Hp]. split; [done|]. by apply fits_refused. }
  apply exec_bind; [intros e t1 _ _; apply ret_at; intros p [_ Hp]; split; [exact Hp|apply Hf]|].
  intros n t1 [= <- <-]. unfold deleteRow.
  destruct (t_group_members t !! (gid, uid)) as [jt|] eqn:Hm; cbn [fst snd Z.eqb].
  2:{ apply ret_at. intros p [_ Hp]. split; [done|]. apply fits_refused; [done|].
      rewrite bool_decide_false in Hs; [done|]. rewrite elem_of_membersIn, Hm. by intros []. }
  assert (Hu : uid ∈ membersIn t gid) by (apply elem_of_membersIn; by eexists).
  pose proof (membersIn_last t gid uid Hu) as Hl. destruct (_ <=? 1).
  - apply exec_bind; [intros e t1 _ _; apply ret_at; intros p [_ Hp]; split; [exact Hp|apply Hf]|].
    intros n t1 Hr. apply ret_at. intros p [-> Hp]. split; [done|].
    cbn in Hr. unfold deleteRow in Hr. cbn in Hr. rewrite Hg in Hr. injection Hr as _ <-.
    by apply (remove_takes_last gid uid g).
  - apply ret_at. intros p [-> Hp]. split; [done|]. by apply (remove_takes_keep gid uid g).
Qed.

(** ** Creation *)

Lemma insert_is_Some {K A} `{Countable K} (m : gmap K A) k a k' :
  is_Some (<[k := a]> m !! k') <-> k' = k \/ is_Some (m !! k').
Proof.
  destruct (decide (k' = k)) as [->|Hne]; [rewrite lookup_insert_eq; naive_solver|].
  rewrite lookup_insert_ne by done. naive_solver.
Qed.

(** The memberships after the insertions: [m] and those of the list. *)
Definition extended (id owner : string) (members : list string) (m m' : gmap (string * string) Z) : Prop :=
  forall gid u, is_Some (m' !! (gid, u)) <->
    is_Some (m !! (gid, u)) \/ gid = id /\ u ∈ members /\ u <> "" /\ u <> owner.

Lemma insertMembers_triple id owner now members t t0 :
  triple (at_ t t0) (insertMembers id owner now members) (fun r p => saved p.1 = t0 /\
    match r with
    | inr _ => exists m', tables p.1 = set_group_members m' t /\
        extended id owner members (t_group_members t) m'
    | inl e => exists text, e = ErrStore text
    end).
Proof.
  revert t. induction members as [|uid members IH]; intros t; cbn [insertMembers].
  - apply ret_at. intros p [<- Hp]. split; [done|]. exists (t_group_members (tables p.1)).
    split; [by destruct (tables p.1)|]. intros gid u. set_solver.
  - case_bool_decide as Hskip.
    + eapply triple_conseq; [apply (IH t)|done|]. intros r p [Hp Hr]. split; [done|].
      destruct r as [e|[]]; [done|]. destruct Hr as (m' & Hm & Hx). exists m'. split; [done|].
      intros gid u. rewrite (Hx gid u), elem_of_cons. naive_solver.
    + apply exec_bind; [intros e t1 _ _; apply ret_at; intros p [_ Hp]; split; [exact Hp|by eexists]|].
      intros n t1 Hr. cbn in Hr. destruct (insertRow _ _ _) as [|r] eqn:Hi; [done|].
      apply insertRow_inr in Hi as [_ ->]. injection Hr as _ <-.
      eapply triple_conseq; [apply IH|done|]. intros r p [Hp Hr]. split; [done|].
      destruct r as [e|[]]; [done|]. destruct Hr as (m' & Hm & Hx). exists m'. split; [done|].
      intros gid u. rewrite (Hx gid u). cbn. rewrite insert_is_Some, elem_of_cons. naive_solver.
Qed.

Lemma create_takes id name owner members now m' t :
  consistent t -> t_groups t !! id = None ->
  extended id owner members (<[(id, owner) := now]> (t_group_members t)) m' ->
  takes (OpCreate name owner members) t
    (set_group_members m' (set_groups (<[id := mkGroupRec name owner now]> (t_groups t)) t)).
Proof.
  intros [Hc1 Hc2] Hg Hx.
  assert (Hnone : forall u, ~ is_Some (t_group_members t !! (id, u))).
  { intros u H. destruct (Hc1 id u H). congruence. }
  assert (Hm : forall gid u, is_Some (m' !! (gid, u)) <-> is_Some (t_group_members t !! (gid, u)) \/
    gid = id /\ u ∈ initial_members owner members).
  { intros gid u. rewrite (Hx gid u), insert_is_Some. unfold initial_members.
    rewrite elem_of_union, elem_of_singleton, elem_of_list_to_set, list_elem_of_filter. naive_solver. }
  split.
  - exists (mkGroup id name owner (initial_members owner members) now). split_and!; try done.
    + cbn. by rewrite lookup_groupsIn, Hg.
    + apply (groupsIn_insert t _ id (mkGroupRec name owner now)); [done| |].
      * intros gid' u Hne. cbn. rewrite Hm. naive_solver.
      * unfold groupIn. cbn. f_equal. apply set_eq. intros u. rewrite elem_of_membersIn. cbn.
        rewrite Hm. naive_solver.
  - split; cbn.
    + intros gid u [H|[-> _]]%Hm; rewrite insert_is_Some; [right; by apply (Hc1 gid u)|by left].
    + intros gid [->|H]%insert_is_Some.
      * exists owner. apply Hm. right. split; [done|]. unfold initial_members. set_solver.
      * destruct (Hc2 gid H) as [u Hu]. exists u. apply Hm. by left.
Qed.

Lemma newGroupIDSQL_triple (b : bool) t t0 : triple (at_ t t0) (newGroupIDSQL b) (fun _ => at_ t t0).
Proof.
  intros [d s] H. unfold newGroupIDSQL. destruct b; rewrite bind_run; cbn; [|exact H].
  unfold NextID. by destruct (Next E (sys_snow s) (sys_tick s)) as [[id g] k].
Qed.

Lemma SqlCreateGroup_fits (b : bool) name owner members t t0 :
  consistent t ->
  triple (at_ t t0) (SqlCreateGroup b name owner members)
    (fun r p => fits (OpCreate name owner members) t (err r) (tables p.1)).
Proof.
  intros Hc. unfold SqlCreateGroup. eapply triple_bind; [apply newGroupIDSQL_triple|]. intros id.
  apply NowMilli_bind. intros now. apply withTx_fits; [done|].
  assert (Hf : forall text : string, fits (OpCreate name owner members) t (Some (ErrStore text)) t)
    by by intros; apply fits_fault.
  unfold createBody.
  apply exec_bind; [intros e t1 _ _; apply ret_at; intros p [_ Hp]; split; [exact Hp|apply Hf]|].
  intros n t1 H1. cbn in H1. destruct (insertRow _ _ (t_groups t)) as [|r1] eqn:Hi; [done|].
  apply insertRow_inr in Hi as [Hg ->]. injection H1 as _ <-.
  apply exec_bind; [intros e t1 _ _; apply ret_at; intros p [_ Hp]; split; [exact Hp|apply Hf]|].
  intros n2 t2 H2. cbn in H2. destruct (insertRow _ _ _) as [|r2] eqn:Hi; [done|].
  apply insertRow_inr in Hi as [_ ->]. injection H2 as _ <-. cbn [fst snd].
  eapply triple_seq; [apply insertMembers_triple|]. intros [e|[]] p [Hp Hr].
  - destruct Hr as [text ->]. split; [done|]. apply Hf.
  - destruct Hr as (m' & Hm & Hx). split; [done|]. cbn. rewrite Hm.
    by apply (create_takes id name owner members now m').
Qed.

(** ** Histories *)

Lemma sql_group_fits op t t0 :
  consistent t -> triple (at_ t t0) (sql_group op) (fun r p => fits op t r (tables p.1)).
Proof.
  intros Hc. destruct op as [name owner members|gid uid|gid uid|gid name|gid a b]; cbn [sql_group].
  - unfold AdapterCreate. eapply triple_seq.
    + eapply triple_seq; [by apply SqlCreateGroup_fits|]. intros r p Hr.
      instantiate (1 := fun r p => fits _ t (err r) (tables p.1)). by destruct r.
    + done.
  - by apply SqlAddMember_fits.
  - by apply SqlRemoveMember_fits.
  - by apply SqlUpdateName_fits.
  - by apply SqlTransferOwnership_fits.
Qed.

Lemma sql_groups_trace ops d s :
  consistent (tables d) ->
  let r := sql_groups ops (d, s) in
  group_trace (groupsIn (tables d)) (zip ops r.1) (groupsIn (tables r.2.1)) /\
  length r.1 = length ops /\ consistent (tables r.2.1).
Proof.
  revert d s. induction ops as [|op ops IH]; intros d s Hc; cbn zeta; cbn [sql_groups].
  - split_and!; [constructor|done..].
  - rewrite bind_run. destruct (sql_group_fits op (tables d) (saved d) Hc (d, s) (conj eq_refl eq_refl))
      as [Hs Hc']. destruct (sql_group op (d, s)) as [r [d' s']]. cbn [fst snd] in Hs, Hc' |- *.
    rewrite bind_run. specialize (IH d' s' Hc').
    destruct (sql_groups ops (d', s')) as [rs [d'' s'']]. cbn [fst snd ret] in IH |- *.
    destruct IH as (Ht & Hl & Hc''). split_and!; [by econstructor|cbn; by rewrite Hl|done].
Qed.

(** ** Queries *)

Lemma answers_key {A} (q : Select A) t l :
  sel_limit q = None -> sel_offset q = 0%nat -> answers q t l -> l ≡ₚ sel_rows q t.
Proof. intros Hl Ho (full & Hf & _ & ->). by rewrite Hl, Ho. Qed.

Definition members_answer (t : Tables) (gid : string) (r : GroupErr + list string) : Prop :=
  match r with
  | inr l => match groupsIn t !! gid with Some g => l ≡ₚ elements (Members g) | None => False end
  | inl ErrGroupNotFound => groupsIn t !! gid = None
  | inl (ErrStore _) => True
  | inl _ => False
  end.

Lemma SqlGetMembers_triple gid t t0 :
  consistent t ->
  triple (at_ t t0) (SqlGetMembers gid) (fun r p => at_ t t0 p /\ members_answer t gid r).
Proof.
  intros Hc. unfold SqlGetMembers. apply query_bind; [intros e; by apply ret_at|].
  intros l Hl. apply answers_key in Hl; [|done..]. cbn [sel_rows selectMembers] in Hl.
  assert (Hin : forall u, u ∈ l.*1 <-> u ∈ membersIn t gid).
  { intros u. unfold membersIn. by rewrite elem_of_list_to_set, Hl. }
  destruct l as [|row l].
  - apply count_bind; [intros e; by apply ret_at|]. apply ret_at. intros p Hp. split; [done|].
    unfold members_answer. rewrite lookup_groupsIn.
    destruct (t_groups t !! gid) as [g|] eqn:Hg; [|done]. cbn -[groupIn].
    destruct Hc as [_ Hc2]. destruct (Hc2 gid) as [u Hu]; [by eexists|].
    apply elem_of_membersIn, Hin in Hu. by apply not_elem_of_nil in Hu.
  - apply ret_at. intros p Hp. split; [done|]. unfold members_answer. rewrite lookup_groupsIn.
    destruct (t_groups t !! gid) as [g|] eqn:Hg; cbn [fmap option_fmap option_map].
    + cbn. apply NoDup_Permutation; [|apply NoDup_elements|].
      * change (NoDup (row :: l).*1). rewrite Hl. apply memberRows_NoDup.
      * intros u. rewrite elem_of_elements. apply Hin.
    + pose proof (consistent_empty t gid Hc Hg) as He. specialize (Hin row.1). rewrite He in Hin.
      apply (not_elem_of_empty (C := gset string) row.1). apply Hin. left.
Qed.

Lemma SqlIsMember_triple gid uid t t0 :
  triple (at_ t t0) (SqlIsMember gid uid) (fun r p => at_ t t0 p /\
    (r = true -> uid ∈ membersIn t gid)).
Proof.
  unfold SqlIsMember. apply count_bind; [intros e; by apply ret_at|]. apply ret_at.
  intros p Hp. split; [done|]. rewrite elem_of_membersIn.
  destruct (t_group_members t !! (gid, uid)) eqn:Hm; [by eexists|done].
Qed.

Definition group_answer (t : Tables) (gid : string) (r : GroupErr + Group) : Prop :=
  match r with
  | inr g => groupsIn t !! gid = Some g
  | inl ErrGroupNotFound => groupsIn t !! gid = None
  | inl (ErrStore _) => True
  | inl _ => False
  end.

Lemma members_elements t gid l g :
  members_answer t gid (inr l) -> t_groups t !! gid = Some g -> list_to_set l = membersIn t gid.
Proof.
  cbn. rewrite lookup_groupsIn. intros H Hg. rewrite Hg in H. cbn in H.
  apply set_eq. intros u. by rewrite elem_of_list_to_set, H, elem_of_elements.
Qed.

Lemma AdapterGet_triple gid t t0 :
  consistent t ->
  triple (at_ t t0) (AdapterGet gid) (fun r p => at_ t t0 p /\ group_answer t gid r).
Proof.
  intros Hc. unfold AdapterGet, SqlGetMembersForGroup, SqlGetGroup.
  eapply triple_seq with (Q := fun r p => at_ t t0 p /\ group_answer t gid
    (match r with inl e => inl e | inr (row, members) => inr (groupFromRow row (list_to_set members)) end));
    [|by intros r p [Hp Hr]].
  eapply triple_bind with (Q := fun r p => at_ t t0 p /\
    match r with
    | inr row => exists g, t_groups t !! gid = Some g /\ row = mkGroupRow gid (gt_name g) (gt_owner_uid g) (gt_created_at g)
    | inl ErrGroupNotFound => t_groups t !! gid = None
    | inl (ErrStore _) => True
    | inl _ => False
    end).
  - apply queryRow_bind; [intros e; by apply ret_at|]. intros l Hl. rewrite (head_selectGroup gid t l Hl).
    destruct (t_groups t !! gid) as [g|]; apply ret_at; intros p Hp; split; try done. by exists g.
  - intros [e|row].
    + intros p [Hp He]. split; [done|]. unfold group_answer. cbn. rewrite lookup_groupsIn.
      destruct e; try done. by rewrite He.
    + apply triple_pure. intros (g & Hg & ->).
      apply (triple_seq (at_ t t0) (SqlGetMembers gid) _ _ _ (SqlGetMembers_triple gid t t0 Hc)).
      intros [e|l] p [Hp Hm]; (split; [done|]); cbn.
      * unfold members_answer in Hm. by destruct e.
      * unfold groupFromRow. cbn. rewrite (members_elements t gid l g Hm Hg), lookup_groupsIn, Hg. done.
Qed.

(** The rows of a user's groups and the groups they stand for. *)
Lemma fillGroups_triple rows t t0 :
  consistent t ->
  (forall row, row ∈ rows -> exists g, t_groups t !! gr_ID row = Some g /\
     row = mkGroupRow (gr_ID row) (gt_name g) (gt_owner_uid g) (gt_created_at g)) ->
  triple (at_ t t0) (fillGroups rows) (fun r p => at_ t t0 p /\
    match r with
    | inr gs => Forall2 (fun row g => groupsIn t !! gr_ID row = Some g) rows gs
    | inl e => exists text, e = ErrStore text
    end).
Proof.
  intros Hc. induction rows as [|row rows IH]; intros Hrows; cbn [fillGroups]; [by apply ret_at|].
  destruct (Hrows row) as (g & Hg & Hrow); [left|].
  eapply triple_bind; [by apply SqlGetMembers_triple|]. intros [e|l].
  - intros p [Hp Hm]. split; [done|]. destruct e; try done; [|by eexists].
    cbn in Hm. by rewrite lookup_groupsIn, Hg in Hm.
  - apply triple_pure. intros Hm. eapply triple_seq; [apply IH; intros r Hr; apply Hrows; by right|].
    intros [e|gs] p [Hp Hr]; (split; [done|]); [done|]. constructor; [|done].
    cbn beta. rewrite lookup_groupsIn, Hg. cbn. rewrite Hrow. unfold groupFromRow, groupIn. cbn.
    by rewrite (members_elements t (gr_ID row) l g Hm Hg).
Qed.

Lemma elem_of_userGroups uid t row :
  row ∈ sel_rows (selectUserGroups uid) t <->
  exists g, t_groups t !! gr_ID row = Some g /\ is_Some (t_group_members t !! (gr_ID row, uid)) /\
    row = mkGroupRow (gr_ID row) (gt_name g) (gt_owner_uid g) (gt_created_at g).
Proof.
  cbn. rewrite list_elem_of_omap. split.
  - intros ([gid g] & Hin & Hs). apply elem_of_map_to_list in Hin. cbn in Hs.
    destruct (t_group_members t !! (gid, uid)) eqn:Hm; simplify_eq. exists g. cbn. rewrite Hm. eauto.
  - intros (g & Hg & [a Hm] & ->). exists (gr_ID row, g). rewrite elem_of_map_to_list.
    split; [done|]. cbn in Hm |- *. by rewrite Hm.
Qed.

Lemma userGroups_NoDup uid t : NoDup (map gr_ID (sel_rows (selectUserGroups uid) t)).
Proof.
  cbn. pose proof (NoDup_fst_map_to_list (t_groups t)) as Hk.
  induction (map_to_list (t_groups t)) as [|[gid g] l IH]; [constructor|].
  cbn in Hk |- *. apply NoDup_cons in Hk as [Hnin Hk].
  destruct (t_group_members t !! (gid, uid)); cbn; [|by apply IH]. constructor; [|by apply IH].
  rewrite list_elem_of_fmap. intros ([i n o c] & Hi & Hin). cbn in Hi. subst i.
  apply list_elem_of_omap in Hin as ([g2 r2] & Hin & Hs). cbn in Hs.
  destruct (t_group_members t !! (g2, uid)); simplify_eq. apply Hnin, list_elem_of_fmap.
  by exists (gid, r2).
Qed.

Definition user_groups_answer (t : Tables) (uid : string) (r : GroupErr + list Group) : Prop :=
  match r with
  | inr gs => NoDup gs /\ StronglySorted (fun a b => CreatedAt b <= CreatedAt a) gs /\
      forall g, g ∈ gs <-> groupsIn t !! ID g = Some g /\ uid ∈ Members g
  | inl e => exists text, e = ErrStore text
  end.

Lemma filled_sorted t rows gs :
  Forall2 (fun row g => groupsIn t !! gr_ID row = Some g) rows gs ->
  (forall row, row ∈ rows -> exists g, t_groups t !! gr_ID row = Some g /\ gr_CreatedAt row = gt_created_at g) ->
  StronglySorted (fun a b => - gr_CreatedAt a <= - gr_CreatedAt b) rows ->
  StronglySorted (fun a b => CreatedAt b <= CreatedAt a) gs.
Proof.
  intros Hf Hr Hs.
  assert (Hc : Forall2 (fun row g => CreatedAt g = gr_CreatedAt row) rows gs).
  { clear Hs. induction Hf as [|row g rows gs Hg Hf IH]; constructor.
    - destruct (Hr row) as (r & Hr1 & ->); [left|]. rewrite lookup_groupsIn, Hr1 in Hg.
      by injection Hg as <-.
    - apply IH. intros r Hin. apply Hr. by right. }
  clear Hf Hr. revert Hs. induction Hc as [|row g rows gs Hg Hc IH]; intros Hs; constructor;
    apply StronglySorted_inv in Hs as [Hs Hall]; [by apply IH|].
  clear IH Hs. induction Hc as [|row' g' rows gs Hg' Hc IH]; constructor;
    inversion_clear Hall; [lia|by apply IH].
Qed.

Lemma AdapterGetUserGroups_triple uid t t0 :
  consistent t ->
  triple (at_ t t0) (AdapterGetUserGroups uid) (fun r p => at_ t t0 p /\ user_groups_answer t uid r).
Proof.
  intros Hc. unfold AdapterGetUserGroups, SqlListGroups.
  eapply triple_bind with (Q := fun r p => at_ t t0 p /\
    match r with inr l => answers (selectUserGroups uid) t l | inl e => exists text, e = ErrStore text end).
  { apply query_bind; [intros e; apply ret_at; intros p Hp; split; [done|by eexists]|].
    intros l Hl. by apply ret_at. }
  intros [e|rows]; [by intros p Hp|]. apply triple_pure. intros (full & Hf & Hs & ->). cbn in *.
  rewrite drop_0.
  assert (Hin : forall row, row ∈ full <-> exists g, t_groups t !! gr_ID row = Some g /\
      is_Some (t_group_members t !! (gr_ID row, uid)) /\
      row = mkGroupRow (gr_ID row) (gt_name g) (gt_owner_uid g) (gt_created_at g)).
  { intros row. rewrite Hf. apply (elem_of_userGroups uid t row). }
  assert (Hn : NoDup (map gr_ID full)) by (rewrite Hf; apply (userGroups_NoDup uid t)).
  eapply triple_conseq; [apply fillGroups_triple; [done|]|done|].
  { intros row Hrow. apply Hin in Hrow as (g & Hg & _ & Hr). by exists g. }
  intros [e|gs] p [Hp Hr]; (split; [done|]); [done|]. split_and!.
  - clear Hs Hf Hin. induction Hr as [|row g rows gs Hg Hr IH]; [constructor|].
    cbn in Hn. apply NoDup_cons in Hn as [Hnin Hn]. constructor; [|by apply IH].
    intros Hin. destruct (Forall2_elem_r _ _ _ _ Hr Hin) as (row' & Hin' & Hg').
    apply Hnin, list_elem_of_fmap. exists row'. split; [|done].
    rewrite lookup_groupsIn in Hg, Hg'. destruct (t_groups t !! gr_ID row), (t_groups t !! gr_ID row');
      by simplify_eq/=.
  - apply (filled_sorted t full); [done| |done]. intros row Hrow.
    apply Hin in Hrow as (g & Hg & _ & ->). by exists g.
  - intros g. split.
    + intros Hg. destruct (Forall2_elem_r _ _ _ _ Hr Hg) as (row & Hrow & Hg0); clear Hg; rename Hg0 into Hg; cbn beta in Hg.
      apply Hin in Hrow as (r & Hr1 & Hm & _). rewrite lookup_groupsIn, Hr1 in Hg. injection Hg as <-.
      cbn. rewrite lookup_groupsIn, Hr1. split; [done|]. by apply elem_of_membersIn.
    + intros [Hg Hu]. pose proof Hg as Hg'. rewrite lookup_groupsIn in Hg'.
      destruct (t_groups t !! ID g) as [r|] eqn:Hr1; [|done]. injection Hg' as Hg'.
      set (row := mkGroupRow (ID g) (gt_name r) (gt_owner_uid r) (gt_created_at r)).
      assert (Hrow : row ∈ full).
      { apply Hin. exists r. cbn. split; [done|]. split; [|done]. apply elem_of_membersIn.
        by rewrite <- Hg' in Hu. }
      destruct (Forall2_elem_l _ _ _ _ Hr Hrow) as (g' & Hin' & Hl). cbn in Hl. by simplify_eq.
Qed.

(** ** Properties *)

(** C9. The MySQL group store implements the abstract map of groups.  Over any
    history of calls on a database whose statements, transactions and replies
    may be lost, the two tables stay consistent, and every call takes the step
    its specification allows: it reports the specification's result and has its
    effect, or reports the connection's error with the effect whole or absent.
    (Renaming a group to the name it has reports that the group is missing.) *)
Theorem mysql_groups_refine ops d s :
  consistent (tables d) ->
  let r := sql_groups ops (d, s) in
  group_trace (groupsIn (tables d)) (zip ops r.1) (groupsIn (tables r.2.1)) /\
  length r.1 = length ops /\ consistent (tables r.2.1).
Proof. apply sql_groups_trace. Qed.

(** The group queries read that same map and change nothing: a group with
    its members, the members alone, the user's groups newest first; an error is
    the missing group or the connection's, and a positive membership test is
    right. *)
Theorem mysql_group_queries gid uid d s :
  let t := tables d in
  consistent t ->
  (let r := AdapterGet gid (d, s) in group_answer t gid r.1 /\ tables r.2.1 = t) /\
  (let r := SqlGetMembers gid (d, s) in members_answer t gid r.1 /\ tables r.2.1 = t) /\
  (let r := AdapterGetUserGroups uid (d, s) in user_groups_answer t uid r.1 /\ tables r.2.1 = t) /\
  (let r := SqlIsMember gid uid (d, s) in tables r.2.1 = t /\
     (r.1 = true -> exists g, groupsIn t !! gid = Some g /\ uid ∈ Members g)).
Proof.
  intros t Hc. assert (Hat : at_ t (saved d) (d, s)) by done.
  destruct (AdapterGet_triple gid t (saved d) Hc _ Hat) as [[H1 _] H1'].
  destruct (SqlGetMembers_triple gid t (saved d) Hc _ Hat) as [[H2 _] H2'].
  destruct (AdapterGetUserGroups_triple uid t (saved d) Hc _ Hat) as [[H3 _] H3'].
  destruct (SqlIsMember_triple gid uid t (saved d) _ Hat) as [[H4 _] H4'].
  cbv zeta. split_and!; try done. intros Ht. specialize (H4' Ht).
  destruct (proj1 Hc gid uid) as [g Hg]; [by apply elem_of_membersIn|].
  exists (groupIn t gid g). by rewrite lookup_groupsIn, Hg.
Qed.

(** A creation whose initial members name someone twice fails, whatever the
    database does; the in-memory store takes such a list. *)
Lemma mysql_create_duplicates (b : bool) name owner u d s :
  u <> "" -> u <> owner -> exists e, (SqlCreateGroup b name owner [u; u] (d, s)).1 = inl e.
Proof.
  intros Hu Ho. cut (triple (at_ (tables d) (saved d)) (SqlCreateGroup b name owner [u; u])
    (fun r _ => exists e, r = inl e)); [intros H; by apply (H (d, s))|].
  unfold SqlCreateGroup. eapply triple_bind; [apply newGroupIDSQL_triple|]. intros id.
  apply NowMilli_bind. intros now.
  eapply triple_conseq; [apply (withTx_triple ErrStore _ "commit: " (tables d)
    (fun _ _ => False) (fun _ => True) (saved d))|done|].
  - unfold createBody. apply exec_bind; [intros e t1 _ _; apply ret_at; by intros p [_ Hp]|].
    intros n t1 _. apply exec_bind; [intros e t2 _ _; apply ret_at; by intros p [_ Hp]|].
    intros n2 t2 _. cbn [insertMembers]. rewrite !bool_decide_false by naive_solver.
    eapply triple_seq with (Q := fun r p => saved p.1 = tables d /\ exists e, r = inl e);
      [|by intros r p [Hp [e ->]]].
    apply exec_bind; [intros e t3 _ _; apply ret_at; intros p [_ Hp]; split; [done|by eexists]|].
    intros n3 t3 H3. cbn in H3. destruct (insertRow _ _ _) as [|r] eqn:Hi; [done|].
    apply insertRow_inr in Hi as [_ ->]. injection H3 as _ <-.
    apply exec_bind; [intros e t4 _ _; apply ret_at; intros p [_ Hp]; split; [done|by eexists]|].
    intros n4 t4 H4. exfalso. cbn in H4. unfold insertRow in H4. by rewrite lookup_insert_eq in H4.
  - intros [e|a] p; [by exists e|done].
Qed.

(** [AddMember] checks and inserts in two statements.  If the group's last
    member leaves in between, the call reports success and the membership is of
    a group that no longer exists. *)
Lemma add_race_orphans gid uid d s :
  t_groups (tables d) !! gid = None -> (addInsert gid uid (d, s)).1 = None ->
  let t := tables (addInsert gid uid (d, s)).2.1 in
  is_Some (t_group_members t !! (gid, uid)) /\ groupsIn t !! gid = None.
Proof.
  intros Hg. cut (triple (at_ (tables d) (saved d)) (addInsert gid uid) (fun r p => r = None ->
    is_Some (t_group_members (tables p.1) !! (gid, uid)) /\ groupsIn (tables p.1) !! gid = None)).
  { intros H. by apply (H (d, s)). }
  unfold addInsert. apply NowMilli_bind. intros now. apply exec_bind.
  - intros e t _ _. destruct (isMySQLDuplicate e); by apply ret_at.
  - intros n t H. cbn in H. destruct (insertRow _ _ _) as [|r] eqn:Hi; [done|].
    apply insertRow_inr in Hi as [_ ->]. injection H as _ <-. apply ret_at. intros p [-> _] _.
    rewrite lookup_groupsIn. cbn. rewrite Hg, lookup_insert_eq. split; [by eexists|done].
Qed.

End Facts.

(** ** Witnesses *)

Definition teamTables : Tables :=
  set_group_members {[ ("g_1", "alice") := 1; ("g_1", "bob") := 2 ]}
    (set_groups {[ "g_1" := mkGroupRec "team" "alice" 1 ]} emptyTables).

(** The second statement is refused, the reply of a later one is lost. *)
Definition flakyDB : TableDB :=
  mkTableDB teamTables emptyTables [Reached; Refused; Reached; Unacknowledged].

Lemma teamTables_consistent : consistent teamTables.
Proof.
  split.
  - intros gid uid [a H]. cbn in H. rewrite lookup_insert_Some, lookup_singleton_Some in H.
    destruct H as [[[= <- <-] _]|[_ [[= <- <-] _]]]; by eexists.
  - intros gid [g H]. cbn in H. rewrite lookup_singleton_Some in H.
    destruct H as [<- _]. by exists "alice", 1.
Qed.

Definition demoHistory : list GroupOp :=
  [OpAdd "g_1" "carol"; OpAdd "g_1" "carol"; OpRename "g_1" "team"; OpRemove "g_1" "alice";
   OpTransfer "g_1" "alice" "bob"].

Lemma mysql_groups_refine_witness :
  let r := sql_groups (E := steadyEnv) demoHistory (flakyDB, demoSys) in
  r.1 = [Some (ErrStore "insert member: invalid connection"); Some (ErrStore "insert member: invalid connection");
         Some ErrGroupNotFound; None; None] /\
  consistent (tables r.2.1).
Proof.
  split; [vm_compute; reflexivity|].
  exact (proj2 (proj2 (mysql_groups_refine (E := steadyEnv) demoHistory flakyDB demoSys
    teamTables_consistent))).
Defined.

Lemma mysql_group_queries_witness :
  (AdapterGet "g_1" (mkTableDB teamTables emptyTables [], demoSys)).1 =
    inr (mkGroup "g_1" "team" "alice" {["alice"; "bob"]} 1) /\
  tables (AdapterGet "g_1" (mkTableDB teamTables emptyTables [], demoSys)).2.1 = teamTables.
Proof.
  split; [vm_compute; reflexivity|].
  exact (proj2 (proj1 (mysql_group_queries "g_1" "alice"
    (mkTableDB teamTables emptyTables []) demoSys teamTables_consistent))).
Defined.
