(* ===== verification/MySQLUsers.v ===== *)
(** * Users, friends and unread counts in MySQL (src/internal/repo/mysql.go and
    src/internal/repo/mysql_unread.go)

    [MySQLStore] as the [UserStore] and the [FriendStore], and
    [MySQLUnreadStore] as the [UnreadTable] of the Logic service. *)

From S2P Require Import Prelude GoStrings Proto Snowflake Process Sql Stores LogicClient LogicServer.

(** ** Rows and queries *)

Definition scanUser (uid : string) (r : UserRow) : User :=
  mkUser uid (ur_username r) (ur_password_hash r) (ur_role r) (ur_is_disabled r =? 1) (ur_created_at r).

Definition selectUser (uid : string) : Select User :=
  selectAll (fun t => match t_users t !! uid with Some r => [scanUser uid r] | None => [] end).

Definition allUsers (t : Tables) : list User :=
  map (fun p : string * UserRow => scanUser p.1 p.2) (map_to_list (t_users t)).

Definition selectUsers (limit offset : Z) : Select User :=
  mkSelect allUsers (Some (fun u => - u_CreatedAt u)) (Some (Z.to_nat limit)) (Z.to_nat offset).

Definition countUser (uid : string) : Select Z :=
  selectCount (fun t => match t_users t !! uid with Some _ => 1 | None => 0 end)%nat.

Definition selectFriends (uid : string) : Select Friend :=
  mkSelect (fun t => omap (fun p : (string * string) * FriendRow =>
      if bool_decide ((p.1.1 = uid \/ p.1.2 = uid) /\ fr_status p.2 = FriendStatusAccepted)
      then Some (mkFriend p.1.1 p.1.2 (fr_status p.2) (fr_created_at p.2)) else None)
      (map_to_list (t_friends t)))
    (Some (fun f => - f_CreatedAt f)) None 0.

(** The left join gives the uid where there is no user. *)
Definition selectPending (uid : string) : Select FriendRequest :=
  mkSelect (fun t => omap (fun p : (string * string) * FriendRow =>
      if bool_decide (p.1.2 = uid /\ fr_status p.2 = FriendStatusPending)
      then Some (mkFriendRequest p.1.1
             (match t_users t !! p.1.1 with Some u => ur_username u | None => p.1.1 end)
             (fr_created_at p.2)) else None)
      (map_to_list (t_friends t)))
    (Some (fun f => - fq_CreatedAt f)) None 0.

Definition selectUnread (uid peer : string) : Select Z :=
  selectAll (fun t => match t_unread t !! (uid, peer) with Some n => [n] | None => [] end).

Definition selectUnreads (uid : string) : Select (string * Z) :=
  selectAll (fun t => omap (fun p : (string * string) * Z =>
    if bool_decide (p.1.1 = uid) then Some (p.1.2, p.2) else None) (map_to_list (t_unread t))).

Section Store.
Context {E : Env} {D : Type} {DB : Database D}.

Abbreviation Op := (St (D * Sys)).

(** ** [UserStore] *)

Definition SqlCreateUser (u : User) : Op (option string) :=
  let! r := exec (InsertUser (u_UID u) (u_Username u) (u_PasswordHash u) (u_CreatedAt u)) in
  ret (match r with inl e => Some ("insert user: " +:+ e) | inr _ => None end).

Definition userNotFound (uid : string) : string := "user " +:+ uid +:+ " not found".

Definition SqlUpdatePassword (uid newPasswordHash : string) : Op (option string) :=
  let! r := exec (UpdateUserPassword newPasswordHash uid) in
  ret (match r with
       | inl e => Some ("update password: " +:+ e)
       | inr n => if n =? 0 then Some (userNotFound uid) else None
       end).

Definition SqlGetByUID (uid : string) : Op (string + option User) :=
  let! r := queryRow (selectUser uid) in
  ret (match r with inl e => inl ("select user: " +:+ e) | inr u => inr u end).

Definition SqlListUsers (offset limit : Z) : Op (string + (list User * Z)) :=
  let limit := if (limit <=? 0) || (200 <? limit) then 50 else limit in
  let offset := if offset <? 0 then 0 else offset in
  let! total := queryOne (selectCount (fun t => size (t_users t))) in
  match total with
  | inl e => ret (inl ("count users: " +:+ e))
  | inr total =>
      let! rows := query (selectUsers limit offset) in
      ret (match rows with inl e => inl ("list users: " +:+ e) | inr users => inr (users, total) end)
  end.

Definition SqlDeleteUser (uid : string) : Op (option string) :=
  let! r := exec (DeleteUserRow uid) in
  ret (match r with
       | inl e => Some ("delete user: " +:+ e)
       | inr n => if n =? 0 then Some (userNotFound uid) else None
       end).

Definition userExists (uid : string) : Op (string + bool) :=
  let! n := queryOne (countUser uid) in
  ret (match n with inl e => inl e | inr n => inr (0 <? n) end).

(** What follows an update of a column to a value it may have had. *)
Definition updated (uid text : string) (r : string + Z) : Op (option string) :=
  match r with
  | inl e => ret (Some (text +:+ e))
  | inr n =>
      if n =? 0 then
        let! ok := userExists uid in
        ret (match ok with
             | inl e => Some ("check user " +:+ uid +:+ ": " +:+ e)
             | inr ok => if ok then None else Some (userNotFound uid)
             end)
      else ret None
  end.

Definition SqlUpdateUserRole (uid role : string) : Op (option string) :=
  let! r := exec (UpdateRole role uid) in
  updated uid "update user role: " r.

Definition SqlUpdateUserDisabled (uid : string) (disabled : bool) : Op (option string) :=
  let val := if disabled then 1 else 0 in
  let! r := exec (UpdateIsDisabled val uid) in
  updated uid "update user disabled: " r.

Definition SqlCountUsers : Op (string + Z) :=
  let! r := queryOne (selectCount (fun t => size (t_users t))) in
  ret (match r with inl e => inl ("count users: " +:+ e) | inr n => inr n end).

(** ** [FriendStore] *)

Definition SqlSendRequest (fromUID toUID : string) : Op (option string) :=
  let! now := NowMilli in
  let! r := exec (InsertFriend fromUID toUID FriendStatusPending now now) in
  ret (match r with
       | inl e =>
           if isMySQLDuplicate e
           then Some ("friend request already exists between " +:+ fromUID +:+ " and " +:+ toUID)
           else Some ("insert friend request: " +:+ e)
       | inr _ => None
       end).

(** [AcceptRequest] and [RejectRequest] differ in the status and the text. *)
Definition answerRequest (status : Z) (text uid fromUID : string) : Op (option string) :=
  let! now := NowMilli in
  let! r := exec (UpdateFriend status now fromUID uid FriendStatusPending) in
  ret (match r with
       | inl e => Some (text +:+ e)
       | inr n => if n =? 0
                  then Some ("no pending friend request from " +:+ fromUID +:+ " to " +:+ uid)
                  else None
       end).

Definition SqlAcceptRequest : string -> string -> Op (option string) :=
  answerRequest FriendStatusAccepted "accept friend request: ".
Definition SqlRejectRequest : string -> string -> Op (option string) :=
  answerRequest FriendStatusRejected "reject friend request: ".

Definition SqlRemoveFriend (uid friendUID : string) : Op (option string) :=
  let! r := exec (DeleteFriends uid friendUID FriendStatusAccepted) in
  ret (match r with
       | inl e => Some ("remove friend: " +:+ e)
       | inr n => if n =? 0
                  then Some ("friendship not found between " +:+ uid +:+ " and " +:+ friendUID)
                  else None
       end).

(** The friend is the other user. *)
Definition normalize (uid : string) (f : Friend) : Friend :=
  if bool_decide (f_UID f = uid) then mkFriend (f_FriendUID f) (f_UID f) (f_Status f) (f_CreatedAt f)
  else f.

Definition SqlGetFriends (uid : string) : Op (string + list Friend) :=
  let! rows := query (selectFriends uid) in
  ret (match rows with
       | inl e => inl ("get friends: " +:+ e)
       | inr rows => inr (map (normalize uid) rows)
       end).

Definition SqlGetPendingRequests (uid : string) : Op (string + list FriendRequest) :=
  let! rows := query (selectPending uid) in
  ret (match rows with inl e => inl ("get pending requests: " +:+ e) | inr rows => inr rows end).

(** ** [MySQLUnreadStore] *)

Definition SqlGetCount (uid peer : string) : Op (string + Z) :=
  let! r := queryRow (selectUnread uid peer) in
  ret (match r with
       | inl e => inl ("get unread count: " +:+ e)
       | inr n => inr (default 0 n)
       end).

Definition SqlIncrement (uid peer : string) : Op (string + Z) :=
  let! r := exec (UpsertUnread uid peer) in
  match r with
  | inl e => ret (inl ("increment unread: " +:+ e))
  | inr _ => SqlGetCount uid peer
  end.

Definition SqlMarkRead (reader peer : string) : Op (option string) :=
  let! r := exec (DeleteUnread reader peer) in
  ret (match r with inl e => Some ("mark read: " +:+ e) | inr _ => None end).

Definition SqlGetCounts (uid : string) : Op (string + gmap string Z) :=
  let! rows := query (selectUnreads uid) in
  ret (match rows with
       | inl e => inl ("query unread counts: " +:+ e)
       | inr rows => inr (foldl (fun m p => <[p.1 := p.2]> m) ∅ rows)
       end).

End Store.

#[export] Instance MySQL_UserStore {E : Env} {D} {DB : Database D} : UserStore D :=
  mkUserStore D SqlCreateUser SqlGetByUID SqlUpdatePassword SqlListUsers SqlDeleteUser
    SqlUpdateUserRole SqlUpdateUserDisabled SqlCountUsers.

#[export] Instance MySQL_FriendStore {E : Env} {D} {DB : Database D} : FriendStore D :=
  mkFriendStore D SqlSendRequest SqlAcceptRequest SqlRejectRequest SqlRemoveFriend SqlGetFriends
    SqlGetPendingRequests.

#[export] Instance MySQL_UnreadTable {E : Env} {D} {DB : Database D} : UnreadTable D :=
  mkUnreadTable D SqlIncrement SqlMarkRead SqlGetCounts.
