(* ===== verification/MySQLUserFacts.v ===== *)
(** * Users, friends and unread counts in MySQL: what the stores promise

    The users as a map and each method against it; friendship needs both sides;
    unread counts between what was acknowledged and what was asked.  The database
    may lose statements and replies throughout. *)

From S2P Require Import Prelude GoStrings Proto Snowflake Process Sql Stores LogicClient.
From S2P Require Import LogicServer MySQLUsers.

(** ** Users *)

Definition usersIn (t : Tables) : gmap string User :=
  map_imap (fun uid r => Some (scanUser uid r)) (t_users t).

Lemma lookup_usersIn t uid : usersIn t !! uid = scanUser uid <$> t_users t !! uid.
Proof. unfold usersIn. rewrite map_lookup_imap. by destruct (t_users t !! uid). Qed.

Lemma usersIn_insert t uid r :
  usersIn (set_users (<[uid := r]> (t_users t)) t) = <[uid := scanUser uid r]> (usersIn t).
Proof.
  apply map_eq. intros uid'. rewrite lookup_usersIn. cbn.
  destruct (decide (uid' = uid)) as [->|Hne]; [by rewrite !lookup_insert_eq|].
  by rewrite !lookup_insert_ne, lookup_usersIn.
Qed.

Inductive UserOp :=
| UCreate (u : User)
| UPassword (uid hash : string)
| UDelete (uid : string)
| URole (uid role : string)
| UDisabled (uid : string) (disabled : bool).

(** The users after an operation, if it can be done.  A user is created enabled
    and without a role's rights, whatever the argument says. *)
Definition user_effect (op : UserOp) (M : gmap string User) : option (gmap string User) :=
  match op with
  | UCreate u =>
      match M !! u_UID u with
      | Some _ => None
      | None => Some (<[u_UID u := mkUser (u_UID u) (u_Username u) (u_PasswordHash u) "user" false (u_CreatedAt u)]> M)
      end
  | UPassword uid h =>
      u ← M !! uid;
      Some (<[uid := mkUser (u_UID u) (u_Username u) h (u_Role u) (u_IsDisabled u) (u_CreatedAt u)]> M)
  | UDelete uid => _ ← M !! uid; Some (delete uid M)
  | URole uid role =>
      u ← M !! uid;
      Some (<[uid := mkUser (u_UID u) (u_Username u) (u_PasswordHash u) role (u_IsDisabled u) (u_CreatedAt u)]> M)
  | UDisabled uid b =>
      u ← M !! uid;
      Some (<[uid := mkUser (u_UID u) (u_Username u) (u_PasswordHash u) (u_Role u) b (u_CreatedAt u)]> M)
  end.

(** What a user that is said not to be found was: absent, or, for a password, one
    with that hash already. *)
Definition not_found (op : UserOp) (M : gmap string User) : Prop :=
  match op with
  | UCreate _ => False
  | UPassword uid h => forall u, M !! uid = Some u -> u_PasswordHash u = h
  | UDelete uid | URole uid _ | UDisabled uid _ => M !! uid = None
  end.

Definition op_user (op : UserOp) : string :=
  match op with UCreate u => u_UID u | UPassword uid _ | UDelete uid | URole uid _ | UDisabled uid _ => uid end.

(** Success means the effect; an error means the effect or nothing, and the error
    that the user is not found that there was nothing to do. *)
Definition user_post (op : UserOp) (M : gmap string User) (r : option string) (M' : gmap string User) : Prop :=
  match r with
  | None => user_effect op M = Some M'
  | Some e => (M' = M \/ user_effect op M = Some M') /\
      (e = userNotFound (op_user op) -> M' = M /\ not_found op M)
  end.

Section Facts.
Context {E : Env} {D : Type} {DB : Database D} {DL : DatabaseLaws D}.

Abbreviation Op := (St (D * Sys)).

Definition sql_user (op : UserOp) : Op (option string) :=
  match op with
  | UCreate u => SqlCreateUser u
  | UPassword uid h => SqlUpdatePassword uid h
  | UDelete uid => SqlDeleteUser uid
  | URole uid role => SqlUpdateUserRole uid role
  | UDisabled uid b => SqlUpdateUserDisabled uid b
  end.

(** A statement of an operation: it changes nothing, or has the effect. *)
Definition serves (op : UserOp) (uid : string) (st : Stmt) (t : Tables) : Prop :=
  forall n t', run_stmt st t = inr (n, t') ->
    match user_effect op (usersIn t) with
    | Some M' => usersIn t' = M' /\ (n =? 0 = true -> t' = t)
    | None => t' = t /\ n = 0
    end.

Lemma update_serves op uid st cond f upd t :
  run_stmt st t = affected set_users t (updateRow uid cond f (t_users t)) ->
  user_effect op (usersIn t) = (u ← usersIn t !! uid; Some (<[uid := upd u]> (usersIn t))) ->
  (forall r, cond r = false -> f r = r) -> (forall r, upd (scanUser uid r) = scanUser uid (f r)) ->
  serves op uid st t.
Proof.
  intros Hst Hop Hc Hu n t' H. rewrite Hst in H. rewrite Hop, lookup_usersIn. unfold affected, updateRow in H.
  assert (Hid : set_users (t_users t) t = t) by by destruct t.
  destruct (t_users t !! uid) as [r|] eqn:Hr; cbn in H |- *.
  - rewrite Hu. assert (Hsame : f r = r -> usersIn t = <[uid := scanUser uid (f r)]> (usersIn t)).
    { intros Hf. rewrite Hf. symmetry. apply insert_id. by rewrite lookup_usersIn, Hr. }
    destruct (cond r) eqn:Hcr; cbn in H.
    2:{ injection H as _ <-. rewrite Hid. split; [by apply Hsame, Hc|done]. }
    case_bool_decide as Hf; cbn in H; injection H as <- <-.
    + rewrite Hid. split; [by apply Hsame|done].
    + split; [apply usersIn_insert|done].
  - injection H as <- <-. by rewrite Hid.
Qed.

Lemma serves_maybe op uid st t t' :
  serves op uid st t -> maybe st t t' -> usersIn t' = usersIn t \/ user_effect op (usersIn t) = Some (usersIn t').
Proof.
  intros Hs [->|[n Hn]]; [by left|]. specialize (Hs n t' Hn).
  destruct (user_effect op (usersIn t)) as [M'|]; [right|left]; destruct Hs as [Hs _]; by rewrite Hs.
Qed.

(** The operations that take zero affected rows for a missing user. *)
Lemma strict_post op uid st t t0 (text : string) (k : Z -> option string) :
  serves op uid st t -> (forall e, (text +:+ e)%string <> userNotFound (op_user op)) ->
  (forall n t', run_stmt st t = inr (n, t') -> match k n with
     | None => n <> 0
     | Some _ => n = 0 /\ not_found op (usersIn t)
     end) ->
  triple (at_ t t0) (let! r := exec st in ret (match r with inl e => Some (text +:+ e)%string | inr n => k n end))
    (fun r p => user_post op (usersIn t) r (usersIn (tables p.1))).
Proof.
  intros Hs Hk1 Hk2. apply exec_bind.
  - intros e t' Hm _. apply ret_at. intros p [-> _]. split; [by apply (serves_maybe op uid st)|].
    intros He. by destruct (Hk1 e).
  - intros n t' Hn. apply ret_at. intros p [-> _]. pose proof (serves_maybe op uid st t t' Hs) as Hm.
    specialize (Hs n t' Hn). specialize (Hk2 n t' Hn). unfold user_post. destruct (k n) eqn:Hk.
    + destruct Hk2 as [-> Hnf]. split; [apply Hm; right; by eexists|]. intros _. split; [|done].
      destruct (user_effect op (usersIn t)); destruct Hs as [Hs H0]; [by rewrite H0|by rewrite Hs].
    + destruct (user_effect op (usersIn t)); [|lia]. by destruct Hs as [-> _].
Qed.

(** The operations that look the user up when no row was affected. *)
Lemma updated_post op uid st t t0 text :
  serves op uid st t -> (is_Some (usersIn t !! uid) -> is_Some (user_effect op (usersIn t))) ->
  op_user op = uid -> (usersIn t !! uid = None -> not_found op (usersIn t)) ->
  (forall e, (text +:+ e)%string <> userNotFound uid) ->
  triple (at_ t t0) (let! r := exec st in updated uid text r)
    (fun r p => user_post op (usersIn t) r (usersIn (tables p.1))).
Proof.
  intros Hs Hex Hou Hnf Htext. apply exec_bind.
  - intros e t' Hm _. apply ret_at. intros p [-> _]. split; [by apply (serves_maybe op uid st)|].
    rewrite Hou. intros He. by destruct (Htext e).
  - intros n t' Hn. pose proof (serves_maybe op uid st t t' Hs) as Hm. specialize (Hs n t' Hn).
    assert (Hor : usersIn t' = usersIn t \/ user_effect op (usersIn t) = Some (usersIn t'))
      by (apply Hm; right; by eexists).
    unfold updated. destruct (n =? 0) eqn:Hz.
    + assert (Ht' : t' = t) by (destruct (user_effect op (usersIn t)); destruct Hs as [H1 H2]; auto). subst t'.
      unfold userExists. eapply triple_seq.
      * apply count_bind with (Q := fun r p => at_ t t0 p /\
          match r with inr b => b = bool_decide (is_Some (t_users t !! uid)) | inl _ => True end).
        -- intros e. by apply ret_at.
        -- apply ret_at. intros p Hp. split; [done|]. by destruct (t_users t !! uid).
      * intros [e|b] p [[Ht _] Hu]; cbn [ret fst snd]; rewrite Ht.
        { split; [exact Hor|]. rewrite Hou. intros He. by destruct uid. }
        subst b. case_bool_decide as Hu; cbn [user_post].
        -- destruct (user_effect op (usersIn t)) as [M'|]; [by destruct Hs as [-> _]|].
           destruct Hex as [M' Hx]; [|done]. rewrite lookup_usersIn. destruct Hu as [r ->]. by eexists.
        -- split; [exact Hor|]. intros _. split; [done|]. apply Hnf. rewrite lookup_usersIn.
           apply eq_None_not_Some in Hu. by rewrite Hu.
    + apply ret_at. intros p [-> _]. cbn. destruct (user_effect op (usersIn t)).
      * by destruct Hs as [-> _].
      * destruct Hs as [_ ->]. done.
Qed.

Definition set_u_PasswordHash (h : string) (u : User) : User :=
  mkUser (u_UID u) (u_Username u) h (u_Role u) (u_IsDisabled u) (u_CreatedAt u).

Lemma serves_create u t :
  serves (UCreate u) (u_UID u) (InsertUser (u_UID u) (u_Username u) (u_PasswordHash u) (u_CreatedAt u)) t.
Proof.
  intros n t' H. cbn in H |- *. rewrite lookup_usersIn. destruct (insertRow _ _ _) as [|r] eqn:Hi; [done|].
  apply insertRow_inr in Hi as [Hn ->]. injection H as <- <-. rewrite Hn. cbn [fmap option_fmap option_map].
  split; [|done]. cbn [snd]. by rewrite usersIn_insert.
Qed.

Lemma serves_delete uid t : serves (UDelete uid) uid (DeleteUserRow uid) t.
Proof.
  intros n t' H. cbn in H. unfold affected, deleteRow in H. cbn [user_effect]. rewrite lookup_usersIn.
  destruct (t_users t !! uid) as [r|] eqn:Hr; cbn in H |- *; injection H as <- <-.
  - split; [|done]. apply map_eq. intros uid'. rewrite lookup_usersIn. cbn.
    destruct (decide (uid' = uid)) as [->|Hne]; [by rewrite !lookup_delete_eq|].
    by rewrite !lookup_delete_ne, lookup_usersIn.
  - split; [by destruct t|done].
Qed.

(** No row affected by a change of password: no user, or the hash is the same. *)
Lemma password_unchanged uid h t t' :
  run_stmt (UpdateUserPassword h uid) t = inr (0, t') -> not_found (UPassword uid h) (usersIn t).
Proof.
  cbn. unfold affected, updateRow. intros H u. rewrite lookup_usersIn. destruct (t_users t !! uid) as [r|]; [|done].
  cbn in H. case_bool_decide as Hf; cbn in H; [|done]. intros [= <-]. cbn. by rewrite <-Hf.
Qed.

Lemma sql_user_post op t t0 :
  triple (at_ t t0) (sql_user op) (fun r p => user_post op (usersIn t) r (usersIn (tables p.1))).
Proof.
  destruct op as [u|uid h|uid|uid role|uid b]; cbn [sql_user].
  - apply (strict_post (UCreate u) (u_UID u) _ t t0 "insert user: " (fun _ => None)); [apply serves_create|done|].
    intros n t' H. cbn in H. destruct (insertRow _ _ _) as [|r] eqn:Hi; [done|].
    apply insertRow_inr in Hi as [Hn ->]. by injection H as <- _.
  - apply (strict_post (UPassword uid h) uid _ t t0 "update password: "
      (fun n => if n =? 0 then Some (userNotFound uid) else None)); [|done|].
    + by eapply (update_serves _ uid _ _ _ (set_u_PasswordHash h)).
    + intros n t' H. destruct (Z.eqb_spec n 0) as [->|]; [|done]. split; [done|by eapply password_unchanged].
  - apply (strict_post (UDelete uid) uid _ t t0 "delete user: "
      (fun n => if n =? 0 then Some (userNotFound uid) else None)); [apply serves_delete|done|].
    intros n t' H. destruct (Z.eqb_spec n 0) as [->|]; [|done]. split; [done|]. cbn.
    apply serves_delete in H. cbn [user_effect] in H. destruct (usersIn t !! uid) eqn:Hu; [|done].
    exfalso. cbn in H. destruct H as [H1 H2]. rewrite H2 in H1 by done.
    apply (f_equal (.!! uid)) in H1. by rewrite lookup_delete_eq, Hu in H1.
  - apply (updated_post (URole uid role) uid); [| |done|done|done].
    + eapply (update_serves _ uid _ _ _ (fun u => mkUser (u_UID u) (u_Username u) (u_PasswordHash u) role (u_IsDisabled u) (u_CreatedAt u)));
        [done|done| |done].
      intros r Hc. apply negb_false_iff, bool_decide_eq_true in Hc. subst role. by destruct r.
    + intros [u Hu]. cbn. rewrite Hu. by eexists.
  - apply (updated_post (UDisabled uid b) uid); [| |done|done|done].
    + eapply (update_serves _ uid _ _ _ (fun u => mkUser (u_UID u) (u_Username u) (u_PasswordHash u) (u_Role u) b (u_CreatedAt u)));
        [done|done| |].
      * intros r Hc. apply negb_false_iff, Z.eqb_eq in Hc. rewrite <- Hc. by destruct r.
      * intros r. unfold scanUser, set_ur_is_disabled. cbn. by destruct b.
    + intros [u Hu]. cbn. rewrite Hu. by eexists.
Qed.

Lemma SqlGetByUID_triple uid t t0 :
  triple (at_ t t0) (SqlGetByUID uid) (fun r p => at_ t t0 p /\
    match r with inr o => o = usersIn t !! uid | inl _ => True end).
Proof.
  unfold SqlGetByUID. apply queryRow_bind; [intros e; by apply ret_at|].
  intros l Hl. apply ret_at. intros p Hp. split; [done|]. apply answers_all in Hl.
  rewrite lookup_usersIn. destruct (t_users t !! uid).
  - symmetry in Hl. apply Permutation_singleton_l in Hl. by subst l.
  - symmetry in Hl. apply Permutation_nil_l in Hl. by subst l.
Qed.

(** ** Counting and listing *)

Lemma size_usersIn t : size (usersIn t) = size (t_users t).
Proof.
  rewrite <-!size_dom. f_equal. apply set_eq. intros uid. rewrite !elem_of_dom, lookup_usersIn.
  by rewrite fmap_is_Some.
Qed.

Lemma allUsers_usersIn t : allUsers t ≡ₚ (map_to_list (usersIn t)).*2.
Proof.
  apply NoDup_Permutation.
  - unfold allUsers. apply NoDup_fmap_2_strong; [|apply NoDup_map_to_list].
    intros [u r] [u' r'] H1 H2 He. cbn in He. apply elem_of_map_to_list in H1, H2.
    assert (u' = u) as -> by (by injection He). by rewrite H1 in H2; simplify_eq.
  - apply NoDup_fmap_2_strong; [|apply NoDup_map_to_list]. intros [u x] [u' x'] H1 H2 He. cbn in He. subst x'.
    apply elem_of_map_to_list in H1, H2. rewrite lookup_usersIn in H1, H2.
    apply fmap_Some in H1 as (r & _ & H1). apply fmap_Some in H2 as (r' & _ & H2). subst x. by injection H2 as ->.
  - intros x. unfold allUsers. rewrite !list_elem_of_fmap. split.
    + intros ([u r] & -> & H). apply elem_of_map_to_list in H. exists (u, scanUser u r). split; [done|].
      apply elem_of_map_to_list. by rewrite lookup_usersIn, H.
    + intros ([u y] & -> & H). apply elem_of_map_to_list in H. rewrite lookup_usersIn in H.
      apply fmap_Some in H as (r & H & ->). exists (u, r). split; [done|]. by apply elem_of_map_to_list.
Qed.

Lemma SqlCountUsers_triple t t0 :
  triple (at_ t t0) SqlCountUsers (fun r p => at_ t t0 p /\
    match r with inr n => n = Z.of_nat (size (usersIn t)) | inl _ => True end).
Proof.
  unfold SqlCountUsers. apply count_bind; [intros e; by apply ret_at|]. apply ret_at. intros p Hp.
  split; [done|]. by rewrite size_usersIn.
Qed.

(** A page of all users, newest first. *)
Definition user_page (M : gmap string User) (offset limit : Z) (l : list User) : Prop :=
  exists full, full ≡ₚ (map_to_list M).*2 /\ StronglySorted (fun a b => u_CreatedAt b <= u_CreatedAt a) full /\
    l = take (Z.to_nat limit) (drop (Z.to_nat offset) full).

Lemma SqlListUsers_triple offset limit t t0 :
  triple (at_ t t0) (SqlListUsers offset limit) (fun r p => at_ t t0 p /\
    match r with
    | inr (l, total) => total = Z.of_nat (size (usersIn t)) /\
        user_page (usersIn t) (if offset <? 0 then 0 else offset)
          (if (limit <=? 0) || (200 <? limit) then 50 else limit) l
    | inl _ => True
    end).
Proof.
  unfold SqlListUsers. cbv zeta. apply count_bind; [intros e; by apply ret_at|].
  apply query_bind; [intros e; by apply ret_at|]. intros l (full & Hf & Hs & Hl). apply ret_at. intros p Hp.
  split; [done|]. rewrite size_usersIn. split; [done|]. exists full.
  split; [by rewrite <-allUsers_usersIn|]. split; [|exact Hl]. clear -Hs. cbn in Hs.
  induction Hs as [|u full _ IH Hall]; constructor; [done|]. eapply Forall_impl; [exact Hall|]. cbn. lia.
Qed.

(** ** A database that does not fail *)

(** From the states [ok] every statement that can be run and every query is
    answered. *)
Definition answering (ok : D -> Prop) : Prop :=
  forall d, ok d ->
    (forall st n t', run_stmt st (tables d) = inr (n, t') -> exists d', Exec st d = (inr n, d') /\ ok d') /\
    (forall A (q : Select A), exists l d', Query q d = (inr l, d') /\ ok d').

(** The operation can be done, and, for a password, is not what is there. *)
Definition doable (op : UserOp) (M : gmap string User) : Prop :=
  is_Some (user_effect op M) /\
  match op with UPassword uid h => forall u, M !! uid = Some u -> u_PasswordHash u <> h | _ => True end.

Section Answering.
Context (ok : D -> Prop) (Hok : answering ok).

Definition sure (t : Tables) (p : D * Sys) : Prop := tables p.1 = t /\ ok p.1.

Lemma exec_sure {A} st (k : string + Z -> Op A) t n t' Q :
  run_stmt st t = inr (n, t') -> triple (sure t') (k (inr n)) Q -> triple (sure t) (bind (exec st) k) Q.
Proof.
  intros Hr Hk. eapply triple_seq with (Q := fun r p => r = inr n /\ sure t' p).
  - intros [d s] [Ht Hd]. cbn [fst] in *. destruct (Hok d Hd) as [He _]. rewrite <-Ht in Hr.
    destruct (He st n t' Hr) as (d' & Hd' & Ho). unfold exec, onDb. destruct (Exec_law st d) as [_ Hl].
    rewrite Hd' in Hl |- *. cbn [fst snd]. split; [done|]. split; [|done]. cbn.
    rewrite Hr in Hl. by injection Hl.
  - intros a p [-> Hp]. by apply Hk.
Qed.

Lemma query_sure {A B} (q : Select A) (k : string + list A -> Op B) t Q :
  (forall l, answers q t l -> triple (sure t) (k (inr l)) Q) -> triple (sure t) (bind (query q) k) Q.
Proof.
  intros Hk. eapply triple_seq with (Q := fun r p => (exists l, answers q t l /\ r = inr l) /\ sure t p).
  - intros [d s] [Ht Hd]. cbn [fst] in *. destruct (Hok d Hd) as [_ Hq].
    destruct (Hq A q) as (l & d' & Hd' & Ho). unfold query, onDb. destruct (Query_law A q d) as (H1 & _ & H2).
    rewrite Hd' in *. cbn [fst snd] in *. subst t. split; [by exists l|]. by split.
  - intros a p [(l & Hl & ->) Hp]. by apply (Hk l).
Qed.

Lemma count_sure {A} c (k : string + Z -> Op A) t Q :
  triple (sure t) (k (inr (Z.of_nat (c t)))) Q -> triple (sure t) (bind (queryOne (selectCount c)) k) Q.
Proof.
  intros Hk. eapply triple_seq with (Q := fun r p => r = inr (Z.of_nat (c t)) /\ sure t p).
  - unfold queryOne, queryRow. eapply triple_seq with (Q := fun r p => r = inr (Some (Z.of_nat (c t))) /\ sure t p).
    + apply query_sure. intros l Hl p Hp. split; [|done]. cbn. apply answers_all in Hl. symmetry in Hl.
      apply Permutation_singleton_l in Hl. by subst l.
    + intros a p [-> Hp]. done.
  - intros a p [-> Hp]. by apply Hk.
Qed.

Lemma ret_sure {A} (a : A) t (Q : A -> Prop) : Q a -> triple (sure t) (ret a) (fun r _ => Q r).
Proof. by intros H p _. Qed.

Lemma updated_sure uid text n t : is_Some (t_users t !! uid) ->
  triple (sure t) (updated uid text (inr n)) (fun r _ => r = None).
Proof.
  intros Hu. unfold updated. destruct (n =? 0); [|by apply ret_sure]. unfold userExists.
  eapply triple_seq with (Q := fun r p => r = inr true /\ sure t p).
  - apply count_sure. intros p Hp. split; [|done]. cbn. by destruct Hu as [r ->].
  - by intros a p [-> _].
Qed.

(** An update of a user there is. *)
Lemma update_row_some uid cond f r t : t_users t !! uid = Some r ->
  exists n t', affected set_users t (updateRow uid cond f (t_users t)) = inr (n, t') :> (StmtFault + _) /\
    is_Some (t_users t' !! uid) /\ (cond r = true -> f r <> r -> n = 1).
Proof.
  intros Hr. unfold affected, updateRow. rewrite Hr. destruct (cond r) eqn:Hc; [case_bool_decide as Hf|]; cbn;
    eexists _, _; (split; [done|]); cbn; rewrite ?lookup_insert_eq, ?Hr; (split; [by eexists|]); try done.
Qed.

Lemma sql_user_sure op t : doable op (usersIn t) -> triple (sure t) (sql_user op) (fun r _ => r = None).
Proof.
  intros [[M' Hm] Hp]. destruct op as [u|uid h|uid|uid role|uid b]; cbn [sql_user user_effect] in *.
  - rewrite lookup_usersIn in Hm. destruct (t_users t !! u_UID u) as [r|] eqn:Hr; [done|].
    eapply exec_sure; [cbn; unfold insertRow; rewrite Hr; reflexivity|]. by apply ret_sure.
  - rewrite lookup_usersIn in Hm, Hp. destruct (t_users t !! uid) as [r|] eqn:Hr; [|done].
    destruct (update_row_some uid (fun _ => true) (set_ur_password_hash h) r t Hr) as (n & t' & H1 & _ & H3).
    eapply exec_sure; [exact H1|]. rewrite H3; [by apply ret_sure|done|].
    intros He. apply (Hp (scanUser uid r)); [done|]. by rewrite <-He.
  - rewrite lookup_usersIn in Hm. destruct (t_users t !! uid) as [r|] eqn:Hr; [|done].
    eapply exec_sure; [cbn; unfold affected, deleteRow; rewrite Hr; reflexivity|]. by apply ret_sure.
  - rewrite lookup_usersIn in Hm. destruct (t_users t !! uid) as [r|] eqn:Hr; [|done].
    edestruct (update_row_some uid) as (n & t' & H1 & H2 & _); [exact Hr|].
    eapply exec_sure; [exact H1|]. by apply updated_sure.
  - rewrite lookup_usersIn in Hm. destruct (t_users t !! uid) as [r|] eqn:Hr; [|done].
    edestruct (update_row_some uid) as (n & t' & H1 & H2 & _); [exact Hr|].
    eapply exec_sure; [exact H1|]. by apply updated_sure.
Qed.

Lemma SqlGetByUID_sure uid t : triple (sure t) (SqlGetByUID uid) (fun r _ => exists o, r = inr o).
Proof.
  unfold SqlGetByUID, queryRow. eapply triple_seq with (Q := fun r p => exists o, r = inr o).
  - apply query_sure. intros l _ p _. by eexists.
  - intros a p [o ->]. by eexists.
Qed.

Lemma SqlListUsers_sure offset limit t : triple (sure t) (SqlListUsers offset limit) (fun r _ => exists o, r = inr o).
Proof.
  unfold SqlListUsers. cbv zeta. apply count_sure, query_sure. intros l _ p _. by eexists.
Qed.

Lemma SqlCountUsers_sure t : triple (sure t) SqlCountUsers (fun r _ => exists n, r = inr n).
Proof. unfold SqlCountUsers. apply count_sure. intros p _. by eexists. Qed.

End Answering.


(** The store keeps what [UserLaws] promises. *)
Lemma SqlCreateUser_law u d s :
  match SqlCreateUser u (d, s) with
  | (None, (d', _)) => usersIn (tables d) !! u_UID u = None /\
      usersIn (tables d') = <[u_UID u := mkUser (u_UID u) (u_Username u) (u_PasswordHash u) "user" false
        (u_CreatedAt u)]> (usersIn (tables d))
  | _ => True
  end.
Proof.
  pose proof (sql_user_post (UCreate u) (tables d) (saved d) (d, s) (conj eq_refl eq_refl)) as H.
  cbn [sql_user] in H. destruct (SqlCreateUser u (d, s)) as [[e|] [d' s']]; [done|].
  unfold user_post in H. cbn in H.
  destruct (usersIn (tables d) !! u_UID u); [done|]. by injection H as <-.
Qed.

Lemma SqlGetByUID_law uid d (s : Sys) :
  usersIn (tables (SqlGetByUID uid (d, s)).2.1) = usersIn (tables d) /\
  match (SqlGetByUID uid (d, s)).1 with inr o => o = usersIn (tables d) !! uid | inl _ => True end.
Proof.
  destruct (SqlGetByUID_triple uid (tables d) (saved d) (d, s) (conj eq_refl eq_refl)) as [[-> _] H].
  by split.
Qed.

Lemma SqlUpdatePassword_law uid h d s :
  match SqlUpdatePassword uid h (d, s) with
  | (None, (d', _)) => exists u, usersIn (tables d) !! uid = Some u /\
      usersIn (tables d') = <[uid := mkUser (u_UID u) (u_Username u) h (u_Role u) (u_IsDisabled u)
        (u_CreatedAt u)]> (usersIn (tables d))
  | _ => True
  end.
Proof.
  pose proof (sql_user_post (UPassword uid h) (tables d) (saved d) (d, s) (conj eq_refl eq_refl)) as H.
  cbn [sql_user] in H. destruct (SqlUpdatePassword uid h (d, s)) as [[e|] [d' s']]; [done|].
  unfold user_post in H. cbn in H.
  destruct (usersIn (tables d) !! uid) as [u|]; [|done]. exists u. by injection H as <-.
Qed.

#[export] Instance MySQL_UserLaws : UserLaws D :=
  mkUserLaws D _ (fun d => usersIn (tables d)) SqlCreateUser_law SqlGetByUID_law SqlUpdatePassword_law.

(** ** Friends *)

Inductive FriendOp :=
| FSend (from to : string)
| FAccept (uid from : string)
| FReject (uid from : string)
| FRemove (uid friend : string).

Definition sql_friend (op : FriendOp) : Op (option string) :=
  match op with
  | FSend a b => SqlSendRequest a b
  | FAccept u a => SqlAcceptRequest u a
  | FReject u a => SqlRejectRequest u a
  | FRemove a b => SqlRemoveFriend a b
  end.

Definition sql_friends (ops : list FriendOp) : Op unit := forEach ops (fun op => sql_friend op ;;! ret tt).

(** A row comes from a request; an accepted row also from the later consent of
    the user who was asked. *)
Definition consented (ops : list FriendOp) (m : gmap (string * string) FriendRow) : Prop :=
  forall a b row, m !! (a, b) = Some row ->
    fr_status row ∈ [FriendStatusPending; FriendStatusAccepted; FriendStatusRejected] /\
    exists i, ops !! i = Some (FSend a b) /\
      (fr_status row = FriendStatusAccepted -> exists j, (i < j)%nat /\ ops !! j = Some (FAccept b a)).

Lemma consented_more ops op m : consented ops m -> consented (ops ++ [op]) m.
Proof.
  intros H a b row Hr. destruct (H a b row Hr) as (Hs & i & Hi & Ha). split; [done|]. exists i.
  split; [by apply lookup_app_l_Some|]. intros Hst. destruct (Ha Hst) as (j & Hj & Hl).
  exists j. split; [done|]. by apply lookup_app_l_Some.
Qed.

Definition friend_stmt (op : FriendOp) (now : Z) : Stmt :=
  match op with
  | FSend a b => InsertFriend a b FriendStatusPending now now
  | FAccept u a => UpdateFriend FriendStatusAccepted now a u FriendStatusPending
  | FReject u a => UpdateFriend FriendStatusRejected now a u FriendStatusPending
  | FRemove a b => DeleteFriends a b FriendStatusAccepted
  end.

Lemma answer_consented ops op st now a u t n t' :
  run_stmt (UpdateFriend st now a u FriendStatusPending) t = inr (n, t') ->
  consented ops (t_friends t) ->
  st ∈ [FriendStatusPending; FriendStatusAccepted; FriendStatusRejected] ->
  (st = FriendStatusAccepted -> op = FAccept u a) -> consented (ops ++ [op]) (t_friends t').
Proof.
  intros H Hc Hst Hop. cbn in H. unfold affected, updateRow in H.
  assert (Hsame : consented (ops ++ [op]) (t_friends t)) by by apply consented_more.
  assert (Hid : set_friends (t_friends t) t = t) by by destruct t.
  destruct (t_friends t !! (a, u)) as [r|] eqn:Hr; cbn in H; [|injection H as _ <-; by rewrite Hid].
  destruct (fr_status r =? FriendStatusPending) eqn:Hp; cbn in H; [|injection H as _ <-; by rewrite Hid].
  case_bool_decide; cbn in H; injection H as _ <-; [by rewrite Hid|].
  intros a' b' row. cbn. destruct (decide ((a', b') = (a, u))) as [[= -> ->]|Hne].
  - rewrite lookup_insert_eq. intros [= <-]. cbn. split; [done|].
    destruct (Hc a u r Hr) as (_ & i & Hi & _). exists i. split; [by apply lookup_app_l_Some|].
    intros Ha. exists (length ops). split; [by apply lookup_lt_Some in Hi|].
    rewrite (Hop Ha). by apply list_lookup_middle.
  - rewrite lookup_insert_ne by congruence. apply Hsame.
Qed.

Lemma stmt_consented ops op now t n t' :
  run_stmt (friend_stmt op now) t = inr (n, t') -> consented ops (t_friends t) ->
  consented (ops ++ [op]) (t_friends t').
Proof.
  intros H Hc. destruct op as [a b|u a|u a|a b]; cbn [friend_stmt] in H.
  - cbn in H. destruct (insertRow _ _ _) as [|r] eqn:Hi; [done|].
    apply insertRow_inr in Hi as [Hn ->]. injection H as _ <-. intros a' b' row. cbn.
    destruct (decide ((a', b') = (a, b))) as [[= -> ->]|Hne].
    + rewrite lookup_insert_eq. intros [= <-]. cbn. split; [left|]. exists (length ops).
      split; [by apply list_lookup_middle|done].
    + rewrite lookup_insert_ne by congruence. apply (consented_more ops (FSend a b) _ Hc a' b').
  - eapply answer_consented; [exact H|done| |done]. set_solver.
  - eapply answer_consented; [exact H|done| |done]. set_solver.
  - cbn in H. injection H as _ <-. intros a' b' row [Hr _]%map_lookup_filter_Some.
    by apply (consented_more ops (FRemove a b) _ Hc a' b').
Qed.

Lemma sql_friend_consented ops op t t0 :
  consented ops (t_friends t) ->
  triple (at_ t t0) (sql_friend op) (fun _ p => consented (ops ++ [op]) (t_friends (tables p.1))).
Proof.
  intros Hc.
  assert (Hst : forall now (k : string + Z -> option string),
    triple (at_ t t0) (let! r := exec (friend_stmt op now) in ret (k r))
      (fun _ p => consented (ops ++ [op]) (t_friends (tables p.1)))).
  { intros now k. apply exec_bind.
    - intros e t' Hm _. apply ret_at. intros p [-> _]. destruct Hm as [->|[n Hn]].
      + by apply consented_more.
      + by apply (stmt_consented _ _ _ _ _ _ Hn).
    - intros n t' Hn. apply ret_at. intros p [-> _]. by apply (stmt_consented _ _ _ _ _ _ Hn). }
  destruct op as [a b|u a|u a|a b]; cbn [sql_friend]; [| | |apply (Hst 0)];
    apply NowMilli_bind; intros now; apply (Hst now).
Qed.

Lemma sql_friends_consented ops0 ops d s :
  consented ops0 (t_friends (tables d)) ->
  consented (ops0 ++ ops) (t_friends (tables (sql_friends ops (d, s)).2.1)).
Proof.
  revert ops0 d s. induction ops as [|op ops IH]; intros ops0 d s Hc; [by rewrite app_nil_r|].
  unfold sql_friends. rewrite forEach_cons, bind_ret_state. cbn [snd].
  pose proof (sql_friend_consented ops0 op (tables d) (saved d) Hc (d, s) (conj eq_refl eq_refl)) as H.
  destruct (sql_friend op (d, s)) as [r [d' s']]. cbn [snd fst] in H |- *.
  rewrite (cons_middle op ops0 ops), app_assoc. apply (IH (ops0 ++ [op]) d' s' H).
Qed.

(** Two users are friends when a request in either direction was accepted. *)
Definition friends (t : Tables) (a b : string) : Prop :=
  exists row, (t_friends t !! (a, b) = Some row \/ t_friends t !! (b, a) = Some row) /\
    fr_status row = FriendStatusAccepted.

Lemma SqlGetFriends_triple uid t t0 :
  triple (at_ t t0) (SqlGetFriends uid) (fun r p => at_ t t0 p /\
    match r with
    | inr l => StronglySorted (fun a b => f_CreatedAt b <= f_CreatedAt a) l /\
        forall v, v ∈ map f_UID l <-> friends t uid v
    | inl _ => True
    end).
Proof.
  unfold SqlGetFriends. apply query_bind; [intros e; by apply ret_at|].
  intros rows (full & Hf & Hs & ->). cbn in Hs, Hf |- *. rewrite drop_0. apply ret_at. intros p Hp.
  split; [done|]. split.
  - clear Hf. induction Hs as [|f full Hs IH Hall]; [constructor|]. cbn. constructor; [exact IH|].
    apply Forall_fmap. eapply Forall_impl; [exact Hall|]. intros g Hg. unfold normalize. cbn in Hg |- *.
    repeat case_bool_decide; cbn; lia.
  - intros v. unfold friends. rewrite map_map. rewrite list_elem_of_fmap.
    assert (Hin : forall f, f ∈ full <-> exists row, t_friends t !! (f_UID f, f_FriendUID f) = Some row /\
      (f_UID f = uid \/ f_FriendUID f = uid) /\ fr_status row = FriendStatusAccepted /\
      f = mkFriend (f_UID f) (f_FriendUID f) (fr_status row) (fr_created_at row)).
    { intros f. rewrite Hf, list_elem_of_omap. split.
      - intros ([[x y] row] & Hx & Hs'). apply elem_of_map_to_list in Hx. cbn in Hs'.
        case_bool_decide as Hc; simplify_eq. exists row. cbn. tauto.
      - intros (row & Hr & Hu & Ha & ->). exists ((f_UID f, f_FriendUID f), row).
        rewrite elem_of_map_to_list. split; [done|]. cbn. by rewrite bool_decide_true. }
    split.
    + intros (f & -> & Hf'). apply Hin in Hf' as (row & Hr & Hu & Ha & _). exists row. split; [|done].
      unfold normalize. case_bool_decide as Hc; cbn.
      * left. by rewrite <- Hc.
      * destruct Hu as [|<-]; [done|]. by right.
    + intros (row & [Hr|Hr] & Ha).
      * exists (mkFriend uid v (fr_status row) (fr_created_at row)). unfold normalize. cbn.
        rewrite bool_decide_true by done. split; [done|]. apply Hin. exists row. cbn. tauto.
      * exists (mkFriend v uid (fr_status row) (fr_created_at row)). split.
        -- unfold normalize. cbn. case_bool_decide as Hc; cbn; congruence.
        -- apply Hin. exists row. cbn. tauto.
Qed.

(** ** Unread counts *)

Definition unread (t : Tables) (uid peer : string) : Z := default 0 (t_unread t !! (uid, peer)).

Inductive UnreadOp := UInc (uid peer : string) | UMark (uid peer : string).

Definition sql_unread (op : UnreadOp) : Op (string + Z) :=
  match op with
  | UInc uid peer => SqlIncrement uid peer
  | UMark uid peer => let! r := SqlMarkRead uid peer in
                      ret (match r with Some e => inl e | None => inr 0 end)
  end.

Fixpoint sql_unreads (ops : list UnreadOp) : Op (list (string + Z)) :=
  match ops with
  | [] => ret []
  | op :: ops => let! r := sql_unread op in let! rs := sql_unreads ops in ret (r :: rs)
  end.

(** The least and the greatest count the outcomes allow: a failed increment may
    have counted, a failed reset may have cleared. *)
Definition unread_bounds (uid peer : string) (b : Z * Z) (o : UnreadOp * (string + Z)) : Z * Z :=
  match o with
  | (UInc u p, r) =>
      if bool_decide (u = uid /\ p = peer)
      then (match r with inr _ => b.1 + 1 | inl _ => b.1 end, b.2 + 1) else b
  | (UMark u p, r) =>
      if bool_decide (u = uid /\ p = peer) then (0, match r with inr _ => 0 | inl _ => b.2 end) else b
  end.

(** Counts are positive where there is a row and fit the column. *)
Definition unread_ok (t : Tables) : Prop := forall uid peer, 0 <= unread t uid peer < 2 ^ 63.

Definition unread_inc (t t' : Tables) (uid peer : string) : Prop :=
  unread t' uid peer = unread t uid peer + 1 /\
  (forall u p, (u, p) <> (uid, peer) -> unread t' u p = unread t u p) /\ unread_ok t'.

Definition unread_clear (t t' : Tables) (uid peer : string) : Prop :=
  unread t' uid peer = 0 /\
  (forall u p, (u, p) <> (uid, peer) -> unread t' u p = unread t u p) /\ unread_ok t'.

Lemma unread_set t uid peer n u p :
  unread (set_unread (<[(uid, peer) := n]> (t_unread t)) t) u p =
  if decide ((u, p) = (uid, peer)) then n else unread t u p.
Proof.
  unfold unread. cbn. case_decide as H; [rewrite H; by rewrite lookup_insert_eq|].
  by rewrite lookup_insert_ne.
Qed.

Lemma upsert_inc uid peer t n t' :
  run_stmt (UpsertUnread uid peer) t = inr (n, t') -> unread_ok t -> unread_inc t t' uid peer.
Proof.
  intros H Hok. cbn in H.
  assert (Hset : forall m, unread t uid peer + 1 = m -> m < 2 ^ 63 ->
    unread_inc t (set_unread (<[(uid, peer) := m]> (t_unread t)) t) uid peer).
  { intros m Hm Hlt. pose proof (Hok uid peer) as Hu. split_and!.
    - rewrite unread_set. by rewrite decide_True.
    - intros u p Hne. rewrite unread_set. by rewrite decide_False.
    - intros u p. rewrite unread_set. case_decide; [lia|apply Hok]. }
  unfold unread in Hset. destruct (t_unread t !! (uid, peer)) as [c|]; cbn in Hset.
  - destruct (c <? 2 ^ 63 - 1) eqn:Hc; [|done]. apply Z.ltb_lt in Hc. injection H as _ <-.
    apply Hset; lia.
  - injection H as _ <-. apply Hset; [done|lia].
Qed.

Lemma delete_clear uid peer t n t' :
  run_stmt (DeleteUnread uid peer) t = inr (n, t') -> unread_ok t -> unread_clear t t' uid peer.
Proof.
  intros H Hok. cbn in H. unfold affected, deleteRow in H.
  destruct (t_unread t !! (uid, peer)) as [c|] eqn:Hc; cbn in H; injection H as _ <-.
  - assert (Hd : forall u p, unread (set_unread (delete (uid, peer) (t_unread t)) t) u p =
      if decide ((u, p) = (uid, peer)) then 0 else unread t u p).
    { intros u p. unfold unread. cbn. case_decide as He; [rewrite He; by rewrite lookup_delete_eq|].
      by rewrite lookup_delete_ne. }
    split_and!; [rewrite Hd; by rewrite decide_True|intros u p Hne; rewrite Hd; by rewrite decide_False|].
    intros u p. rewrite Hd. case_decide; [lia|apply Hok].
  - assert (Hid : set_unread (t_unread t) t = t) by by destruct t. rewrite Hid.
    split_and!; [unfold unread; by rewrite Hc|done|done].
Qed.

Lemma SqlGetCount_triple uid peer t t0 :
  triple (at_ t t0) (SqlGetCount uid peer) (fun r p => at_ t t0 p /\
    match r with inr n => n = unread t uid peer | inl _ => True end).
Proof.
  unfold SqlGetCount. apply queryRow_bind; [intros e; by apply ret_at|]. intros l Hl.
  apply ret_at. intros p Hp. split; [done|]. apply answers_all in Hl. unfold unread.
  destruct (t_unread t !! (uid, peer)).
  - symmetry in Hl. apply Permutation_singleton_l in Hl. by subst l.
  - symmetry in Hl. apply Permutation_nil_l in Hl. by subst l.
Qed.

(** The counts after an operation, with its outcome. *)
Definition unread_post (op : UnreadOp) (t : Tables) (r : string + Z) (t' : Tables) : Prop :=
  match op with
  | UInc u p =>
      match r with
      | inr n => unread_inc t t' u p /\ n = unread t' u p
      | inl _ => t' = t \/ unread_inc t t' u p
      end
  | UMark u p =>
      match r with
      | inr _ => unread_clear t t' u p
      | inl _ => t' = t \/ unread_clear t t' u p
      end
  end.

Lemma sql_unread_post op t t0 :
  unread_ok t -> triple (at_ t t0) (sql_unread op) (fun r p => unread_post op t r (tables p.1)).
Proof.
  intros Hok. destruct op as [u p|u p]; cbn [sql_unread].
  - unfold SqlIncrement. apply exec_bind.
    + intros e t' Hm _. apply ret_at. intros q [-> _]. destruct Hm as [->|[n Hn]]; [by left|right].
      by apply upsert_inc in Hn.
    + intros n t' Hn. apply upsert_inc in Hn; [|done].
      eapply triple_conseq; [apply SqlGetCount_triple|done|]. intros [e|m] q [[-> _] Hm]; cbn.
      * by right.
      * by rewrite Hm.
  - eapply triple_seq with (Q := fun r q => match r with
      | None => unread_clear t (tables q.1) u p
      | Some _ => tables q.1 = t \/ unread_clear t (tables q.1) u p end).
    + unfold SqlMarkRead. apply exec_bind.
      * intros e t' Hm _. apply ret_at. intros q [-> _]. destruct Hm as [->|[n Hn]]; [by left|right].
        by apply delete_clear in Hn.
      * intros n t' Hn. apply ret_at. intros q [-> _]. by apply delete_clear in Hn.
    + by intros [e|] q Hq.
Qed.

Lemma unread_bounds_step op r t t' uid peer b :
  unread_post op t r t' -> unread_ok t -> b.1 <= unread t uid peer <= b.2 -> 0 <= b.1 ->
  let b' := unread_bounds uid peer b (op, r) in
  unread_ok t' /\ b'.1 <= unread t' uid peer <= b'.2 /\ 0 <= b'.1.
Proof.
  intros Hp Hok Hb H0.
  assert (Hk : forall u p, (u = uid /\ p = peer) \/ (uid, peer) <> (u, p)).
  { intros u p. destruct (decide ((uid, peer) = (u, p))); [left|right]; naive_solver. }
  assert (Hi : forall u p, unread_inc t t' u p -> unread_ok t' /\
    (if bool_decide (u = uid /\ p = peer) then unread t' uid peer = unread t uid peer + 1
     else unread t' uid peer = unread t uid peer)).
  { intros u p (H1 & H2 & H3). split; [done|]. destruct (Hk u p) as [[-> ->]|Hne].
    - by rewrite bool_decide_true.
    - rewrite bool_decide_false by naive_solver. by apply H2. }
  assert (Hcl : forall u p, unread_clear t t' u p -> unread_ok t' /\
    (if bool_decide (u = uid /\ p = peer) then unread t' uid peer = 0
     else unread t' uid peer = unread t uid peer)).
  { intros u p (H1 & H2 & H3). split; [done|]. destruct (Hk u p) as [[-> ->]|Hne].
    - by rewrite bool_decide_true.
    - rewrite bool_decide_false by naive_solver. by apply H2. }
  destruct op as [u p|u p]; cbn in Hp |- *; destruct r as [e|n].
  - destruct Hp as [->|[Hok' Hu]%Hi]; case_bool_decide; cbn; (split; [done|]); lia.
  - destruct Hp as [[Hok' Hu]%Hi _]. case_bool_decide; cbn; (split; [done|]); lia.
  - destruct Hp as [->|[Hok' Hu]%Hcl]; case_bool_decide; cbn; (split; [done|]); lia.
  - apply Hcl in Hp as [Hok' Hu]. case_bool_decide; cbn; (split; [done|]); lia.
Qed.

Lemma sql_unreads_bounds ops d s uid peer b :
  unread_ok (tables d) -> b.1 <= unread (tables d) uid peer <= b.2 -> 0 <= b.1 ->
  let r := sql_unreads ops (d, s) in
  let b' := foldl (unread_bounds uid peer) b (zip ops r.1) in
  unread_ok (tables r.2.1) /\ b'.1 <= unread (tables r.2.1) uid peer <= b'.2 /\ 0 <= b'.1.
Proof.
  revert d s b. induction ops as [|op ops IH]; intros d s b Hok Hb H0; [done|]. cbv zeta. cbn [sql_unreads].
  rewrite bind_run.
  pose proof (sql_unread_post op (tables d) (saved d) Hok (d, s) (conj eq_refl eq_refl)) as Hp.
  destruct (sql_unread op (d, s)) as [r [d' s']]. cbn [fst snd] in Hp |- *.
  destruct (unread_bounds_step op r _ _ uid peer b Hp Hok Hb H0) as (Hok' & Hb' & H0').
  specialize (IH d' s' _ Hok' Hb' H0'). rewrite bind_run.
  by destruct (sql_unreads ops (d', s')) as [rs [d'' s'']].
Qed.

Lemma elem_of_selectUnreads uid t peer n :
  (peer, n) ∈ sel_rows (selectUnreads uid) t <-> t_unread t !! (uid, peer) = Some n.
Proof.
  cbn. rewrite list_elem_of_omap. split.
  - intros ([[u p] m] & Hin & Hs). apply elem_of_map_to_list in Hin. cbn in Hs.
    case_bool_decide; by simplify_eq.
  - intros H. exists ((uid, peer), n). rewrite elem_of_map_to_list. split; [done|]. cbn.
    by rewrite bool_decide_true.
Qed.

Lemma foldl_insert_pairs_lookup {A} (l : list (string * A)) (acc : gmap string A) (k : string) :
  (forall a b, (k, a) ∈ l -> (k, b) ∈ l -> a = b) ->
  forall v, foldl (fun m p => <[p.1 := p.2]> m) acc l !! k = Some v <->
    (k, v) ∈ l \/ (forall a, (k, a) ∉ l) /\ acc !! k = Some v.
Proof.
  revert acc. induction l as [|[k' a] l IH]; intros acc Hu v; cbn [foldl].
  - set_solver.
  - rewrite IH by (intros x y Hx Hy; apply Hu; by right). cbn [fst snd].
    destruct (decide (k' = k)) as [->|Hne].
    + rewrite lookup_insert_eq. split.
      * intros [H|[Hn [= <-]]]; [left; by right|left; left].
      * intros [[[= ->]|H]%elem_of_cons|[Hn _]]; [|by left|exfalso; apply (Hn a); left].
        destruct (decide (k ∈ l.*1)) as [Hb|Hnb].
        -- apply list_elem_of_fmap in Hb as ([k' b] & -> & Hb). left. rewrite (Hu a b); [done|left|by right].
        -- right. split; [|done]. intros b Hb. apply Hnb, list_elem_of_fmap. by exists (k, b).
    + rewrite lookup_insert_ne by done. split.
      * intros [H|[Hn H]]; [left; by right|right]. split; [|done].
        intros b [[= -> _]|Hb]%elem_of_cons; [done|by apply (Hn b)].
      * intros [[[= -> _]|H]%elem_of_cons|[Hn H]]; [done|by left|right]. split; [|done].
        intros b Hb. apply (Hn b). by right.
Qed.

Lemma SqlGetCounts_triple uid t t0 :
  triple (at_ t t0) (SqlGetCounts uid) (fun r p => at_ t t0 p /\
    match r with inr m => forall peer, default 0 (m !! peer) = unread t uid peer | inl _ => True end).
Proof.
  unfold SqlGetCounts. apply query_bind; [intros e; by apply ret_at|]. intros l Hl.
  apply ret_at. intros p Hp. split; [done|]. apply answers_all in Hl. intros peer. unfold unread.
  f_equal. apply option_eq. intros n.
  assert (Hin : forall a, (peer, a) ∈ l <-> t_unread t !! (uid, peer) = Some a)
    by (intros a; rewrite Hl; apply elem_of_selectUnreads).
  rewrite foldl_insert_pairs_lookup by (intros a b Ha%Hin Hb%Hin; congruence).
  rewrite Hin, lookup_empty. naive_solver.
Qed.

(** ** Properties *)

(** C32. The user store is a map of users.  Creating, changing and deleting a user
    has exactly its effect when it is reported done (creation only under a free uid,
    the rest only of an existing user); that effect or none when an error is
    reported; and none when the error is that the user is not found, which is said
    only of a user that is absent, or of a password that is the stored one.  A
    lookup, the count and a page of the list answer what the map holds.  While the
    database answers, whatever can be done is reported done, an unchanged role or
    state too, and the queries do not fail. *)
Theorem mysql_users_refine op uid offset limit d s :
  let t := tables d in
  (let r := sql_user op (d, s) in user_post op (usersIn t) r.1 (usersIn (tables r.2.1))) /\
  (let r := SqlGetByUID uid (d, s) in
   tables r.2.1 = t /\ match r.1 with inr o => o = usersIn t !! uid | inl _ => True end) /\
  (let r := SqlCountUsers (d, s) in
   tables r.2.1 = t /\ match r.1 with inr n => n = Z.of_nat (size (usersIn t)) | inl _ => True end) /\
  (let r := SqlListUsers offset limit (d, s) in
   tables r.2.1 = t /\ match r.1 with
   | inr (l, total) => total = Z.of_nat (size (usersIn t)) /\
       user_page (usersIn t) (if offset <? 0 then 0 else offset)
         (if (limit <=? 0) || (200 <? limit) then 50 else limit) l
   | inl _ => True
   end) /\
  (forall ok, answering ok -> ok d ->
     (doable op (usersIn t) -> (sql_user op (d, s)).1 = None) /\
     (exists o, (SqlGetByUID uid (d, s)).1 = inr o) /\ (exists n, (SqlCountUsers (d, s)).1 = inr n) /\
     (exists o, (SqlListUsers offset limit (d, s)).1 = inr o)).
Proof.
  intros t. assert (Hat : at_ t (saved d) (d, s)) by done. split_and!.
  - exact (sql_user_post op t (saved d) _ Hat).
  - destruct (SqlGetByUID_triple uid t (saved d) _ Hat) as [[H1 _] H2]. by split.
  - destruct (SqlCountUsers_triple t (saved d) _ Hat) as [[H1 _] H2]. by split.
  - destruct (SqlListUsers_triple offset limit t (saved d) _ Hat) as [[H1 _] H2]. by split.
  - intros ok Hok Hd. assert (Hs : sure ok t (d, s)) by done. split_and!.
    + intros Hdo. by apply (sql_user_sure ok Hok op t Hdo (d, s)).
    + by apply (SqlGetByUID_sure ok Hok uid t (d, s)).
    + by apply (SqlCountUsers_sure ok Hok t (d, s)).
    + by apply (SqlListUsers_sure ok Hok offset limit t (d, s)).
Qed.

(** C14. Friendship needs both sides.  Over any history of calls from an empty
    table, a friendship request was sent by the one who is recorded as its
    sender, and two users are friends only if one of them sent a request that
    the other accepted afterwards; the list a user is given is exactly their
    friends, so it is symmetric. *)
Theorem mysql_friends_consent ops d s :
  t_friends (tables d) = ∅ ->
  let st := (sql_friends ops (d, s)).2 in
  let t := tables st.1 in
  (forall a b, friends t a b -> exists u v i j, (u = a /\ v = b \/ u = b /\ v = a) /\ (i < j)%nat /\
     ops !! i = Some (FSend u v) /\ ops !! j = Some (FAccept v u)) /\
  (forall uid, match (SqlGetFriends uid st).1 with
               | inr l => StronglySorted (fun a b => f_CreatedAt b <= f_CreatedAt a) l /\
                   forall v, v ∈ map f_UID l <-> friends t uid v
               | inl _ => True
               end) /\
  (forall a b, friends t a b <-> friends t b a).
Proof.
  intros He st t.
  assert (Hc : consented ops (t_friends t)).
  { apply (sql_friends_consented [] ops d s). by rewrite He. }
  split_and!.
  - intros a b (row & Hr & Ha).
    assert (Hw : forall u v, t_friends t !! (u, v) = Some row -> exists i j, (i < j)%nat /\
      ops !! i = Some (FSend u v) /\ ops !! j = Some (FAccept v u)).
    { intros u v H. destruct (Hc u v row H) as (_ & i & Hi & Hj). destruct (Hj Ha) as (j & Hij & Hj').
      by exists i, j. }
    destruct Hr as [Hr|Hr]; destruct (Hw _ _ Hr) as (i & j & H).
    + exists a, b, i, j. split; [by left|done].
    + exists b, a, i, j. split; [by right|done].
  - intros uid. by destruct (SqlGetFriends_triple uid t (saved st.1) st (conj eq_refl eq_refl)) as [_ H].
  - intros a b. unfold friends. naive_solver.
Qed.

(** C31. Over any history of increments and resets on a database that may lose
    statements and replies, a stored unread count lies between what the
    acknowledged calls imply and what the attempted ones do, and never leaves the
    range of its column (at the top an increment is refused rather than wrapped);
    a query that succeeds reports exactly these counts. *)
Theorem mysql_unread_bounds ops d s uid peer :
  unread_ok (tables d) ->
  let c := unread (tables d) uid peer in
  let r := sql_unreads ops (d, s) in
  let b := foldl (unread_bounds uid peer) (c, c) (zip ops r.1) in
  0 <= b.1 /\ b.1 <= unread (tables r.2.1) uid peer <= b.2 /\ unread_ok (tables r.2.1) /\
  match (SqlGetCounts uid r.2).1 with
  | inr m => default 0 (m !! peer) = unread (tables r.2.1) uid peer
  | inl _ => True
  end.
Proof.
  intros Hok c r b. pose proof (Hok uid peer) as Hu. fold c in Hu.
  destruct (sql_unreads_bounds ops d s uid peer (c, c) Hok) as (H1 & H2 & H3); [cbn; fold c; lia|cbn; lia|].
  split_and!; [done|apply H2|apply H2|done|].
  destruct (SqlGetCounts_triple uid (tables r.2.1) (saved r.2.1) r.2 (conj eq_refl eq_refl)) as [_ H].
  destruct (SqlGetCounts uid r.2).1; [done|apply H].
Qed.

End Facts.

(** ** Witnesses *)

Definition emptyDB (o : list Outcome) : TableDB := mkTableDB emptyTables emptyTables o.
Definition userDemoSys : Sys := mkSys 0 (mkGenerator 1 0 0).

(** A database that loses nothing. *)
Lemma faultless_answers : answering (fun d : TableDB => td_outcomes d = []).
Proof.
  intros d Hd. split.
  - intros st n t' Hr. change (tables d) with (td_tables d) in Hr. cbn [Exec TableDB_Database].
    unfold execTables, nextOutcome. rewrite Hd. cbn. rewrite Hr. by eexists.
  - intros A q. cbn [Query TableDB_Database]. unfold queryTables, nextOutcome. rewrite Hd. cbn. by eexists _, _.
Qed.

Definition adminDB : TableDB :=
  mkTableDB (set_users {[ "alice" := mkUserRow "Alice" "hash" 5 "admin" 0 ]} emptyTables) emptyTables [].

(** Alice is made the administrator she is. *)
Lemma mysql_users_refine_witness :
  (sql_user (URole "alice" "admin") (adminDB, userDemoSys)).1 = None /\
  usersIn (tables (sql_user (URole "alice" "admin") (adminDB, userDemoSys)).2.1) = usersIn (tables adminDB).
Proof.
  destruct (mysql_users_refine (URole "alice" "admin") "alice" 0 0 adminDB userDemoSys) as (H1 & _ & _ & _ & H2).
  assert (Hd : doable (URole "alice" "admin") (usersIn (tables adminDB))) by (split; [by eexists|done]).
  pose proof (proj1 (H2 _ faultless_answers eq_refl) Hd) as Hn. split; [exact Hn|].
  cbv zeta in H1. rewrite Hn in H1. unfold user_post in H1. vm_compute in H1. vm_compute. congruence.
Defined.

Lemma emptyDB_friends o : t_friends (tables (emptyDB o)) = ∅.
Proof. done. Qed.

Definition friendHistory : list FriendOp := [FSend "alice" "bob"; FAccept "bob" "alice"].

Lemma mysql_friends_consent_witness :
  let st := (sql_friends (E := steadyEnv) friendHistory (emptyDB [Reached; Unacknowledged], userDemoSys)).2 in
  friends (tables st.1) "bob" "alice" /\ friends (tables st.1) "alice" "bob".
Proof.
  intros st.
  assert (Hf : friends (tables st.1) "alice" "bob").
  { exists (mkFriendRow 1 1704067200001 1704067200021). split; [left|]; vm_compute; reflexivity. }
  destruct (mysql_friends_consent (E := steadyEnv) friendHistory (emptyDB [Reached; Unacknowledged])
    userDemoSys (emptyDB_friends _)) as (_ & _ & H).
  split; [|exact Hf]. exact (proj1 (H "alice" "bob") Hf).
Defined.

Definition unreadHistory : list UnreadOp :=
  [UInc "bob" "alice"; UInc "bob" "alice"; UMark "bob" "carol"; UInc "bob" "alice"].

Definition lossyDB : TableDB := emptyDB [Reached; Reached; Unacknowledged; Reached; Refused].

Lemma emptyDB_unread_ok o : unread_ok (tables (emptyDB o)).
Proof. intros u p. change (tables (emptyDB o)) with emptyTables. unfold unread. cbn. rewrite lookup_empty. cbn. lia. Qed.

Lemma mysql_unread_bounds_witness :
  let r := sql_unreads unreadHistory (lossyDB, userDemoSys) in
  r.1 = [inr 1; inl "increment unread: invalid connection"; inr 0; inl "increment unread: invalid connection"] /\
  unread (tables r.2.1) "bob" "alice" = 2 /\ unread_ok (tables r.2.1).
Proof.
  intros r. refine (conj _ (conj _ _)); [vm_compute; reflexivity..|].
  destruct (mysql_unread_bounds unreadHistory lossyDB userDemoSys "bob" "alice" (emptyDB_unread_ok _))
    as (_ & _ & H & _).
  exact H.
Defined.

(** Requests in both directions are two rows; when both are accepted each user
    has the other twice. *)
Lemma cross_requests_twice :
  let st := (sql_friends (E := steadyEnv) [FSend "alice" "bob"; FSend "bob" "alice"; FAccept "bob" "alice";
    FAccept "alice" "bob"] (emptyDB [], userDemoSys)).2 in
  (SqlSendRequest (E := steadyEnv) "bob" "alice"
     (SqlSendRequest (E := steadyEnv) "alice" "bob" (emptyDB [], userDemoSys)).2).1 = None /\
  match (SqlGetFriends "alice" st).1 with inr l => map f_UID l = ["bob"; "bob"] | inl _ => False end.
Proof. by vm_compute. Qed.

(** After a rejection the same request is refused for good. *)
Lemma rejected_request_final :
  let st := (sql_friends (E := steadyEnv) [FSend "alice" "bob"; FReject "bob" "alice"] (emptyDB [], userDemoSys)).2 in
  (SqlSendRequest (E := steadyEnv) "alice" "bob" st).1 =
    Some "friend request already exists between alice and bob" /\
  (SqlRemoveFriend "alice" "bob" st).1 = Some "friendship not found between alice and bob".
Proof. by vm_compute. Qed.
