(* ===== verification/Producer.v ===== *)
(** * The Kafka producer (src/internal/mq/producer.go)

    [Publish] writes one record per message, keyed by the message id in eight
    big-endian bytes; the Kafka writer is the interface [KafkaWriter].  A
    failed marshal or write is only logged. *)

From S2P Require Import Prelude Proto.

Class KafkaWriter (K : Type) := mkKafkaWriter {
  WriteMessages : bytes -> bytes -> K -> option string * K
}.

Definition byte_of (z : Z) : Byte.byte := default Byte.x00 (Byte.of_N (Z.to_N (z mod 256))).

(** [binary.BigEndian.PutUint64(key, uint64(id))]. *)
Definition PutUint64 (id : Z) : bytes :=
  map (fun i => byte_of (Z.shiftr (id mod 2 ^ 64) (8 * i))) [7; 6; 5; 4; 3; 2; 1; 0].

Section Producer.
Context {K : Type} {KW : KafkaWriter K} {C : Codec}.

Definition Publish (msg : Message) (k : K) : K :=
  match marshal msg with
  | None => k
  | Some data => (WriteMessages (PutUint64 (MsgId msg)) data k).2
  end.

End Producer.

(** ** Equal keys come from equal ids *)

Lemma byte_of_val z : Z.of_N (Byte.to_N (byte_of z)) = z mod 256.
Proof.
  unfold byte_of. pose proof (Z.mod_pos_bound z 256 ltac:(lia)) as Hb.
  destruct (Byte.of_N (Z.to_N (z mod 256))) as [b|] eqn:Hz; simpl.
  - apply Byte.to_of_N in Hz. rewrite Hz. lia.
  - apply Byte.of_N_None_iff in Hz. lia.
Qed.

Lemma PutUint64_value id :
  foldl (fun acc b => acc * 256 + Z.of_N (Byte.to_N b)) 0 (PutUint64 id) = id mod 2 ^ 64.
Proof.
  unfold PutUint64. cbn [map foldl]. rewrite !byte_of_val, !Z.shiftr_div_pow2 by lia.
  set (n := id mod 2 ^ 64). assert (0 <= n < 2 ^ 64) by (apply Z.mod_pos_bound; lia).
  cbn [Z.mul Pos.mul Pos.add Z.pow Z.pow_pos Pos.iter]. clearbody n.
  Z.to_euclidean_division_equations. lia.
Qed.

Lemma PutUint64_inj a b : in_int64 a -> in_int64 b -> PutUint64 a = PutUint64 b -> a = b.
Proof.
  unfold in_int64. intros Ha Hb H. apply (f_equal (foldl (fun acc b => acc * 256 + Z.of_N (Byte.to_N b)) 0)) in H.
  rewrite !PutUint64_value in H. Z.to_euclidean_division_equations. lia.
Qed.
