(* ===== verification/Consumer.v ===== *)
(** * The Kafka consumer (src/internal/mq/consumer.go)

    [Run]'s loop body, the bounded buffer, [flushAll] and the commits, over an
    interface for one partition of the reader and the message store's [Save], and
    the goroutines of the consumer as interleaved steps.  What is proved: which
    records are committed and when, which are saved when the committed position has
    passed them and which are not, and that a cancelled consumer flushes and ends. *)

From S2P Require Import Prelude Proto Snowflake Process Stores.

Record KafkaMessage := mkKafkaMessage { km_Offset : Z; km_Value : bytes }.

(** The reader of one partition.  [CommitMessages] of several messages
    commits the highest of their offsets: after a restart, fetching resumes at
    the record after it; a commit that reports an error may have had its effect. *)
Class KafkaReader (R : Type) := mkKafkaReader {
  FetchMessage : R -> (string + KafkaMessage) * R;
  CommitMessages : list KafkaMessage -> R -> option string * R
}.

Definition maxOffset (l : list KafkaMessage) : Z := foldr (fun m x => Z.max (km_Offset m) x) (-1) l.

Class KafkaReaderLaws (R : Type) `{KafkaReader R} := mkKafkaReaderLaws {
  nextOffset : R -> Z;
  resume : R -> Z;
  Fetch_law : forall r, match FetchMessage r with
    | (inr m, r') => km_Offset m = nextOffset r /\ nextOffset r' = nextOffset r + 1 /\
                     resume r' = resume r
    | (inl _, r') => nextOffset r' = nextOffset r /\ resume r' = resume r
    end;
  Commit_law : forall l r, l <> [] -> match CommitMessages l r with
    | (None, r') => resume r' = maxOffset l + 1 /\ nextOffset r' = nextOffset r
    | (Some _, r') => (resume r' = resume r \/ resume r' = maxOffset l + 1) /\ nextOffset r' = nextOffset r
    end
}.

Definition defaultBatchSize : nat := 100.
Definition maxBufferSize : nat := 10000.

Record bufferedMsg := mkBufferedMsg { bm_msg : Message; bm_km : KafkaMessage }.

(** [flushPending] is the one slot of [flushCh]; [dropped] are the commits the
    goroutines started for dropped messages have yet to make. *)
Record Consumer (R MS : Type) := mkConsumer {
  reader : R;
  store : option MS;
  buffer : list bufferedMsg;
  flushPending : bool;
  dropped : list KafkaMessage
}.
Arguments mkConsumer {R MS}.
Arguments reader {R MS}.
Arguments store {R MS}.
Arguments buffer {R MS}.
Arguments flushPending {R MS}.
Arguments dropped {R MS}.

Definition NewConsumer {R MS} (r : R) (st : option MS) : Consumer R MS :=
  mkConsumer r st [] false [].

Section Consumer.
Context {E : Env} {C : Codec} {R MS : Type} {KR : KafkaReader R} {MSI : MessageStore MS}.

Definition set_reader (r : R) (c : Consumer R MS) : Consumer R MS :=
  mkConsumer r (store c) (buffer c) (flushPending c) (dropped c).
Definition set_store (x : option MS) (c : Consumer R MS) : Consumer R MS :=
  mkConsumer (reader c) x (buffer c) (flushPending c) (dropped c).
Definition set_buffer (b : list bufferedMsg) (c : Consumer R MS) : Consumer R MS :=
  mkConsumer (reader c) (store c) b (flushPending c) (dropped c).
Definition set_flush (b : bool) (c : Consumer R MS) : Consumer R MS :=
  mkConsumer (reader c) (store c) (buffer c) b (dropped c).
Definition set_dropped (l : list KafkaMessage) (c : Consumer R MS) : Consumer R MS :=
  mkConsumer (reader c) (store c) (buffer c) (flushPending c) l.

Definition CM := St (Consumer R MS * Sys).

(** A commit, whose error is only logged. *)
Definition commit (l : list KafkaMessage) : CM unit :=
  modify (fun '(c, s) => (set_reader (CommitMessages l (reader c)).2 c, s)).

(** Making room: the oldest message goes, to be committed by a goroutine. *)
Definition makeRoom : CM unit :=
  modify (fun '(c, s) =>
    if (maxBufferSize <=? length (buffer c))%nat then
      match buffer c with
      | [] => (c, s)
      | old :: rest => (set_dropped (dropped c ++ [bm_km old]) (set_buffer rest c), s)
      end
    else (c, s)).

Definition enqueue (b : bufferedMsg) : CM unit :=
  makeRoom ;;!
  modify (fun '(c, s) => (set_buffer (buffer c ++ [b]) c, s)) ;;!
  modify (fun '(c, s) =>
    if (defaultBatchSize <=? length (buffer c))%nat then (set_flush true c, s) else (c, s)).

(** The goroutine of a dropped message. *)
Definition commitDropped : CM unit :=
  let! c := getX in
  match dropped c with
  | [] => ret tt
  | km :: rest => putX (set_dropped rest c) ;;! commit [km]
  end.

(** One message of a batch; without a store it counts as saved. *)
Definition saveOne (bm : bufferedMsg) : CM bool :=
  fun '(c, s) =>
    match store c with
    | None => (true, (c, s))
    | Some ms =>
        let '(err, (ms', s')) := Save (bm_msg bm) (ms, s) in
        (match err with None => true | Some _ => false end, (set_store (Some ms') c, s'))
    end.

(** The records of a batch whose save succeeded. *)
Fixpoint saveAll (batch : list bufferedMsg) : CM (list KafkaMessage) :=
  match batch with
  | [] => ret []
  | bm :: rest =>
      let! ok := saveOne bm in
      let! l := saveAll rest in
      ret (if ok then bm_km bm :: l else l)
  end.

(** Returns what it saved. *)
Definition flushAll : CM (list KafkaMessage) :=
  let! c := getX in
  match buffer c with
  | [] => ret []
  | batch =>
      putX (set_buffer [] c) ;;!
      let! succeeded := saveAll batch in
      (match succeeded with [] => ret tt | _ => commit succeeded end) ;;!
      ret succeeded
  end.

(** ** What a flush does *)

Context {KL : KafkaReaderLaws R}.

Definition offsets (b : list bufferedMsg) : list Z := map (fun x => km_Offset (bm_km x)) b.

Lemma saveOne_run bm c s :
  let r := saveOne bm (c, s) in
  reader r.2.1 = reader c /\ buffer r.2.1 = buffer c /\ dropped r.2.1 = dropped c /\
  flushPending r.2.1 = flushPending c.
Proof.
  unfold saveOne. destruct (store c) as [ms|]; [|done]. by destruct (Save (bm_msg bm) (ms, s)) as [err [ms' s']].
Qed.

Lemma saveAll_cons bm rest p :
  saveAll (bm :: rest) p =
  let v := saveOne bm p in let w := saveAll rest v.2 in
  (if v.1 then bm_km bm :: w.1 else w.1, w.2).
Proof.
  cbn [saveAll]. unfold bind, ret. destruct (saveOne bm p) as [ok q]. cbn [fst snd].
  by destruct (saveAll rest q).
Qed.

(** Saving touches the store only. *)
Lemma saveAll_run batch c s :
  let r := saveAll batch (c, s) in
  reader r.2.1 = reader c /\ buffer r.2.1 = buffer c /\ dropped r.2.1 = dropped c /\
  flushPending r.2.1 = flushPending c /\
  (forall km, km ∈ r.1 -> exists bm, bm ∈ batch /\ bm_km bm = km).
Proof.
  revert c s. induction batch as [|bm rest IH]; intros c s; cbv zeta.
  { simpl. split_and!; try done. intros km H. by apply not_elem_of_nil in H. }
  rewrite saveAll_cons. destruct (saveOne_run bm c s) as (H1 & H2 & H3 & H4).
  destruct (saveOne bm (c, s)) as [ok [c1 s1]]. cbn [fst snd] in *.
  destruct (IH c1 s1) as (I1 & I2 & I3 & I4 & I5).
  destruct (saveAll rest (c1, s1)) as [l [c2 s2]]. cbn [fst snd] in *.
  split_and!; [congruence..|]. intros km Hkm.
  assert (km = bm_km bm \/ km ∈ l) as [->|Hl] by (destruct ok; [by apply elem_of_cons in Hkm|auto]).
  - exists bm. split; [left|done].
  - destruct (I5 km Hl) as (x & Hx & <-). exists x. split; [by right|done].
Qed.

Lemma flushAll_empty c s : buffer c = [] -> flushAll (c, s) = ([], (c, s)).
Proof. intros H. unfold flushAll, bind, getX, gets. simpl. by rewrite H. Qed.

Lemma flushAll_run c s :
  buffer c <> [] ->
  let v := saveAll (buffer c) (set_buffer [] c, s) in
  flushAll (c, s) = (v.1, (match v.1 with [] => ret tt | _ => commit v.1 end v.2).2).
Proof.
  intros H v. unfold v, flushAll, bind at 1, getX, gets. cbn [fst snd].
  destruct (buffer c) as [|bm rest]; [done|]. unfold bind at 1. cbn [putX modify fst snd].
  unfold bind at 1. destruct (saveAll (bm :: rest) _) as [l p]. by rewrite bind_ret_state.
Qed.

Lemma maxOffset_ge l km : km ∈ l -> km_Offset km <= maxOffset l.
Proof. induction 1; simpl; lia. Qed.

Lemma commit_run l c s :
  let p := (commit l (c, s)).2 in
  buffer p.1 = buffer c /\ dropped p.1 = dropped c /\
  (l <> [] -> nextOffset (reader p.1) = nextOffset (reader c) /\
     (resume (reader p.1) = resume (reader c) \/ resume (reader p.1) = maxOffset l + 1)).
Proof.
  unfold commit, modify. simpl. split_and!; [done..|]. intros Hl.
  pose proof (Commit_law l (reader c) Hl) as H.
  destruct (CommitMessages l (reader c)) as [[e|] r']; destruct H; auto.
Qed.

(** C39. A flush commits past the failures of its batch: when one save of the
    batch fails, a later one succeeds and the commit is accepted, the committed
    position is beyond the failed record, which is neither buffered any more
    nor fetched again after a restart. *)
Theorem flush_commits_past_failures c s bm km r' :
  let v := flushAll (c, s) in
  let succeeded := (saveAll (buffer c) (set_buffer [] c, s)).1 in
  bm ∈ buffer c -> bm_km bm ∉ succeeded -> km ∈ succeeded ->
  km_Offset (bm_km bm) < km_Offset km ->
  CommitMessages succeeded (reader c) = (None, r') ->
  v.1 = succeeded /\ buffer v.2.1 = [] /\ km_Offset (bm_km bm) < resume (reader v.2.1).
Proof.
  intros v succeeded Hin Hfail Hkm Hlt Hc.
  assert (Hne : buffer c <> []) by (intros He; rewrite He in Hin; by apply not_elem_of_nil in Hin).
  unfold v. rewrite flushAll_run by done. fold succeeded.
  destruct (saveAll_run (buffer c) (set_buffer [] c) s) as (H1 & H2 & _).
  unfold succeeded in *. destruct (saveAll _ _) as [l [c1 s1]].
  cbn [fst snd reader buffer set_buffer] in *.
  assert (Hl : l <> []) by (intros ->; by apply not_elem_of_nil in Hkm).
  replace (match l with [] => _ | _ => commit l end) with (commit l) by (by destruct l).
  unfold commit, modify. cbn [fst snd set_reader buffer reader]. split_and!; [done|done|].
  rewrite H1. pose proof (Commit_law l (reader c) Hl) as Hlaw. rewrite Hc in Hlaw |- *.
  cbn [fst snd]. destruct Hlaw as [-> _]. pose proof (maxOffset_ge l km Hkm). lia.
Qed.

End Consumer.

(** ** The consumer's goroutines

    [Run] and [flushLoop] as interleaved steps: a flush takes its batch, saves it
    message by message and commits, and the other goroutine can run in between. *)

(** How a fetched record ended. *)
Inductive Fate := Saved | SaveFailed | Malformed | DroppedOldest.

(** [Run]: at its [select], in [FetchMessage], with a record in hand, in the flush
    of the shutdown with what is left of the batch and what was saved of it, or
    gone, with [done] closed. *)
Inductive RunPc :=
| AtSelect | Fetching | Fetched (km : KafkaMessage)
| LastFlush (todo : list bufferedMsg) (succeeded : list KafkaMessage) | RunReturned.

Inductive LoopPc :=
| LoopSelect | Flushing (todo : list bufferedMsg) (succeeded : list KafkaMessage) | LoopReturned.

(** [cr_fetched] and [cr_fates] are what has been fetched and what became of it. *)
Record ConsumerRun (R MS : Type) := mkConsumerRun {
  cr_consumer : Consumer R MS;
  cr_run : RunPc;
  cr_loop : LoopPc;
  cr_cancelled : bool;
  cr_fetched : list KafkaMessage;
  cr_fates : list (KafkaMessage * Fate)
}.
Arguments mkConsumerRun {R MS}. Arguments cr_consumer {R MS}. Arguments cr_run {R MS}.
Arguments cr_loop {R MS}. Arguments cr_cancelled {R MS}. Arguments cr_fetched {R MS}.
Arguments cr_fates {R MS}.

Section ConsumerRun.
Context {E : Env} {CD : Codec} {R MS : Type} {KR : KafkaReader R} {MSI : MessageStore MS}.

Abbreviation Running := (ConsumerRun R MS * Sys)%type.

(** [go consumer.Run(ctx)]. *)
Definition startRun (c : Consumer R MS) : ConsumerRun R MS := mkConsumerRun c AtSelect LoopSelect false [] [].

Definition cancelRun (p : ConsumerRun R MS) : ConsumerRun R MS :=
  mkConsumerRun (cr_consumer p) (cr_run p) (cr_loop p) true (cr_fetched p) (cr_fates p).

(** [Wait] returns: [done] is closed and the flush loop has ended. *)
Definition waited (p : ConsumerRun R MS) : Prop := cr_run p = RunReturned /\ cr_loop p = LoopReturned.

(** What the buffer gives up for the next message. *)
Definition droppedNow (c : Consumer R MS) : list (KafkaMessage * Fate) :=
  if (maxBufferSize <=? length (buffer c))%nat
  then match buffer c with [] => [] | old :: _ => [(bm_km old, DroppedOldest)] end else [].

Definition fateOf (ok : bool) : Fate := if ok then Saved else SaveFailed.
Definition alsoSaved (ok : bool) (km : KafkaMessage) (l : list KafkaMessage) : list KafkaMessage :=
  if ok then l ++ [km] else l.

(** The commit at the end of a flush. *)
Definition commitSaved (l : list KafkaMessage) : St (Consumer R MS * Sys) unit :=
  match l with [] => ret tt | _ => commit l end.

(** The beginning of a flush: what is saved, of a buffer that is not empty. *)
Definition takeBatch (c : Consumer R MS) : option (list bufferedMsg) :=
  match buffer c with [] => None | batch => Some batch end.

(** The loop's pc once its [select] has chosen to flush. *)
Definition loopFlush (c : Consumer R MS) : Consumer R MS * LoopPc :=
  match takeBatch c with Some batch => (set_buffer [] c, Flushing batch []) | None => (c, LoopSelect) end.

Inductive consumer_step : Running -> Running -> Prop :=
(** [Run] *)
| BeginFetch c l f t s :
    consumer_step (mkConsumerRun c AtSelect l false f t, s) (mkConsumerRun c Fetching l false f t, s)
| FetchFails c l x f t s e r' : FetchMessage (reader c) = (inl e, r') ->
    consumer_step (mkConsumerRun c Fetching l x f t, s) (mkConsumerRun (set_reader r' c) AtSelect l x f t, s)
| FetchGives c l x f t s km r' : FetchMessage (reader c) = (inr km, r') ->
    consumer_step (mkConsumerRun c Fetching l x f t, s)
      (mkConsumerRun (set_reader r' c) (Fetched km) l x (f ++ [km]) t, s)
| SkipMalformed c l x f t s km c' s' : unmarshal (km_Value km) = None -> (commit [km] (c, s)).2 = (c', s') ->
    consumer_step (mkConsumerRun c (Fetched km) l x f t, s)
      (mkConsumerRun c' AtSelect l x f (t ++ [(km, Malformed)]), s')
| BufferOne c l x f t s km pm c' s' : unmarshal (km_Value km) = Some pm ->
    (enqueue (mkBufferedMsg pm km) (c, s)).2 = (c', s') ->
    consumer_step (mkConsumerRun c (Fetched km) l x f t, s)
      (mkConsumerRun c' AtSelect l x f (t ++ droppedNow c), s')
| LastEmpty c l f t s : takeBatch c = None ->
    consumer_step (mkConsumerRun c AtSelect l true f t, s) (mkConsumerRun c RunReturned l true f t, s)
| LastTake c l f t s batch : takeBatch c = Some batch ->
    consumer_step (mkConsumerRun c AtSelect l true f t, s)
      (mkConsumerRun (set_buffer [] c) (LastFlush batch []) l true f t, s)
| LastSave c l x f t s bm todo done c' s' ok : saveOne bm (c, s) = (ok, (c', s')) ->
    consumer_step (mkConsumerRun c (LastFlush (bm :: todo) done) l x f t, s)
      (mkConsumerRun c' (LastFlush todo (alsoSaved ok (bm_km bm) done)) l x f (t ++ [(bm_km bm, fateOf ok)]), s')
| LastCommit c l x f t s done c' s' : (commitSaved done (c, s)).2 = (c', s') ->
    consumer_step (mkConsumerRun c (LastFlush [] done) l x f t, s) (mkConsumerRun c' RunReturned l x f t, s')
(** [flushLoop]: its [select] may choose the ticker or [flushCh] with the context
    done. *)
| LoopTick c r x f t s c' l' : loopFlush c = (c', l') ->
    consumer_step (mkConsumerRun c r LoopSelect x f t, s) (mkConsumerRun c' r l' x f t, s)
| LoopWake c r x f t s c' l' : flushPending c = true -> loopFlush (set_flush false c) = (c', l') ->
    consumer_step (mkConsumerRun c r LoopSelect x f t, s) (mkConsumerRun c' r l' x f t, s)
| LoopSave c r x f t s bm todo done c' s' ok : saveOne bm (c, s) = (ok, (c', s')) ->
    consumer_step (mkConsumerRun c r (Flushing (bm :: todo) done) x f t, s)
      (mkConsumerRun c' r (Flushing todo (alsoSaved ok (bm_km bm) done)) x f (t ++ [(bm_km bm, fateOf ok)]), s')
| LoopCommit c r x f t s done c' s' : (commitSaved done (c, s)).2 = (c', s') ->
    consumer_step (mkConsumerRun c r (Flushing [] done) x f t, s) (mkConsumerRun c' r LoopSelect x f t, s')
| LoopEnd c r f t s :
    consumer_step (mkConsumerRun c r LoopSelect true f t, s) (mkConsumerRun c r LoopReturned true f t, s)
(** The goroutine of a dropped message. *)
| CommitDropped c r l x f t s c' s' : (commitDropped (c, s)).2 = (c', s') ->
    consumer_step (mkConsumerRun c r l x f t, s) (mkConsumerRun c' r l x f t, s').

Inductive live_step : Running -> Running -> Prop :=
| Works p q : consumer_step p q -> live_step p q
| Cancels p s : live_step (p, s) (cancelRun p, s).

(** ** Nothing that was fetched is forgotten *)

Definition runHolds (r : RunPc) : list KafkaMessage :=
  match r with Fetched km => [km] | LastFlush todo _ => map bm_km todo | _ => [] end.
Definition loopHolds (l : LoopPc) : list KafkaMessage :=
  match l with Flushing todo _ => map bm_km todo | _ => [] end.

(** The records whose fate is open. *)
Definition open (p : ConsumerRun R MS) : list KafkaMessage :=
  loopHolds (cr_loop p) ++ map bm_km (buffer (cr_consumer p)) ++ runHolds (cr_run p).

(** [Run] is past its loop: nothing is buffered any more. *)
Definition lastPhase (r : RunPc) : Prop :=
  match r with LastFlush _ _ | RunReturned => True | _ => False end.

Record run_inv (p : ConsumerRun R MS) : Prop := mkRunInv {
  ri_kept : cr_fetched p ≡ₚ open p ++ map fst (cr_fates p);
  ri_last : lastPhase (cr_run p) -> buffer (cr_consumer p) = [] /\ cr_cancelled p = true
}.

Lemma takeBatch_Some c batch : takeBatch c = Some batch -> buffer c = batch /\ batch <> [].
Proof. unfold takeBatch. destruct (buffer c); [done|by intros [= <-]]. Qed.

Lemma takeBatch_None c : takeBatch c = None -> buffer c = [].
Proof. unfold takeBatch. by destruct (buffer c). Qed.

Lemma loopFlush_kept c c' l' : loopFlush c = (c', l') ->
  loopHolds l' ++ map bm_km (buffer c') = map bm_km (buffer c) /\ (buffer c = [] -> buffer c' = []).
Proof.
  unfold loopFlush, takeBatch. destruct (buffer c) as [|bm b] eqn:Hb; intros [= <- <-]; cbn; rewrite ?Hb; [done|].
  by rewrite app_nil_r.
Qed.

Lemma enqueue_buffer bm (c : Consumer R MS) (s : Sys) c' s' : (enqueue bm (c, s)).2 = (c', s') ->
  map bm_km (buffer c) ++ [bm_km bm] = map fst (droppedNow c) ++ map bm_km (buffer c').
Proof.
  unfold enqueue, makeRoom, bind, modify, droppedNow. cbn [fst snd].
  destruct (maxBufferSize <=? length (buffer c))%nat; [destruct (buffer c) as [|old rest] eqn:Hb|];
    cbn; (case_match; intros [= <- <-]; cbn; rewrite ?Hb, map_app; done).
Qed.

Lemma commitDropped_buffer (c : Consumer R MS) (s : Sys) c' s' :
  (commitDropped (c, s)).2 = (c', s') -> buffer c' = buffer c.
Proof. unfold commitDropped, bind, getX, gets. cbn. destruct (dropped c); by intros [= <- _]. Qed.

Lemma commitSaved_buffer l (c : Consumer R MS) (s : Sys) c' s' :
  (commitSaved l (c, s)).2 = (c', s') -> buffer c' = buffer c.
Proof. unfold commitSaved. destruct l; by intros [= <- _]. Qed.

Lemma saveOne_buffer bm (c : Consumer R MS) (s : Sys) ok c' s' :
  saveOne bm (c, s) = (ok, (c', s')) -> buffer c' = buffer c.
Proof. intros H. pose proof (saveOne_run bm c s) as Hr. rewrite H in Hr. apply Hr. Qed.

(** The fields of a run after a step. *)
Ltac fields := unfold open; cbn [fst cr_consumer cr_run cr_loop cr_cancelled cr_fetched cr_fates runHolds loopHolds
  buffer set_reader set_buffer set_flush lastPhase map app] in *.

(** What a step did to the buffer. *)
Ltac buffers := repeat match goal with
  | H : (commit _ _).2 = _ |- _ => injection H as <- <-
  | H : (commitSaved _ _).2 = _ |- _ => apply commitSaved_buffer in H
  | H : (commitDropped _).2 = _ |- _ => apply commitDropped_buffer in H
  | H : saveOne _ _ = _ |- _ => apply saveOne_buffer in H
  | H : (enqueue _ _).2 = _ |- _ => apply enqueue_buffer in H
  | H : takeBatch _ = Some _ |- _ => apply takeBatch_Some in H
  | H : takeBatch _ = None |- _ => apply takeBatch_None in H
  | H : loopFlush _ = _ |- _ => apply loopFlush_kept in H as [? ?]
  end.

Lemma consumer_step_run_inv p q : consumer_step p q -> run_inv p.1 -> run_inv q.1.
Proof.
  intros Hs [Hk Hl]. destruct Hs; buffers; split; fields; try done; rewrite ?map_app in *; fields;
    try match goal with H : buffer ?c' = buffer ?c |- _ => rewrite H end; try done;
    try match goal with H : bm_km _ :: _ = _ |- _ => rewrite H end.
  all: try (rewrite Hk; solve_Permutation).
  - rewrite Hk. fields. cbn [bm_km] in *. rewrite H0. solve_Permutation.
  - destruct H as [<- _]. rewrite Hk. fields. by rewrite app_nil_r.
  - rewrite Hk. fields. by rewrite app_assoc, <-H, <-app_assoc.
  - intros Hr. destruct (Hl Hr). auto.
  - rewrite Hk. fields. by rewrite app_assoc, <-H0, <-app_assoc.
  - intros Hr. destruct (Hl Hr). auto.
Qed.

(** ** The shutdown ends *)

(** A flush that has its batch runs to its commit; uninterrupted, it does to the
    consumer what [saveAll] and the commit do. *)
Lemma last_flush_ends todo : forall c done l f t s,
  let v := saveAll todo (c, s) in let w := (commitSaved (done ++ v.1) v.2).2 in
  exists t', rtc consumer_step (mkConsumerRun c (LastFlush todo done) l true f t, s)
    (mkConsumerRun w.1 RunReturned l true f t', w.2).
Proof.
  induction todo as [|bm todo IH]; intros c done l f t s; cbv zeta.
  - rewrite app_nil_r. exists t. apply rtc_once, LastCommit. by destruct (commitSaved _ _) as [? []].
  - rewrite saveAll_cons. cbv zeta. destruct (saveOne bm (c, s)) as [ok [c1 s1]] eqn:Hs. cbn [fst snd].
    destruct (IH c1 (alsoSaved ok (bm_km bm) done) l f (t ++ [(bm_km bm, fateOf ok)]) s1) as [t' Hr].
    exists t'. eapply rtc_l; [by eapply LastSave|]. destruct ok; [|exact Hr]. cbn [alsoSaved] in Hr.
    by rewrite <-app_assoc in Hr.
Qed.

(** So the last flush of a shutdown that nothing interrupts is [flushAll]. *)
Lemma last_flush_is_flushAll c l f t s : exists t',
  let w := (flushAll (c, s)).2 in
  rtc consumer_step (mkConsumerRun c AtSelect l true f t, s) (mkConsumerRun w.1 RunReturned l true f t', w.2).
Proof.
  destruct (takeBatch c) as [batch|] eqn:Hb.
  - destruct (takeBatch_Some c batch Hb) as [Hbuf Hne]. rewrite flushAll_run by (by rewrite Hbuf). rewrite Hbuf.
    destruct (last_flush_ends batch (set_buffer [] c) [] l f t s) as [t' Hr]. exists t'.
    eapply rtc_l; [by eapply LastTake|]. exact Hr.
  - exists t. rewrite flushAll_empty by (by apply takeBatch_None). by apply rtc_once, LastEmpty.
Qed.

Lemma flushing_ends todo : forall c done r x f t s, exists c' t' s',
  rtc consumer_step (mkConsumerRun c r (Flushing todo done) x f t, s) (mkConsumerRun c' r LoopSelect x f t', s').
Proof.
  induction todo as [|bm todo IH]; intros c done r x f t s.
  - destruct (commitSaved done (c, s)).2 as [c' s'] eqn:Hc. exists c', t, s'. by apply rtc_once, LoopCommit.
  - destruct (saveOne bm (c, s)) as [ok [c1 s1]] eqn:Hs.
    destruct (IH c1 (alsoSaved ok (bm_km bm) done) r x f (t ++ [(bm_km bm, fateOf ok)]) s1) as (c' & t' & s' & Hr).
    exists c', t', s'. eapply rtc_l; [by eapply LoopSave|exact Hr].
Qed.

Lemma loop_ends c r l f t s : exists c' t' s',
  rtc consumer_step (mkConsumerRun c r l true f t, s) (mkConsumerRun c' r LoopReturned true f t', s').
Proof.
  destruct l as [|todo done|]; [|destruct (flushing_ends todo c done r true f t s) as (c' & t' & s' & Hr)|];
    [exists c, t, s; by apply rtc_once, LoopEnd| |by exists c, t, s].
  exists c', t', s'. eapply rtc_r; [exact Hr|apply LoopEnd].
Qed.

(** At its [select] with the context done, [Run] flushes and returns. *)
Lemma select_ends c l f t s : exists c' f' t' s',
  rtc consumer_step (mkConsumerRun c AtSelect l true f t, s) (mkConsumerRun c' RunReturned l true f' t', s').
Proof. destruct (last_flush_is_flushAll c l f t s) as [t' Hr]. by eexists _, f, t', _. Qed.

Lemma fetched_ends km c l f t s : exists c' f' t' s',
  rtc consumer_step (mkConsumerRun c (Fetched km) l true f t, s) (mkConsumerRun c' RunReturned l true f' t', s').
Proof.
  destruct (unmarshal (km_Value km)) as [pm|] eqn:Hu.
  - destruct (enqueue (mkBufferedMsg pm km) (c, s)).2 as [c1 s1] eqn:Hq.
    destruct (select_ends c1 l f (t ++ droppedNow c) s1) as (c' & f' & t' & s' & Hr).
    exists c', f', t', s'. eapply rtc_l; [by eapply BufferOne|exact Hr].
  - destruct (commit [km] (c, s)).2 as [c1 s1] eqn:Hq.
    destruct (select_ends c1 l f (t ++ [(km, Malformed)]) s1) as (c' & f' & t' & s' & Hr).
    exists c', f', t', s'. eapply rtc_l; [by eapply SkipMalformed|exact Hr].
Qed.

Lemma run_ends c r l f t s : exists c' f' t' s',
  rtc consumer_step (mkConsumerRun c r l true f t, s) (mkConsumerRun c' RunReturned l true f' t', s').
Proof.
  destruct r as [| |km|todo done|].
  - apply select_ends.
  - destruct (FetchMessage (reader c)) as [[e|km] r'] eqn:Hf.
    + destruct (select_ends (set_reader r' c) l f t s) as (c' & f' & t' & s' & Hr).
      exists c', f', t', s'. eapply rtc_l; [by eapply FetchFails|exact Hr].
    + destruct (fetched_ends km (set_reader r' c) l (f ++ [km]) t s) as (c' & f' & t' & s' & Hr).
      exists c', f', t', s'. eapply rtc_l; [by eapply FetchGives|exact Hr].
  - apply fetched_ends.
  - destruct (last_flush_ends todo c done l f t s) as [t' Hr]. by eexists _, f, t', _.
  - by exists c, f, t, s.
Qed.

Lemma cancelled_ends p s : cr_cancelled p = true ->
  exists q s', rtc consumer_step (p, s) (q, s') /\ waited q.
Proof.
  destruct p as [c r l x f t]. cbn. intros ->.
  destruct (run_ends c r l f t s) as (c1 & f1 & t1 & s1 & H1).
  destruct (loop_ends c1 RunReturned l f1 t1 s1) as (c2 & t2 & s2 & H2).
  eexists _, s2. split; [by etrans|done].
Qed.

(** ** What is committed, and when *)

(** The record has been saved, could not be read, or has been given up for room. *)
Definition committable (t : list (KafkaMessage * Fate)) (km : KafkaMessage) : Prop :=
  (km, Saved) ∈ t \/ (km, Malformed) ∈ t \/ (km, DroppedOldest) ∈ t.

(** The readers that fetches and commits of records in [ok] lead to. *)
Inductive reader_reaches (ok : KafkaMessage -> Prop) (r0 : R) : R -> Prop :=
| ReaderStarts : reader_reaches ok r0 r0
| ReaderFetches r : reader_reaches ok r0 r -> reader_reaches ok r0 (FetchMessage r).2
| ReaderCommits r l : reader_reaches ok r0 r -> Forall ok l -> reader_reaches ok r0 (CommitMessages l r).2.

Lemma reader_reaches_mono (ok ok' : KafkaMessage -> Prop) r0 r :
  (forall km, ok km -> ok' km) -> reader_reaches ok r0 r -> reader_reaches ok' r0 r.
Proof. intros H. induction 1; constructor; [done..|]. by eapply Forall_impl; [|exact H]. Qed.

Lemma committable_app t t' km : committable t km -> committable (t ++ t') km.
Proof. unfold committable. rewrite !elem_of_app. tauto. Qed.

Lemma reader_reaches_app t t' r0 r :
  reader_reaches (committable t) r0 r -> reader_reaches (committable (t ++ t')) r0 r.
Proof. apply reader_reaches_mono. intros km. apply committable_app. Qed.

(** The records a flush will commit. *)
Definition runDone (r : RunPc) : list KafkaMessage := match r with LastFlush _ done => done | _ => [] end.
Definition loopDone (l : LoopPc) : list KafkaMessage := match l with Flushing _ done => done | _ => [] end.

Definition savedIn (t : list (KafkaMessage * Fate)) (km : KafkaMessage) : Prop := (km, Saved) ∈ t.
Definition droppedIn (t : list (KafkaMessage * Fate)) (km : KafkaMessage) : Prop := (km, DroppedOldest) ∈ t.

Record commit_inv (r0 : R) (p : ConsumerRun R MS) : Prop := mkCommitInv {
  ci_reader : reader_reaches (committable (cr_fates p)) r0 (reader (cr_consumer p));
  ci_run : Forall (savedIn (cr_fates p)) (runDone (cr_run p));
  ci_loop : Forall (savedIn (cr_fates p)) (loopDone (cr_loop p));
  ci_dropped : Forall (droppedIn (cr_fates p)) (dropped (cr_consumer p))
}.

Lemma savedIn_app t t' l : Forall (savedIn t) l -> Forall (savedIn (t ++ t')) l.
Proof. intros H. eapply Forall_impl; [exact H|]. intros km. unfold savedIn. rewrite elem_of_app. by left. Qed.

Lemma droppedIn_app t t' l : Forall (droppedIn t) l -> Forall (droppedIn (t ++ t')) l.
Proof. intros H. eapply Forall_impl; [exact H|]. intros km. unfold droppedIn. rewrite elem_of_app. by left. Qed.

Lemma alsoSaved_in t ok km done : Forall (savedIn t) done ->
  Forall (savedIn (t ++ [(km, fateOf ok)])) (alsoSaved ok km done).
Proof.
  intros H. destruct ok; cbn; [|by apply savedIn_app]. apply Forall_app. split; [by apply savedIn_app|].
  apply Forall_singleton. unfold savedIn. set_solver.
Qed.

Lemma loopFlush_frame c c' l' : loopFlush c = (c', l') ->
  reader c' = reader c /\ dropped c' = dropped c /\ loopDone l' = [].
Proof. unfold loopFlush, takeBatch. by destruct (buffer c); intros [= <- <-]. Qed.

Lemma enqueue_frame bm (c : Consumer R MS) (s : Sys) c' s' : (enqueue bm (c, s)).2 = (c', s') ->
  reader c' = reader c /\ dropped c' = dropped c ++ map fst (droppedNow c).
Proof.
  unfold enqueue, makeRoom, bind, modify, droppedNow. cbn [fst snd].
  destruct (maxBufferSize <=? length (buffer c))%nat; [destruct (buffer c) as [|old rest] eqn:Hb|];
    cbn; (case_match; intros [= <- <-]; cbn; by rewrite ?app_nil_r).
Qed.

Lemma droppedNow_in t c : Forall (droppedIn (t ++ droppedNow c)) (map fst (droppedNow c)).
Proof.
  unfold droppedNow. destruct (_ <=? _)%nat; [|constructor]. destruct (buffer c); [constructor|].
  apply Forall_singleton. unfold droppedIn. set_solver.
Qed.

Lemma saveOne_frame bm (c : Consumer R MS) (s : Sys) ok c' s' : saveOne bm (c, s) = (ok, (c', s')) ->
  buffer c' = buffer c /\ reader c' = reader c /\ dropped c' = dropped c.
Proof. intros H. pose proof (saveOne_run bm c s) as Hr. rewrite H in Hr. cbn in Hr. naive_solver. Qed.

Lemma commit_reaches ok r0 l (c : Consumer R MS) (s : Sys) c' s' : (commit l (c, s)).2 = (c', s') ->
  reader_reaches ok r0 (reader c) -> Forall ok l -> reader_reaches ok r0 (reader c') /\ dropped c' = dropped c.
Proof. intros [= <- _] Hr Hl. split; [by apply ReaderCommits|done]. Qed.

Lemma commitSaved_reaches ok r0 l (c : Consumer R MS) (s : Sys) c' s' : (commitSaved l (c, s)).2 = (c', s') ->
  reader_reaches ok r0 (reader c) -> Forall ok l -> reader_reaches ok r0 (reader c') /\ dropped c' = dropped c.
Proof. unfold commitSaved. destruct l; [by intros [= <- _]|apply commit_reaches]. Qed.

Lemma commitDropped_reaches ok r0 (c : Consumer R MS) (s : Sys) c' s' : (commitDropped (c, s)).2 = (c', s') ->
  reader_reaches ok r0 (reader c) -> Forall ok (dropped c) ->
  reader_reaches ok r0 (reader c') /\ exists l, dropped c = l ++ dropped c'.
Proof.
  unfold commitDropped, bind, getX, gets. cbn. destruct (dropped c) as [|km rest] eqn:Hd.
  - intros [= <- _] Hr _. split; [done|by exists []].
  - intros [= <- _] Hr Hok. apply Forall_cons in Hok as [Hkm _]. split; [|by exists [km]].
    cbn. apply ReaderCommits; [done|by apply Forall_singleton].
Qed.

Lemma savedIn_committable t l : Forall (savedIn t) l -> Forall (committable t) l.
Proof. intros Hl. eapply Forall_impl; [exact Hl|]. intros km H. by left. Qed.

Lemma droppedIn_committable t l : Forall (droppedIn t) l -> Forall (committable t) l.
Proof. intros Hl. eapply Forall_impl; [exact Hl|]. intros km H. right. by right. Qed.

Lemma consumer_step_commits r0 p q : consumer_step p q -> commit_inv r0 p.1 -> commit_inv r0 q.1.
Proof.
  intros Hs [Hr Hrun Hloop Hd]. destruct Hs; cbn [fst cr_consumer cr_run cr_loop cr_fates runDone loopDone] in *.
  all: try match goal with H : loopFlush _ = _ |- _ => apply loopFlush_frame in H as (? & ? & ?) end.
  all: try match goal with H : saveOne _ _ = _ |- _ => apply saveOne_frame in H as (_ & ? & ?) end.
  all: try match goal with H : (enqueue _ _).2 = _ |- _ => apply enqueue_frame in H as [? ?] end.
  all: try match goal with H : (commitSaved _ _).2 = _ |- _ =>
    eapply commitSaved_reaches in H as [? ?]; [|exact Hr|apply savedIn_committable; eassumption] end.
  all: try match goal with H : (commitDropped _).2 = _ |- _ =>
    eapply commitDropped_reaches in H as (? & ? & ?); [|exact Hr|by apply droppedIn_committable] end.
  all: split; cbn [cr_consumer cr_run cr_loop cr_fates runDone loopDone reader set_reader set_buffer set_flush dropped] in *;
    repeat match goal with H : reader _ = _ |- _ => rewrite H | H : dropped _ = _ |- _ => rewrite H
      | H : loopDone _ = [] |- _ => rewrite H end; try done;
    try by (first [apply reader_reaches_app | apply savedIn_app | apply droppedIn_app | apply alsoSaved_in]).
  all: try match goal with H : FetchMessage ?r = (_, ?r') |- _ =>
    replace r' with (FetchMessage r).2 by (by rewrite H); by apply ReaderFetches end.
  - injection H0 as <- _. cbn [reader set_reader]. apply ReaderCommits; [by apply reader_reaches_app|].
    apply Forall_singleton. right; left. set_solver.
  - injection H0 as <- _. by apply droppedIn_app.
  - apply Forall_app. split; [by apply droppedIn_app|apply droppedNow_in].
  - by apply alsoSaved_in.
  - by apply alsoSaved_in.
  - rename select (dropped c = _) into Hc. rewrite Hc in Hd. by apply Forall_app in Hd as [_ Hd].
Qed.

(** ** Without skipped records, the committed position is behind the open ones *)

Context {KL : KafkaReaderLaws R}.

Definition batchOffsets (l : LoopPc) : list Z := match l with Flushing todo _ => offsets todo | _ => [] end.

(** The offsets from what the flush has still to save to the record in hand. *)
Definition openOffsets (p : ConsumerRun R MS) : list Z :=
  batchOffsets (cr_loop p) ++ offsets (buffer (cr_consumer p)) ++ map km_Offset (runHolds (cr_run p)).

(** No record has been skipped as malformed or given up for room. *)
Definition noneSkipped (p : ConsumerRun R MS) : Prop :=
  Forall (fun e => e.2 = Saved \/ e.2 = SaveFailed) (cr_fates p).

(** The offsets [l] lead to the next record to fetch; what a flush will commit
    and what is committed are before them. *)
Definition positions (r : R) (done : list KafkaMessage) (l : list Z) : Prop :=
  exists b, 0 <= b /\ resume r <= b <= nextOffset r /\ l = seqZ b (nextOffset r - b) /\
    Forall (fun km => km_Offset km < b) done.

Record behind (p : ConsumerRun R MS) : Prop := mkBehind {
  bh_dropped : dropped (cr_consumer p) = [];
  bh_offsets : lastPhase (cr_run p) \/
    positions (reader (cr_consumer p)) (loopDone (cr_loop p)) (openOffsets p)
}.

Lemma step_fates p q : consumer_step p q -> exists l, cr_fates q.1 = cr_fates p.1 ++ l.
Proof. intros Hs. destruct Hs; cbn; first [by eexists | exists []; by rewrite app_nil_r]. Qed.

Lemma loopFlush_offsets c c' l' : loopFlush c = (c', l') ->
  batchOffsets l' ++ offsets (buffer c') = offsets (buffer c).
Proof.
  unfold loopFlush, takeBatch. destruct (buffer c) as [|bm b] eqn:Hb; intros [= <- <-]; cbn; rewrite ?Hb; [done|].
  by rewrite app_nil_r.
Qed.

Lemma enqueue_offsets bm (c : Consumer R MS) (s : Sys) c' s' : droppedNow c = [] ->
  (enqueue bm (c, s)).2 = (c', s') -> buffer c' = buffer c ++ [bm].
Proof.
  unfold enqueue, makeRoom, bind, modify, droppedNow. cbn [fst snd].
  destruct (maxBufferSize <=? length (buffer c))%nat; [destruct (buffer c) as [|old rest] eqn:Hb; [|done]|];
    intros _; cbn; (case_match; intros [= <- <-]; cbn; by rewrite ?Hb).
Qed.

Lemma positions_fails r done l e r' : FetchMessage r = (inl e, r') -> positions r done l -> positions r' done l.
Proof.
  intros H (b & Hb). pose proof (Fetch_law r) as Hl. rewrite H in Hl. destruct Hl as [H1 H2].
  exists b. by rewrite H1, H2.
Qed.

Lemma positions_gives r done l km r' : FetchMessage r = (inr km, r') -> positions r done l ->
  positions r' done (l ++ [km_Offset km]).
Proof.
  intros H (b & H1 & H2 & -> & H3). pose proof (Fetch_law r) as Hl. rewrite H in Hl. exists b.
  destruct Hl as (-> & -> & ->).
  split_and!; [done|lia|lia| |done]. replace (nextOffset r + 1 - b) with ((nextOffset r - b) + 1) by lia.
  rewrite seqZ_app by lia. f_equal. rewrite seqZ_cons, seqZ_nil by lia. f_equal. lia.
Qed.

(** The first open record is saved, or fails. *)
Lemma positions_save r ok km done l : positions r done (km_Offset km :: l) -> positions r (alsoSaved ok km done) l.
Proof.
  intros (b & H1 & H2 & Hl & H3). destruct (decide (nextOffset r = b)) as [He|He].
  { rewrite seqZ_nil in Hl by lia. done. }
  rewrite seqZ_cons in Hl by lia. injection Hl as Hb ->. exists (Z.succ b).
  split_and!; [lia..| |].
  - f_equal. lia.
  - assert (H3' : Forall (fun km => km_Offset km < Z.succ b) done) by (eapply Forall_impl; [exact H3|cbn; lia]).
    destruct ok; cbn; [|done]. apply Forall_app. split; [done|]. apply Forall_singleton. lia.
Qed.

Lemma maxOffset_lt b done : 0 <= b -> Forall (fun km => km_Offset km < b) done -> maxOffset done < b.
Proof. unfold maxOffset. intros Hb. induction 1; cbn in *; lia. Qed.

Lemma positions_commit done m (c : Consumer R MS) (s : Sys) c' s' :
  (commitSaved done (c, s)).2 = (c', s') -> positions (reader c) done m -> positions (reader c') [] m.
Proof.
  intros H (b & H1 & H2 & -> & H3). exists b. unfold commitSaved in H. destruct done as [|km l].
  { injection H as <- <-. split_and!; [lia..|done|done]. }
  destruct (commit_run (km :: l) c s) as (_ & _ & H4). rewrite H in H4. cbn [fst] in H4.
  destruct (H4 ltac:(done)) as [-> H5]. pose proof (maxOffset_lt b (km :: l) H1 H3).
  split_and!; [lia| |lia|done|done]. destruct H5 as [->| ->]; lia.
Qed.

Lemma commitSaved_frame l (c : Consumer R MS) (s : Sys) c' s' : (commitSaved l (c, s)).2 = (c', s') ->
  buffer c' = buffer c /\ dropped c' = dropped c.
Proof. unfold commitSaved. destruct l; by intros [= <- _]. Qed.

Lemma commitDropped_none (c : Consumer R MS) (s : Sys) c' s' :
  dropped c = [] -> (commitDropped (c, s)).2 = (c', s') -> c' = c.
Proof. intros Hd. unfold commitDropped, bind, getX, gets. cbn. rewrite Hd. by intros [= <- _]. Qed.

Lemma noneSkipped_dropped (t : list (KafkaMessage * Fate)) (c : Consumer R MS) :
  Forall (fun e => e.2 = Saved \/ e.2 = SaveFailed) (t ++ droppedNow c) -> droppedNow c = [].
Proof.
  unfold droppedNow. destruct (_ <=? _)%nat; [|done]. destruct (buffer c) as [|old rest]; [done|].
  intros H. apply Forall_app in H as [_ H]. apply Forall_singleton in H as [H|H]; done.
Qed.

Lemma noneSkipped_malformed (t : list (KafkaMessage * Fate)) km :
  ~ Forall (fun e => e.2 = Saved \/ e.2 = SaveFailed) (t ++ [(km, Malformed)]).
Proof. intros H. apply Forall_app in H as [_ H]. apply Forall_singleton in H as [H|H]; done. Qed.

Lemma consumer_step_behind p q : consumer_step p q -> noneSkipped q.1 -> behind p.1 -> behind q.1.
Proof.
  intros Hs Hq [Hd Ho]. unfold noneSkipped in Hq.
  destruct Hs; cbn [fst] in *; unfold openOffsets in *; fields; cbn [loopDone batchOffsets] in *.
  all: try match goal with H : saveOne _ _ = _ |- _ => apply saveOne_frame in H as (Hb & Hr & Hdr) end.
  all: try match goal with H : (commitSaved _ _).2 = _ |- _ => pose proof (commitSaved_frame _ _ _ _ _ H) as [Hb Hdr] end.
  all: try match goal with H : loopFlush _ = _ |- _ =>
    pose proof (loopFlush_offsets _ _ _ H) as Hb; apply loopFlush_frame in H as (Hr & Hdr & Hn) end.
  all: try match goal with H : (commitDropped _).2 = _ |- _ => apply commitDropped_none in H as ->; [|done] end.
  all: try match goal with H : unmarshal _ = None |- _ => by apply noneSkipped_malformed in Hq end.
  all: try match goal with H : (enqueue _ _).2 = _ |- _ =>
    apply noneSkipped_dropped in Hq; pose proof (enqueue_offsets _ _ _ _ _ Hq H) as Hb;
    apply enqueue_frame in H as [Hr Hdr]; rewrite Hq in Hdr; cbn [map] in Hdr end.
  all: split; unfold openOffsets; fields; cbn [loopDone batchOffsets]; rewrite ?Hdr, ?Hr, ?Hn, ?app_nil_r in *; try done; try (by left).
  all: destruct Ho as [|Ho]; [by left|right].
  - by eapply positions_fails.
  - rewrite app_assoc. by eapply positions_gives.
  - rewrite Hb. unfold offsets. by rewrite map_app.
  - by rewrite app_assoc, Hb.
  - by rewrite app_assoc, Hb.
  - rewrite Hb. by apply positions_save.
  - rewrite Hb. cbn [batchOffsets offsets map app] in *. by eapply positions_commit.
Qed.

Lemma start_run_inv c : buffer c = [] -> run_inv (startRun c).
Proof. intros Hc. split; [|done]. unfold open. cbn. by rewrite Hc. Qed.

Lemma live_step_run_inv p q : live_step p q -> run_inv p.1 -> run_inv q.1.
Proof.
  intros [p' q' Hs|p' s] Hi; [by eapply consumer_step_run_inv|]. destruct Hi as [Hk Hl]. split; [exact Hk|].
  intros Hr. by destruct (Hl Hr).
Qed.

Lemma live_step_behind p q : live_step p q -> (noneSkipped p.1 -> behind p.1) -> noneSkipped q.1 -> behind q.1.
Proof.
  intros [p' q' Hs|p' s] Hi Hq; [|destruct (Hi Hq); by split].
  eapply consumer_step_behind; [done..|]. apply Hi. unfold noneSkipped in *.
  destruct (step_fates _ _ Hs) as [l Hf]. rewrite Hf in Hq. by apply Forall_app in Hq as [? _].
Qed.

Lemma live_step_commits r0 p q : live_step p q -> commit_inv r0 p.1 -> commit_inv r0 q.1.
Proof. intros [p' q' Hs|p' s] Hi; [by eapply consumer_step_commits|by destruct Hi]. Qed.

Lemma offset_in km l : km ∈ l -> km_Offset km ∈ map km_Offset l.
Proof. induction 1; cbn; set_solver. Qed.

Lemma openOffsets_open p km : km ∈ open p -> km_Offset km ∈ openOffsets p.
Proof.
  unfold open, openOffsets, offsets. rewrite <-(map_map bm_km km_Offset), !elem_of_app. intros [H|[H|H]].
  - left. destruct (cr_loop p) as [|todo done|]; cbn in *; try by apply not_elem_of_nil in H.
    unfold offsets. rewrite <-(map_map bm_km km_Offset). by apply offset_in.
  - right; left. by apply offset_in.
  - do 2 right. by apply offset_in.
Qed.

(** What holds of every state a run reaches. *)
Lemma runs_reach r0 st0 s q : rtc live_step (startRun (NewConsumer r0 st0), s) q ->
  run_inv q.1 /\ commit_inv r0 q.1 /\
  (0 <= nextOffset r0 -> resume r0 <= nextOffset r0 -> noneSkipped q.1 -> behind q.1).
Proof.
  revert q. apply rtc_ind_r.
  - split; [by apply start_run_inv|]. split; [split; by constructor|]. intros H0 Hres _. split; [done|right].
    exists (nextOffset r0). cbn. rewrite Z.sub_diag, seqZ_nil by lia. split_and!; [done..|lia|done|done].
  - intros x y _ Hxy (H1 & H2 & H3). split; [by eapply live_step_run_inv|].
    split; [by eapply live_step_commits|]. intros H0 Hres. eapply live_step_behind; [done|auto].
Qed.


End ConsumerRun.

(** ** A concrete partition *)

Section Demo.
#[local] Existing Instance steadyEnv.

(** Three records; the fetch position and the committed position. *)
Record Partition := mkPartition { p_next : Z; p_resume : Z }.

#[local] Instance demoReader : KafkaReader Partition :=
  mkKafkaReader _
    (fun r => (inr (mkKafkaMessage (p_next r) []), mkPartition (p_next r + 1) (p_resume r)))
    (fun l r => (None, mkPartition (p_next r) (maxOffset l + 1))).

#[local] Instance demoReaderLaws : KafkaReaderLaws Partition.
Proof. by refine (mkKafkaReaderLaws _ _ p_next p_resume _ _). Defined.

(** Every record reads as a message, for the purpose of the example. *)
#[local] Instance totalCodec : Codec.
Proof.
  refine (mkCodec demo_marshal (fun d => Some (default zeroMessage (demo_unmarshal d))) _).
  intros m d Hm Hd. by rewrite (demo_unmarshal_marshal m d Hm Hd).
Defined.

(** A store that takes everything, and one that fails on ids below ten. *)
Definition takeAll : MessageStore (list Message) :=
  mkMessageStore _ (fun m '(l, s) => (None, (l ++ [m], s))) (fun _ _ _ _ x => (inr [], x))
    (fun _ _ _ x => (inr [], x)) (fun _ x => (inr None, x)) (fun _ _ _ x => (None, x))
    (fun _ _ _ x => (None, x)) (fun _ _ x => (inr [], x)) (fun _ x => (None, x)) (fun x => (inr 0, x)).
Definition refuseSmall : MessageStore (list Message) :=
  mkMessageStore _
    (fun m '(l, s) => if MsgId m <? 10 then (Some "connection lost", (l, s)) else (None, (l ++ [m], s)))
    (fun _ _ _ _ x => (inr [], x)) (fun _ _ _ x => (inr [], x)) (fun _ x => (inr None, x))
    (fun _ _ _ x => (None, x)) (fun _ _ _ x => (None, x))
    (fun _ _ x => (inr [], x)) (fun _ x => (None, x)) (fun x => (inr 0, x)).

(** Two buffered messages; the first fails to save. *)
Definition lowMsg : bufferedMsg := mkBufferedMsg (setMsgId 1 zeroMessage) (mkKafkaMessage 5 []).
Definition highMsg : bufferedMsg := mkBufferedMsg (setMsgId 20 zeroMessage) (mkKafkaMessage 6 []).
Definition twoBuffered : Consumer Partition (list Message) :=
  mkConsumer (mkPartition 7 5) (Some []) [lowMsg; highMsg] false [].

Lemma low_before_high : km_Offset (bm_km lowMsg) < km_Offset (mkKafkaMessage 6 []).
Proof. simpl. lia. Qed.

Lemma low_buffered : lowMsg ∈ buffer twoBuffered.
Proof. left. Qed.

Lemma low_failed : bm_km lowMsg ∉ [mkKafkaMessage 6 []].
Proof. intros H. apply list_elem_of_singleton in H. by injection H. Qed.

Lemma high_saved : mkKafkaMessage 6 [] ∈ [mkKafkaMessage 6 []].
Proof. left. Qed.

Lemma flush_commits_past_failures_witness :
  km_Offset (bm_km lowMsg) <
  resume (reader (flushAll (MSI := refuseSmall) (twoBuffered, mkSys 0 (mkGenerator 0 0 0))).2.1).
Proof.
  exact (proj2 (proj2 (flush_commits_past_failures (MSI := refuseSmall) twoBuffered
    (mkSys 0 (mkGenerator 0 0 0)) lowMsg (mkKafkaMessage 6 []) (mkPartition 7 7) low_buffered
    low_failed high_saved low_before_high eq_refl))).
Defined.

Definition startSys : Sys := mkSys 0 (mkGenerator 0 0 0).

(** [Run]'s last flush does not wait for the flush that [flushLoop] is in the
    middle of: it can commit past a record that is still to be saved, and that is
    lost if the process dies there. *)
Lemma last_commit_overtakes :
  exists q, rtc (live_step (MSI := takeAll)) (startRun (NewConsumer (mkPartition 5 5) (Some [])), startSys) q /\
    cr_loop q.1 = Flushing [mkBufferedMsg zeroMessage (mkKafkaMessage 5 [])] [] /\
    p_resume (reader (cr_consumer q.1)) = 7.
Proof.
  eexists. split; [|split].
  - eapply rtc_l; [apply Works, BeginFetch|]. eapply rtc_l; [by apply Works, FetchGives|].
    eapply rtc_l; [by eapply Works, BufferOne|]. eapply rtc_l; [by eapply Works, LoopTick|].
    eapply rtc_l; [apply Works, BeginFetch|]. eapply rtc_l; [by apply Works, FetchGives|].
    eapply rtc_l; [by eapply Works, BufferOne|]. eapply rtc_l; [apply Cancels|].
    eapply rtc_l; [by eapply Works, LastTake|]. eapply rtc_l; [by eapply Works, LastSave|].
    eapply rtc_l; [by eapply Works, LastCommit|]. apply rtc_refl.
  - reflexivity.
  - reflexivity.
Qed.

(** One record saved and committed, the next in hand. *)
Definition afterOne : ConsumerRun Partition (list Message) :=
  mkConsumerRun (mkConsumer (mkPartition 7 6) (Some [zeroMessage]) [] false []) (Fetched (mkKafkaMessage 6 []))
    LoopSelect false [mkKafkaMessage 5 []; mkKafkaMessage 6 []] [(mkKafkaMessage 5 [], Saved)].

Lemma afterOne_reached :
  rtc (live_step (MSI := takeAll)) (startRun (NewConsumer (mkPartition 5 5) (Some [])), startSys) (afterOne, startSys).
Proof.
  eapply rtc_l; [apply Works, BeginFetch|]. eapply rtc_l; [by apply Works, FetchGives|].
  eapply rtc_l; [by eapply Works, BufferOne|]. eapply rtc_l; [by eapply Works, LoopTick|].
  eapply rtc_l; [by eapply Works, LoopSave|]. eapply rtc_l; [by eapply Works, LoopCommit|].
  eapply rtc_l; [apply Works, BeginFetch|]. eapply rtc_l; [by apply Works, FetchGives|]. apply rtc_refl.
Qed.

Lemma afterOne_noneSkipped : noneSkipped afterOne.
Proof. apply Forall_singleton. by left. Qed.


End Demo.
