(* ===== verification/Framing.v ===== *)
(** * Length-prefixed frames over TCP (src/internal/gateway/gnet_handler.go,
    transport_gnet.go)

    The framing of outbound messages, and [OnTraffic], which cuts the inbound
    byte stream into frames, over an interface for gnet's inbound buffer.  The
    theorem: however the stream is cut into arrivals, the frames handed to
    [processFrame] are exactly the payloads that were framed, in order. *)

From S2P Require Import Prelude Proto Producer.

Definition frameHeaderSize : nat := 4.

(** [binary.BigEndian.PutUint32] and [Uint32]. *)
Definition PutUint32 (v : Z) : bytes := map (fun i => byte_of (Z.shiftr v (8 * i))) [3; 2; 1; 0].
Definition Uint32 (b : bytes) : Z := foldl (fun acc x => acc * 256 + Z.of_N (Byte.to_N x)) 0 b.

(** What [gnetTransport.Write] hands to [AsyncWrite]. *)
Definition frameOf (p : bytes) : bytes := PutUint32 (wrapu32 (Z.of_nat (length p))) ++ p.

(** ** gnet's inbound buffer *)

Inductive PeekErr := ErrShortBuffer | OtherErr.

Class GnetReader (I : Type) := mkGnetReader {
  Peek : nat -> I -> PeekErr + bytes;
  Discard : nat -> I -> I;
  NextBytes : nat -> I -> (PeekErr + bytes) * I;
  Arrive : bytes -> I -> I
}.

(** What gnet documents of positive sizes; of [Next] in general only that it
    does not add to the buffer. *)
Class GnetReaderLaws (I : Type) `{GnetReader I} := mkGnetReaderLaws {
  buffered : I -> bytes;
  Peek_short : forall n i, (length (buffered i) < n)%nat -> Peek n i = inl ErrShortBuffer;
  Peek_ok : forall n i, (0 < n <= length (buffered i))%nat -> Peek n i = inr (take n (buffered i));
  Discard_ok : forall n i, (0 < n <= length (buffered i))%nat ->
    buffered (Discard n i) = drop n (buffered i);
  Next_ok : forall n i, (0 < n <= length (buffered i))%nat ->
    (NextBytes n i).1 = inr (take n (buffered i)) /\
    buffered (NextBytes n i).2 = drop n (buffered i);
  Next_shrinks : forall n i, (length (buffered (NextBytes n i).2) <= length (buffered i))%nat;
  Arrive_ok : forall d i, buffered (Arrive d i) = buffered i ++ d
}.

(** [gnet.None] and [gnet.Close]. *)
Inductive Action := NoAction | CloseAction.

Section Traffic.
Context {I W : Type} {GR : GnetReader I}.
Context (maxFrameSize : Z) (processFrame : bytes -> St W unit).

(** The loop of [OnTraffic]; [None] when the fuel runs out.  The error the
    second [Peek] returns is visible only to the test for a short buffer: the
    test after it looks at the first [Peek]'s, which is nil there. *)
Fixpoint OnTraffic (fuel : nat) : St (I * W) (option Action) :=
  fun '(i, w) =>
    match fuel with
    | O => (None, (i, w))
    | S fuel' =>
        match Peek frameHeaderSize i with
        | inl ErrShortBuffer => (Some NoAction, (i, w))
        | inl OtherErr => (Some CloseAction, (i, w))
        | inr header =>
            let length := Uint32 header in
            if maxFrameSize <? length then (Some CloseAction, (i, w))
            else
              match Peek (frameHeaderSize + Z.to_nat length) i with
              | inl ErrShortBuffer => (Some NoAction, (i, w))
              | _ =>
                  let i := Discard frameHeaderSize i in
                  let (res, i) := NextBytes (Z.to_nat length) i in
                  match res with
                  | inl _ => (Some CloseAction, (i, w))
                  | inr payload => OnTraffic fuel' (i, (processFrame payload w).2)
                  end
              end
        end
    end.

(** One arrival: gnet appends the data and calls [OnTraffic]. *)
Definition arrival (fuel : nat) (d : bytes) : St (I * W) (option Action) :=
  fun '(i, w) => OnTraffic fuel (Arrive d i, w).

Fixpoint traffic (fuel : nat) (chunks : list bytes) : St (I * W) (list (option Action)) :=
  match chunks with
  | [] => ret []
  | d :: rest =>
      let! a := arrival fuel d in let! l := traffic fuel rest in ret (a :: l)
  end.

(** ** Numbers *)

Lemma length_PutUint32 v : length (PutUint32 v) = 4%nat.
Proof. done. Qed.

Lemma Uint32_PutUint32 v : 0 <= v < 2 ^ 32 -> Uint32 (PutUint32 v) = v.
Proof.
  intros Hv. unfold Uint32, PutUint32. cbn [map foldl]. rewrite !byte_of_val.
  rewrite !Z.shiftr_div_pow2 by lia. cbn [Z.mul Pos.mul Z.pow Z.pow_pos Pos.iter] in *.
  Z.to_euclidean_division_equations. lia.
Qed.

Lemma Uint32_range b : length b = 4%nat -> 0 <= Uint32 b < 2 ^ 32.
Proof.
  intros Hb. destruct b as [|a [|c [|d [|e [|]]]]]; try done. unfold Uint32. simpl.
  pose proof (Byte.to_N_bounded a). pose proof (Byte.to_N_bounded c).
  pose proof (Byte.to_N_bounded d). pose proof (Byte.to_N_bounded e). lia.
Qed.

(** ** Termination *)

Context {GL : GnetReaderLaws I}.

(** Each iteration takes the four bytes of a header, so as much fuel as there
    are bytes is enough, whatever the bytes are. *)
Lemma OnTraffic_terminates fuel i w :
  (length (buffered i) < fuel)%nat -> is_Some (OnTraffic fuel (i, w)).1.
Proof.
  revert i w. induction fuel as [|fuel IH]; intros i w Hl; [lia|]. simpl.
  destruct (Peek frameHeaderSize i) as [[]|header] eqn:Hp; [by eexists..|].
  case_match; [by eexists|].
  assert (Hlen : (4 <= length (buffered i))%nat).
  { destruct (Nat.le_gt_cases 4 (length (buffered i))); [done|].
    rewrite Peek_short in Hp; [done|]. unfold frameHeaderSize. lia. }
  pose proof (Discard_ok frameHeaderSize i ltac:(unfold frameHeaderSize; lia)) as Hd.
  pose proof (Next_shrinks (Z.to_nat (Uint32 header)) (Discard frameHeaderSize i)) as Hn.
  rewrite Hd, length_drop in Hn. unfold frameHeaderSize in Hn at 2.
  assert (Hrest : is_Some (let (res, i0) := NextBytes (Z.to_nat (Uint32 header))
      (Discard frameHeaderSize i) in
    match res with
    | inl _ => (Some CloseAction, (i0, w))
    | inr payload => OnTraffic fuel (i0, (processFrame payload w).2)
    end).1).
  { destruct (NextBytes _ _) as [[e|payload] i0]; [by eexists|]. apply IH. simpl in Hn. lia. }
  match goal with |- context [Peek ?n i] => destruct (Peek n i) as [[]|] end;
    [by eexists|exact Hrest|exact Hrest].
Qed.

(** ** Reassembly *)

(** A payload the peer may send: not empty, within the limit. *)
Definition sendable (p : bytes) : Prop :=
  (0 < length p)%nat /\ Z.of_nat (length p) <= maxFrameSize.

Definition stream (ps : list bytes) (rest : bytes) : bytes := concat (map frameOf ps) ++ rest.

(** The beginning of a frame. *)
Definition incomplete (rest : bytes) : Prop :=
  (length rest < 4)%nat \/
  Uint32 (take 4 rest) <= maxFrameSize /\
  (length rest < 4 + Z.to_nat (Uint32 (take 4 rest)))%nat.

Context (Hmax : maxFrameSize < 2 ^ 32).

Lemma frame_header p x :
  sendable p -> Uint32 (take 4 (frameOf p ++ x)) = Z.of_nat (length p).
Proof.
  intros [_ H]. unfold frameOf. rewrite <- app_assoc, take_app_length' by done.
  unfold wrapu32. rewrite Z.mod_small by lia. apply Uint32_PutUint32. lia.
Qed.

Lemma frame_length p : length (frameOf p) = (4 + length p)%nat.
Proof. unfold frameOf. by rewrite length_app, length_PutUint32. Qed.

Lemma frame_payload p x : take (length p) (drop 4 (frameOf p ++ x)) = p.
Proof.
  unfold frameOf. rewrite <- app_assoc, drop_app_length' by done. by apply take_app_length'.
Qed.

Lemma frame_rest p x : drop (length p) (drop 4 (frameOf p ++ x)) = x.
Proof.
  unfold frameOf. rewrite <- app_assoc, drop_app_length' by done. by apply drop_app_length'.
Qed.

(** One iteration on a buffer that holds a whole frame. *)
Lemma OnTraffic_frame fuel i w p x :
  sendable p -> buffered i = frameOf p ++ x ->
  exists i', buffered i' = x /\
    OnTraffic (S fuel) (i, w) = OnTraffic fuel (i', (processFrame p w).2).
Proof.
  intros Hp Hb. assert (Hlen := f_equal length Hb). rewrite length_app, frame_length in Hlen.
  assert (Hp' := Hp). destruct Hp' as [Hp0 Hp1].
  cbn [OnTraffic]. unfold frameHeaderSize.
  rewrite Peek_ok by lia. rewrite Hb, (frame_header p x Hp), Nat2Z.id.
  replace (maxFrameSize <? Z.of_nat (length p)) with false by lia.
  rewrite Peek_ok by lia.
  pose proof (Discard_ok 4 i ltac:(lia)) as Hd. rewrite Hb in Hd.
  destruct (Next_ok (length p) (Discard 4 i)) as [Hn1 Hn2].
  { rewrite Hd, length_drop, length_app, frame_length. lia. }
  rewrite Hd, frame_payload in Hn1. rewrite Hd, frame_rest in Hn2.
  destruct (NextBytes (length p) (Discard 4 i)) as [res i']. simpl in Hn1, Hn2. subst res.
  by exists i'.
Qed.

(** One on a buffer that does not. *)
Lemma OnTraffic_wait fuel i w :
  incomplete (buffered i) -> OnTraffic (S fuel) (i, w) = (Some NoAction, (i, w)).
Proof.
  intros Hi. cbn [OnTraffic]. unfold frameHeaderSize.
  destruct (decide (length (buffered i) < 4)%nat) as [Hs|Hs].
  { by rewrite Peek_short. }
  destruct Hi as [Hi|[H1 H2]]; [lia|]. rewrite Peek_ok by lia.
  replace (maxFrameSize <? Uint32 (take 4 (buffered i))) with false by lia.
  by rewrite Peek_short by lia.
Qed.

(** The first bytes of a stream are a beginning of a frame, or contain one. *)
Lemma stream_prefix b later ps rest :
  Forall sendable ps -> incomplete rest -> b ++ later = stream ps rest ->
  incomplete b /\ (later = [] -> ps = []) \/
  exists p ps' x, ps = p :: ps' /\ b = frameOf p ++ x /\ x ++ later = stream ps' rest.
Proof.
  intros Hps Hr Hb. destruct ps as [|p ps].
  - left. split; [|done]. unfold stream in Hb. simpl in Hb. subst rest.
    destruct (decide (length b < 4)%nat) as [Hs|Hs]; [by left|].
    unfold incomplete in Hr. rewrite length_app, take_app_le in Hr by lia. destruct Hr as [Hr|[H1 H2]]; [lia|].
    right. split; [done|lia].
  - inversion Hps as [|? ? Hp Hps' E1]; subst.
    assert (Hst : stream (p :: ps) rest = frameOf p ++ stream ps rest)
      by (unfold stream; simpl; by rewrite app_assoc).
    rewrite Hst in Hb. destruct (decide (length b < 4 + length p)%nat) as [Hs|Hs].
    + left. split.
      * destruct (decide (length b < 4)%nat) as [Hs'|Hs']; [by left|right].
        assert (Ht : take 4 b = take 4 (frameOf p ++ stream ps rest))
          by (rewrite <- Hb, take_app_le by lia; done).
        rewrite Ht, frame_header by done. destruct Hp. lia.
      * intros ->. rewrite app_nil_r in Hb. subst b. rewrite length_app, frame_length in Hs. lia.
    + right. exists p, ps, (drop (4 + length p) b). split; [done|].
      assert (Ht : take (4 + length p) b = frameOf p).
      { rewrite <- (take_app_le b later) by lia. rewrite Hb.
        apply take_app_length'. by rewrite frame_length. }
      split; [by rewrite <- Ht, take_drop|].
      rewrite <- (drop_app_le b later) by lia. rewrite Hb.
      apply drop_app_length'. by rewrite frame_length.
Qed.

Lemma forEach_snoc_state {S A} (l1 l2 : list A) (f : A -> St S unit) w :
  (forEach l2 f (forEach l1 f w).2).2 = (forEach (l1 ++ l2) f w).2.
Proof. by rewrite forEach_app. Qed.

(** One call of [OnTraffic] takes the whole frames that have arrived. *)
Lemma OnTraffic_stream fuel i w ps rest later :
  Forall sendable ps -> incomplete rest -> (length (buffered i) < fuel)%nat ->
  buffered i ++ later = stream ps rest ->
  exists ps1 ps2 i', ps = ps1 ++ ps2 /\
    OnTraffic fuel (i, w) = (Some NoAction, (i', (forEach ps1 processFrame w).2)) /\
    buffered i' ++ later = stream ps2 rest /\ (later = [] -> ps2 = []).
Proof.
  revert i w ps. induction fuel as [|fuel IH]; intros i w ps Hps Hr Hf Hb; [lia|].
  destruct (stream_prefix (buffered i) later ps rest Hps Hr Hb)
    as [[Hi Hl]|(p & ps' & x & -> & Hbi & Hx)].
  - exists [], ps, i. rewrite OnTraffic_wait by done. by split_and!.
  - inversion Hps as [|? ? Hp Hps' E1]; subst.
    destruct (OnTraffic_frame fuel i w p x Hp Hbi) as (i' & Hi' & ->).
    assert (Hlen : (length (buffered i') < fuel)%nat).
    { rewrite Hi'. rewrite Hbi, length_app, frame_length in Hf. lia. }
    destruct (IH i' (processFrame p w).2 ps' Hps' Hr Hlen) as (ps1 & ps2 & i2 & -> & Hrun & H1 & H2);
      [by rewrite Hi'|].
    exists (p :: ps1), ps2, i2. rewrite forEach_cons. by split_and!.
Qed.

(** C29. Take any non-empty payloads within the size limit, frame them as
    [Write] does, and cut the bytes into arrivals anywhere, the last frame
    possibly incomplete.  Every [OnTraffic] returns, keeps the connection open,
    and together they hand exactly these payloads to [processFrame], in order;
    what is left in the buffer is the incomplete frame.  As much fuel as the
    stream has bytes is enough. *)
Theorem framing_reassembles fuel ps rest chunks i w :
  Forall sendable ps -> incomplete rest -> buffered i = [] ->
  concat chunks = stream ps rest -> (length (stream ps rest) < fuel)%nat ->
  exists i', traffic fuel chunks (i, w) =
      (map (fun _ => Some NoAction) chunks, (i', (forEach ps processFrame w).2)) /\
    buffered i' = rest.
Proof.
  intros Hps Hr Hi Hc Hf.
  assert (Hgen : forall chunks i w ps, Forall sendable ps ->
    buffered i ++ concat chunks = stream ps rest -> (length (stream ps rest) < fuel)%nat ->
    (chunks = [] -> ps = []) ->
    exists i', traffic fuel chunks (i, w) =
      (map (fun _ => Some NoAction) chunks, (i', (forEach ps processFrame w).2)) /\
    buffered i' = rest).
  { clear ps chunks i w Hps Hi Hc Hf.
    induction chunks as [|d chunks IH]; intros i w ps Hps Hb Hf Hnil.
    - rewrite (Hnil eq_refl) in *. simpl in *. rewrite app_nil_r in Hb. eauto.
    - simpl in Hb. rewrite app_assoc, <- Arrive_ok in Hb.
      assert (Hlen : (length (buffered (Arrive d i)) < fuel)%nat).
      { apply (f_equal length) in Hb. rewrite length_app in Hb. lia. }
      destruct (OnTraffic_stream fuel (Arrive d i) w ps rest (concat chunks) Hps Hr Hlen Hb)
        as (ps1 & ps2 & i1 & -> & Hrun & H1 & H2).
      apply Forall_app in Hps as [Hps1 Hps2].
      destruct (IH i1 (forEach ps1 processFrame w).2 ps2 Hps2 H1) as (i2 & Hrun2 & Hi2).
      { clear - Hf. unfold stream in *. rewrite map_app, concat_app, !length_app in Hf.
        rewrite length_app. lia. }
      { intros ->. by apply H2. }
      exists i2. split; [|done]. cbn [traffic]. unfold bind, arrival, ret.
      rewrite Hrun, Hrun2. by rewrite forEach_snoc_state. }
  apply Hgen; [done|by rewrite Hi|done|]. intros ->. destruct ps as [|p ps]; [done|].
  apply (f_equal length) in Hc. unfold stream in Hc. cbn [concat map] in Hc.
  rewrite !length_app, frame_length in Hc. cbn [length] in Hc. lia.
Qed.

(** A length beyond the limit closes the connection and processes nothing. *)
Lemma OnTraffic_oversized fuel i w :
  (4 <= length (buffered i))%nat -> maxFrameSize < Uint32 (take 4 (buffered i)) ->
  OnTraffic (S fuel) (i, w) = (Some CloseAction, (i, w)).
Proof.
  intros H1 H2. cbn [OnTraffic]. unfold frameHeaderSize. rewrite Peek_ok by lia.
  by replace (maxFrameSize <? Uint32 (take 4 (buffered i))) with true by lia.
Qed.

End Traffic.

(** ** A concrete buffer *)

(** The buffered bytes themselves; [Next] of zero bytes takes everything. *)
#[export] Instance bytesReader : GnetReader bytes :=
  mkGnetReader _
    (fun n i => if (length i <? n)%nat then inl ErrShortBuffer else inr (take n i))
    (fun n i => drop n i)
    (fun n i => if (length i <? n)%nat then (inl ErrShortBuffer, i)
                else if (n =? 0)%nat then (inr i, []) else (inr (take n i), drop n i))
    (fun d i => i ++ d).

#[export] Instance bytesReaderLaws : GnetReaderLaws bytes.
Proof.
  refine (mkGnetReaderLaws _ _ (fun i => i) _ _ _ _ _ _); simpl.
  - intros n i H. by apply Nat.ltb_lt in H as ->.
  - intros n i [_ H]. by apply Nat.ltb_ge in H as ->.
  - done.
  - intros n i [H1 H2]. apply Nat.ltb_ge in H2 as ->.
    by replace (n =? 0)%nat with false by (symmetry; apply Nat.eqb_neq; lia).
  - intros n i. destruct (length i <? n)%nat; [done|]. destruct (n =? 0)%nat; simpl; [lia|].
    rewrite length_drop. lia.
  - done.
Defined.

(** Collecting the frames. *)
Definition collect (p : bytes) : St (list bytes) unit := modify (fun l => l ++ [p]).

Definition frameA : bytes := [Byte.x61; Byte.x62].
Definition frameB : bytes := [Byte.x63].

(** The two frames and half a header, cut inside the first header and the
    second payload. *)
Definition cutStream : list bytes :=
  [[Byte.x00; Byte.x00]; [Byte.x00; Byte.x02; Byte.x61; Byte.x62; Byte.x00; Byte.x00; Byte.x00];
   [Byte.x01; Byte.x63; Byte.x00; Byte.x00]].

Lemma demo_limit : 10 < 2 ^ 32.
Proof. lia. Qed.
Lemma demo_sendable : Forall (sendable 10) [frameA; frameB].
Proof. repeat constructor; simpl; lia. Qed.
Lemma demo_incomplete : incomplete 10 [Byte.x00; Byte.x00].
Proof. left. simpl. lia. Qed.
Lemma demo_fuel : (length (stream [frameA; frameB] [Byte.x00; Byte.x00]) < 20)%nat.
Proof. apply Nat.ltb_lt. by vm_compute. Qed.
Lemma demo_cut : concat cutStream = stream [frameA; frameB] [Byte.x00; Byte.x00].
Proof. by vm_compute. Qed.

Lemma framing_reassembles_witness :
  exists i', traffic (W := list bytes) 10 collect 20 cutStream ([], []) =
      ([Some NoAction; Some NoAction; Some NoAction], (i', [frameA; frameB])) /\
    i' = [Byte.x00; Byte.x00].
Proof.
  exact (framing_reassembles 10 collect demo_limit 20 [frameA; frameB] [Byte.x00; Byte.x00]
    cutStream [] [] demo_sendable demo_incomplete eq_refl demo_cut demo_fuel).
Defined.
