(* ===== verification/Kit.v ===== *)
(** * The client kit (src/bench/kit/kit.go)

    What a client of the gateway does: log in over HTTP, connect by WebSocket or
    TCP, read and write messages, ask for the health of the server.  The network
    (net.Conn, gorilla's connection, net/http's client) is a class; deadlines
    are set on it and what they do is its own.  Errors keep the chain [%w]
    builds, because a caller asks whether an error is a [net.Error].  [url.Parse]
    gives the part of a URL before its query and the pairs of the query. *)

From S2P Require Import Prelude Proto Snowflake Process Json JsonFacts Url Framing.

(** ** Errors *)

Inductive GoError :=
| NetError (timeout : bool) (text : string)
| PlainError (text : string)
| WrapError (prefix : string) (cause : GoError).

Fixpoint ErrorText (e : GoError) : string :=
  match e with
  | NetError _ t | PlainError t => t
  | WrapError p c => p +:+ ErrorText c
  end.

Definition EOF : GoError := PlainError "EOF".
Definition ErrUnexpectedEOF : GoError := PlainError "unexpected EOF".

(** ** The network *)

Record Reply := mkReply { rp_status : Z; rp_body : string; rp_readErr : option GoError }.

Record URL := mkURL { url_base : string; url_query : Params }.

(** [u.String()]. *)
Definition URLString (u : URL) : string :=
  match url_query u with [] => url_base u | q => url_base u +:+ String "?" (Encode q) end.

(** net.Conn.  [Read] gives at most as many bytes as it is asked for, and an
    error if it gives none, as net.Conn does. *)
Class TcpNet (W : Type) := mkTcpNet {
  TConn : Type;
  net_Dial : string -> St (W * Sys) (GoError + TConn);
  net_SetReadDeadline : TConn -> Z -> St (W * Sys) unit;
  net_SetWriteDeadline : TConn -> Z -> St (W * Sys) unit;
  net_Read : TConn -> nat -> St (W * Sys) (bytes * option GoError);
  net_Write : TConn -> bytes -> St (W * Sys) (option GoError);
  net_Close : TConn -> St (W * Sys) (option GoError);
  read_progress : forall c n w, (0 < n)%nat ->
    (length (net_Read c n w).1.1 <= n)%nat /\
    ((net_Read c n w).1.1 <> [] \/ (net_Read c n w).1.2 <> None)
}.

(** gorilla's client connections. *)
Class WsNet (W : Type) := mkWsNet {
  WConn : Type;
  ws_Dial : string -> St (W * Sys) (GoError + WConn);
  ws_SetReadDeadline : WConn -> Z -> St (W * Sys) unit;
  ws_SetWriteDeadline : WConn -> Z -> St (W * Sys) unit;
  ws_ReadMessage : WConn -> St (W * Sys) (GoError + (Z * bytes));
  ws_WriteMessage : WConn -> Z -> bytes -> St (W * Sys) (option GoError);
  ws_Close : WConn -> St (W * Sys) (option GoError)
}.

(** net/http's client. *)
Class HttpNet (W : Type) := mkHttpNet {
  http_Get : string -> St (W * Sys) (GoError + Reply);
  http_Post : string -> string -> string -> St (W * Sys) (GoError + Reply)
}.

Class UrlParser := mkUrlParser { urlParse : string -> GoError + URL }.

Definition BinaryMessage : Z := 2.

(** The texts of the errors of encoding/json and of protobuf. *)
Class ErrorTexts := mkErrorTexts {
  marshalErr : Message -> GoError;
  unmarshalErr : bytes -> GoError;
  jsonErr : string -> GoError
}.

Definition defaultTimeout : Z := 5 * 1000000000.

Section Kit.
Context {E : Env} {C : Codec} {T : ErrorTexts} {W : Type} {TN : TcpNet W} {WN : WsNet W} {HN : HttpNet W} {UP : UrlParser}.

Abbreviation K := (St (W * Sys)).

(** The statement after [if err != nil { return ..., wrap(err) }]. *)
Definition try {A R : Type} (wrap : GoError -> GoError) (m : K (GoError + A)) (k : A -> K (GoError + R))
  : K (GoError + R) :=
  let! r := m in match r with inl e => ret (inl (wrap e)) | inr a => k a end.

(** A call that only gives an error. *)
Definition errOnly (m : K (option GoError)) : K (GoError + unit) :=
  let! r := m in ret (match r with Some e => inl e | None => inr tt end).

(** ** HTTP *)

Record loginResult := mkLoginResult { lr_UID : string; lr_Username : string; lr_Token : string }.

(** [json.Unmarshal(body, &result)]. *)
Definition decodeLogin (body : string) : option loginResult :=
  fs ← UnmarshalObject body;
  uid ← field_string "uid" fs; username ← field_string "username" fs; token ← field_string "token" fs;
  Some (mkLoginResult uid username token).

Definition loginForm (uid username password : string) : Params :=
  let form := paramsSet "uid" uid [] in
  let form := if bool_decide (username <> "") then paramsSet "username" username form else form in
  if bool_decide (password <> "") then paramsSet "password" password form else form.

(** The token and the user it was given for. *)
Definition Login (baseURL uid username password : string) : K (GoError + (string * string)) :=
  try (WrapError "login http: ")
    (http_Post baseURL "application/x-www-form-urlencoded" (Encode (loginForm uid username password)))
    (fun resp =>
  match rp_readErr resp with
  | Some err => ret (inl (WrapError "login read body: " err))
  | None =>
      if negb (rp_status resp =? 200)
      then ret (inl (PlainError ("login returned " +:+ itoa (rp_status resp) +:+ ": " +:+ rp_body resp)))
      else match decodeLogin (rp_body resp) with
      | None => ret (inl (WrapError "decode login response: " (jsonErr (rp_body resp))))
      | Some result => ret (inr (lr_Token result, lr_UID result))
      end
  end).

Definition LoginDev (baseURL uid username : string) : K (GoError + (string * string)) :=
  Login baseURL uid username "".

(** ** WebSocket *)

Definition ConnectWS (wsURL token : string) : K (GoError + WConn) :=
  match urlParse wsURL with
  | inl err => ret (inl (WrapError "parse ws url: " err))
  | inr u =>
      let u := mkURL (url_base u) (paramsSet "token" token (url_query u)) in
      try (WrapError "ws connect: ") (ws_Dial (URLString u)) (fun conn => ret (inr conn))
  end.

(** A timeout that is not positive is the default one. *)
Definition timeoutOr (timeout : Z) : Z := if timeout <=? 0 then defaultTimeout else timeout.

Definition ReadRaw (c : WConn) (timeout : Z) : K (GoError + (Z * bytes)) :=
  let! now := Now in
  ws_SetReadDeadline c (now + timeoutOr timeout) ;;!
  ws_ReadMessage c.

Definition ReadMessage (c : WConn) (timeout : Z) : K (GoError + Message) :=
  try (WrapError "read ws: ") (ReadRaw c timeout) (fun '(_, raw) =>
  match unmarshal raw with
  | None => ret (inl (WrapError "unmarshal ws message: " (unmarshalErr raw)))
  | Some msg => ret (inr msg)
  end).

Definition WriteMessage (c : WConn) (msg : Message) (timeout : Z) : K (GoError + unit) :=
  match marshal msg with
  | None => ret (inl (WrapError "marshal message: " (marshalErr msg)))
  | Some data =>
      let! now := Now in
      ws_SetWriteDeadline c (now + timeoutOr timeout) ;;!
      try (WrapError "write ws message: ") (errOnly (ws_WriteMessage c BinaryMessage data)) (fun _ => ret (inr tt))
  end.

(** [None] is a nil client, or one without a connection. *)
Definition CloseWS (c : option WConn) : K (option GoError) :=
  match c with None => ret None | Some c => ws_Close c end.

Definition DrainLoginResp (c : WConn) (timeout : Z) : K (GoError + Message) :=
  try id (ReadMessage c timeout) (fun msg =>
  if negb (Cmd msg =? CmdLoginResp)
  then ret (inl (PlainError ("expected login response, got cmd=" +:+ itoa (Cmd msg))))
  else ret (inr msg)).

Definition heartbeatMessage : Message := mkMessage 0 0 CmdHeartbeat "" "" 0 0 "" 0 false.

Definition SendHeartbeatWS (c : WConn) (timeout : Z) : K (GoError + unit) :=
  try id (WriteMessage c heartbeatMessage timeout) (fun _ =>
  try id (ReadMessage c timeout) (fun _ => ret (inr tt))).

(** ** TCP *)

Definition ConnectTCP (addr : string) : K (GoError + TConn) :=
  try (WrapError ("tcp dial to " +:+ addr +:+ ": ")) (net_Dial addr) (fun conn => ret (inr conn)).

(** The loop of [io.ReadAtLeast]: until [n] more bytes are there or an error is
    returned.  Each turn reads a byte or ends, so [n] turns are enough. *)
Fixpoint readLoop (fuel : nat) (c : TConn) (n : nat) : K (bytes * option GoError) :=
  match fuel with
  | O => ret ([], None)
  | S fuel =>
      if (n =? 0)%nat then ret ([], None)
      else
        let! (b, err) := net_Read c n in
        match err with
        | Some e => ret (b, Some e)
        | None => let! (b', err) := readLoop fuel c (n - length b) in ret (b ++ b', err)
        end
  end.

(** [io.ReadFull(c.Conn, make([]byte, n))]. *)
Definition ReadFull (c : TConn) (n : nat) : K (GoError + bytes) :=
  let! (b, err) := readLoop n c n in
  ret (if (n <=? length b)%nat then inr b
       else match err with
       | Some e => match e, b with
                   | PlainError "EOF", _ :: _ => inl ErrUnexpectedEOF
                   | _, _ => inl e
                   end
       | None => inr b
       end).

Definition ReadFrame (c : TConn) (timeout : Z) : K (GoError + Message) :=
  let! now := Now in
  net_SetReadDeadline c (now + timeoutOr timeout) ;;!
  try (WrapError "read tcp header: ") (ReadFull c 4) (fun header =>
  let length := Uint32 header in
  if 65536 <? length then ret (inl (PlainError ("tcp frame too large: " +:+ itoa length)))
  else try (WrapError ("read tcp payload (" +:+ itoa length +:+ " bytes): ")) (ReadFull c (Z.to_nat length)) (fun payload =>
  match unmarshal payload with
  | None => ret (inl (WrapError "unmarshal tcp frame: " (unmarshalErr payload)))
  | Some msg => ret (inr msg)
  end)).

Definition WriteFrame (c : TConn) (msg : Message) (timeout : Z) : K (GoError + unit) :=
  match marshal msg with
  | None => ret (inl (WrapError "marshal tcp message: " (marshalErr msg)))
  | Some data =>
      let frame := PutUint32 (wrapu32 (Z.of_nat (length data))) ++ data in
      let! now := Now in
      net_SetWriteDeadline c (now + timeoutOr timeout) ;;!
      try (WrapError "write tcp frame: ") (errOnly (net_Write c frame)) (fun _ => ret (inr tt))
  end.

Definition CloseTCP (c : option TConn) : K (option GoError) :=
  match c with None => ret None | Some c => net_Close c end.

Definition loginMessage (token : string) : Message := mkMessage 0 0 CmdLogin "" "" 0 0 token 0 false.

Definition LoginTCP (c : TConn) (token : string) (timeout : Z) : K (GoError + Message) :=
  try id (WriteFrame c (loginMessage token) timeout) (fun _ => ReadFrame c timeout).

Definition SendHeartbeatTCP (c : TConn) (timeout : Z) : K (GoError + unit) :=
  try id (WriteFrame c heartbeatMessage timeout) (fun _ =>
  try id (ReadFrame c timeout) (fun _ => ret (inr tt))).

(** ** Health *)

(** The poll ends when the clock passes the deadline: [sleep] is what passes of
    it in between, and [None] that the fuel ran out. *)
Fixpoint pollHealth (fuel : nat) (healthURL : string) (deadline : Z) : K (option bool) :=
  match fuel with
  | O => ret None
  | S fuel =>
      let! now := Now in
      if negb (now <? deadline) then ret (Some false)
      else
        let! resp := http_Get healthURL in
        match resp with
        | inr r => if rp_status r =? 200 then ret (Some true) else pollHealth fuel healthURL deadline
        | inl _ => pollHealth fuel healthURL deadline
        end
  end.

(** [durationText] is how fmt prints the timeout. *)
Definition WaitHealthy (durationText : Z -> string) (fuel : nat) (healthURL : string) (timeout : Z)
  : K (option (option GoError)) :=
  let! now := Now in
  let! ok := pollHealth fuel healthURL (now + timeout) in
  ret (match ok with
       | None => None
       | Some true => Some None
       | Some false => Some (Some (PlainError ("health endpoint " +:+ healthURL +:+ " not ready within " +:+
                                                durationText timeout)))
       end).

Record HealthStatus := mkHealthStatus {
  hs_Status : string;
  hs_Connections : Z;
  hs_Dependencies : gmap string string;
  hs_AllocMB : Z;
  hs_Goroutines : Z
}.

(** A [map[string]string]: a null value is the empty string. *)
Definition decodeMap (old : option (gmap string string)) (v : json) : option (gmap string string) :=
  match old, v with
  | Some m, JObject fs =>
      foldl (fun m f => match m, decodeString (Some ""%string) f.2 with
                        | Some m, Some s => Some (<[f.1 := s]> m)
                        | _, _ => None
                        end) (Some m) fs
  | Some _, JNull => Some ∅
  | _, _ => None
  end.

(** The fields of the objects a struct field is given, in order. *)
Definition decodeStruct (old : option (list (string * json))) (v : json) : option (list (string * json)) :=
  match old, v with
  | Some o, JObject fs => Some (o ++ fs)
  | Some o, JNull => Some o
  | _, _ => None
  end.

Definition decodeHealth (body : string) : option HealthStatus :=
  fs ← UnmarshalObject body;
  status ← field_string "status" fs;
  connections ← field_int64 "connections" fs;
  dependencies ← foldl decodeMap (Some ∅) (valuesOf "dependencies" fs);
  memory ← foldl decodeStruct (Some []) (valuesOf "memory" fs);
  alloc ← field_int64 "alloc_mb" memory;
  goroutines ← field_int64 "goroutines" memory;
  Some (mkHealthStatus status connections dependencies alloc goroutines).

(** The error of reading the body is dropped, and the status not looked at. *)
Definition GetHealth (healthURL : string) : K (GoError + HealthStatus) :=
  try id (http_Get healthURL) (fun resp =>
  match decodeHealth (rp_body resp) with
  | None => ret (inl (WrapError "decode health: " (jsonErr (rp_body resp))))
  | Some h => ret (inr h)
  end).

Definition HTTPGetJSON (baseURL path : string) (params : Params) : K (GoError + string) :=
  match urlParse (baseURL +:+ path) with
  | inl err => ret (inl err)
  | inr u =>
      try (WrapError ("GET " +:+ path +:+ ": ")) (http_Get (URLString (mkURL (url_base u) params))) (fun resp =>
      match rp_readErr resp with
      | Some err => ret (inl err)
      | None =>
          if negb (rp_status resp =? 200)
          then ret (inl (PlainError ("GET " +:+ path +:+ " returned " +:+ itoa (rp_status resp) +:+ ": " +:+ rp_body resp)))
          else ret (inr (rp_body resp))
      end)
  end.

End Kit.
