(* ===== verification/GrpcServer.v ===== *)
(** * The gateway's gRPC service (src/internal/gateway/grpc_server.go)

    [ForwardMessage], with which a gateway takes a message from a peer: it
    shares the connection registry and the offline store with the router. *)

From S2P Require Import Prelude Proto Snowflake Process Client Hub.

Record ForwardRequest := mkForwardRequest { fr_Message : option Message; fr_Uid : string }.
Record ForwardResponse := mkForwardResponse { fw_Delivered : bool; fw_Error : string }.

Record GrpcGatewayServer (O : Type) := mkGrpcGatewayServer {
  gs_clients : Conn;
  gs_offline : O;
  gs_nodeID : string
}.
Arguments mkGrpcGatewayServer {O}.
Arguments gs_clients {O}.
Arguments gs_offline {O}.
Arguments gs_nodeID {O}.

Definition NewGrpcGatewayServer {O} (clients : Conn) (offline : O) (nodeID : string)
  : GrpcGatewayServer O := mkGrpcGatewayServer clients offline nodeID.

Section Server.
Context {E : Env} {C : Codec} {O : Type} {OS : OfflineStore O}.

(** The text of a marshalling error is the protobuf library's. *)
Context (marshalErrText : string).

Definition SendErr_text (e : SendErr) : string :=
  match e with
  | ErrMarshal => marshalErrText
  | ErrClientClosed => "client closed"
  | ErrSendBufferFull => "send buffer full"
  end.

Definition serverSend (h : Handle) (m : Message)
  : St (GrpcGatewayServer O * Sys) (option SendErr) :=
  fun '(g, s) =>
    let '(e, (cn, s')) := SendTo h m (gs_clients g, s) in
    (e, (mkGrpcGatewayServer cn (gs_offline g) (gs_nodeID g), s')).

Definition serverStore (uid : string) (m : Message) : St (GrpcGatewayServer O * Sys) unit :=
  fun '(g, s) =>
    let '(_, (o, s')) := StoreOffline uid m (gs_offline g, s) in
    (tt, (mkGrpcGatewayServer (gs_clients g) o (gs_nodeID g), s')).

Definition ForwardMessage (req : ForwardRequest)
  : St (GrpcGatewayServer O * Sys) ForwardResponse :=
  match fr_Message req with
  | None => ret (mkForwardResponse false "message is nil")
  | Some m =>
      if bool_decide (fr_Uid req = "") then ret (mkForwardResponse false "uid is empty")
      else
        let! g := getX in
        match clients (gs_clients g) !! fr_Uid req with
        | Some h =>
            let! err := serverSend h m in
            match err with
            | Some e =>
                serverStore (fr_Uid req) m ;;! ret (mkForwardResponse false (SendErr_text e))
            | None => ret (mkForwardResponse true "")
            end
        | None =>
            serverStore (fr_Uid req) m ;;!
            ret (mkForwardResponse false "target not locally connected, stored offline")
        end
  end.

(** ** What becomes of a forwarded message *)

Context {OL : OfflineLaws E O}.

(** The message was appended to the user's connection. *)
Definition taken_live (g g' : GrpcGatewayServer O) (uid : string) (m : Message) : Prop :=
  gs_offline g' = gs_offline g /\
  exists h c d, clients (gs_clients g) !! uid = Some h /\ heap (gs_clients g) !! h_id h = Some c /\
    marshal m = Some d /\
    heap (gs_clients g') !! h_id h = Some (set_sendBuf (sendBuf c ++ [d]) c).

(** The message was appended to the user's offline queue, and no connection
    changed. *)
Definition taken_offline (g g' : GrpcGatewayServer O) (uid : string) (m : Message) : Prop :=
  gs_clients g' = gs_clients g /\
  off_queue (gs_offline g') uid =
    lastn (off_limit (gs_offline g)) (off_queue (gs_offline g) uid ++ [m]) /\
  (forall u, u <> uid -> off_queue (gs_offline g') u = off_queue (gs_offline g) u).

(** Every registered handle points to a client. *)
Definition registered (cn : Conn) : Prop :=
  forall uid h, clients cn !! uid = Some h -> is_Some (heap cn !! h_id h).

Lemma serverSend_run h m g s c :
  heap (gs_clients g) !! h_id h = Some c ->
  let r := serverSend h m (g, s) in
  match r.1 with
  | Some _ => r.2.1 = g
  | None => exists d, marshal m = Some d /\ gs_offline r.2.1 = gs_offline g /\
      heap (gs_clients r.2.1) !! h_id h = Some (set_sendBuf (sendBuf c ++ [d]) c)
  end /\ (sys_wf E s -> sys_wf E r.2.2).
Proof.
  intros Hc r. unfold r, serverSend, SendTo, onClient. rewrite Hc.
  pose proof (Send_spec m c s) as Hs. destruct (Send m (c, s)) as [e [c' s']].
  destruct Hs as (Hr & Hsn & Ht). simpl. split.
  - destruct Hr as [|Hcl|Hop Hlen|d Hd Hlen]; simpl.
    1-3: rewrite insert_id by done; unfold set_heap; destruct g as [cn ? ?]; by destruct cn.
    exists d. by rewrite lookup_insert_eq.
  - unfold sys_wf. rewrite Hsn. by apply wf_later.
Qed.

Lemma serverStore_run uid m g s :
  off_ok (gs_offline g) ->
  let r := serverStore uid m (g, s) in
  taken_offline g r.2.1 uid m /\ off_ok (gs_offline r.2.1) /\ (sys_wf E s -> sys_wf E r.2.2).
Proof.
  intros Ho r. unfold r, serverStore.
  destruct (store_law uid m (gs_offline g) s Ho) as (H1 & H2 & H3 & H4).
  pose proof (store_sys uid m (gs_offline g) s) as H5.
  destruct (StoreOffline uid m (gs_offline g, s)) as [[] [o s']]. simpl in *.
  split; [by split|]. by split.
Qed.

Lemma ForwardMessage_run uid m g s :
  uid <> "" ->
  ForwardMessage (mkForwardRequest (Some m) uid) (g, s) =
  match clients (gs_clients g) !! uid with
  | Some h =>
      let r := serverSend h m (g, s) in
      match r.1 with
      | Some e => (mkForwardResponse false (SendErr_text e), (serverStore uid m r.2).2)
      | None => (mkForwardResponse true "", r.2)
      end
  | None => (mkForwardResponse false "target not locally connected, stored offline",
             (serverStore uid m (g, s)).2)
  end.
Proof.
  intros Hu. unfold ForwardMessage. cbn [fr_Message fr_Uid]. rewrite bool_decide_false by done.
  unfold bind at 1, getX, gets. cbn [fst snd].
  destruct (clients (gs_clients g) !! uid) as [h|]; [|by rewrite bind_ret_state].
  unfold bind at 1. destruct (serverSend h m (g, s)) as [[e|] p]; [|done].
  by rewrite bind_ret_state.
Qed.

(** A well-formed forwarding request is never lost: exactly one of the user's
    connection and the user's offline queue takes the message, and the answer
    says which. *)
Lemma ForwardMessage_spec uid m g s :
  uid <> "" -> off_ok (gs_offline g) -> registered (gs_clients g) ->
  let r := ForwardMessage (mkForwardRequest (Some m) uid) (g, s) in
  (if fw_Delivered r.1 then taken_live g r.2.1 uid m else taken_offline g r.2.1 uid m) /\
  (sys_wf E s -> sys_wf E r.2.2).
Proof.
  intros Hu Ho Hreg r. unfold r. rewrite ForwardMessage_run by done.
  destruct (clients (gs_clients g) !! uid) as [h|] eqn:Hh; cbv zeta.
  - destruct (Hreg uid h Hh) as [c Hc]. destruct (serverSend_run h m g s c Hc) as [H1 H2].
    destruct (serverSend h m (g, s)) as [[e|] [g1 s1]]; cbn [fst snd fw_Delivered] in *.
    + subst g1. destruct (serverStore_run uid m g s1 Ho) as (H3 & _ & H4). auto.
    + destruct H1 as (d & Hd & Hoff & Hheap). split; [|done].
      split; [done|]. by exists h, c, d.
  - destruct (serverStore_run uid m g s Ho) as (H3 & _ & H4). auto.
Qed.

End Server.
