(* ===== verification/GrpcForwarder.v ===== *)
(** * Forwarding to a peer gateway (src/internal/gateway/grpc_forwarder.go)

    [GrpcForwarder] with its two caches of connections, over an interface for
    the network: dialling an address and calling [ForwardMessage] on what was
    dialled.  A connection is the address it was dialled at.  The ring is the one
    the router and the cluster manager share. *)

From S2P Require Import Prelude Proto Snowflake Process Client Hub HashRing Stores GrpcServer.

(** [grpc.DialContext] and the generated client; an error is its text. *)
Class PeerNet (P : Type) := mkPeerNet {
  DialContext : string -> P -> option string * P;
  CallForwardMessage : string -> ForwardRequest -> P -> (string + ForwardResponse) * P
}.

Record GrpcForwarder := mkGrpcForwarder {
  f_hashRing : HashRing;
  f_thisNodeID : string;
  peerAddrs : gmap string string;
  conns : gmap string string;
  peerClients : gmap string string;
  dialTimeout : Z;
  rpcTimeout : Z
}.

Definition set_peerAddrs (m : gmap string string) (f : GrpcForwarder) : GrpcForwarder :=
  mkGrpcForwarder (f_hashRing f) (f_thisNodeID f) m (conns f) (peerClients f) (dialTimeout f)
    (rpcTimeout f).
Definition set_conns (c cl : gmap string string) (f : GrpcForwarder) : GrpcForwarder :=
  mkGrpcForwarder (f_hashRing f) (f_thisNodeID f) (peerAddrs f) c cl (dialTimeout f)
    (rpcTimeout f).
Definition set_ring (h : HashRing) (f : GrpcForwarder) : GrpcForwarder :=
  mkGrpcForwarder h (f_thisNodeID f) (peerAddrs f) (conns f) (peerClients f) (dialTimeout f)
    (rpcTimeout f).

Definition Second : Z := 1000000000.

Definition NewGrpcForwarder (hr : HashRing) (thisNodeID : string) (addrs : gmap string string)
  (dial rpc : Z) : GrpcForwarder :=
  mkGrpcForwarder hr thisNodeID addrs ∅ ∅
    (if dial <=? 0 then 3 * Second else dial) (if rpc <=? 0 then 2 * Second else rpc).

(** Dropping a node's connection: in [Forward] after a failed call, and in
    [RemovePeer]. *)
Definition evict (nodeID : string) (f : GrpcForwarder) : GrpcForwarder :=
  set_conns (delete nodeID (conns f)) (delete nodeID (peerClients f)) f.

Definition AddPeer (nodeID addr : string) (f : GrpcForwarder) : GrpcForwarder :=
  set_peerAddrs (<[nodeID := addr]> (peerAddrs f)) f.

Definition RemovePeer (nodeID : string) (f : GrpcForwarder) : GrpcForwarder :=
  evict nodeID (set_peerAddrs (delete nodeID (peerAddrs f)) f).

Definition PeerAddrs (f : GrpcForwarder) : gmap string string := peerAddrs f.

Definition CloseForwarder (f : GrpcForwarder) : GrpcForwarder := set_conns ∅ ∅ f.

Section Forwarding.
Context {P : Type} {PN : PeerNet P}.

(** The text of [grpc.ErrClientConnClosing]. *)
Context (errNoPeer : string).

(** The connection to a node, or the text of the error. *)
Definition getOrDial (nodeID : string) : St (GrpcForwarder * P) (string + string) :=
  fun '(f, p) =>
    match peerClients f !! nodeID with
    | Some client => (inr client, (f, p))
    | None =>
        match peerAddrs f !! nodeID with
        | None => (inl errNoPeer, (f, p))
        | Some addr =>
            let (err, p') := DialContext addr p in
            match err with
            | Some e => (inl e, (f, p'))
            | None =>
                (inr addr, (set_conns (<[nodeID := addr]> (conns f))
                  (<[nodeID := addr]> (peerClients f)) f, p'))
            end
        end
    end.

(** The call on a connection, and the eviction when it fails. *)
Definition callPeer (ownerNode conn targetUID : string) (msg : Message)
  : St (GrpcForwarder * P) (string + bool) :=
  fun '(f, p) =>
    let (res, p') := CallForwardMessage conn (mkForwardRequest (Some msg) targetUID) p in
    match res with
    | inl err => (inl err, (evict ownerNode f, p'))
    | inr resp => (inr (fw_Delivered resp), (f, p'))
    end.

Definition GrpcForward (targetUID : string) (msg : Message)
  : St (GrpcForwarder * P) (string + bool) :=
  fun '(f, p) =>
    let ownerNode := HashRing.Get (f_hashRing f) targetUID in
    if bool_decide (ownerNode = "") then (inr false, (f, p))
    else if bool_decide (ownerNode = f_thisNodeID f) then (inr false, (f, p))
    else
      (let! res := getOrDial ownerNode in
       match res with
       | inl err => ret (inl err)
       | inr conn => callPeer ownerNode conn targetUID msg
       end) (f, p).

#[export] Instance GrpcForwarder_Forwarder : Forwarder (GrpcForwarder * P) :=
  mkForwarder _ (fun uid msg '(x, s) => let (r, x') := GrpcForward uid msg x in (r, (x', s))).

(** ** Which address a node's messages go to *)

(** The cached connection, else the configured address. *)
Definition target (f : GrpcForwarder) (nodeID : string) : option string :=
  match peerClients f !! nodeID with
  | Some a => Some a
  | None => peerAddrs f !! nodeID
  end.

(** The two caches agree. *)
Definition caches_agree (f : GrpcForwarder) : Prop := conns f = peerClients f.

Lemma evict_target f n m :
  target (evict n f) m = if decide (m = n) then peerAddrs f !! n else target f m.
Proof.
  unfold target, evict. simpl. case_decide as Hm; [subst m; by rewrite lookup_delete_eq|].
  by rewrite lookup_delete_ne.
Qed.

Lemma getOrDial_run n f p :
  match target f n with
  | None => getOrDial n (f, p) = (inl errNoPeer, (f, p))
  | Some a =>
      (exists f' p', getOrDial n (f, p) = (inr a, (f', p')) /\ target f' n = Some a /\
         peerAddrs f' = peerAddrs f /\ (caches_agree f -> caches_agree f') /\
         (forall m, m <> n -> target f' m = target f m)) \/
      (exists e p', getOrDial n (f, p) = (inl e, (f, p')) /\ peerClients f !! n = None /\
         (DialContext a p).1 = Some e)
  end.
Proof.
  unfold target, getOrDial. destruct (peerClients f !! n) as [a|] eqn:Hc.
  { left. exists f, p. by rewrite Hc. }
  destruct (peerAddrs f !! n) as [a|]; [|done].
  destruct (DialContext a p) as [[e|] p'] eqn:Hd.
  - right. exists e, p'. done.
  - left. eexists _, p'. split; [done|]. simpl. rewrite lookup_insert_eq.
    unfold caches_agree. simpl. split_and!; [done|done|by intros ->|].
    intros m Hm. by rewrite lookup_insert_ne.
Qed.

(** Only dialling touches the network. *)
Lemma getOrDial_net n f p a f' p' :
  getOrDial n (f, p) = (inr a, (f', p')) -> p' = p \/ p' = (DialContext a p).2.
Proof.
  unfold getOrDial. destruct (peerClients f !! n); [intros [= -> -> ->]; auto|].
  destruct (peerAddrs f !! n) as [b|]; [|done].
  destruct (DialContext b p) as [[e|] q] eqn:Hd; [done|]. intros [= -> _ ->]. rewrite Hd. auto.
Qed.

(** ** The theorem *)

Definition forwardable (f : GrpcForwarder) (uid o : string) : Prop :=
  HashRing.Get (f_hashRing f) uid = o /\ o <> "" /\ o <> f_thisNodeID f.

Lemma GrpcForward_run f p uid msg o :
  forwardable f uid o ->
  GrpcForward uid msg (f, p) =
  match (getOrDial o (f, p)).1 with
  | inl err => (inl err, (getOrDial o (f, p)).2)
  | inr conn => callPeer o conn uid msg (getOrDial o (f, p)).2
  end.
Proof.
  intros (<- & H1 & H2). unfold GrpcForward. rewrite !bool_decide_false by done.
  unfold bind. by destruct (getOrDial _ (f, p)) as [[err|conn] q].
Qed.

(** Which connection a message for a remote owner takes.  The one cached
    for the node, if there is one, even after [AddPeer] gave the node another
    address; else one dialled at the configured address, and kept.  A failed call
    drops the connection, so that the next message dials the configured address
    again; [RemovePeer] leaves the node unreachable; the two caches always
    agree. *)
Theorem forwarder_connection_policy f p uid msg o :
  caches_agree f -> forwardable f uid o ->
  let '(r, (f', p')) := GrpcForward uid msg (f, p) in
  (caches_agree f' /\ peerAddrs f' = peerAddrs f /\
   match target f o with
   | None => r = inl errNoPeer /\ f' = f /\ p' = p
   | Some a =>
       (exists e, r = inl e) /\ target f' o = peerAddrs f !! o \/
       exists p1 resp, (p1 = p \/ p1 = (DialContext a p).2) /\
         CallForwardMessage a (mkForwardRequest (Some msg) uid) p1 = (inr resp, p') /\
         r = inr (fw_Delivered resp) /\ target f' o = Some a
   end) /\
  (forall n a, caches_agree (AddPeer n a f) /\
     target (AddPeer n a f) n = Some (default a (peerClients f !! n))) /\
  (forall n, caches_agree (RemovePeer n f) /\ target (RemovePeer n f) n = None) /\
  caches_agree (CloseForwarder f).
Proof.
  intros Ha Hf. destruct (GrpcForward uid msg (f, p)) as [r [f' p']] eqn:Hr.
  refine (conj _ (conj _ (conj _ eq_refl))).
  - rewrite (GrpcForward_run f p uid msg o Hf) in Hr.
    pose proof (getOrDial_run o f p) as Hd. destruct (target f o) as [a|].
    + destruct Hd as [(f1 & p1 & Hd & H1 & H2 & H3 & _)|(e & p1 & Hd & Hn & _)];
        rewrite Hd in Hr; cbn [fst snd] in Hr.
      * unfold callPeer in Hr.
        destruct (CallForwardMessage a (mkForwardRequest (Some msg) uid) p1) as [res p2] eqn:Hc.
        destruct res as [err|resp]; injection Hr as <- <- <-.
        -- split_and!; [unfold caches_agree in *; simpl; by rewrite H3|done|]. left.
           split; [by exists err|]. rewrite evict_target, decide_True by done. by rewrite H2.
        -- split_and!; [auto|done|]. right. exists p1, resp. split_and!; [|done|done|done].
           eapply getOrDial_net. by rewrite Hd.
      * injection Hr as <- <- <-. split_and!; [done|done|]. left. split; [by exists e|].
        unfold target. by rewrite Hn.
    + rewrite Hd in Hr. by injection Hr as <- <- <-.
  - intros n a. split; [done|]. unfold target. simpl.
    destruct (peerClients f !! n); simpl; [done|by rewrite lookup_insert_eq].
  - intros n. split.
    + unfold caches_agree, RemovePeer, evict in *. simpl. by rewrite Ha.
    + unfold target, RemovePeer, evict. simpl. by rewrite !lookup_delete_eq.
Qed.

End Forwarding.
