(* ===== verification/Cluster.v ===== *)
(** * The cluster manager (src/internal/gateway/cluster.go)

    [ClusterManager] keeps the hash ring and the forwarder's addresses in step
    with the peers that are registered in Redis and answer a probe.  The ring is
    the forwarder's (main.go passes both the same pointer).

    The ring, the forwarder's addresses and [peerHealth] have each a lock of their
    own, and nothing spans two of them: what the manager does to them is a list of
    [Access]es, one per critical section, in the order of the code.  The refresh,
    the discovery and the health check are three goroutines; a turn of one of them
    is a single Redis command, copy of the addresses, probe, read of [peerHealth]
    or access, and turns interleave freely.  A probe's answer is the network's.
    Each [range] over a map takes the order in which it visits the keys. *)

From S2P Require Import Prelude Proto Snowflake Process Client Hub HashRing Stores GrpcServer.
From S2P Require Import GrpcForwarder.

(** The Redis commands the manager issues; an error is its text. *)
Class NodeRegistry (R : Type) := mkNodeRegistry {
  nrSet : string -> string -> Z -> R -> option string * R;
  nrKeys : string -> R -> (string + list string) * R;
  nrGet : string -> R -> (string + string) * R;
  nrDel : string -> R -> option string * R
}.

Record ClusterConfig (R : Type) := mkClusterConfig {
  ThisNodeID : string;
  ThisAddr : string;
  HealthInterval : Z;
  ProbeTimeout : Z;
  RedisClient : option R;
  RedisPrefix : string;
  TTL : Z
}.
Arguments mkClusterConfig {R}. Arguments ThisNodeID {R}. Arguments ThisAddr {R}.
Arguments HealthInterval {R}. Arguments ProbeTimeout {R}. Arguments RedisClient {R}.
Arguments RedisPrefix {R}. Arguments TTL {R}.

Record ClusterManager (R : Type) := mkClusterManager {
  cm_fw : GrpcForwarder;
  cm_node : string;
  cm_addr : string;
  cm_redis : option R;
  cm_prefix : string;
  cm_ttl : Z;
  cm_healthInterval : Z;
  cm_probeTimeout : Z;
  cm_started : bool;
  cm_peerHealth : gmap string bool
}.
Arguments mkClusterManager {R}. Arguments cm_fw {R}. Arguments cm_node {R}.
Arguments cm_addr {R}. Arguments cm_redis {R}. Arguments cm_prefix {R}. Arguments cm_ttl {R}.
Arguments cm_healthInterval {R}. Arguments cm_probeTimeout {R}. Arguments cm_started {R}.
Arguments cm_peerHealth {R}.

Section Manager.
Context {R : Type} {NR : NodeRegistry R}.

Definition CMgr := ClusterManager R.

Definition set_fw (f : GrpcForwarder) (cm : CMgr) : CMgr :=
  mkClusterManager f (cm_node cm) (cm_addr cm) (cm_redis cm) (cm_prefix cm) (cm_ttl cm)
    (cm_healthInterval cm) (cm_probeTimeout cm) (cm_started cm) (cm_peerHealth cm).
Definition set_redis (x : option R) (cm : CMgr) : CMgr :=
  mkClusterManager (cm_fw cm) (cm_node cm) (cm_addr cm) x (cm_prefix cm) (cm_ttl cm)
    (cm_healthInterval cm) (cm_probeTimeout cm) (cm_started cm) (cm_peerHealth cm).
Definition set_health (m : gmap string bool) (cm : CMgr) : CMgr :=
  mkClusterManager (cm_fw cm) (cm_node cm) (cm_addr cm) (cm_redis cm) (cm_prefix cm) (cm_ttl cm)
    (cm_healthInterval cm) (cm_probeTimeout cm) (cm_started cm) m.
Definition set_started (cm : CMgr) : CMgr :=
  mkClusterManager (cm_fw cm) (cm_node cm) (cm_addr cm) (cm_redis cm) (cm_prefix cm) (cm_ttl cm)
    (cm_healthInterval cm) (cm_probeTimeout cm) true (cm_peerHealth cm).

Definition cm_hr (cm : CMgr) : HashRing := f_hashRing (cm_fw cm).
Definition on_hr (f : HashRing -> HashRing) (cm : CMgr) : CMgr :=
  set_fw (set_ring (f (cm_hr cm)) (cm_fw cm)) cm.

Definition orDefault (x d : Z) : Z := if x <=? 0 then d else x.

Definition NewClusterManager (f : GrpcForwarder) (cfg : ClusterConfig R) : CMgr :=
  mkClusterManager f (ThisNodeID cfg) (ThisAddr cfg) (RedisClient cfg)
    (if bool_decide (RedisPrefix cfg = "") then "im:gateway:node:" else RedisPrefix cfg)
    (orDefault (TTL cfg) (15 * Second)) (orDefault (HealthInterval cfg) (5 * Second))
    (orDefault (ProbeTimeout cfg) (2 * Second)) false ∅.

(** ** Peers *)

(** A critical section that changes the addresses, the ring or [peerHealth]. *)
Inductive Access :=
| FwAdd (nodeID addr : string)
| FwRemove (nodeID : string)
| RingAdd (nodeID : string)
| RingRemove (nodeID : string)
| HealthSet (nodeID : string) (healthy : bool)
| HealthDelete (nodeID : string).

Definition access (cm : CMgr) (a : Access) : CMgr :=
  match a with
  | FwAdd n addr => set_fw (AddPeer n addr (cm_fw cm)) cm
  | FwRemove n => set_fw (RemovePeer n (cm_fw cm)) cm
  | RingAdd n => on_hr (HashRing.Add n) cm
  | RingRemove n => on_hr (HashRing.Remove n) cm
  | HealthSet n b => set_health (<[n := b]> (cm_peerHealth cm)) cm
  | HealthDelete n => set_health (delete n (cm_peerHealth cm)) cm
  end.

Definition accesses (l : list Access) (cm : CMgr) : CMgr := foldl access cm l.

Definition addPeer (nodeID addr : string) : list Access :=
  [FwAdd nodeID addr; RingAdd nodeID; HealthSet nodeID true].

Definition removePeer (nodeID : string) : list Access :=
  [RingRemove nodeID; FwRemove nodeID; HealthDelete nodeID].

Definition HealthyPeers (cm : CMgr) : Z :=
  map_fold (fun _ (h : bool) n => if h then n + 1 else n) 0 (cm_peerHealth cm).

(** ** Discovery *)

Definition nodeKey (cm : CMgr) (nodeID : string) : string := cm_prefix cm +:+ nodeID.

Definition registerSelf (cm : CMgr) : CMgr :=
  match cm_redis cm with
  | None => cm
  | Some x =>
      set_redis (Some (nrSet (nodeKey cm (cm_node cm)) (cm_addr cm) (cm_ttl cm) x).2) cm
  end.

(** One found node: new, moved, or known. *)
Definition reconcileFound (this : string) (current found : gmap string string) (nodeID : string) : list Access :=
  match found !! nodeID with
  | None => []
  | Some addr =>
      if bool_decide (nodeID = this) then []
      else match current !! nodeID with
           | None => addPeer nodeID addr
           | Some a => if bool_decide (a = addr) then [] else addPeer nodeID addr
           end
  end.

Definition reconcileCurrent (current found : gmap string string) (nodeID : string) : list Access :=
  match current !! nodeID, found !! nodeID with
  | Some _, None => removePeer nodeID
  | _, _ => []
  end.

(** What each iteration of the two loops does: they visit [found] in the order
    [fs], and the copied peers in the order [cs]. *)
Definition reconcilePeers (this : string) (currentPeers found : gmap string string) (fs cs : list string)
  : list (list Access) :=
  map (reconcileFound this currentPeers found) fs ++ map (reconcileCurrent currentPeers found) cs.

(** [KEYS prefix*] answers with keys that start with the prefix. *)
Definition keyNode (prefix key : string) : string :=
  String.substring (String.length prefix) (String.length key - String.length prefix) key.

Fixpoint collectFound (prefix : string) (keys : list string) (found : gmap string string) (x : R)
  : gmap string string * R :=
  match keys with
  | [] => (found, x)
  | key :: keys =>
      let nodeID := keyNode prefix key in
      if bool_decide (nodeID = "") then collectFound prefix keys found x
      else
        let (res, x) := nrGet key x in
        match res with
        | inl _ => collectFound prefix keys found x
        | inr addr => collectFound prefix keys (<[nodeID := addr]> found) x
        end
  end.

(** What discovery finds: nothing to reconcile when listing fails. *)
Definition discovered (cm : CMgr) : option (gmap string string) * CMgr :=
  match cm_redis cm with
  | None => (None, cm)
  | Some x =>
      let (res, x) := nrKeys (cm_prefix cm +:+ "*") x in
      match res with
      | inl _ => (None, set_redis (Some x) cm)
      | inr keys =>
          let (found, x) := collectFound (cm_prefix cm) keys ∅ x in
          (Some found, set_redis (Some x) cm)
      end
  end.

(** A discovery with nothing else running, as [Start] makes one. *)
Definition discoverPeers (fs cs : list string) (cm : CMgr) : CMgr :=
  match discovered cm with
  | (None, cm) => cm
  | (Some found, cm) =>
      accesses (concat (reconcilePeers (cm_node cm) (PeerAddrs (cm_fw cm)) found fs cs)) cm
  end.

(** ** Health *)

(** What a round does about a peer that was probed, once it has read whether the
    peer was healthy. *)
Definition checkPeer (nodeID : string) (healthy wasHealthy : bool) : list Access :=
  if healthy && negb wasHealthy then [RingAdd nodeID; HealthSet nodeID true]
  else if negb healthy && wasHealthy then [RingRemove nodeID; HealthSet nodeID false]
  else [].

(** ** Running *)

Definition markHealthy (cm : CMgr) : CMgr :=
  set_health (map_fold (fun n _ m => if bool_decide (n = cm_node cm) then m else <[n := true]> m)
    (cm_peerHealth cm) (PeerAddrs (cm_fw cm))) cm.

Definition Start (fs cs : list string) (cm : CMgr) : CMgr :=
  if cm_started cm then cm
  else
    let cm := markHealthy (set_started cm) in
    match cm_redis cm with
    | None => cm
    | Some _ => discoverPeers fs cs (registerSelf cm)
    end.

Definition StopCluster (cm : CMgr) : CMgr :=
  match cm_redis cm with
  | None => cm
  | Some x => set_redis (Some (nrDel (nodeKey cm (cm_node cm)) x).2) cm
  end.

(** How often the key is refreshed and the peers are listed. *)
Definition refreshInterval (cm : CMgr) : Z := Z.max (Z.quot (cm_ttl cm) 3) (2 * Second).
Definition discoveryInterval (cm : CMgr) : Z := Z.max (Z.quot (cm_ttl cm) 2) (3 * Second).

(** ** The goroutines

    Each is at its [select], at a point of the work its ticker woke it for, or
    over. *)

Inductive RefreshPc := RWaits | RSets | ROver.

(** A discovery: about to list the keys; with keys still to read; with the
    accesses left of the iteration it is in, and the iterations after it. *)
Inductive DiscoveryPc :=
| DWaits
| DLists
| DReads (keys : list string) (found : gmap string string)
| DWorks (now : list Access) (later : list (list Access))
| DOver.

(** A round: about to copy the addresses; with peers still to visit; with a peer
    probed; with the accesses left for it. *)
Inductive HealthPc :=
| HWaits
| HCopies
| HVisits (todo : list string)
| HProbed (nodeID : string) (healthy : bool) (todo : list string)
| HWorks (now : list Access) (todo : list string)
| HOver.

Definition refresh_turn (r : RefreshPc) (cm : CMgr) : option (RefreshPc * CMgr) :=
  match r with
  | RWaits => Some (RSets, cm)
  | RSets => Some (RWaits, registerSelf cm)
  | ROver => None
  end.

Definition discovery_turn (fs cs : list string) (d : DiscoveryPc) (cm : CMgr) : option (DiscoveryPc * CMgr) :=
  match d with
  | DWaits => Some (DLists, cm)
  | DLists =>
      match cm_redis cm with
      | None => None
      | Some x =>
          let (res, x) := nrKeys (cm_prefix cm +:+ "*") x in
          Some (match res with inl _ => DWaits | inr keys => DReads keys ∅ end, set_redis (Some x) cm)
      end
  | DReads (key :: keys) found =>
      let nodeID := keyNode (cm_prefix cm) key in
      if bool_decide (nodeID = "") then Some (DReads keys found, cm)
      else
        match cm_redis cm with
        | None => None
        | Some x =>
            let (res, x) := nrGet key x in
            Some (DReads keys (match res with inl _ => found | inr addr => <[nodeID := addr]> found end),
                  set_redis (Some x) cm)
        end
  | DReads [] found =>
      Some (DWorks [] (reconcilePeers (cm_node cm) (PeerAddrs (cm_fw cm)) found fs cs), cm)
  | DWorks (a :: now) later => Some (DWorks now later, access cm a)
  | DWorks [] (now :: later) => Some (DWorks now later, cm)
  | DWorks [] [] => Some (DWaits, cm)
  | DOver => None
  end.

(** [answer]: what a probe that this turn makes is answered. *)
Definition health_turn (ps : list string) (answer : bool) (h : HealthPc) (cm : CMgr) : option (HealthPc * CMgr) :=
  match h with
  | HWaits => Some (HCopies, cm)
  | HCopies => Some (HVisits ps, cm)
  | HVisits [] => Some (HWaits, cm)
  | HVisits (n :: todo) =>
      Some (if bool_decide (n = cm_node cm) then HVisits todo else HProbed n answer todo, cm)
  | HProbed n healthy todo =>
      Some (HWorks (checkPeer n healthy (default false (cm_peerHealth cm !! n))) todo, cm)
  | HWorks (a :: now) todo => Some (HWorks now todo, access cm a)
  | HWorks [] todo => Some (HVisits todo, cm)
  | HOver => None
  end.

(** The answers of the latest round, for the statements. *)
Definition answered (answer : bool) (h : HealthPc) (cm : CMgr) (ans : gmap string bool) : gmap string bool :=
  match h with
  | HCopies => ∅
  | HVisits (n :: _) => if bool_decide (n = cm_node cm) then ans else <[n := answer]> ans
  | _ => ans
  end.

(** [Stop] cancels the context, removes the key, and waits for the loops. *)
Inductive StopState := NotStopping | StopCancelled | StopDeregistered | StopReturned.

#[export] Instance StopState_eq_dec : EqDecision StopState.
Proof. solve_decision. Defined.

Record ClusterProc := mkClusterProc {
  cp_manager : CMgr;
  cp_refresh : RefreshPc;
  cp_discovery : DiscoveryPc;
  cp_health : HealthPc;
  cp_answers : gmap string bool;
  cp_stop : StopState
}.

(** What [Start] leaves running: the refresh and the discovery only with Redis. *)
Definition startedLoops (cm : CMgr) : ClusterProc :=
  match cm_redis cm with
  | Some _ => mkClusterProc cm RWaits DWaits HWaits ∅ NotStopping
  | None => mkClusterProc cm ROver DOver HWaits ∅ NotStopping
  end.

(** A [range] visits every key of the map once. *)
Definition visits (l : list string) (m : gmap string string) : Prop := l ≡ₚ (map_to_list m).*1.

(** The orders a turn may take. *)
Definition discovery_orders (fs cs : list string) (d : DiscoveryPc) (cm : CMgr) : Prop :=
  match d with DReads [] found => visits fs found /\ visits cs (PeerAddrs (cm_fw cm)) | _ => True end.
Definition health_orders (ps : list string) (h : HealthPc) (cm : CMgr) : Prop :=
  match h with HCopies => visits ps (PeerAddrs (cm_fw cm)) | _ => True end.

(** With the context done a [select] can still choose a ticker that is ready. *)
Inductive clusterproc_step : ClusterProc -> ClusterProc -> Prop :=
| RefreshTurns cm r d h ans st r' cm' : refresh_turn r cm = Some (r', cm') ->
    clusterproc_step (mkClusterProc cm r d h ans st) (mkClusterProc cm' r' d h ans st)
| DiscoveryTurns fs cs cm r d h ans st d' cm' :
    discovery_orders fs cs d cm -> discovery_turn fs cs d cm = Some (d', cm') ->
    clusterproc_step (mkClusterProc cm r d h ans st) (mkClusterProc cm' r d' h ans st)
| HealthTurns ps answer cm r d h ans st h' cm' :
    health_orders ps h cm -> health_turn ps answer h cm = Some (h', cm') ->
    clusterproc_step (mkClusterProc cm r d h ans st)
      (mkClusterProc cm' r d h' (answered answer h cm ans) st)
| RefreshEnds cm d h ans st : st <> NotStopping ->
    clusterproc_step (mkClusterProc cm RWaits d h ans st) (mkClusterProc cm ROver d h ans st)
| DiscoveryEnds cm r h ans st : st <> NotStopping ->
    clusterproc_step (mkClusterProc cm r DWaits h ans st) (mkClusterProc cm r DOver h ans st)
| HealthEnds cm r d ans st : st <> NotStopping ->
    clusterproc_step (mkClusterProc cm r d HWaits ans st) (mkClusterProc cm r d HOver ans st)
| Cancels cm r d h ans :
    clusterproc_step (mkClusterProc cm r d h ans NotStopping) (mkClusterProc cm r d h ans StopCancelled)
| Deregisters cm r d h ans :
    clusterproc_step (mkClusterProc cm r d h ans StopCancelled)
      (mkClusterProc (StopCluster cm) r d h ans StopDeregistered)
| StopWaits cm ans :
    clusterproc_step (mkClusterProc cm ROver DOver HOver ans StopDeregistered)
      (mkClusterProc cm ROver DOver HOver ans StopReturned).

End Manager.
