(* ===== verification/ClusterFacts.v ===== *)
(** * The ring follows the peers' health

    The goroutines of the manager interleave access by access.  As long as the
    discovery and the health check are not inside a change of the same peer at
    once, the ring and [peerHealth] agree on every peer that is not being
    changed.  As long as no discovery changes peers in the middle of a health
    round, every peer on the ring has an address and a round that has visited
    every peer leaves healthy those that answered.  Both provisos are needed: the
    concrete cluster at the end shows what happens without them. *)

From S2P Require Import Prelude Proto Snowflake Process Client Hub HashRing Stores GrpcServer.
From S2P Require Import GrpcForwarder Cluster.

Section Facts.
Context {R : Type} {NR : NodeRegistry R}.
Notation CMgr := (ClusterManager R).
Notation Proc := (@ClusterProc R).

(** The peers marked healthy. *)
Definition healthy (cm : CMgr) : gset string :=
  dom (filter (fun p : string * bool => p.2 = true) (cm_peerHealth cm)).

Definition addrs (cm : CMgr) : gmap string string := peerAddrs (cm_fw cm).

Lemma elem_of_healthy n cm : n ∈ healthy cm <-> cm_peerHealth cm !! n = Some true.
Proof.
  unfold healthy. rewrite elem_of_dom. split.
  - intros [b [H Hb]%map_lookup_filter_Some]. simpl in Hb. by subst b.
  - intros H. exists true. by apply map_lookup_filter_Some.
Qed.

Lemma HealthyPeers_size (cm : CMgr) : HealthyPeers cm = Z.of_nat (size (healthy cm)).
Proof.
  unfold HealthyPeers, healthy.
  induction (cm_peerHealth cm) as [|i b m Hi Hf IH] using map_first_key_ind.
  - rewrite map_fold_empty, map_filter_empty, dom_empty_L, size_empty. done.
  - rewrite map_fold_insert_first_key by done. rewrite IH. destruct b.
    + rewrite map_filter_insert_True by done. rewrite dom_insert_L.
      rewrite size_union, size_singleton; [lia|].
      apply disjoint_singleton_l. rewrite elem_of_dom.
      intros [b [Hb _]%map_lookup_filter_Some]. congruence.
    + rewrite map_filter_insert_False by done. by rewrite delete_id.
Qed.

(** ** What one peer sees of an access *)

(** Whether a peer is on the ring, is marked healthy, has an address. *)
Record View := mkView { on_ring : bool; marked_up : bool; has_addr : bool }.

Definition subject (a : Access) : string :=
  match a with
  | FwAdd n _ | FwRemove n | RingAdd n | RingRemove n | HealthSet n _ | HealthDelete n => n
  end.

Definition effect (n : string) (v : View) (a : Access) : View :=
  if bool_decide (subject a = n) then
    match a with
    | FwAdd _ _ => mkView (on_ring v) (marked_up v) true
    | FwRemove _ => mkView (on_ring v) (marked_up v) false
    | RingAdd _ => mkView true (marked_up v) (has_addr v)
    | RingRemove _ => mkView false (marked_up v) (has_addr v)
    | HealthSet _ b => mkView (on_ring v) b (has_addr v)
    | HealthDelete _ => mkView (on_ring v) false (has_addr v)
    end
  else v.

Definition touches (n : string) (l : list Access) : Prop := n ∈ map subject l.

#[local] Instance touches_dec n l : Decision (touches n l).
Proof. unfold touches. apply _. Defined.

Lemma effect_other n v a : subject a <> n -> effect n v a = v.
Proof. intros H. unfold effect. by rewrite bool_decide_false. Qed.

Lemma effects_other n l v : ~ touches n l -> foldl (effect n) v l = v.
Proof.
  unfold touches. revert v. induction l as [|a l IH]; intros v H; [done|]. cbn [map] in H.
  apply not_elem_of_cons in H as [H1 H2]. cbn [foldl]. rewrite effect_other by done. by apply IH.
Qed.

Lemma effects_addPeer n m a v :
  foldl (effect n) v (addPeer m a) = if bool_decide (m = n) then mkView true true true else v.
Proof. unfold addPeer, effect. cbn. by case_bool_decide. Qed.

Lemma effects_removePeer n m v :
  foldl (effect n) v (removePeer m) = if bool_decide (m = n) then mkView false false false else v.
Proof. unfold removePeer, effect. cbn. by case_bool_decide. Qed.

Lemma effects_checkPeer n m b v : on_ring v = marked_up v ->
  foldl (effect n) v (checkPeer m b (marked_up v)) =
  if bool_decide (m = n) then mkView b b (has_addr v) else v.
Proof.
  destruct v as [r h a]. cbn. intros ->. unfold checkPeer, effect.
  destruct b, h; cbn; by case_bool_decide.
Qed.

Lemma checkPeer_subjects m b w n : touches n (checkPeer m b w) -> n = m.
Proof. unfold checkPeer, touches. destruct b, w; cbn; set_solver. Qed.

(** The changes of one iteration of a reconciliation. *)
Inductive peer_change : list Access -> Prop :=
| NoChange : peer_change []
| Joins n a : peer_change (addPeer n a)
| Leaves n : peer_change (removePeer n).

Lemma peer_change_one l n m : peer_change l -> touches n l -> touches m l -> n = m.
Proof. unfold touches. intros [|x a|x]; cbn; set_solver. Qed.

Lemma reconcilePeers_changes this current found fs cs l :
  l ∈ reconcilePeers this current found fs cs ->
  peer_change l /\ forall n, touches n l ->
    (is_Some (found !! n) /\ n <> this) \/ is_Some (current !! n).
Proof.
  unfold reconcilePeers, touches. intros [(x & -> & _)%list_elem_of_fmap|(x & -> & _)%list_elem_of_fmap]%elem_of_app.
  - unfold reconcileFound. destruct (found !! x) as [a|] eqn:Hx; [|split; [constructor|set_solver]].
    case_bool_decide; [split; [constructor|set_solver]|].
    assert (Hs : peer_change (addPeer x a) /\ forall n, n ∈ map subject (addPeer x a) ->
      (is_Some (found !! n) /\ n <> this) \/ is_Some (current !! n)).
    { split; [constructor|]. cbn. intros n Hn. assert (n = x) as -> by set_solver. left. by rewrite Hx. }
    destruct (current !! x); [case_bool_decide; [split; [constructor|set_solver]|done]|done].
  - unfold reconcileCurrent. destruct (current !! x) eqn:Hx, (found !! x);
      (split; [constructor|set_solver]).
Qed.

(** ** Points of the goroutines *)

(** The accesses left of the change a goroutine is in. *)
Definition d_now (d : DiscoveryPc) : list Access := match d with DWorks now _ => now | _ => [] end.
Definition h_now (h : HealthPc) : list Access := match h with HWorks now _ => now | _ => [] end.

Definition pending (p : Proc) : list Access := d_now (cp_discovery p) ++ h_now (cp_health p).

(** The peers being changed. *)
Definition changing (p : Proc) : list string := map subject (pending p).

(** The discovery and the health check are not changing the same peer. *)
Definition apart (p : Proc) : Prop :=
  forall n, touches n (d_now (cp_discovery p)) -> ~ touches n (h_now (cp_health p)).

Definition reconciling (d : DiscoveryPc) : Prop :=
  match d with DWorks now later => now ++ concat later <> [] | _ => False end.

Definition in_round (h : HealthPc) : Prop :=
  match h with HVisits _ | HProbed _ _ _ | HWorks _ _ => True | _ => False end.

(** No discovery changes peers in the middle of a health round. *)
Definition undisturbed (p : Proc) : Prop := in_round (cp_health p) -> ~ reconciling (cp_discovery p).

Definition guarded (G : Proc -> Prop) (p q : Proc) : Prop := clusterproc_step p q /\ G q.

Lemma undisturbed_now p : undisturbed p -> in_round (cp_health p) -> d_now (cp_discovery p) = [].
Proof.
  intros Hu Hr. specialize (Hu Hr). destruct (cp_discovery p) as [| | |now later|]; try done.
  cbn in *. destruct now; [done|]. exfalso. by apply Hu.
Qed.

Lemma undisturbed_apart p : undisturbed p -> apart p.
Proof.
  intros Hu n Hn Hh. destruct (cp_health p) as [| | | |now todo|] eqn:E; try (by apply not_elem_of_nil in Hh).
  assert (Hd : d_now (cp_discovery p) = []) by (apply undisturbed_now; [done|by rewrite E]).
  rewrite Hd in Hn. by apply not_elem_of_nil in Hn.
Qed.

(** ** The ring *)

Section Names.
Context (ids : list string) (this prefix : string).

(** The keys Redis may list are those of [ids]. *)
Definition listed_names : Prop :=
  forall x keys, (nrKeys (prefix +:+ "*") x).1 = inr keys -> forall k, k ∈ keys ->
    keyNode prefix k = "" \/ keyNode prefix k ∈ ids.

Context (Hthis : this ∈ ids) (Hlisted : listed_names).

Definition peer (n : string) : Prop := n ∈ ids /\ n <> this.

(** [M] is on the ring. *)
Record base (M : gset string) (cm : CMgr) : Prop := mkBase {
  ba_node : cm_node cm = this;
  ba_prefix : cm_prefix cm = prefix;
  ba_ring : represents (cm_hr cm) M;
  ba_free : collision_free (replicas (cm_hr cm)) ids;
  ba_this : this ∈ M;
  ba_names : forall n, n ∈ M -> n ∈ ids;
  ba_health : cm_peerHealth cm !! this = None;
  ba_addrs : forall n, is_Some (addrs cm !! n) -> peer n
}.

Definition view (M : gset string) (cm : CMgr) (n : string) : View :=
  mkView (bool_decide (n ∈ M)) (default false (cm_peerHealth cm !! n)) (bool_decide (is_Some (addrs cm !! n))).

Definition ring_after (M : gset string) (a : Access) : gset string :=
  match a with RingAdd n => {[n]} ∪ M | RingRemove n => M ∖ {[n]} | _ => M end.

Lemma marked_healthy M cm n : marked_up (view M cm n) = true <-> n ∈ healthy cm.
Proof. rewrite elem_of_healthy. cbn. destruct (cm_peerHealth cm !! n) as [[]|]; naive_solver. Qed.

Lemma access_base a M cm : peer (subject a) -> base M cm -> base (ring_after M a) (access cm a).
Proof.
  intros [Hid Hne] [H1 H2 H3 H4 H5 H6 H7 H8].
  destruct a as [n addr|n|n|n|n b|n]; cbn [subject access ring_after] in *; split; try done.
  - intros m. unfold addrs. cbn. rewrite lookup_insert_is_Some. intros [<-|[_ H]]; [done|by apply H8].
  - intros m. unfold addrs. cbn. rewrite lookup_delete_is_Some. intros [_ H]. by apply H8.
  - by apply (represents_Add _ _ _ ids).
  - destruct (Add_spec n (cm_hr cm)) as (_ & E & _).
    change (cm_hr (on_hr (HashRing.Add n) cm)) with (HashRing.Add n (cm_hr cm)). by rewrite E.
  - set_solver.
  - set_solver.
  - by apply represents_removeLocked.
  - change (cm_hr (on_hr (HashRing.Remove n) cm)) with (removeLocked n (cm_hr cm)). by rewrite removeLocked_replicas.
  - set_solver.
  - set_solver.
  - cbn. by rewrite lookup_insert_ne.
  - cbn. by rewrite lookup_delete_ne.
Qed.

Lemma access_view a M cm n : view (ring_after M a) (access cm a) n = effect n (view M cm n) a.
Proof.
  assert (E : forall m, m = n \/ m <> n) by (intros; destruct (decide (m = n)); auto).
  unfold effect, view, addrs. destruct a as [m addr|m|m|m|m b|m]; cbn; (destruct (E m) as [->|Hne];
    [rewrite (bool_decide_true (n = n)) by done|rewrite (bool_decide_false (m = n)) by done]); f_equal;
    rewrite ?lookup_insert_eq, ?lookup_delete_eq, ?lookup_insert_ne, ?lookup_delete_ne by done; try done;
    (apply bool_decide_ext || apply bool_decide_true || apply bool_decide_false); set_solver.
Qed.

Lemma redis_base M cm y : base M cm -> base M (set_redis y cm).
Proof. intros [H1 H2 H3 H4 H5 H6 H7 H8]. by split. Qed.

(** What the goroutines have still to touch are peers. *)
Definition peers_of (l : list Access) : Prop := forall n, touches n l -> peer n.

Definition discovery_names (d : DiscoveryPc) : Prop :=
  match d with
  | DReads keys found =>
      (forall k, k ∈ keys -> keyNode prefix k = "" \/ keyNode prefix k ∈ ids) /\
      (forall n, is_Some (found !! n) -> n ∈ ids)
  | DWorks now later => peers_of now /\ forall l, l ∈ later -> peer_change l /\ peers_of l
  | _ => True
  end.

Definition health_names (h : HealthPc) : Prop :=
  match h with
  | HVisits todo => forall n, n ∈ todo -> peer n
  | HProbed n _ todo => peer n /\ forall m, m ∈ todo -> peer m
  | HWorks now todo => peers_of now /\ forall m, m ∈ todo -> peer m
  | _ => True
  end.

(** Once the changes under way are over, ring and marks agree. *)
Definition settles (M : gset string) (cm : CMgr) (l : list Access) : Prop :=
  forall n, n <> this ->
    let v := foldl (effect n) (view M cm n) l in on_ring v = marked_up v.

Record cluster_inv (p : Proc) (M : gset string) : Prop := mkClusterInv {
  ci_base : base M (cp_manager p);
  ci_discovery : discovery_names (cp_discovery p);
  ci_health : health_names (cp_health p);
  ci_settles : settles M (cp_manager p) (pending p);
  ci_apart : apart p
}.

Lemma settles_access M cm a l : settles M cm (a :: l) -> settles (ring_after M a) (access cm a) l.
Proof. intros H n Hn. specialize (H n Hn). cbn [foldl] in H. by rewrite access_view. Qed.

(** The health check's access is not on a peer that [l] touches. *)
Lemma settles_access_later M cm l a l' : ~ touches (subject a) l ->
  settles M cm (l ++ a :: l') -> settles (ring_after M a) (access cm a) (l ++ l').
Proof.
  intros Ha H n Hn. specialize (H n Hn). cbv zeta in *. rewrite access_view.
  rewrite foldl_app in *. cbn [foldl] in H.
  destruct (decide (subject a = n)) as [<-|Hne].
  - rewrite (effects_other _ l) by done. by rewrite (effects_other _ l) in H by done.
  - rewrite effect_other by done. by rewrite effect_other in H by done.
Qed.

Lemma settles_begin M cm l l' : peer_change l -> (forall n, touches n l -> ~ touches n l') ->
  settles M cm l' -> settles M cm (l ++ l').
Proof.
  intros Hl Ha H n Hn. specialize (H n Hn). cbv zeta in *. rewrite foldl_app.
  destruct (decide (touches n l)) as [Ht|Ht]; [|by rewrite (effects_other n l) by done].
  rewrite (effects_other n l') in H by auto. rewrite (effects_other n l') by auto.
  destruct Hl; [done|rewrite effects_addPeer|rewrite effects_removePeer]; by case_bool_decide.
Qed.

Lemma settles_check M cm l n b : (forall m, touches m l -> ~ touches m (checkPeer n b (marked_up (view M cm n)))) ->
  settles M cm l -> settles M cm (l ++ checkPeer n b (marked_up (view M cm n))).
Proof.
  intros Ha H m Hm. specialize (H m Hm). cbv zeta in *. rewrite foldl_app.
  destruct (decide (touches m (checkPeer n b (marked_up (view M cm n))))) as [Ht|Ht];
    [|by rewrite (effects_other m (checkPeer _ _ _)) by done].
  assert (m = n) as -> by by eapply checkPeer_subjects. assert (Hl : ~ touches n l) by (intros Hl; by apply (Ha n)).
  rewrite (effects_other n l) in H by done. rewrite (effects_other n l) by done.
  rewrite effects_checkPeer by done. by case_bool_decide.
Qed.

(** ** Turns keep the invariant *)

Lemma registerSelf_inv cm r r' d h ans st M :
  cluster_inv (mkClusterProc cm r d h ans st) M -> cluster_inv (mkClusterProc (registerSelf cm) r' d h ans st) M.
Proof.
  intros [H1 H2 H3 H4 H5]. unfold registerSelf. destruct (cm_redis cm); split; try done. by apply redis_base.
Qed.

Lemma discovery_inv fs cs cm r d h ans st d' cm' M :
  discovery_turn fs cs d cm = Some (d', cm') -> cluster_inv (mkClusterProc cm r d h ans st) M ->
  apart (mkClusterProc cm' r d' h ans st) -> exists M', cluster_inv (mkClusterProc cm' r d' h ans st) M'.
Proof.
  intros Ht [H1 H2 H3 H4 H5] Ha.
  assert (Hp := ba_prefix _ _ H1). cbn [cp_manager cp_discovery cp_health] in *.
  destruct d as [| |[|key keys] found|[|a now] later|]; cbn [discovery_turn] in Ht; try done.
  - injection Ht as <- <-. by exists M.
  - destruct (cm_redis cm) as [x|]; [|done]. destruct (nrKeys _ x) as [res x'] eqn:Hk. injection Ht as <- <-.
    exists M. split; [by apply redis_base| |done|by destruct res|done].
    destruct res as [|keys]; cbn; [done|]. split.
    + apply (Hlisted x). by rewrite <- Hp, Hk.
    + intros n. rewrite lookup_empty. by intros [].
  - injection Ht as <- <-. exists M. split; try done. cbn. split; [intros n Hn; by apply not_elem_of_nil in Hn|].
    intros l Hl. apply reconcilePeers_changes in Hl as [Hl Hn]. split; [done|].
    intros n Htn. destruct (Hn n Htn) as [[Hf Hne]|Hc]; [|by apply (ba_addrs _ _ H1)].
    rewrite (ba_node _ _ H1) in Hne. split; [by apply H2|done].
  - destruct H2 as [H2 H2']. rewrite Hp in Ht. assert (Hkey := H2 key (list_elem_of_here _ _)).
    assert (Hrest : forall k, k ∈ keys -> keyNode prefix k = "" \/ keyNode prefix k ∈ ids)
      by (intros k Hk; apply H2; by right).
    case_bool_decide; [injection Ht as <- <-; exists M; by split|].
    destruct (cm_redis cm) as [x|]; [|done]. destruct (nrGet key x) as [res x'].
    injection Ht as <- <-. exists M. split; [by apply redis_base| |done..]. split; [done|].
    destruct res as [|addr]; [done|]. intros n. rewrite lookup_insert_is_Some. intros [<-|[_ Hn]]; [naive_solver|auto].
  - destruct later as [|now later]; injection Ht as <- <-; exists M; [by split|]. destruct H2 as [_ H2].
    destruct (H2 now (list_elem_of_here _ _)) as [Hc Hnow]. split; cbn; try done.
    + split; [done|]. intros l Hl. apply H2. by right.
    + apply settles_begin; done.
  - injection Ht as <- <-. exists (ring_after M a). destruct H2 as [H2 H2']. split; cbn; try done.
    + apply access_base; [|done]. apply H2. left.
    + split; [|done]. intros n Hn. apply H2. by right.
    + by apply settles_access.
Qed.

Lemma health_inv ps answer cm r d h ans ans' st h' cm' M :
  health_orders ps h cm -> health_turn ps answer h cm = Some (h', cm') ->
  cluster_inv (mkClusterProc cm r d h ans st) M -> apart (mkClusterProc cm' r d h' ans' st) ->
  exists M', cluster_inv (mkClusterProc cm' r d h' ans' st) M'.
Proof.
  intros Ho Ht [H1 H2 H3 H4 H5] Ha. cbn [cp_manager cp_discovery cp_health] in *.
  destruct h as [| |[|n todo]|n b todo|[|a now] todo|]; cbn [health_turn] in Ht; try done;
    injection Ht as <- <-; cbn in H3.
  - by exists M.
  - exists M. split; try done. cbn. intros n. unfold health_orders, visits in Ho. rewrite Ho.
    intros ([m a] & -> & Hm%elem_of_map_to_list)%list_elem_of_fmap. apply (ba_addrs _ _ H1). by exists a.
  - by exists M.
  - exists M. assert (peer n) by (apply H3; left). assert (forall m, m ∈ todo -> peer m) by (intros m Hm; apply H3; by right).
    case_bool_decide; by split.
  - exists M. destruct H3 as [H3 H3']. split; try done; cbn.
    + split; [|done]. intros m ->%checkPeer_subjects. done.
    + unfold pending in *. cbn in *. rewrite app_nil_r in H4. by apply (settles_check M cm).
  - exists M. by destruct H3; split.
  - exists (ring_after M a). destruct H3 as [H3 H3']. split; try done; cbn.
    + apply access_base; [|done]. apply H3. left.
    + split; [|done]. intros m Hm. apply H3. by right.
    + apply settles_access_later; [|done]. intros Hn. apply (H5 (subject a)); [done|]. left.
Qed.

Lemma step_inv p q M : guarded apart p q -> cluster_inv p M -> exists M', cluster_inv q M'.
Proof.
  intros [Hs Ha] Hi. destruct Hs; try (exists M; destruct Hi; by split).
  - exists M. destruct r; cbn in *; simplify_eq; [by destruct Hi; split|by eapply registerSelf_inv].
  - by eapply discovery_inv.
  - by eapply health_inv.
  - exists M. destruct Hi as [H1 H2 H3 H4 H5]. unfold StopCluster. cbn in *.
    destruct (cm_redis cm); split; try done. by apply redis_base.
Qed.

(** ** Peers on the ring have addresses *)

(** At every moment of [l] a peer that is on the ring has an address. *)
Fixpoint keeps (n : string) (v : View) (l : list Access) : Prop :=
  (on_ring v = true -> has_addr v = true) /\
  match l with [] => True | a :: l => keeps n (effect n v a) l end.

Lemma keeps_now n v l : keeps n v l -> on_ring v = true -> has_addr v = true.
Proof. by destruct l; intros []. Qed.

Lemma keeps_other n v l : ~ touches n l -> (on_ring v = true -> has_addr v = true) -> keeps n v l.
Proof.
  unfold touches. revert v. induction l as [|a l IH]; intros v H Hv; [done|]. cbn [map] in H.
  apply not_elem_of_cons in H as [H1 H2]. split; [done|]. rewrite effect_other by done. auto.
Qed.

Lemma keeps_change n v l : peer_change l -> (on_ring v = true -> has_addr v = true) -> keeps n v l.
Proof.
  intros Hl Hv. destruct (decide (touches n l)) as [Ht|Ht]; [|by apply keeps_other].
  destruct v. destruct Hl as [|m a|m]; unfold touches in Ht; cbn in Ht; [done|..];
    assert (n = m) as -> by set_solver; cbn; unfold effect; cbn;
    rewrite bool_decide_true by done; cbn in *; naive_solver.
Qed.

Lemma keeps_check n v m b w : (n = m -> has_addr v = true) -> (on_ring v = true -> has_addr v = true) ->
  keeps n v (checkPeer m b w).
Proof.
  intros Hm Hv. destruct (decide (touches n (checkPeer m b w))) as [Ht|Ht]; [|by apply keeps_other].
  apply checkPeer_subjects in Ht as ->. specialize (Hm eq_refl). destruct v. cbn in *. subst.
  unfold checkPeer. destruct b, w; cbn; unfold effect; cbn; rewrite ?bool_decide_true by done; naive_solver.
Qed.

(** ** A round *)

(** [todo] is what is left of the copied addresses. *)
Definition visited (cm : CMgr) (ans : gmap string bool) (todo : list string) : Prop :=
  NoDup todo /\ (forall n, n ∈ todo -> ans !! n = None) /\
  (forall n, is_Some (addrs cm !! n) <-> n ∈ todo \/ is_Some (ans !! n)).

(** The health check's accesses are not to the addresses. *)
Definition leaves_addrs (a : Access) : Prop :=
  match a with FwAdd _ _ | FwRemove _ => False | _ => True end.

Lemma leaves_addrs_visited a cm ans todo : leaves_addrs a -> visited cm ans todo -> visited (access cm a) ans todo.
Proof. by destruct a. Qed.

Lemma checkPeer_leaves n b w : Forall leaves_addrs (checkPeer n b w).
Proof. unfold checkPeer. destruct b, w; cbn; by repeat constructor. Qed.

Definition round_point (cm : CMgr) (ans : gmap string bool) (h : HealthPc) : Prop :=
  match h with
  | HVisits todo => visited cm ans todo
  | HWorks now todo => visited cm ans todo /\ Forall leaves_addrs now
  | HProbed n b todo => visited cm ans todo /\ ans !! n = Some b
  | _ => True
  end.

Definition probed (h : HealthPc) : option string := match h with HProbed n _ _ => Some n | _ => None end.

Record round_inv (p : Proc) (M : gset string) : Prop := mkRoundInv {
  ri_keeps : forall n, n <> this -> keeps n (view M (cp_manager p) n) (pending p);
  ri_point : round_point (cp_manager p) (cp_answers p) (cp_health p);
  ri_marks : in_round (cp_health p) -> forall n b, cp_answers p !! n = Some b -> probed (cp_health p) <> Some n ->
    marked_up (foldl (effect n) (view M (cp_manager p) n) (pending p)) = b;
  ri_undisturbed : undisturbed p
}.

Lemma base_unique M M' cm : base M cm -> base M' cm -> M = M'.
Proof.
  intros H H'. destruct (ba_ring _ _ H) as [Hw Hn _], (ba_ring _ _ H') as [_ Hn' _].
  apply set_eq. intros n.
  destruct (vhashes_nonempty (replicas (cm_hr cm)) n (wf_replicas _ Hw)) as [x Hx].
  specialize (Hn x n). specialize (Hn' x n). naive_solver.
Qed.

(** The ring of a state after a goroutine's access. *)
Lemma ring_after_eq M M' a cm : peer (subject a) -> base M cm -> base M' (access cm a) -> M' = ring_after M a.
Proof. intros Ha H H'. eapply base_unique; [done|]. by apply access_base. Qed.

Lemma registerSelf_round cm r r' d h ans st M :
  round_inv (mkClusterProc cm r d h ans st) M -> round_inv (mkClusterProc (registerSelf cm) r' d h ans st) M.
Proof. intros [H1 H2 H3 H4]. unfold registerSelf. by destruct (cm_redis cm); split. Qed.

Lemma discovery_round fs cs cm r d h ans st d' cm' M M' :
  discovery_turn fs cs d cm = Some (d', cm') -> cluster_inv (mkClusterProc cm r d h ans st) M ->
  round_inv (mkClusterProc cm r d h ans st) M -> undisturbed (mkClusterProc cm' r d' h ans st) ->
  cluster_inv (mkClusterProc cm' r d' h ans st) M' -> round_inv (mkClusterProc cm' r d' h ans st) M'.
Proof.
  intros Ht [B1 B2 _ _ _] [H1 H2 H3 H4] Hu [B' _ _ _ _]. cbn [cp_manager cp_discovery cp_health cp_answers] in *.
  unfold pending in *. cbn [cp_discovery cp_health] in *.
  destruct d as [| |[|key keys] found|[|a now] later|]; cbn [discovery_turn] in Ht; try done.
  - injection Ht as <- <-. rewrite (base_unique M' M cm) by done. by split.
  - destruct (cm_redis cm) as [x|]; [|done]. destruct (nrKeys _ x) as [res x']. injection Ht as <- <-.
    assert (M' = M) as -> by (eapply base_unique; [exact B'|by apply redis_base]). by destruct res; split.
  - injection Ht as <- <-. rewrite (base_unique M' M cm) by done. by split.
  - case_bool_decide; [injection Ht as <- <-; rewrite (base_unique M' M cm) by done; by split|].
    destruct (cm_redis cm) as [x|]; [|done]. destruct (nrGet key x) as [res x']. injection Ht as <- <-.
    assert (M' = M) as -> by (eapply base_unique; [exact B'|by apply redis_base]). by split.
  - destruct later as [|now later]; injection Ht as <- <-; rewrite (base_unique M' M cm) by done; [by split|].
    destruct (B2 : _ /\ _) as [_ Hl]. destruct (Hl now (list_elem_of_here _ _)) as [Hc _]. cbn [d_now] in *.
    destruct (decide (now = [])) as [->|Hne]; [by split|].
    assert (Hr : ~ in_round h) by (intros Hr; apply (Hu Hr); cbn; by destruct now).
    assert (Hh : h_now h = []) by (by destruct h).
    rewrite Hh in *. split; unfold pending; cbn [cp_manager cp_discovery cp_health d_now]; try done.
    intros n Hn. rewrite Hh, app_nil_r. apply keeps_change; [done|]. by apply (keeps_now n _ []), H1.
  - injection Ht as <- <-. destruct (B2 : _ /\ _) as [Hp _].
    assert (Hr : ~ in_round h) by (intros Hr; by apply (H4 Hr)).
    rewrite (ring_after_eq M M' a cm) by (try apply Hp; try done; by left).
    split; cbn [cp_manager cp_discovery cp_health cp_answers]; try done.
    + intros n Hn. rewrite access_view. by apply H1.
    + by destruct h.
Qed.

Lemma health_round ps answer cm r d h ans st h' cm' M M' :
  let ans' := answered answer h cm ans in
  health_orders ps h cm -> health_turn ps answer h cm = Some (h', cm') ->
  cluster_inv (mkClusterProc cm r d h ans st) M -> round_inv (mkClusterProc cm r d h ans st) M ->
  undisturbed (mkClusterProc cm' r d h' ans' st) ->
  cluster_inv (mkClusterProc cm' r d h' ans' st) M' -> round_inv (mkClusterProc cm' r d h' ans' st) M'.
Proof.
  intros ans' Ho Ht [B1 _ B3 B4 _] [H1 H2 H3 H4] Hu [B' _ _ _ _].
  assert (Hd : in_round h -> d_now d = []) by (intros Hr; exact (undisturbed_now _ H4 Hr)).
  unfold ans' in *. clear ans'. cbn [cp_manager cp_discovery cp_health cp_answers] in *.
  unfold pending in *. cbn [cp_discovery cp_health] in *.
  destruct h as [| |[|n todo]|n b todo|[|a now] todo|]; cbn [health_turn answered] in *; try done;
    injection Ht as <- <-; cbn [h_now] in *.
  - rewrite (base_unique M' M cm) by done. by split.
  - rewrite (base_unique M' M cm) by done. split; cbn; try done.
    unfold health_orders, visits in Ho. split_and!; [rewrite Ho; apply NoDup_fst_map_to_list|done|].
    intros n. rewrite Ho, lookup_empty. split.
    + intros [a Ha]. left. apply list_elem_of_fmap. exists (n, a). split; [done|]. by apply elem_of_map_to_list.
    + intros [([m a] & -> & Hm%elem_of_map_to_list)%list_elem_of_fmap|[]]; [by exists a|done].
  - rewrite (base_unique M' M cm) by done. by split.
  - rewrite (base_unique M' M cm) by done. assert (Hn : n <> cm_node cm).
    { rewrite (ba_node _ _ B1). apply B3. left. }
    rewrite bool_decide_false in * by done. destruct H2 as (V1 & V2 & V3).
    apply NoDup_cons in V1 as [V0 V1]. split; cbn [cp_manager cp_answers cp_health round_point]; try done.
    + split; [|by rewrite lookup_insert_eq]. split_and!; [done| |].
      * intros m Hm. rewrite lookup_insert_ne by (by intros ->). apply V2. by right.
      * intros m. rewrite V3, lookup_insert_is_Some, elem_of_cons. destruct (decide (n = m)); naive_solver.
    + intros _ m b. cbn [probed]. intros Hm Hne. rewrite lookup_insert_ne in Hm by congruence. by apply H3.
  - rewrite (base_unique M' M cm) by done. destruct H2 as [V Hb]. specialize (Hd I). rewrite Hd in *.
    cbn [app foldl] in *. destruct B3 as [[_ Hne] _].
    change (default false _) with (marked_up (view M cm n)).
    split; unfold pending; cbn [cp_manager cp_answers cp_health cp_discovery h_now]; rewrite ?Hd; cbn [app]; try done.
    + intros m Hm. assert (K := keeps_now m _ _ (H1 m Hm)). apply keeps_check; [|done].
      intros ->. cbn. apply bool_decide_true. apply V. right. by exists b.
    + split; [done|apply checkPeer_leaves].
    + intros _ m b' Hm _. destruct (decide (m = n)) as [->|Hmn].
      * assert (Hs := B4 n Hne). cbv zeta in Hs. cbn [app foldl] in Hs.
        rewrite effects_checkPeer by done. rewrite bool_decide_true by done. cbn. congruence.
      * rewrite effects_other; [apply H3; [done..|]; cbn; congruence|]. by intros ->%checkPeer_subjects.
  - rewrite (base_unique M' M cm) by done. destruct H2 as [V _]. by split.
  - specialize (Hd I). destruct B3 as [Hp _], H2 as [V [Hl Hls]%Forall_cons]. rewrite Hd in *. cbn [app] in *.
    rewrite (ring_after_eq M M' a cm) by (try apply Hp; try done; by left).
    split; unfold pending; cbn [cp_manager cp_answers cp_health cp_discovery h_now]; rewrite ?Hd; cbn [app]; try done.
    + intros m Hm. rewrite access_view. by apply H1.
    + split; [by apply leaves_addrs_visited|done].
    + intros Hr m b Hm Hne. rewrite access_view. by apply H3.
Qed.

Lemma step_round p q M M' : guarded undisturbed p q -> cluster_inv p M -> round_inv p M ->
  cluster_inv q M' -> round_inv q M'.
Proof.
  intros [Hs Hu] Hi Hr Hi'.
  assert (Hsame : forall cm r d h ans st r' d' h' st', p = mkClusterProc cm r d h ans st ->
    q = mkClusterProc cm r' d' h' ans st' -> d_now d' = d_now d -> h' = h \/ (h' = HOver /\ h = HWaits) -> round_inv q M').
  { intros cm r d h ans st r' d' h' st' -> -> Hd Hh. destruct Hi as [B _ _ _ _], Hi' as [B' _ _ _ _].
    rewrite (base_unique M' M cm) by done. destruct Hr as [R1 R2 R3 R4]. unfold pending in *.
    cbn [cp_manager cp_discovery cp_health cp_answers] in *.
    destruct Hh as [->|[-> ->]]; split; unfold pending; cbn [cp_manager cp_discovery cp_health cp_answers];
      rewrite ?Hd; done. }
  destruct Hs; try (eapply Hsame; [done..|]; auto; fail).
  - assert (M' = M) as ->.
    { destruct Hi as [B _ _ _ _], Hi' as [B' _ _ _ _]. destruct r; cbn in *; simplify_eq; [by eapply base_unique|].
      eapply base_unique; [exact B'|]. unfold registerSelf. destruct (cm_redis cm); [by apply redis_base|done]. }
    destruct r; cbn in *; simplify_eq; [by destruct Hr; split|by eapply registerSelf_round].
  - by eapply discovery_round.
  - by eapply health_round.
  - assert (M' = M) as ->.
    { destruct Hi as [B _ _ _ _], Hi' as [B' _ _ _ _]. eapply base_unique; [exact B'|]. cbn.
      unfold StopCluster. destruct (cm_redis cm); [by apply redis_base|done]. }
    destruct Hr as [H1 H2 H3 H4]. unfold StopCluster in *. by destruct (cm_redis cm); split.
Qed.

(** ** From the start *)

(** What main.go builds: a ring of the configured peers and this node. *)
Definition configured (reps : Z) (peers : list string) : HashRing :=
  run (NewHashRing reps) (map RAdd peers ++ [RAdd this]).

Definition marked (f : GrpcForwarder) (cfg : ClusterConfig R) : CMgr :=
  markHealthy (set_started (NewClusterManager f cfg)).

(** Marking every configured peer. *)
Lemma markHealthy_lookup (cm : CMgr) n :
  cm_peerHealth cm = ∅ ->
  cm_peerHealth (markHealthy cm) !! n = Some true <->
  is_Some (addrs cm !! n) /\ n <> cm_node cm.
Proof.
  intros H0. unfold markHealthy, addrs, PeerAddrs. cbn [cm_peerHealth set_health]. rewrite H0. clear H0.
  generalize (cm_node cm) as node. intros node.
  induction (peerAddrs (cm_fw cm)) as [|i a m Hi Hf IH] using map_first_key_ind.
  - rewrite map_fold_empty, !lookup_empty. split; [done|]. by intros [[] _].
  - rewrite map_fold_insert_first_key by done. rewrite lookup_insert_is_Some.
    case_bool_decide as Hb; [subst; rewrite IH; naive_solver|].
    rewrite lookup_insert_Some, IH. destruct (decide (n = i)); naive_solver.
Qed.

Lemma markHealthy_this (cm : CMgr) : cm_peerHealth cm = ∅ -> cm_peerHealth (markHealthy cm) !! cm_node cm = None.
Proof.
  intros H0. unfold markHealthy, PeerAddrs. cbn [cm_peerHealth set_health]. rewrite H0. clear H0.
  generalize (cm_node cm) as node. intros node.
  induction (peerAddrs (cm_fw cm)) as [|i a m Hi Hf IH] using map_first_key_ind; [by rewrite map_fold_empty|].
  rewrite map_fold_insert_first_key by done. case_bool_decide; [done|]. by rewrite lookup_insert_ne.
Qed.

(** Both invariants. *)
Definition sound (p : Proc) : Prop := exists M, cluster_inv p M /\ round_inv p M.

(** A process that is between changes. *)
Definition resting (cm : CMgr) (d : DiscoveryPc) : Proc := mkClusterProc cm RWaits d HWaits ∅ NotStopping.

Lemma marked_sound reps peers f cfg d :
  collision_free (replicas (NewHashRing reps)) ids ->
  f_hashRing f = configured reps peers -> ThisNodeID cfg = this -> cm_prefix (NewClusterManager f cfg) = prefix ->
  (forall n, n ∈ peers <-> is_Some (peerAddrs f !! n)) -> (forall n, n ∈ peers -> peer n) ->
  d = DWaits \/ d = DLists -> sound (resting (marked f cfg) d).
Proof.
  intros Hcf Hring Hnode Hpre Hp Hids Hd. set (cm := marked f cfg).
  assert (Hh : forall n, n ∈ peers <-> cm_peerHealth cm !! n = Some true).
  { intros n. unfold cm, marked. rewrite markHealthy_lookup by done.
    cbn [cm_node set_started NewClusterManager addrs cm_fw]. rewrite Hnode.
    change (addrs _) with (peerAddrs f). rewrite <- Hp. unfold peer in *. naive_solver. }
  assert (Hm : members (map RAdd peers ++ [RAdd this]) = {[this]} ∪ list_to_set peers).
  { assert (Hg : forall M, foldl applyMembers M (map RAdd peers ++ [RAdd this]) =
      {[this]} ∪ (list_to_set peers ∪ M)); [|unfold members; rewrite Hg; set_solver].
    clear. induction peers as [|n peers IH]; intros M; cbn [map app foldl applyMembers list_to_set];
      [set_solver|rewrite IH; set_solver]. }
  exists ({[this]} ∪ list_to_set peers).
  assert (Hv : forall n, n <> this -> view ({[this]} ∪ list_to_set peers) cm n =
    mkView (bool_decide (n ∈ peers)) (bool_decide (n ∈ peers)) (bool_decide (n ∈ peers))).
  { intros n Hn. unfold view. f_equal; [apply bool_decide_ext; set_solver| |].
    - specialize (Hh n). case_bool_decide as Hin; [by rewrite (proj1 Hh Hin)|].
      destruct (cm_peerHealth cm !! n) as [[]|]; naive_solver.
    - apply bool_decide_ext. by rewrite Hp. }
  split; split; try (by destruct Hd as [-> | ->]); try by intros [].
  - split; try done.
    + change (represents (f_hashRing f) ({[this]} ∪ list_to_set peers)). rewrite Hring, <- Hm.
      apply (represents_history _ ids); [done|].
      intros o [(n & -> & Hn)%list_elem_of_fmap|Ho%list_elem_of_singleton]%elem_of_app; [|by subst o].
      by apply Hids.
    + change (collision_free (replicas (f_hashRing f)) ids). rewrite Hring. unfold configured. by rewrite run_replicas.
    + set_solver.
    + intros n [->%elem_of_singleton|Hn%elem_of_list_to_set]%elem_of_union; [done|by apply Hids].
    + rewrite <- Hnode. by apply (markHealthy_this (set_started (NewClusterManager f cfg))).
    + intros n Hn. by apply Hids, Hp.
  - intros n Hn. assert (Hpd : pending (resting cm d) = []) by (by destruct Hd as [-> | ->]).
    rewrite Hpd. cbn [foldl cp_manager resting]. by rewrite Hv.
  - intros n _ Hn. by apply not_elem_of_nil in Hn.
  - intros n Hn. assert (Hpd : pending (resting cm d) = []) by (by destruct Hd as [-> | ->]).
    rewrite Hpd. cbn [cp_manager resting]. rewrite Hv by done. by split.
Qed.

(** The discovery that [Start] makes is that of the goroutine, with the others
    at rest. *)
Definition turns_alone (fs cs : list string) (x y : DiscoveryPc * CMgr) : Prop :=
  discovery_turn fs cs x.1 x.2 = Some y.

Lemma reads_alone fs cs keys : forall cm found x, cm_redis cm = Some x ->
  let '(found', x') := collectFound (cm_prefix cm) keys found x in
  rtc (turns_alone fs cs) (DReads keys found, cm) (DReads [] found', set_redis (Some x') cm).
Proof.
  induction keys as [|key keys IH]; intros cm found x Hx; cbn [collectFound].
  - replace (set_redis (Some x) cm) with cm by (destruct cm; cbn in *; by rewrite Hx). done.
  - case_bool_decide as Hk.
    + specialize (IH cm found x Hx). destruct (collectFound _ keys found x). eapply rtc_l; [|exact IH].
      unfold turns_alone. cbn [discovery_turn fst snd]. by rewrite bool_decide_true.
    + destruct (nrGet key x) as [res x1] eqn:Hg.
      assert (Hs : turns_alone fs cs (DReads (key :: keys) found, cm)
        (DReads keys (match res with inl _ => found | inr addr => <[keyNode (cm_prefix cm) key := addr]> found end),
         set_redis (Some x1) cm)).
      { unfold turns_alone. cbn [discovery_turn fst snd]. rewrite bool_decide_false, Hx by done. by rewrite Hg. }
      destruct res as [e|addr].
      * specialize (IH (set_redis (Some x1) cm) found x1 eq_refl). cbn [cm_prefix set_redis] in IH.
        destruct (collectFound _ keys found x1). by eapply rtc_l.
      * specialize (IH (set_redis (Some x1) cm) (<[keyNode (cm_prefix cm) key := addr]> found) x1 eq_refl).
        cbn [cm_prefix set_redis] in IH. destruct (collectFound _ keys _ x1). by eapply rtc_l.
Qed.

Lemma works_alone fs cs later : forall now cm,
  rtc (turns_alone fs cs) (DWorks now later, cm) (DWaits, accesses (now ++ concat later) cm).
Proof.
  induction later as [|l later IH]; intros now; induction now as [|a now IHn]; intros cm.
  - by apply rtc_once.
  - eapply rtc_l; [done|apply IHn].
  - eapply rtc_l; [done|apply IH].
  - eapply rtc_l; [done|apply IHn].
Qed.

Lemma discovery_alone fs cs cm x : cm_redis cm = Some x ->
  rtc (turns_alone fs cs) (DLists, cm) (DWaits, discoverPeers fs cs cm).
Proof.
  intros Hx. unfold discoverPeers, discovered. rewrite Hx.
  destruct (nrKeys (cm_prefix cm +:+ "*") x) as [[e|keys] x1] eqn:Hk.
  - apply rtc_once. unfold turns_alone. cbn [discovery_turn fst snd]. by rewrite Hx, Hk.
  - assert (Hr := reads_alone fs cs keys (set_redis (Some x1) cm) ∅ x1 eq_refl). cbn [cm_prefix set_redis] in Hr.
    destruct (collectFound _ keys ∅ x1) as [found x2].
    eapply rtc_l; [unfold turns_alone; cbn [discovery_turn fst snd]; by rewrite Hx, Hk|].
    etrans; [exact Hr|]. eapply rtc_l; [done|]. apply works_alone.
Qed.

Lemma alone_sound fs cs x y : rtc (turns_alone fs cs) x y ->
  sound (resting x.2 x.1) -> sound (resting y.2 y.1).
Proof.
  intros Hr Hi. induction Hr as [|[d cm] [d1 cm1] z Ht _ IH]; [done|]. apply IH. clear IH z.
  unfold turns_alone in Ht. cbn [fst snd] in *. destruct Hi as (M & Hi & Hri).
  destruct (discovery_inv fs cs cm RWaits d HWaits ∅ NotStopping d1 cm1 M Ht Hi) as [M' Hi'].
  { intros n _ Hn. by apply not_elem_of_nil in Hn. }
  exists M'. split; [exact Hi'|]. eapply discovery_round; [exact Ht|exact Hi|exact Hri|by intros []|exact Hi'].
Qed.

Lemma Start_sound reps peers f cfg fs cs :
  collision_free (replicas (NewHashRing reps)) ids ->
  f_hashRing f = configured reps peers -> ThisNodeID cfg = this -> cm_prefix (NewClusterManager f cfg) = prefix ->
  (forall n, n ∈ peers <-> is_Some (peerAddrs f !! n)) -> (forall n, n ∈ peers -> peer n) ->
  sound (startedLoops (Start fs cs (NewClusterManager f cfg))).
Proof.
  intros Hcf Hring Hnode Hpre Hp Hids.
  assert (H : forall d, d = DWaits \/ d = DLists -> sound (resting (marked f cfg) d)) by (intros; by eapply marked_sound).
  unfold Start. cbn [cm_started NewClusterManager]. fold (marked f cfg).
  destruct (cm_redis (marked f cfg)) as [x|] eqn:Hx.
  - assert (Hs : sound (resting (discoverPeers fs cs (registerSelf (marked f cfg))) DWaits)).
    { assert (Hreg : cm_redis (registerSelf (marked f cfg)) <> None) by (unfold registerSelf; by rewrite Hx).
      destruct (cm_redis (registerSelf _)) as [y|] eqn:Hy; [|done].
      apply (alone_sound fs cs _ _ (discovery_alone fs cs _ y Hy)). cbn [fst snd].
      destruct (H DLists ltac:(auto)) as (M & Hi & Hr). exists M.
      split; [by eapply registerSelf_inv|by eapply registerSelf_round]. }
    unfold startedLoops. set (cm := discoverPeers _ _ _) in *. destruct (cm_redis cm); [exact Hs|].
    destruct Hs as (M & [H1 H2 H3 H4 H5] & [R1 R2 R3 R4]). exists M. by split.
  - unfold startedLoops. rewrite Hx. destruct (H DWaits ltac:(auto)) as (M & [H1 H2 H3 H4 H5] & [R1 R2 R3 R4]).
    exists M. by split.
Qed.

Lemma run_inv p q : rtc (guarded apart) p q -> (exists M, cluster_inv p M) -> exists M, cluster_inv q M.
Proof. induction 1 as [|p p1 q Hs _ IH]; [done|]. intros [M Hi]. by apply IH, (step_inv p p1 M). Qed.

Lemma run_sound p q : rtc (guarded undisturbed) p q -> sound p -> sound q.
Proof.
  induction 1 as [|p p1 q Hs _ IH]; [done|]. intros (M & Hi & Hr). apply IH.
  destruct (step_inv p p1 M) as [M' Hi']; [|done|].
  - destruct Hs as [Hs Hu]. split; [done|by apply undisturbed_apart].
  - exists M'. split; [done|]. by eapply step_round.
Qed.

(** C30. The refresh, the discovery and the health check interleave access by
    access, with any answers of Redis and of the probes.  As long as the discovery
    and the health check are not inside a change of the same peer at once, the
    ring holds this gateway and, of the peers that are not being changed, exactly
    those marked healthy, and every key is routed to one of them; with no change
    under way the ring is exactly this gateway and the healthy peers.  As long as
    no discovery changes peers in the middle of a health round, every peer on the
    ring has an address at every moment, and when a round has visited its last
    peer it has had an answer from every known peer, and the healthy ones are
    those that answered well. *)
Theorem cluster_ring_tracks_health reps peers f cfg fs cs p :
  collision_free (replicas (NewHashRing reps)) ids ->
  f_hashRing f = configured reps peers -> ThisNodeID cfg = this -> cm_prefix (NewClusterManager f cfg) = prefix ->
  (forall n, n ∈ peers <-> is_Some (peerAddrs f !! n)) -> (forall n, n ∈ peers -> peer n) ->
  let p0 := startedLoops (Start fs cs (NewClusterManager f cfg)) in
  let cm := cp_manager p in
  rtc (guarded apart) p0 p ->
  exists M, represents (cm_hr cm) M /\ this ∈ M /\ (forall key, Get (cm_hr cm) key ∈ M) /\
    (forall n, n <> this -> n ∉ changing p -> (n ∈ M <-> n ∈ healthy cm)) /\
    (changing p = [] -> M = {[this]} ∪ healthy cm) /\
    HealthyPeers cm = Z.of_nat (size (healthy cm)) /\
    (rtc (guarded undisturbed) p0 p ->
     (forall n, n ∈ M -> n = this \/ is_Some (addrs cm !! n)) /\
     (cp_health p = HVisits [] -> forall n,
        (is_Some (addrs cm !! n) <-> is_Some (cp_answers p !! n)) /\
        (n ∈ healthy cm <-> cp_answers p !! n = Some true))).
Proof.
  intros Hcf Hring Hnode Hpre Hp Hids p0 cm Hrun.
  assert (H0 : sound p0) by by eapply Start_sound.
  destruct (run_inv p0 p Hrun) as [M Hi]; [destruct H0 as (M & ? & _); by exists M|].
  assert (Hb := ci_base _ _ Hi). exists M. fold cm in Hb.
  assert (Hset : forall n, n <> this -> n ∉ changing p -> (n ∈ M <-> n ∈ healthy cm)).
  { intros n Hn Hc. assert (Hs := ci_settles _ _ Hi n Hn). cbv zeta in Hs.
    rewrite effects_other in Hs by done. rewrite <- (marked_healthy M cm n).
    fold cm in Hs. rewrite <- Hs. cbn. by rewrite bool_decide_eq_true. }
  assert (Hnt : this ∉ healthy cm) by (rewrite elem_of_healthy, (ba_health _ _ Hb); done).
  split; [apply Hb|]. split; [apply Hb|]. split; [|split; [done|split; [|split; [apply HealthyPeers_size|]]]].
  - intros key. apply represents_Get; [apply Hb|]. pose proof (ba_this _ _ Hb). set_solver.
  - intros Hc. apply set_eq. intros n. destruct (decide (n = this)) as [->|Hn].
    + pose proof (ba_this _ _ Hb). set_solver.
    + rewrite Hset by (rewrite ?Hc; try done; apply not_elem_of_nil). set_solver.
  - intros Hu. destruct (run_sound p0 p Hu H0) as (M' & [B' _ _ _ _] & Hr).
    rewrite (base_unique M' M cm B' Hb) in Hr.
    assert (Haddr : forall n, n ∈ M -> n = this \/ is_Some (addrs cm !! n)).
    { intros n Hn. destruct (decide (n = this)) as [|Hne]; [by left|right].
      assert (K := keeps_now _ _ _ (ri_keeps _ _ Hr n Hne)). cbn in K.
      rewrite !bool_decide_eq_true in K. by apply K. }
    split; [done|]. intros Hv n.
    assert (Hpt := ri_point _ _ Hr). assert (Hmk := ri_marks _ _ Hr).
    assert (Hpend : pending p = []).
    { unfold pending. rewrite (undisturbed_now p (ri_undisturbed _ _ Hr)) by (by rewrite Hv). by rewrite Hv. }
    rewrite Hpend, Hv in *. cbn [round_point foldl in_round probed] in *. fold cm in Hpt, Hmk.
    destruct Hpt as (_ & _ & Hpt). split; [rewrite Hpt; set_solver|].
    rewrite <- (marked_healthy M cm n). split.
    + intros Hm. assert (Hn : n ∈ healthy cm) by (by apply (marked_healthy M)).
      assert (n <> this) by (intros ->; done).
      assert (HnM : n ∈ M) by (apply Hset; [done| |done]; unfold changing; rewrite Hpend; apply not_elem_of_nil).
      destruct (Haddr n HnM) as [->|[[]%not_elem_of_nil|[b Hb']]%Hpt]; [done|].
      specialize (Hmk I n b Hb' ltac:(done)). congruence.
    + intros Ha. by apply (Hmk I n true).
Qed.

End Names.

(** ** Stopping *)

(** The key is refreshed before it expires only with a TTL above two seconds. *)
Lemma refresh_before_expiry (cm : CMgr) : refreshInterval cm < cm_ttl cm <-> 2 * Second < cm_ttl cm.
Proof.
  unfold refreshInterval, Second. split; [lia|]. intros H. rewrite Z.quot_div_nonneg by lia.
  pose proof (Z.div_lt_upper_bound (cm_ttl cm) 3 (cm_ttl cm) ltac:(lia) ltac:(lia)). lia.
Qed.

(** The refresh and the discovery only run with Redis. *)
Definition served (p : Proc) : Prop := cp_discovery p <> DOver -> is_Some (cm_redis (cp_manager p)).

Lemma access_redis a (cm : CMgr) : cm_redis (access cm a) = cm_redis cm.
Proof. by destruct a. Qed.

(** With the others where they are, a discovery under way ends. *)
Lemma discovery_works_end later : forall now (cm : CMgr) r h ans st, exists cm',
  rtc clusterproc_step (mkClusterProc cm r (DWorks now later) h ans st) (mkClusterProc cm' r DWaits h ans st).
Proof.
  induction later as [|l later IH]; intros now; induction now as [|a now IHn]; intros cm r h ans st.
  - exists cm. by apply rtc_once, (DiscoveryTurns [] []).
  - destruct (IHn (access cm a) r h ans st) as [cm' Hr]. exists cm'.
    eapply rtc_l; [by apply (DiscoveryTurns [] [])|exact Hr].
  - destruct (IH l cm r h ans st) as [cm' Hr]. exists cm'.
    eapply rtc_l; [by apply (DiscoveryTurns [] [])|exact Hr].
  - destruct (IHn (access cm a) r h ans st) as [cm' Hr]. exists cm'.
    eapply rtc_l; [by apply (DiscoveryTurns [] [])|exact Hr].
Qed.

Lemma discovery_reads_end keys : forall found (cm : CMgr) r h ans st, is_Some (cm_redis cm) -> exists cm',
  rtc clusterproc_step (mkClusterProc cm r (DReads keys found) h ans st) (mkClusterProc cm' r DWaits h ans st).
Proof.
  induction keys as [|key keys IH]; intros found cm r h ans st [x Hx].
  - destruct (discovery_works_end (reconcilePeers (cm_node cm) (PeerAddrs (cm_fw cm)) found
      (map_to_list found).*1 (map_to_list (PeerAddrs (cm_fw cm))).*1) [] cm r h ans st) as [cm' Hr].
    exists cm'. eapply rtc_l; [|exact Hr]. by eapply DiscoveryTurns; [split; unfold visits; reflexivity|].
  - assert (Hs : exists found' cm1, is_Some (cm_redis cm1) /\
      discovery_turn [] [] (DReads (key :: keys) found) cm = Some (DReads keys found', cm1)).
    { cbn [discovery_turn]. case_bool_decide; [exists found, cm; by rewrite Hx|].
      rewrite Hx. destruct (nrGet key x) as [res x1]. by eexists _, (set_redis (Some x1) cm). }
    destruct Hs as (found' & cm1 & Hr1 & Ht). destruct (IH found' cm1 r h ans st Hr1) as [cm' Hr].
    exists cm'. eapply rtc_l; [by apply (DiscoveryTurns [] [])|exact Hr].
Qed.

Lemma discovery_ends (cm : CMgr) r d h ans st : st <> NotStopping -> served (mkClusterProc cm r d h ans st) ->
  exists cm', rtc clusterproc_step (mkClusterProc cm r d h ans st) (mkClusterProc cm' r DOver h ans st).
Proof.
  intros Hst Hs. assert (Hw : d = DOver \/ exists cm', rtc clusterproc_step (mkClusterProc cm r d h ans st)
    (mkClusterProc cm' r DWaits h ans st)).
  { unfold served in Hs. cbn in Hs. destruct d; [right..|by left].
    - by exists cm.
    - destruct (Hs ltac:(done)) as [x Hx]. destruct (nrKeys (cm_prefix cm +:+ "*") x) as [res x1] eqn:Hk.
      assert (Ht : discovery_turn [] [] DLists cm =
        Some (match res with inl _ => DWaits | inr keys => DReads keys ∅ end, set_redis (Some x1) cm))
        by (cbn [discovery_turn]; by rewrite Hx, Hk).
      destruct res as [e|keys].
      + eexists. eapply rtc_once. by apply (DiscoveryTurns [] []).
      + destruct (discovery_reads_end keys ∅ (set_redis (Some x1) cm) r h ans st) as [cm' Hr]; [by exists x1|].
        exists cm'. eapply rtc_l; [by apply (DiscoveryTurns [] [])|exact Hr].
    - by apply discovery_reads_end, Hs.
    - apply discovery_works_end. }
  destruct Hw as [->|[cm' Hr]]; [by exists cm|]. exists cm'. eapply rtc_r; [exact Hr|by constructor].
Qed.

(** A round ends, whatever the probes answer. *)
Lemma health_works_end now : forall todo (cm : CMgr) r d ans st, exists cm',
  rtc clusterproc_step (mkClusterProc cm r d (HWorks now todo) ans st) (mkClusterProc cm' r d (HVisits todo) ans st) /\
  cm_redis cm' = cm_redis cm.
Proof.
  induction now as [|a now IH]; intros todo cm r d ans st.
  - exists cm. split; [|done]. by apply rtc_once, (HealthTurns [] true).
  - destruct (IH todo (access cm a) r d ans st) as (cm' & Hr & Hx). exists cm'.
    split; [eapply rtc_l; [by apply (HealthTurns [] true)|exact Hr]|]. by rewrite Hx, access_redis.
Qed.

Lemma health_visits_end (answer : string -> bool) todo : forall (cm : CMgr) r d ans st, exists cm' ans',
  rtc clusterproc_step (mkClusterProc cm r d (HVisits todo) ans st) (mkClusterProc cm' r d HWaits ans' st) /\
  cm_redis cm' = cm_redis cm.
Proof.
  induction todo as [|n todo IH]; intros cm r d ans st.
  - exists cm, ans. split; [|done]. by apply rtc_once, (HealthTurns [] true).
  - assert (H1 := HealthTurns [] (answer n) cm r d (HVisits (n :: todo)) ans st _ _ I eq_refl).
    destruct (bool_decide (n = cm_node cm)) eqn:Hn.
    + destruct (IH cm r d (answered (answer n) (HVisits (n :: todo)) cm ans) st) as (cm' & ans' & Hr & Hx).
      exists cm', ans'. split; [by eapply rtc_l|done].
    + set (ans1 := answered (answer n) (HVisits (n :: todo)) cm ans) in *.
      destruct (health_works_end (checkPeer n (answer n) (default false (cm_peerHealth cm !! n))) todo cm r d ans1 st)
        as (cm1 & Hr1 & Hx1).
      destruct (IH cm1 r d ans1 st) as (cm' & ans' & Hr & Hx). exists cm', ans'. split; [|by rewrite Hx].
      eapply rtc_l; [exact H1|]. eapply rtc_l; [by apply (HealthTurns [] true)|]. by etrans.
Qed.

Lemma health_ends (cm : CMgr) r d h ans st : st <> NotStopping -> exists cm' ans',
  rtc clusterproc_step (mkClusterProc cm r d h ans st) (mkClusterProc cm' r d HOver ans' st) /\
  cm_redis cm' = cm_redis cm.
Proof.
  intros Hst. assert (Hw : h = HOver \/ exists cm' ans', rtc clusterproc_step (mkClusterProc cm r d h ans st)
    (mkClusterProc cm' r d HWaits ans' st) /\ cm_redis cm' = cm_redis cm).
  { destruct h as [| |todo|n b todo|now todo|]; [right..|by left].
    - by exists cm, ans.
    - destruct (health_visits_end (fun _ => true) (map_to_list (PeerAddrs (cm_fw cm))).*1 cm r d ∅ st) as (cm' & ans' & Hr & Hx).
      exists cm', ans'. split; [|done]. eapply rtc_l; [|exact Hr]. by eapply (HealthTurns _ true); [cbn; unfold visits; reflexivity|].
    - apply (health_visits_end (fun _ => true)).
    - destruct (health_works_end (checkPeer n b (default false (cm_peerHealth cm !! n))) todo cm r d ans st) as (cm1 & Hr1 & Hx1).
      destruct (health_visits_end (fun _ => true) todo cm1 r d ans st) as (cm' & ans' & Hr & Hx).
      exists cm', ans'. split; [|by rewrite Hx]. eapply rtc_l; [by apply (HealthTurns [] true)|]. by etrans.
    - destruct (health_works_end now todo cm r d ans st) as (cm1 & Hr1 & Hx1).
      destruct (health_visits_end (fun _ => true) todo cm1 r d ans st) as (cm' & ans' & Hr & Hx).
      exists cm', ans'. split; [by etrans|by rewrite Hx]. }
  destruct Hw as [->|(cm' & ans' & Hr & Hx)]; [by exists cm, ans|].
  exists cm', ans'. split; [|done]. eapply rtc_r; [exact Hr|by constructor].
Qed.

Lemma refresh_ends (cm : CMgr) r d h ans st : st <> NotStopping -> exists cm',
  rtc clusterproc_step (mkClusterProc cm r d h ans st) (mkClusterProc cm' ROver d h ans st).
Proof.
  intros Hst. destruct r; [exists cm|exists (registerSelf cm)|by exists cm].
  - by apply rtc_once; constructor.
  - eapply rtc_l; [by apply RefreshTurns|]. by apply rtc_once; constructor.
Qed.

Lemma step_served p q : clusterproc_step p q -> served p -> served q.
Proof.
  unfold served. intros [] Hs; cbn in *; try done.
  - destruct r; cbn in *; simplify_eq; [done|]. intros Hd. specialize (Hs Hd). unfold registerSelf.
    by destruct (cm_redis cm).
  - destruct d as [| |[|key keys] found|[|a now] [|l later]|]; cbn in *; simplify_eq; try (intros _; by apply Hs).
    + destruct (cm_redis cm); [|done]. destruct (nrKeys _ _). by simplify_eq.
    + case_bool_decide; simplify_eq; [intros _; by apply Hs|]. destruct (cm_redis cm); [|done].
      destruct (nrGet _ _). by simplify_eq.
    + rewrite access_redis. intros _; by apply Hs.
    + rewrite access_redis. intros _; by apply Hs.
  - destruct h as [| |[|n todo]|n b todo|[|a now] todo|]; cbn in *; simplify_eq; try done. by rewrite access_redis.
  - unfold StopCluster. intros Hd. specialize (Hs Hd). by destruct (cm_redis cm).
Qed.

(** [Stop] can return from every state, and when it has, the manager does nothing
    any more. *)
Lemma cluster_stop_ends cm0 p : rtc clusterproc_step (startedLoops cm0) p ->
  (cp_stop p = StopReturned -> forall q, ~ clusterproc_step p q) /\
  (exists q, rtc clusterproc_step p q /\ cp_stop q = StopReturned).
Proof.
  intros Hp. assert (Hi : served p /\ (cp_stop p = StopReturned ->
    cp_refresh p = ROver /\ cp_discovery p = DOver /\ cp_health p = HOver)).
  { pattern p. revert p Hp. apply rtc_ind_r.
    - unfold startedLoops, served. destruct (cm_redis cm0) eqn:E; cbn; rewrite ?E; naive_solver.
    - intros y z _ Hyz [IH1 IH2]. split; [by eapply step_served|].
      destruct Hyz; cbn in *; try done; intros Hst; specialize (IH2 Hst); naive_solver. }
  destruct Hi as [Hsv Hi]. split.
  - intros Hst q Hq. specialize (Hi Hst). destruct Hq; cbn in *; naive_solver.
  - destruct p as [cm r d h ans st]. clear Hi Hp.
    assert (Hd : forall cm r d h ans, served (mkClusterProc cm r d h ans StopDeregistered) ->
      exists q, rtc clusterproc_step (mkClusterProc cm r d h ans StopDeregistered) q /\ cp_stop q = StopReturned).
    { clear. intros cm r d h ans Hs.
      destruct (discovery_ends cm r d h ans StopDeregistered ltac:(done) Hs) as [cm1 H1].
      destruct (health_ends cm1 r DOver h ans StopDeregistered ltac:(done)) as (cm2 & ans2 & H2 & _).
      destruct (refresh_ends cm2 r DOver HOver ans2 StopDeregistered ltac:(done)) as [cm3 H3].
      eexists. split; [etrans; [exact H1|]; etrans; [exact H2|]; eapply rtc_r; [exact H3|constructor]|done]. }
    assert (Hc : forall ans, served (mkClusterProc cm r d h ans StopCancelled) ->
      exists q, rtc clusterproc_step (mkClusterProc cm r d h ans StopCancelled) q /\ cp_stop q = StopReturned).
    { intros ans1 Hs. assert (Hst := Deregisters cm r d h ans1). destruct (Hd (StopCluster cm) r d h ans1) as (q & Hq & He);
        [by eapply step_served|]. exists q. split; [by eapply rtc_l|done]. }
    destruct st; [|by apply Hc|by apply Hd|by eexists].
    destruct (Hc ans Hsv) as (q & Hq & He). exists q. split; [|done]. eapply rtc_l; [apply Cancels|done].
Qed.

(** [Stop] removes the key before it waits for the loops: a refresh that is under
    way registers the node again, and the key outlives the manager. *)
Lemma stopped_node_registered (cm : CMgr) x : cm_redis cm = Some x -> exists q,
  rtc clusterproc_step (startedLoops cm) q /\ cp_stop q = StopReturned /\
  cm_redis (cp_manager q) =
    Some (nrSet (nodeKey cm (cm_node cm)) (cm_addr cm) (cm_ttl cm) (nrDel (nodeKey cm (cm_node cm)) x).2).2.
Proof.
  intros Hx. unfold startedLoops. rewrite Hx. eexists. split; [|split].
  - eapply rtc_l; [by apply RefreshTurns|]. eapply rtc_l; [apply Cancels|]. eapply rtc_l; [apply Deregisters|].
    eapply rtc_l; [by apply RefreshTurns|]. eapply rtc_l; [by apply RefreshEnds|].
    eapply rtc_l; [by apply DiscoveryEnds|]. eapply rtc_l; [by apply HealthEnds|]. apply rtc_once, StopWaits.
  - done.
  - cbn [cp_manager]. unfold registerSelf, StopCluster. rewrite Hx. cbn. done.
Qed.

(** ** Playing a history *)

Inductive Turn := TRefresh | TDiscovery (fs cs : list string) | THealth (ps : list string) (answer : bool).

#[local] Instance discovery_orders_dec fs cs d (cm : CMgr) : Decision (discovery_orders fs cs d cm).
Proof. unfold discovery_orders, visits. destruct d as [| |[]| |]; apply _. Defined.
#[local] Instance health_orders_dec ps h (cm : CMgr) : Decision (health_orders ps h cm).
Proof. unfold health_orders, visits. destruct h; apply _. Defined.

Definition turn (t : Turn) (p : Proc) : option Proc :=
  let '(mkClusterProc cm r d h ans st) := p in
  match t with
  | TRefresh => '(r, cm) ← refresh_turn r cm; Some (mkClusterProc cm r d h ans st)
  | TDiscovery fs cs =>
      if bool_decide (discovery_orders fs cs d cm)
      then '(d, cm) ← discovery_turn fs cs d cm; Some (mkClusterProc cm r d h ans st) else None
  | THealth ps answer =>
      if bool_decide (health_orders ps h cm)
      then '(h', cm') ← health_turn ps answer h cm;
           Some (mkClusterProc cm' r d h' (answered answer h cm ans) st) else None
  end.

(** The end of a history whose every state passes [ok]. *)
Fixpoint play (ok : Proc -> bool) (ts : list Turn) (p : Proc) : option Proc :=
  match ts with
  | [] => Some p
  | t :: ts => q ← turn t p; if ok q then play ok ts q else None
  end.

Lemma turn_step t p q : turn t p = Some q -> clusterproc_step p q.
Proof.
  destruct p as [cm r d h ans st], t as [|fs cs|ps b]; cbn.
  - destruct (refresh_turn r cm) as [[]|] eqn:E; [|done]. intros [= <-]. by constructor.
  - case_bool_decide; [|done]. destruct (discovery_turn fs cs d cm) as [[]|] eqn:E; [|done]. intros [= <-].
    by eapply DiscoveryTurns.
  - case_bool_decide; [|done]. destruct (health_turn ps b h cm) as [[]|] eqn:E; [|done]. intros [= <-].
    by eapply HealthTurns.
Qed.

Lemma play_run (ok : Proc -> bool) (G : Proc -> Prop) ts : (forall p, ok p = true -> G p) ->
  forall p q, play ok ts p = Some q -> rtc (guarded G) p q.
Proof.
  intros HG. induction ts as [|t ts IH]; intros p q; cbn; [by intros [= ->]|].
  destruct (turn t p) as [p1|] eqn:Ht; cbn; [|done]. destruct (ok p1) eqn:Hok; [|done]. intros Hq.
  eapply rtc_l; [split; [by eapply turn_step|by apply HG]|by apply IH].
Qed.

Definition undisturbedb (p : Proc) : bool :=
  match cp_health p, cp_discovery p with
  | (HVisits _ | HProbed _ _ _ | HWorks _ _), DWorks now later => bool_decide (now ++ concat later = [])
  | _, _ => true
  end.

Lemma undisturbedb_spec p : undisturbedb p = true -> undisturbed p.
Proof.
  unfold undisturbedb, undisturbed. destruct (cp_health p), (cp_discovery p); cbn; try tauto;
    rewrite bool_decide_eq_true; tauto.
Qed.

End Facts.

(** * A concrete cluster

    Gateway "gw-1" with the configured peer "gw-2", and a registry that changes
    over time: each refresh of this node's key moves to the next listing. *)

Definition gw (s : string) : string := "im:gateway:node:" +:+ s.

(** Before the first refresh, while "gw-2" is registered, after it left, and once
    it is back at another address. *)
Definition listing (x : nat) : gmap string string :=
  match x with
  | 0%nat => ∅
  | 1%nat => {[ gw "gw-1" := "10.0.0.1:9090"; gw "gw-2" := "10.0.0.2:9090" ]}
  | 2%nat => {[ gw "gw-1" := "10.0.0.1:9090" ]}
  | _ => {[ gw "gw-1" := "10.0.0.1:9090"; gw "gw-2" := "10.0.0.3:9090" ]}
  end.

#[local] Instance demoRegistry : NodeRegistry nat :=
  mkNodeRegistry nat (fun _ _ _ x => (None, S x))
    (fun _ x => (inr (map_to_list (listing x)).*1, x))
    (fun k x => (match listing x !! k with Some a => inr a | None => inl "redis: nil" end, x))
    (fun _ x => (None, x)).

Definition demoIds : list string := ["gw-1"; "gw-2"].

Definition demoFw : GrpcForwarder :=
  NewGrpcForwarder (configured "gw-1" 3 ["gw-2"]) "gw-1" {[ "gw-2" := "10.0.0.2:9090" ]} 0 0.

Definition demoCfg : ClusterConfig nat :=
  mkClusterConfig "gw-1" "10.0.0.1:9090" 0 0 (Some 0%nat) "" 0.

Definition visit : list string := ["gw-1"; "gw-2"].

Definition demo0 : ClusterProc := startedLoops (Start visit ["gw-2"] (NewClusterManager demoFw demoCfg)).

Lemma demo_free : collision_free (replicas (NewHashRing 3)) demoIds.
Proof. apply (bool_decide_unpack _). by vm_compute. Qed.

Lemma demo_listed : listed_names demoIds "im:gateway:node:".
Proof.
  intros x keys [= <-].
  assert (H : Forall (fun k => keyNode "im:gateway:node:" k = "" \/ keyNode "im:gateway:node:" k ∈ demoIds)
    (map_to_list (listing x)).*1); [|by rewrite Forall_forall in H].
  apply (bool_decide_unpack _). destruct x as [|[|[|x]]]; by vm_compute.
Qed.

Lemma demo_peers n : n ∈ ["gw-2"] <-> is_Some (peerAddrs demoFw !! n).
Proof.
  cbn [demoFw NewGrpcForwarder peerAddrs]. rewrite list_elem_of_singleton. split.
  - intros ->. by exists "10.0.0.2:9090".
  - intros [a Ha]. by apply lookup_singleton_Some in Ha as [-> _].
Qed.

Lemma demo_named n : n ∈ ["gw-2"] -> peer demoIds "gw-1" n.
Proof. intros ->%list_elem_of_singleton. split; [right; left|done]. Qed.

(** Turns of the health check over "gw-2", and of the discovery. *)
Definition healthTurns (n : nat) (answer : bool) : list Turn := repeat (THealth ["gw-2"] answer) n.
Definition discoveryTurns (n : nat) (found current : list string) : list Turn :=
  repeat (TDiscovery found current) n.

(** ** A peer that stops answering *)

(** A discovery that finds nothing new, and a round in the middle of it. *)
Definition oneRound : list Turn :=
  discoveryTurns 2 visit ["gw-2"] ++ healthTurns 7 false ++ discoveryTurns 3 visit ["gw-2"].

Definition demoDown : ClusterProc := default demo0 (play undisturbedb oneRound demo0).

Lemma demo_down : rtc (guarded undisturbed) demo0 demoDown.
Proof.
  apply (play_run undisturbedb undisturbed oneRound); [apply undisturbedb_spec|].
  assert (H : is_Some (play undisturbedb oneRound demo0)) by (apply (bool_decide_unpack _); by vm_compute).
  unfold demoDown. by destruct H as [p ->].
Qed.

Lemma demo_down_apart : rtc (guarded apart) demo0 demoDown.
Proof.
  eapply rtc_subrel; [|exact demo_down]. intros p q [Hs Hu]. split; [done|]. by apply undisturbed_apart.
Qed.

Lemma cluster_ring_tracks_health_witness :
  let cm := cp_manager demoDown in
  cp_health demoDown = HVisits [] /\ cp_answers demoDown = {[ "gw-2" := false ]} /\
  exists M, represents (cm_hr cm) M /\ M = {["gw-1"]} ∪ healthy cm /\ "gw-2" ∉ healthy cm.
Proof.
  split; [by vm_compute|]. split; [by vm_compute|].
  destruct (cluster_ring_tracks_health demoIds "gw-1" "im:gateway:node:" (list_elem_of_here _ _) demo_listed
    3 ["gw-2"] demoFw demoCfg visit ["gw-2"] demoDown demo_free eq_refl eq_refl eq_refl demo_peers demo_named
    demo_down_apart) as (M & H1 & _ & _ & _ & H5 & _ & H7).
  exists M. split; [done|]. split; [apply H5; by vm_compute|].
  destruct (H7 demo_down) as [_ H8]. destruct (H8 ltac:(by vm_compute) "gw-2") as [_ ->].
  apply (bool_decide_unpack _). by vm_compute.
Defined.

(** ** Both provisos are needed *)

Definition apartb {R} (p : @ClusterProc R) : bool :=
  forallb (fun n => bool_decide (n ∉ map subject (h_now (cp_health p)))) (map subject (d_now (cp_discovery p))).

Lemma apartb_spec {R} (p : @ClusterProc R) : apartb p = true -> apart p.
Proof.
  unfold apartb. rewrite forallb_forall. intros H n Hn Hh. apply list_elem_of_In, H, bool_decide_eq_true in Hn.
  by apply Hn.
Qed.

(** With no change under way "gw-2" is marked healthy; the ring has [len] nodes,
    and the peer has this address. *)
Definition astray (len : Z) (addr : option string) (p : ClusterProc (R := nat)) : Prop :=
  changing p = [] /\ "gw-2" ∈ healthy (cp_manager p) /\ addrs (cp_manager p) !! "gw-2" = addr /\
  Len (cm_hr (cp_manager p)) = len.

#[local] Instance astray_dec len addr p : Decision (astray len addr p).
Proof. unfold astray. apply _. Defined.

Lemma played (ok : ClusterProc -> bool) (G : ClusterProc -> Prop) ts len addr :
  (forall p, ok p = true -> G p) ->
  match play ok ts demo0 with Some p => bool_decide (astray len addr p) | None => false end = true ->
  exists p, rtc (guarded G) demo0 p /\ astray len addr p.
Proof.
  intros HG H. destruct (play ok ts demo0) as [p|] eqn:E; [|done]. exists p.
  split; [by eapply play_run|by apply bool_decide_eq_true in H].
Qed.

(** What a discovery and a round make of it afterwards. *)
Definition afterwards (fs cs ps : list string) (k : nat) : list Turn :=
  discoveryTurns k fs cs ++ repeat (THealth ps true) (3 + 3 * length ps).

(** A peer that discovery removes after a health round has copied the addresses,
    and that answers the probe, is put back on the ring without an address, and
    the next discovery and round leave it there. *)
Lemma removed_peer_rejoins : exists p, rtc (guarded apart) demo0 p /\ astray 2 None p.
Proof.
  apply (played apartb apart
    (healthTurns 2 true ++ [TRefresh; TRefresh] ++ discoveryTurns 10 ["gw-1"] ["gw-2"] ++ healthTurns 6 true ++
     afterwards ["gw-1"] [] [] 6)); [apply apartb_spec|by vm_compute].
Qed.

(** Inside a change of the same peer: the round that found "gw-2" down takes it off
    the ring after the discovery of its new address has put it on, and the mark of
    the discovery comes last.  The peer has an address, answers and is marked
    healthy, but the next discovery and round leave it off the ring. *)
Lemma race_keeps_peer_off : exists p, rtc clusterproc_step demo0 p /\ astray 1 (Some "10.0.0.3:9090") p.
Proof.
  destruct (played (fun _ => true) (fun _ => True)
    (repeat TRefresh 4 ++ healthTurns 4 false ++ discoveryTurns 9 visit ["gw-2"] ++ healthTurns 2 false ++
     discoveryTurns 3 visit ["gw-2"] ++ healthTurns 2 true ++ afterwards visit ["gw-2"] ["gw-2"] 9)
    1 (Some "10.0.0.3:9090")) as (p & Hr & Hp); [done|by vm_compute|].
  exists p. split; [|done]. eapply rtc_subrel; [|exact Hr]. by intros x y [].
Qed.

(** The round adds "gw-2" to the ring, the discovery removes the peer, and the
    round marks it healthy: it is off the ring and has no address. *)
Lemma race_counts_removed_peer : exists p, rtc clusterproc_step demo0 p /\ astray 1 None p.
Proof.
  destruct (played (fun _ => true) (fun _ => True)
    (healthTurns 8 false ++ [TRefresh; TRefresh] ++ healthTurns 5 true ++ discoveryTurns 10 ["gw-1"] ["gw-2"] ++
     healthTurns 3 true) 1 None) as (p & Hr & Hp); [done|by vm_compute|].
  exists p. split; [|done]. eapply rtc_subrel; [|exact Hr]. by intros x y [].
Qed.
