(* ===== verification/RouterState.v ===== *)
(** * The router's state (src/internal/gateway/router.go)

    The fields of [Router], the backends they refer to bundled in one
    interface, access to each field as a sub-state, and the router's
    configuration functions.  A nil field is [None]; [metrics] is the sequence
    of recorded metrics; [panicked] is set where the code would dereference a
    nil group store. *)

From S2P Require Import Prelude Proto Snowflake Process Client Hub HashRing Dedup RateLimiter.
From S2P Require Import Unread GroupStore Stores LogicClient Producer.

(** The implementations a router is wired to. *)
Class Backends (E : Env) := mkBackends {
  bk_O : Type; bk_offline : OfflineStore bk_O;
  bk_R : Type; bk_redis : RedisKV bk_R;
  bk_MS : Type; bk_msgs : MessageStore bk_MS;
  bk_K : Type; bk_kafka : KafkaWriter bk_K;
  bk_L : Type; bk_logic : LogicRPC bk_L;
  bk_F : Type; bk_forwarder : Forwarder bk_F;
  bk_G : Type; bk_groups : GroupStore bk_G;
  bk_U : Type; bk_unread : UnreadTracker bk_U;
  bk_FS : Type; bk_friends : FriendStore bk_FS
}.
#[export] Existing Instance bk_offline.
#[export] Existing Instance bk_redis.
#[export] Existing Instance bk_msgs.
#[export] Existing Instance bk_kafka.
#[export] Existing Instance bk_logic.
#[export] Existing Instance bk_forwarder.
#[export] Existing Instance bk_groups.
#[export] Existing Instance bk_unread.
#[export] Existing Instance bk_friends.

(** What the router reports to Prometheus (src/internal/observability). *)
Inductive Metric :=
| RecordCommand (cmd : Z)
| RecordMessagesReceived (chatType : string)
| RecordMessageDelivered (chatType : string)
| RecordDeliveryFailure
| RecordDuplicateDropped
| RecordGroupFanoutSend
| RecordPersistSuccess
| RecordPersistFail
| RecordPersistQueueDrop
| RecordDeliveredDuration (chatType : string) (d : Z).

Definition ChatTypeStr (msg : Message) : string :=
  if ChatType msg =? ChatTypeGroup then "group" else "single".

(** The labels of a chat type, and the metrics a handler records: all but the
    count of commands, with one of those labels. *)
Definition chat_label (t : string) : Prop := t = "single"%string \/ t = "group"%string.

Definition handler_metric (m : Metric) : Prop :=
  match m with
  | RecordCommand _ => False
  | RecordMessagesReceived t | RecordMessageDelivered t | RecordDeliveredDuration t _ => chat_label t
  | _ => True
  end.

Lemma ChatTypeStr_label msg : chat_label (ChatTypeStr msg).
Proof. unfold ChatTypeStr, chat_label. destruct (_ =? _); tauto. Qed.

Record RouterConfig := mkRouterConfig {
  DedupTTL : Z;
  PersistConcurrency : Z;
  RecallWindowMs : Z;
  HistoryDefaultLimit : Z;
  SearchDefaultLimit : Z;
  RateLimitCleanup : Z
}.

Definition DefaultRouterConfig : RouterConfig :=
  mkRouterConfig (5 * Minute) 64 120000 30 20 (5 * Minute).

(** The capacity of the queue of messages to persist. *)
Definition persistQueueCap : nat := 1024.

Section State.
Context {E : Env} {B : Backends E}.

Record Router := mkRouter {
  clients : Conn;
  offline : bk_O;
  dedup : DedupCache bk_R;
  rateLimit : option RateLimiter;
  msgStore : option bk_MS;
  kafka : option bk_K;
  logicClient : option bk_L;
  hashRing : option HashRing;
  forwarder : option bk_F;
  thisNodeID : string;
  groupStore : option bk_G;
  unreadTracker : option bk_U;
  friendStore : option bk_FS;
  metrics : list Metric;
  persistTasks : list Message;
  persistStopped : bool;
  recallWindow : Z;
  historyLimit : Z;
  searchLimit : Z;
  rlCleanup : Z;
  panicked : bool
}.

Definition set_clients (x : Conn) (r : Router) : Router :=
  mkRouter x (offline r) (dedup r) (rateLimit r) (msgStore r) (kafka r) (logicClient r)
    (hashRing r) (forwarder r) (thisNodeID r) (groupStore r) (unreadTracker r)
    (friendStore r) (metrics r) (persistTasks r) (persistStopped r) (recallWindow r)
    (historyLimit r) (searchLimit r) (rlCleanup r) (panicked r).
Definition set_offline (x : bk_O) (r : Router) : Router :=
  mkRouter (clients r) x (dedup r) (rateLimit r) (msgStore r) (kafka r) (logicClient r)
    (hashRing r) (forwarder r) (thisNodeID r) (groupStore r) (unreadTracker r)
    (friendStore r) (metrics r) (persistTasks r) (persistStopped r) (recallWindow r)
    (historyLimit r) (searchLimit r) (rlCleanup r) (panicked r).
Definition set_dedup (x : DedupCache bk_R) (r : Router) : Router :=
  mkRouter (clients r) (offline r) x (rateLimit r) (msgStore r) (kafka r) (logicClient r)
    (hashRing r) (forwarder r) (thisNodeID r) (groupStore r) (unreadTracker r)
    (friendStore r) (metrics r) (persistTasks r) (persistStopped r) (recallWindow r)
    (historyLimit r) (searchLimit r) (rlCleanup r) (panicked r).
Definition set_rateLimit (x : option RateLimiter) (r : Router) : Router :=
  mkRouter (clients r) (offline r) (dedup r) x (msgStore r) (kafka r) (logicClient r)
    (hashRing r) (forwarder r) (thisNodeID r) (groupStore r) (unreadTracker r)
    (friendStore r) (metrics r) (persistTasks r) (persistStopped r) (recallWindow r)
    (historyLimit r) (searchLimit r) (rlCleanup r) (panicked r).
Definition set_msgStore (x : option bk_MS) (r : Router) : Router :=
  mkRouter (clients r) (offline r) (dedup r) (rateLimit r) x (kafka r) (logicClient r)
    (hashRing r) (forwarder r) (thisNodeID r) (groupStore r) (unreadTracker r)
    (friendStore r) (metrics r) (persistTasks r) (persistStopped r) (recallWindow r)
    (historyLimit r) (searchLimit r) (rlCleanup r) (panicked r).
Definition set_kafka (x : option bk_K) (r : Router) : Router :=
  mkRouter (clients r) (offline r) (dedup r) (rateLimit r) (msgStore r) x (logicClient r)
    (hashRing r) (forwarder r) (thisNodeID r) (groupStore r) (unreadTracker r)
    (friendStore r) (metrics r) (persistTasks r) (persistStopped r) (recallWindow r)
    (historyLimit r) (searchLimit r) (rlCleanup r) (panicked r).
Definition set_logicClient (x : option bk_L) (r : Router) : Router :=
  mkRouter (clients r) (offline r) (dedup r) (rateLimit r) (msgStore r) (kafka r) x
    (hashRing r) (forwarder r) (thisNodeID r) (groupStore r) (unreadTracker r)
    (friendStore r) (metrics r) (persistTasks r) (persistStopped r) (recallWindow r)
    (historyLimit r) (searchLimit r) (rlCleanup r) (panicked r).
Definition set_hashRing (x : option HashRing) (r : Router) : Router :=
  mkRouter (clients r) (offline r) (dedup r) (rateLimit r) (msgStore r) (kafka r)
    (logicClient r) x (forwarder r) (thisNodeID r) (groupStore r) (unreadTracker r)
    (friendStore r) (metrics r) (persistTasks r) (persistStopped r) (recallWindow r)
    (historyLimit r) (searchLimit r) (rlCleanup r) (panicked r).
Definition set_forwarder (x : option bk_F) (r : Router) : Router :=
  mkRouter (clients r) (offline r) (dedup r) (rateLimit r) (msgStore r) (kafka r)
    (logicClient r) (hashRing r) x (thisNodeID r) (groupStore r) (unreadTracker r)
    (friendStore r) (metrics r) (persistTasks r) (persistStopped r) (recallWindow r)
    (historyLimit r) (searchLimit r) (rlCleanup r) (panicked r).
Definition set_thisNodeID (x : string) (r : Router) : Router :=
  mkRouter (clients r) (offline r) (dedup r) (rateLimit r) (msgStore r) (kafka r)
    (logicClient r) (hashRing r) (forwarder r) x (groupStore r) (unreadTracker r)
    (friendStore r) (metrics r) (persistTasks r) (persistStopped r) (recallWindow r)
    (historyLimit r) (searchLimit r) (rlCleanup r) (panicked r).
Definition set_groupStore (x : option bk_G) (r : Router) : Router :=
  mkRouter (clients r) (offline r) (dedup r) (rateLimit r) (msgStore r) (kafka r)
    (logicClient r) (hashRing r) (forwarder r) (thisNodeID r) x (unreadTracker r)
    (friendStore r) (metrics r) (persistTasks r) (persistStopped r) (recallWindow r)
    (historyLimit r) (searchLimit r) (rlCleanup r) (panicked r).
Definition set_unreadTracker (x : option bk_U) (r : Router) : Router :=
  mkRouter (clients r) (offline r) (dedup r) (rateLimit r) (msgStore r) (kafka r)
    (logicClient r) (hashRing r) (forwarder r) (thisNodeID r) (groupStore r) x
    (friendStore r) (metrics r) (persistTasks r) (persistStopped r) (recallWindow r)
    (historyLimit r) (searchLimit r) (rlCleanup r) (panicked r).
Definition set_friendStore (x : option bk_FS) (r : Router) : Router :=
  mkRouter (clients r) (offline r) (dedup r) (rateLimit r) (msgStore r) (kafka r)
    (logicClient r) (hashRing r) (forwarder r) (thisNodeID r) (groupStore r)
    (unreadTracker r) x (metrics r) (persistTasks r) (persistStopped r) (recallWindow r)
    (historyLimit r) (searchLimit r) (rlCleanup r) (panicked r).
Definition set_metrics (x : list Metric) (r : Router) : Router :=
  mkRouter (clients r) (offline r) (dedup r) (rateLimit r) (msgStore r) (kafka r)
    (logicClient r) (hashRing r) (forwarder r) (thisNodeID r) (groupStore r)
    (unreadTracker r) (friendStore r) x (persistTasks r) (persistStopped r) (recallWindow r)
    (historyLimit r) (searchLimit r) (rlCleanup r) (panicked r).
Definition set_persistTasks (x : list Message) (r : Router) : Router :=
  mkRouter (clients r) (offline r) (dedup r) (rateLimit r) (msgStore r) (kafka r)
    (logicClient r) (hashRing r) (forwarder r) (thisNodeID r) (groupStore r)
    (unreadTracker r) (friendStore r) (metrics r) x (persistStopped r) (recallWindow r)
    (historyLimit r) (searchLimit r) (rlCleanup r) (panicked r).
Definition set_persistStopped (x : bool) (r : Router) : Router :=
  mkRouter (clients r) (offline r) (dedup r) (rateLimit r) (msgStore r) (kafka r)
    (logicClient r) (hashRing r) (forwarder r) (thisNodeID r) (groupStore r)
    (unreadTracker r) (friendStore r) (metrics r) (persistTasks r) x (recallWindow r)
    (historyLimit r) (searchLimit r) (rlCleanup r) (panicked r).
Definition set_panicked (x : bool) (r : Router) : Router :=
  mkRouter (clients r) (offline r) (dedup r) (rateLimit r) (msgStore r) (kafka r)
    (logicClient r) (hashRing r) (forwarder r) (thisNodeID r) (groupStore r)
    (unreadTracker r) (friendStore r) (metrics r) (persistTasks r) (persistStopped r)
    (recallWindow r) (historyLimit r) (searchLimit r) (rlCleanup r) x.

(** ** Running an operation of one component inside the router *)

Definition zoom {X A} (get : Router -> X) (put : X -> Router -> Router)
  (m : St (X * Sys) A) : St (Router * Sys) A :=
  fun '(r, s) => let '(a, (x', s')) := m (get r, s) in (a, (put x' r, s')).

(** A method call through a pointer [x] that a nil check has just read from the
    field: the call sees the object as it is now. *)
Definition zoomSome {X A} (get : Router -> option X) (put : option X -> Router -> Router) (x : X)
  (m : St (X * Sys) A) : St (Router * Sys) A :=
  fun '(r, s) =>
    match get r with
    | Some x => let '(a, (x', s')) := m (x, s) in (a, (put (Some x') r, s'))
    | None => let '(a, (_, s')) := m (x, s) in (a, (r, s'))
    end.

Definition M (A : Type) : Type := St (Router * Sys) A.

Definition onClients {A} (m : St (Conn * Sys) A) : M A := zoom clients set_clients m.
Definition onOffline {A} (m : St (bk_O * Sys) A) : M A := zoom offline set_offline m.
Definition onDedup {A} (m : St (DedupCache bk_R * Sys) A) : M A := zoom dedup set_dedup m.
Definition onLogic {A} (m : St (option bk_L * Sys) A) : M A :=
  zoom logicClient set_logicClient m.

(** Access to the component behind a field that may be nil. *)
Definition onRate {A} (rl : RateLimiter) (m : St (RateLimiter * Sys) A) : M A :=
  zoomSome rateLimit set_rateLimit rl m.
Definition onMsgs {A} (ms : bk_MS) (m : St (bk_MS * Sys) A) : M A :=
  zoomSome msgStore set_msgStore ms m.
Definition onForwarder {A} (f : bk_F) (m : St (bk_F * Sys) A) : M A :=
  zoomSome forwarder set_forwarder f m.
Definition onGroups {A} (gs : bk_G) (m : St (bk_G * Sys) A) : M A :=
  zoomSome groupStore set_groupStore gs m.
Definition onUnread {A} (ut : bk_U) (m : St (bk_U * Sys) A) : M A :=
  zoomSome unreadTracker set_unreadTracker ut m.
Definition onFriends {A} (fs : bk_FS) (m : St (bk_FS * Sys) A) : M A :=
  zoomSome friendStore set_friendStore fs m.
Definition onKafka {A} (k : bk_K) (m : St (bk_K * Sys) A) : M A :=
  zoomSome kafka set_kafka k m.

Definition update (f : Router -> Router) : M unit := modify (fun p => (f p.1, p.2)).

Definition record (m : Metric) : M unit := update (fun r => set_metrics (metrics r ++ [m]) r).

Definition markPanic : M unit := update (set_panicked true).

(** ** Construction and configuration *)

Definition NewRouter (cl : Conn) (off : bk_O) (ms : option bk_MS) (cfg : RouterConfig) : Router :=
  let t := if DedupTTL cfg <=? 0 then 5 * Minute else DedupTTL cfg in
  mkRouter cl off (NewDedupCache t) None ms None None None None "" None None None [] []
    false (RecallWindowMs cfg) (HistoryDefaultLimit cfg) (SearchDefaultLimit cfg)
    (RateLimitCleanup cfg) false.

(** How many persistence workers [NewRouter] starts. *)
Definition persistWorkers (cfg : RouterConfig) : Z :=
  if PersistConcurrency cfg <=? 0 then 64 else PersistConcurrency cfg.

Definition SetKafkaProducer (p : option bk_K) : Router -> Router := set_kafka p.
Definition SetLogicClient (c : option bk_L) : Router -> Router := set_logicClient c.
Definition SetHashRing (hr : option HashRing) : Router -> Router := set_hashRing hr.
Definition SetForwarder (f : option bk_F) : Router -> Router := set_forwarder f.
Definition SetThisNodeID (id : string) : Router -> Router := set_thisNodeID id.
Definition SetGroupStore (gs : option bk_G) : Router -> Router := set_groupStore gs.
Definition SetUnreadTracker (ut : option bk_U) : Router -> Router := set_unreadTracker ut.
Definition SetFriendStore (fs : option bk_FS) : Router -> Router := set_friendStore fs.
Definition SetDedupRedis (rdb : bk_R) : M unit := onDedup (SetRedis rdb).

Definition SetRateLimit (rt bst : Z) (r : Router) : Router :=
  if 0 <? rt
  then set_rateLimit (Some (NewRateLimiter rt (if bst <=? 0 then wrap64 (rt * 2) else bst)
         (rlCleanup r))) r
  else set_rateLimit None r.

(** [true] when the user is over the limit. *)
Definition checkRateLimit (uid : string) : M bool :=
  let! r := getX in
  match rateLimit r with
  | Some rl => let! ok := onRate rl (Allow uid) in ret (negb ok)
  | None => ret false
  end.

Definition RateLimitStats (r : Router) : Z * Z :=
  match rateLimit r with Some rl => (allowed rl, rejected rl) | None => (0, 0) end.

Definition DedupMarks (r : Router) : Z := marks (dedup r).

Definition StopRouter : M unit :=
  onDedup Stop ;;! update (set_persistStopped true).

End State.
