(* ===== verification/RouterDelivery.v ===== *)
(** * Delivery (src/internal/gateway/router.go)

    How the router hands a message to a user: to the local connection, to the
    peer gateway that owns the user, or to offline storage; fan-out to a group;
    the bounded queue of messages to persist and its workers. *)

From S2P Require Import Prelude Proto Snowflake Process Client Hub HashRing Dedup RateLimiter.
From S2P Require Import Unread GroupStore Stores LogicClient Producer RouterState.

Section Delivery.
Context {E : Env} {C : Codec} {B : Backends E}.

(** [r.clients.Get(ctx, uid)] and [c.Send(msg)]. *)
Definition getClient (uid : string) : M (option Handle) := onClients (Hub.Get uid).
Definition sendTo (h : Handle) (msg : Message) : M (option SendErr) := onClients (SendTo h msg).
Definition storeOffline (uid : string) (msg : Message) : M unit := onOffline (StoreOffline uid msg).

(** A [Send] whose error the handler ignores. *)
Definition send_ (h : Handle) (msg : Message) : M unit := sendTo h msg ;;! ret tt.

(** [MsgId: r.snow.Next(), Timestamp: time.Now().UnixMilli()] in a literal. *)
Definition stamped {A} (k : Z -> Z -> M A) : M A :=
  let! id := NextID in let! ts := NowMilli in k id ts.

(** A response literal, sent. *)
Definition reply (h : Handle) (cmd : Z) (from to content : string) (seq : Z) : M unit :=
  stamped (fun id ts => send_ h (newMessage cmd id from to content seq ts)).

(** ** Persistence *)

(** [select { case r.persistTasks <- task: default: }]. *)
Definition enqueuePersist (msg : Message) : M bool :=
  fun '(r, s) =>
    if (length (persistTasks r) <? persistQueueCap)%nat
    then (true, (set_persistTasks (persistTasks r ++ [msg]) r, s)) else (false, (r, s)).

Definition persistAsync (msg : Message) : M unit :=
  let! r := getX in
  match kafka r, msgStore r with
  | None, None => ret tt
  | _, _ =>
      let! queued := enqueuePersist msg in
      if queued then ret tt else record RecordPersistQueueDrop
  end.

(** The two halves of [doPersist]: publishing to Kafka and saving to MySQL. *)
Definition persistPublish (msg : Message) : M unit :=
  let! r := getX in
  match kafka r with
  | Some k => onKafka k (modify (fun p => (Publish msg p.1, p.2)))
  | None => ret tt
  end.

Definition persistSave (msg : Message) : M unit :=
  let! r := getX in
  match msgStore r with
  | Some ms =>
      let! err := onMsgs ms (Save msg) in
      match err with
      | Some _ => record RecordPersistFail
      | None => record RecordPersistSuccess
      end
  | None => ret tt
  end.

Definition doPersist (msg : Message) : M unit := persistPublish msg ;;! persistSave msg.

(** A worker: at its [select], in [doPersist] before [Publish] or between it and
    [Save], and gone. *)
Inductive WorkerPc := WorkerSelect | WorkerPublish (msg : Message) | WorkerSave (msg : Message) | WorkerEnded.

(** One turn of a worker, [None] where it has to wait; the others run in between
    the turns.  Once stopped, its [select] may still take a task before it sees the
    closed channel. *)
Definition worker_turn (w : WorkerPc) : M (option WorkerPc) :=
  match w with
  | WorkerSelect =>
      let! r := getX in
      match persistTasks r with
      | msg :: q =>
          let! go := (if persistStopped r then Pick else ret true) in
          if go then update (set_persistTasks q) ;;! ret (Some (WorkerPublish msg))
          else ret (Some WorkerEnded)
      | [] => ret (if persistStopped r then Some WorkerEnded else None)
      end
  | WorkerPublish msg => persistPublish msg ;;! ret (Some (WorkerSave msg))
  | WorkerSave msg => persistSave msg ;;! ret (Some WorkerSelect)
  | WorkerEnded => ret None
  end.

(** ** One user *)

Definition routeOrStoreOffline (targetUID : string) (msg : Message) : M unit :=
  let! r := getX in
  match hashRing r with
  | None => storeOffline targetUID msg
  | Some hr =>
      if bool_decide (thisNodeID r = "") then storeOffline targetUID msg
      else
        let ownerNode := HashRing.Get hr targetUID in
        if bool_decide (ownerNode = "" \/ ownerNode = thisNodeID r)
        then storeOffline targetUID msg
        else
          match forwarder r with
          | None => storeOffline targetUID msg
          | Some f =>
              let! res := onForwarder f (Forward targetUID msg) in
              match res with
              | inl _ => storeOffline targetUID msg
              | inr _ => ret tt
              end
          end
  end.

(** ** A group *)

(** The body of both fan-out loops. *)
Definition fanoutMember (senderUID : string) (msg : Message) (memberUID : string) : M unit :=
  if bool_decide (memberUID = senderUID) then ret tt
  else
    let! target := getClient memberUID in
    match target with
    | Some h =>
        record RecordGroupFanoutSend ;;!
        let! err := sendTo h msg in
        match err with
        | Some _ => record RecordDeliveryFailure ;;! storeOffline memberUID msg
        | None => record (RecordMessageDelivered "group")
        end
    | None => routeOrStoreOffline memberUID msg
    end.

Definition fanoutGroupWithMembers (senderUID : string) (msg : Message) (members : list string)
  : M unit := forEach members (fanoutMember senderUID msg).

Definition groupMembers (gs : bk_G) (gid : string) : M (GroupErr + list string) :=
  onGroups gs (GetMembers gid).

Definition fanoutGroup (gs : bk_G) (senderUID : string) (msg : Message) : M unit :=
  let! res := groupMembers gs (To msg) in
  match res with
  | inl _ => ret tt
  | inr members => forEach members (fanoutMember senderUID msg)
  end.

(** The unread counters of the recipients, as [handleChat] and [handleForward]
    increment them. *)
Definition incrementUnread (to from : string) : M unit :=
  let! r := getX in
  match unreadTracker r with
  | Some ut => onUnread ut (Increment to from)
  | None => ret tt
  end.

Definition countUnread (senderUID : string) (msg : Message) : M unit :=
  let! r := getX in
  match unreadTracker r with
  | None => ret tt
  | Some _ =>
      match (if ChatType msg =? ChatTypeGroup then groupStore r else None) with
      | Some gs =>
          let! res := groupMembers gs (To msg) in
          match res with
          | inl _ => ret tt
          | inr members =>
              forEach members (fun m =>
                if bool_decide (m <> senderUID) then incrementUnread m (From msg) else ret tt)
          end
      | None =>
          if bool_decide (To msg <> From msg) then incrementUnread (To msg) (From msg) else ret tt
      end
  end.

End Delivery.
