(* ===== verification/RouterChat.v ===== *)
(** * Chat, recall, edit, forward, typing and queries
    (src/internal/gateway/router.go)

    The handlers of the single-user commands, statement by statement: guards in
    the order of the code, every reading of the clock and every generated id,
    every send and every store. *)

From S2P Require Import Prelude Proto Snowflake Process Client Hub HashRing Dedup RateLimiter.
From S2P Require Import Unread GroupStore Json Stores LogicClient Producer RouterState RouterDelivery.

(** A [fmt.Sprintf] template around a number or a text. *)
Definition recallContent (msgID : Z) : string :=
  "{" +:+ q "recalled" +:+ ":true," +:+ q "msg_id" +:+ ":" +:+ itoa msgID +:+ "}".
Definition errorContent (reason : string) : string :=
  "{" +:+ q "error" +:+ ":" +:+ q reason +:+ "}".

Definition ackOf (msgId seq : Z) (to : string) (ts : Z) : Message :=
  newMessage CmdAck msgId "" to "" seq ts.

(** The search parameters of a JSON document; fields match by name up to case. *)
Definition decodeSearchParams (content : string) : option SearchParams :=
  fs ← UnmarshalObject content;
  uid ← field_string "UID" fs; query ← field_string "Query" fs;
  peer ← field_string "Peer" fs; ct ← field_int32 "ChatType" fs; mt ← field_int32 "MsgType" fs;
  before ← field_int64 "Before" fs; after ← field_int64 "After" fs;
  limit ← field_int64 "Limit" fs; cursor ← field_int64 "Cursor" fs;
  Some (mkSearchParams uid query peer ct mt before after limit cursor).

Section Handlers.
Context {E : Env} {C : Codec} {B : Backends E}.
Implicit Types (sender : Handle) (msg : Message).

Definition handleHeartbeat sender msg : M unit := reply sender CmdHeartbeat "" "" "" 0.

(** ** Chat *)

Definition sendAck sender msg : M unit :=
  let! ts := NowMilli in
  send_ sender (ackOf (MsgId msg) (Seq msg) (h_uid sender) ts).

Definition markIfSeq sender msg : M unit :=
  if 0 <? Seq msg then onDedup (Mark (h_uid sender) (Seq msg) (MsgId msg)) else ret tt.

(** Delivery to one user, with the mark where [handleChat] makes it. *)
Definition chatSingle sender msg : M unit :=
  let! target := getClient (To msg) in
  match target with
  | Some h =>
      let! err := sendTo h msg in
      match err with
      | Some _ => record RecordDeliveryFailure ;;! storeOffline (To msg) msg
      | None => record (RecordMessageDelivered (ChatTypeStr msg)) ;;! markIfSeq sender msg
      end
  | None => routeOrStoreOffline (To msg) msg ;;! markIfSeq sender msg
  end.

Definition chatDeliver sender msg : M unit :=
  let! r := getX in
  match (if ChatType msg =? ChatTypeGroup then groupStore r else None) with
  | Some gs => fanoutGroup gs (h_uid sender) msg ;;! markIfSeq sender msg
  | None => chatSingle sender msg
  end.

(** What follows the delivery: unread counters, acknowledgement, persistence. *)
Definition chatTail sender (start : Z) msg : M unit :=
  countUnread (h_uid sender) msg ;;!
  (if NeedAck msg then
     sendAck sender msg ;;!
     let! now := Now in
     record (RecordDeliveredDuration (ChatTypeStr msg) (timeSub now start))
   else ret tt) ;;!
  persistAsync msg.

(** From the validation on. *)
Definition chatAccept sender (start : Z) msg : M unit :=
  match Validate msg with
  | Some _ => ret tt
  | None =>
      let! limited := checkRateLimit (h_uid sender) in
      if limited then ret tt
      else
        stamped (fun id ts =>
        let msg := setTimestamp ts (setMsgId id msg) in
        chatDeliver sender msg ;;! chatTail sender start msg)
  end.

Definition handleChat sender msg : M unit :=
  record (RecordMessagesReceived (ChatTypeStr msg)) ;;!
  let! start := Now in
  let! dup := (if 0 <? Seq msg then onDedup (IsDuplicate (h_uid sender) (Seq msg))
               else ret (false, 0)) in
  match dup with
  | (true, existingMsgID) =>
      (if NeedAck msg then
         let! ts := NowMilli in
         send_ sender (ackOf existingMsgID (Seq msg) (h_uid sender) ts)
       else ret tt) ;;!
      record RecordDuplicateDropped
  | (false, _) => chatAccept sender start msg
  end.

(** ** Recall *)

Definition sendRecallError sender (reason : string) : M unit :=
  reply sender CmdRecall "" (h_uid sender) (errorContent reason) 0.

(** Local delivery with offline storage as fallback, else routing: the last
    part of [handleRecall]. *)
Definition recallDeliver msg : M unit :=
  let! target := getClient (To msg) in
  match target with
  | Some h =>
      let! err := sendTo h msg in
      match err with
      | Some _ => record RecordDeliveryFailure ;;! storeOffline (To msg) msg
      | None => ret tt
      end
  | None => routeOrStoreOffline (To msg) msg
  end.

Definition handleRecall sender msg : M unit :=
  match Validate msg with
  | Some _ => ret tt
  | None =>
      if bool_decide (To msg = h_uid sender) then ret tt
      else if Seq msg =? 0 then sendRecallError sender "missing original message ID"
      else
        let msg := setFrom (h_uid sender) msg in
        let! r := getX in
        let! failed := match msgStore r with
          | Some ms => onMsgs ms
                         (RecallMessage (Seq msg) (h_uid sender) (recallWindow r))
          | None => ret None end in
        match failed with
        | Some reason => sendRecallError sender reason
        | None =>
            stamped (fun id ts =>
            recallDeliver (setContent (recallContent (Seq msg))
              (setTimestamp ts (setMsgId id msg))))
        end
  end.

(** ** Offline messages and history *)

Fixpoint deliverOffline sender (msgs : list Message) : M unit :=
  match msgs with
  | [] => ret tt
  | m :: rest =>
      let! err := sendTo sender m in
      match err with
      | Some _ => forEach msgs (storeOffline (h_uid sender))
      | None => deliverOffline sender rest
      end
  end.

Definition handleOffline sender : M unit :=
  let! msgs := onOffline (DrainOffline (h_uid sender)) in
  match msgs with
  | [] => reply sender CmdOffline "" "" "" 0
  | _ => deliverOffline sender msgs
  end.

(** Sends until the first failure; how many were sent. *)
Fixpoint sendUntilError sender (msgs : list Message) : M Z :=
  match msgs with
  | [] => ret 0
  | m :: rest =>
      let! err := sendTo sender m in
      match err with
      | Some _ => ret 0
      | None => let! n := sendUntilError sender rest in ret (1 + n)
      end
  end.

Definition historyQuery sender msg (before limit : Z) : M (string + list Message) :=
  let! r := getX in
  if ChatType msg =? ChatTypeGroup then
    match msgStore r with
    | Some ms => onMsgs ms (Stores.QueryGroupHistory (To msg) before limit)
    | None => ret (inr [])
    end
  else
    match logicClient r with
    | Some _ => onLogic (ClientQueryHistory (h_uid sender) (To msg) before limit)
    | None =>
        match msgStore r with
        | Some ms => onMsgs ms
                       (Stores.QueryHistory (h_uid sender) (To msg) before limit)
        | None => ret (inr [])
        end
    end.

Definition clampLimit (limit dflt max : Z) : Z :=
  let limit := if limit <=? 0 then dflt else limit in
  if max <? limit then max else limit.

Definition handleHistory sender msg : M unit :=
  match Validate msg with
  | Some _ => ret tt
  | None =>
      let! r := getX in
      let limit := clampLimit (Seq msg) (historyLimit r) 100 in
      let! before := (if Timestamp msg <=? 0 then NowMilli else ret (Timestamp msg)) in
      let! res := historyQuery sender msg before limit in
      match res with
      | inl _ => reply sender CmdHistory "" "" "" 0
      | inr msgs =>
          let! delivered := sendUntilError sender msgs in
          reply sender CmdHistory "" "" "" delivered
      end
  end.

(** ** Read receipts and unread counts *)

Definition markReadLocal (reader peer : string) : M unit :=
  let! r := getX in
  match unreadTracker r with
  | Some ut => onUnread ut (MarkRead reader peer)
  | None => ret tt
  end.

Definition clearUnread (reader peer : string) : M unit :=
  let! r := getX in
  match logicClient r with
  | Some _ =>
      let! err := onLogic (MarkReadClient reader peer) in
      match err with Some _ => markReadLocal reader peer | None => ret tt end
  | None => markReadLocal reader peer
  end.

Definition forwardReceipt (peerUID : string) (receipt : Message) : M unit :=
  let! r := getX in
  match hashRing r with
  | None => ret tt
  | Some hr =>
      let ownerNode := HashRing.Get hr peerUID in
      if bool_decide (thisNodeID r <> "" /\ ownerNode <> "" /\ ownerNode <> thisNodeID r) then
        match forwarder r with
        | Some f => onForwarder f (Forward peerUID receipt) ;;! ret tt
        | None => ret tt
        end
      else ret tt
  end.

Definition handleReadReceipt sender msg : M unit :=
  let peerUID := To msg in
  if bool_decide (peerUID = "" \/ peerUID = h_uid sender) then ret tt
  else
    clearUnread (h_uid sender) peerUID ;;!
    stamped (fun id ts =>
    let receipt := newMessage CmdReadReceipt id (h_uid sender) peerUID "" (MsgId msg) ts in
    let! target := getClient peerUID in
    match target with
    | Some h => send_ h receipt
    | None => forwardReceipt peerUID receipt
    end).

Definition unreadContent (uid : string) (counts : gmap string Z) : string :=
  print (jmap [("uid", JString uid);
    ("counts", jmap (map (fun p => (p.1, JInt p.2)) (map_to_list counts)))]).

Definition handleUnreadCount sender msg : M unit :=
  let! r := getX in
  let! counts := match logicClient r with
    | Some _ =>
        let! res := onLogic (GetUnreadCountsClient (h_uid sender)) in
        ret (match res with inr (Some m) => m | _ => ∅ end)
    | None => ret ∅ end in
  let! r := getX in
  let! counts := match unreadTracker r with
    | Some ut => if (size counts =? 0)%nat
                 then onUnread ut (GetCounts (h_uid sender)) else ret counts
    | None => ret counts end in
  reply sender CmdUnreadCount "" (h_uid sender) (unreadContent (h_uid sender) counts) 0.

(** ** Search *)

Definition searchCompletion (delivered next : Z) : string :=
  print (jmap [("delivered", JInt delivered); ("next_cursor", JInt next)]).

Definition searchLocal (params : SearchParams) (result : option SearchResult)
  : M (string + option SearchResult) :=
  let! r := getX in
  match result, msgStore r with
  | None, Some ms => onMsgs ms (Stores.SearchMessages params)
  | _, _ => ret (inr result)
  end.

Definition searchQuery (params : SearchParams) : M (string + option SearchResult) :=
  let! r := getX in
  match logicClient r with
  | Some _ =>
      let! res := onLogic (ClientSearchMessages params) in
      match res with
      | inl err => ret (inl err)
      | inr result => searchLocal params result
      end
  | None => searchLocal params None
  end.

Definition handleSearch sender msg : M unit :=
  match (if bool_decide (Content msg = "") then Some zeroSearchParams
         else decodeSearchParams (Content msg)) with
  | None => reply sender CmdSearch "" "" (errorContent "invalid search params") 0
  | Some params =>
      let params := set_sp_UID (h_uid sender) params in
      let! r := getX in
      let params := set_sp_Limit (clampLimit (sp_Limit params) (searchLimit r) 50) params in
      let! res := searchQuery params in
      match res with
      | inl _ => reply sender CmdSearch "" "" (errorContent "search failed") 0
      | inr None => reply sender CmdSearch "" "" "" 0
      | inr (Some result) =>
          match sr_Messages result with
          | [] => reply sender CmdSearch "" "" "" 0
          | msgs =>
              let! delivered := sendUntilError sender msgs in
              reply sender CmdSearch "" "" (searchCompletion delivered (sr_NextCursor result))
                delivered
          end
      end
  end.
(** [Router.Search]: the local store, or nothing when there is none. *)
Definition RouterSearch (params : SearchParams) : M (string + option SearchResult) :=
  let! r := getX in
  match msgStore r with
  | None => ret (inr None)
  | Some ms => onMsgs ms (Stores.SearchMessages params)
  end.

(** ** Typing *)

Definition typingTo msg (uid : string) : M unit :=
  let! target := getClient uid in
  match target with Some h => send_ h msg | None => ret tt end.

Definition handleTyping sender msg : M unit :=
  if bool_decide (To msg = "" \/ To msg = h_uid sender) then ret tt
  else
    let msg := setFrom (h_uid sender) msg in
    let! r := getX in
    match (if ChatType msg =? ChatTypeGroup then groupStore r else None) with
    | None => typingTo msg (To msg)
    | Some gs =>
        let! res := groupMembers gs (To msg) in
        match res with
        | inl _ => ret tt
        | inr members =>
            forEach members (fun m =>
              if bool_decide (m = h_uid sender) then ret tt else typingTo msg m)
        end
    end.

(** ** Forward and edit *)

(** Delivery as in [handleForward] and [handleEdit]: the failed send is only
    logged and stored. *)
Definition plainSingle msg : M unit :=
  let! target := getClient (To msg) in
  match target with
  | Some h =>
      let! err := sendTo h msg in
      match err with Some _ => storeOffline (To msg) msg | None => ret tt end
  | None => routeOrStoreOffline (To msg) msg
  end.

Definition plainDeliver sender msg : M unit :=
  let! r := getX in
  match (if ChatType msg =? ChatTypeGroup then groupStore r else None) with
  | Some gs => fanoutGroup gs (h_uid sender) msg
  | None => plainSingle msg
  end.

Definition handleForward sender msg : M unit :=
  match Validate msg with
  | Some _ => ret tt
  | None =>
      if bool_decide (To msg = h_uid sender) then ret tt
      else if bool_decide (Content msg = "") then ret tt
      else
        let msg := setFrom (h_uid sender) msg in
        stamped (fun id ts =>
        let msg := setTimestamp ts (setMsgId id msg) in
        plainDeliver sender msg ;;!
        countUnread (h_uid sender) msg ;;!
        (if NeedAck msg then sendAck sender msg else ret tt) ;;!
        persistAsync msg)
  end.

Definition editContent (originalMsgID : Z) (text : string) : string :=
  print (jmap [("edited", JBool true); ("msg_id", JInt originalMsgID);
    ("new_text", JString text)]).

Definition handleEdit sender msg : M unit :=
  match Validate msg with
  | Some _ => ret tt
  | None =>
      if bool_decide (To msg = h_uid sender) then ret tt
      else if Seq msg =? 0 then
        reply sender CmdEdit "" (h_uid sender) (errorContent "missing original message ID") 0
      else if bool_decide (Content msg = "") then ret tt
      else
        let msg := setFrom (h_uid sender) msg in
        let originalMsgID := Seq msg in
        stamped (fun id ts =>
        let msg := setTimestamp ts (setMsgId id msg) in
        let msg := setContent (editContent originalMsgID (Content msg)) msg in
        plainDeliver sender msg ;;!
        let! r := getX in
        match msgStore r with
        | Some ms => onMsgs ms
                       (UpdateMessageContent originalMsgID (h_uid sender) (Content msg)) ;;! ret tt
        | None => ret tt
        end)
  end.

End Handlers.
