(* ===== verification/RouterGroup.v ===== *)
(** * Group management and friends (src/internal/gateway/router.go)

    Each group command tries the Logic service first and falls back to the
    local group store; responses are JSON documents; other members learn of
    joins and leaves by a group notification.  Friend requests and responses go
    through the friend store. *)

From S2P Require Import Prelude Proto Snowflake Process Client Hub HashRing Dedup RateLimiter.
From S2P Require Import Unread GroupStore Json Stores LogicClient Producer RouterState RouterDelivery.

(** The documents the handlers print. *)
Definition errorDoc (errMsg : string) : string := print (jmap [("error", JString errMsg)]).

Definition groupDoc (id name owner : string) (members : option (list string)) (created : Z)
  : string :=
  print (jmap [("id", JString id); ("name", JString name); ("owner_uid", JString owner);
    ("members", jstrings members); ("created_at", JInt created)]).

Definition joinDoc (gid uid : string) (members : option (list string)) : string :=
  print (jmap [("group_id", JString gid); ("uid", JString uid); ("members", jstrings members)]).

Definition inviteDoc (gid target inviter : string) (members : option (list string)) : string :=
  print (jmap [("group_id", JString gid); ("target_uid", JString target);
    ("inviter_uid", JString inviter); ("members", jstrings members)]).

Definition leaveDoc (gid uid : string) (deleted : bool) : string :=
  print (jmap [("group_id", JString gid); ("uid", JString uid); ("deleted", JBool deleted)]).

(** A [groupSummary] struct: fields in declaration order. *)
Definition summary (id name owner : string) (count created : Z) : json :=
  JObject [("id", JString id); ("name", JString name); ("owner_uid", JString owner);
    ("member_count", JInt count); ("created_at", JInt created)].

Definition listDoc (uid : string) (groups : list json) : string :=
  print (jmap [("uid", JString uid); ("groups", JArray groups)]).

Definition notificationDoc (notifType gid uid : string) : string :=
  print (jmap [("type", JString notifType); ("group_id", JString gid); ("uid", JString uid)]).

(** Requests. *)
Definition decodeCreate (content : string) : option (string * list string) :=
  fs ← UnmarshalObject content; n ← field_string "name" fs; m ← field_strings "members" fs;
  Some (n, m).
Definition decodeInvite (content : string) : option string :=
  fs ← UnmarshalObject content; field_string "target_uid" fs.
Definition decodeAction (content : string) : option string :=
  fs ← UnmarshalObject content; field_string "action" fs.

Section Handlers.
Context {E : Env} {C : Codec} {B : Backends E}.
Implicit Types (sender : Handle) (msg : Message).

(** What [json.Unmarshal] says of a document it rejects; the wording is not
    modelled. *)
Context (unmarshalError : string -> string).

Definition sendGroupError sender (cmd : Z) (errMsg : string) : M unit :=
  reply sender cmd "" "" (errorDoc errMsg) 0.

(** [members, _ := r.groupStore.GetMembers(...)]: nil on an error. *)
Definition groupMembersOrNil (gs : bk_G) (gid : string) : M (option (list string)) :=
  let! res := groupMembers gs gid in
  ret (match res with inl _ => None | inr l => Some l end).

(** The group store a later statement of the same handler reads. *)
Definition withGroupStore (k : bk_G -> M unit) : M unit :=
  let! r := getX in
  match groupStore r with Some gs => k gs | None => markPanic end.

Definition sendGroupNotificationWithMembers (fromUID gid notifType : string)
  (members : option (list string)) : M unit :=
  stamped (fun id ts =>
  let notif := mkMessage 0 id CmdChat fromUID gid ChatTypeGroup MsgTypeText
    (notificationDoc notifType gid fromUID) ts false in
  getClient fromUID ;;!
  match members with
  | Some l => fanoutGroupWithMembers fromUID notif l ;;! persistAsync notif
  | None => withGroupStore (fun gs => fanoutGroup gs fromUID notif ;;! persistAsync notif)
  end).

Definition sendGroupNotification (fromUID gid notifType : string) : M unit :=
  sendGroupNotificationWithMembers fromUID gid notifType None.

(** ** Create *)

(** The loop that joins the initial members through the Logic service. *)
Fixpoint joinInitial sender (gid : string) (l : list string) (joined : option (list string))
  : M (option (list string)) :=
  match l with
  | [] => ret joined
  | m :: l' =>
      if bool_decide (m <> "" /\ m <> h_uid sender) then
        let! err := onLogic (JoinGroupClient gid m) in
        joinInitial sender gid l'
          (match err with Some _ => joined | None => Some (slice_list joined ++ [m]) end)
      else joinInitial sender gid l' joined
  end.

Definition createViaLogic sender (members : list string) (gi : GroupInfo) : M unit :=
  let! joined := joinInitial sender (gi_Id gi) members (gi_Members gi) in
  reply sender CmdGroupCreate "" ""
    (groupDoc (gi_Id gi) (gi_Name gi) (gi_OwnerUid gi) joined (gi_CreatedAt gi)) 0 ;;!
  if bool_decide (filter (fun m => m <> "" /\ m <> h_uid sender) members <> [])
  then sendGroupNotificationWithMembers (h_uid sender) (gi_Id gi) "member_joined" joined
  else ret tt.

Definition createLocal sender (name : string) (members : list string) : M unit :=
  let! r := getX in
  match groupStore r with
  | None => sendGroupError sender CmdGroupCreate "group chat not enabled"
  | Some gs =>
      let! res := onGroups gs (GroupStore.Create name (h_uid sender) members) in
      match res with
      | inl err => sendGroupError sender CmdGroupCreate (GroupErr_text err)
      | inr g =>
          withGroupStore (fun gs =>
          let! ms := groupMembersOrNil gs (ID g) in
          reply sender CmdGroupCreate "" "" (groupDoc (ID g) (Name g) (OwnerUID g) ms (CreatedAt g)) 0 ;;!
          if bool_decide (members <> [])
          then sendGroupNotificationWithMembers (h_uid sender) (ID g) "member_joined" ms
          else ret tt)
      end
  end.

Definition handleGroupCreate sender msg : M unit :=
  match (if bool_decide (Content msg = "") then Some ("", []) else decodeCreate (Content msg)) with
  | None => sendGroupError sender CmdGroupCreate
              ("invalid request: " +:+ unmarshalError (Content msg))
  | Some (name, members) =>
      if bool_decide (name = "") then
        sendGroupError sender CmdGroupCreate "group name is required"
      else
        let! r := getX in
        match logicClient r with
        | Some _ =>
            let! res := onLogic (CreateGroupClient name (h_uid sender)) in
            match res with
            | inl err => sendGroupError sender CmdGroupCreate err
            | inr (Some gi) => createViaLogic sender members gi
            | inr None => createLocal sender name members
            end
        | None => createLocal sender name members
        end
  end.

(** ** Join and invite *)

(** [groupInfo, _ := GetGroupClient(...)]; [[]string{}] unless it is found. *)
Definition logicMembers (gid : string) : M (option (list string)) :=
  let! res := onLogic (GetGroupClient gid) in
  ret (match res with inr (Some gi) => gi_Members gi | _ => Some [] end).

Definition joinLocal sender (gid : string) : M unit :=
  let! r := getX in
  match groupStore r with
  | None => sendGroupError sender CmdGroupJoin "group chat not enabled"
  | Some gs =>
      let! err := onGroups gs (AddMember gid (h_uid sender)) in
      match err with
      | Some e => sendGroupError sender CmdGroupJoin (GroupErr_text e)
      | None =>
          withGroupStore (fun gs =>
          let! ms := groupMembersOrNil gs gid in
          reply sender CmdGroupJoin "" "" (joinDoc gid (h_uid sender) ms) 0 ;;!
          sendGroupNotification (h_uid sender) gid "member_joined")
      end
  end.

Definition handleGroupJoin sender msg : M unit :=
  let gid := To msg in
  if bool_decide (gid = "") then
    sendGroupError sender CmdGroupJoin "group_id is required (set 'to' field)"
  else
    let! r := getX in
    match logicClient r with
    | Some _ =>
        let! err := onLogic (JoinGroupClient gid (h_uid sender)) in
        match err with
        | Some e => sendGroupError sender CmdGroupJoin e
        | None =>
            let! members := logicMembers gid in
            reply sender CmdGroupJoin "" "" (joinDoc gid (h_uid sender) members) 0 ;;!
            sendGroupNotificationWithMembers (h_uid sender) gid "member_joined" members
        end
    | None => joinLocal sender gid
    end.

Definition inviteLogic sender (gid target : string) : M unit :=
  let! res := onLogic (GetGroupClient gid) in
  match res with
  | inl err => sendGroupError sender CmdGroupInviteMember err
  | inr None => sendGroupError sender CmdGroupInviteMember "group not found"
  | inr (Some gi) =>
      if bool_decide (gi_OwnerUid gi <> h_uid sender) then
        sendGroupError sender CmdGroupInviteMember "only the group owner can invite members"
      else
        let! err := onLogic (JoinGroupClient gid target) in
        match err with
        | Some e => sendGroupError sender CmdGroupInviteMember e
        | None =>
            let! members := logicMembers gid in
            reply sender CmdGroupInviteMember "" ""
              (inviteDoc gid target (h_uid sender) members) 0 ;;!
            sendGroupNotificationWithMembers target gid "member_joined" members
        end
  end.

Definition inviteLocal sender (gid target : string) : M unit :=
  let! r := getX in
  match groupStore r with
  | None => sendGroupError sender CmdGroupInviteMember "group chat not enabled"
  | Some gs =>
      let! res := onGroups gs (GroupStore.Get gid) in
      match res with
      | inl err => sendGroupError sender CmdGroupInviteMember (GroupErr_text err)
      | inr g =>
          if bool_decide (OwnerUID g <> h_uid sender) then
            sendGroupError sender CmdGroupInviteMember "only the group owner can invite members"
          else
            withGroupStore (fun gs =>
            let! err := onGroups gs (AddMember gid target) in
            match err with
            | Some e => sendGroupError sender CmdGroupInviteMember (GroupErr_text e)
            | None =>
                withGroupStore (fun gs =>
                let! ms := groupMembersOrNil gs gid in
                reply sender CmdGroupInviteMember "" ""
                  (inviteDoc gid target (h_uid sender) ms) 0 ;;!
                sendGroupNotification target gid "member_joined")
            end)
      end
  end.

(** The dash in the message to a self-invitation is U+2014. *)
Definition emDash : string :=
  String (chr 226) (String (chr 128) (String (chr 148) "")).

Definition handleGroupInviteMember sender msg : M unit :=
  let gid := To msg in
  if bool_decide (gid = "") then
    sendGroupError sender CmdGroupInviteMember "group_id is required (set 'to' field)"
  else
    let targetUID := default "" (decodeInvite (Content msg)) in
    if bool_decide (targetUID = "") then
      sendGroupError sender CmdGroupInviteMember "target_uid is required in content"
    else if bool_decide (targetUID = h_uid sender) then
      sendGroupError sender CmdGroupInviteMember
        ("cannot invite yourself " +:+ emDash +:+ " use CmdGroupJoin instead")
    else
      let! r := getX in
      match logicClient r with
      | Some _ => inviteLogic sender gid targetUID
      | None => inviteLocal sender gid targetUID
      end.

(** ** Leave *)

Definition leaveLocal sender (gid : string) : M unit :=
  let! r := getX in
  match groupStore r with
  | None => sendGroupError sender CmdGroupLeave "group chat not enabled"
  | Some gs =>
      let! err := onGroups gs (RemoveMember gid (h_uid sender)) in
      match err with
      | Some e => sendGroupError sender CmdGroupLeave (GroupErr_text e)
      | None =>
          withGroupStore (fun gs =>
          let! res := onGroups gs (GroupStore.Get gid) in
          let wasDeleted := match res with inl _ => true | inr _ => false end in
          reply sender CmdGroupLeave "" "" (leaveDoc gid (h_uid sender) wasDeleted) 0 ;;!
          if negb wasDeleted then sendGroupNotification (h_uid sender) gid "member_left"
          else ret tt)
      end
  end.

Definition handleGroupLeave sender msg : M unit :=
  let gid := To msg in
  if bool_decide (gid = "") then
    sendGroupError sender CmdGroupLeave "group_id is required (set 'to' field)"
  else
    let! r := getX in
    match logicClient r with
    | Some _ =>
        let! res := onLogic (LeaveGroupClient gid (h_uid sender)) in
        match res with
        | inl err => sendGroupError sender CmdGroupLeave err
        | inr deleted =>
            reply sender CmdGroupLeave "" "" (leaveDoc gid (h_uid sender) deleted) 0 ;;!
            if negb deleted then
              let! members := logicMembers gid in
              sendGroupNotificationWithMembers (h_uid sender) gid "member_left" members
            else ret tt
        end
    | None => leaveLocal sender gid
    end.

(** ** Info and list *)

Definition infoLocal sender (gid : string) : M unit :=
  let! r := getX in
  match groupStore r with
  | None => sendGroupError sender CmdGroupInfo "group chat not enabled"
  | Some gs =>
      let! res := onGroups gs (GroupStore.Get gid) in
      match res with
      | inl err => sendGroupError sender CmdGroupInfo (GroupErr_text err)
      | inr g =>
          withGroupStore (fun gs =>
          let! ms := groupMembersOrNil gs gid in
          reply sender CmdGroupInfo "" ""
            (groupDoc (ID g) (Name g) (OwnerUID g) ms (CreatedAt g)) 0)
      end
  end.

Definition handleGroupInfo sender msg : M unit :=
  let gid := To msg in
  if bool_decide (gid = "") then
    sendGroupError sender CmdGroupInfo "group_id is required (set 'to' field)"
  else
    let! r := getX in
    match logicClient r with
    | Some _ =>
        let! res := onLogic (GetGroupClient gid) in
        match res with
        | inl err => sendGroupError sender CmdGroupInfo err
        | inr None => sendGroupError sender CmdGroupInfo "group not found"
        | inr (Some gi) =>
            reply sender CmdGroupInfo "" ""
              (groupDoc (gi_Id gi) (gi_Name gi) (gi_OwnerUid gi) (gi_Members gi) (gi_CreatedAt gi)) 0
        end
    | None => infoLocal sender gid
    end.

Definition infoSummary (g : GroupInfo) : json :=
  summary (gi_Id g) (gi_Name g) (gi_OwnerUid g)
    (Z.of_nat (length (slice_list (gi_Members g)))) (gi_CreatedAt g).

Definition groupSummary (g : Group) : json :=
  summary (ID g) (Name g) (OwnerUID g) (Z.of_nat (size (Members g))) (CreatedAt g).

Definition handleGroupList sender msg : M unit :=
  let! r := getX in
  match logicClient r with
  | Some _ =>
      let! res := onLogic (ListGroupsClient (h_uid sender)) in
      match res with
      | inl err => sendGroupError sender CmdGroupList err
      | inr gis => reply sender CmdGroupList "" "" (listDoc (h_uid sender) (map infoSummary gis)) 0
      end
  | None =>
      match groupStore r with
      | None => sendGroupError sender CmdGroupList "group chat not enabled"
      | Some gs =>
          let! res := onGroups gs (GetUserGroups (h_uid sender)) in
          match res with
          | inl err => sendGroupError sender CmdGroupList (GroupErr_text err)
          | inr groups =>
              reply sender CmdGroupList "" "" (listDoc (h_uid sender) (map groupSummary groups)) 0
          end
      end
  end.

(** ** Friends *)

Definition friendRequestContent (uid : string) : string :=
  "{" +:+ q "from_uid" +:+ ":" +:+ q uid +:+ "," +:+ q "username" +:+ ":" +:+ q uid +:+ "}".

Definition friendResponseContent (action uid : string) : string :=
  "{" +:+ q "action" +:+ ":" +:+ q action +:+ "," +:+ q "from_uid" +:+ ":" +:+ q uid +:+ "}".

Definition handleFriendRequest sender msg : M unit :=
  let! r := getX in
  match friendStore r with
  | None => ret tt
  | Some fs =>
      if bool_decide (To msg = "" \/ To msg = h_uid sender) then ret tt
      else
        let! err := onFriends fs (SendRequest (h_uid sender) (To msg)) in
        match err with
        | Some e => reply sender CmdFriendRequest (To msg) (h_uid sender) (errorDoc e) 0
        | None =>
            stamped (fun id ts =>
              routeOrStoreOffline (To msg)
                (newMessage CmdFriendRequest id (h_uid sender) (To msg)
                  (friendRequestContent (h_uid sender)) 0 ts)) ;;!
            reply sender CmdFriendRequest (To msg) (h_uid sender)
              ("{" +:+ q "status" +:+ ":" +:+ q "sent" +:+ "}") 0
        end
  end.

(** The action of a response: [accept] unless the content names another. *)
Definition responseAction msg : string :=
  match (if bool_decide (Content msg = "") then None else decodeAction (Content msg)) with
  | Some a => if bool_decide (a = "") then "accept" else a
  | None => "accept"
  end.

Definition handleFriendResponse sender msg : M unit :=
  let! r := getX in
  match friendStore r with
  | None => ret tt
  | Some fs =>
      let action := responseAction msg in
      let targetUID := To msg in
      if bool_decide (targetUID = "" \/ targetUID = h_uid sender) then ret tt
      else
        let! err :=
          (if bool_decide (action = "accept")
           then onFriends fs (AcceptRequest (h_uid sender) targetUID)
           else if bool_decide (action = "reject")
           then onFriends fs (RejectRequest (h_uid sender) targetUID)
           else ret (Some ("unknown action: " +:+ action))) in
        match err with
        | Some _ => ret tt
        | None =>
            stamped (fun id ts =>
              routeOrStoreOffline targetUID
                (newMessage CmdFriendResponse id (h_uid sender) targetUID
                  (friendResponseContent action (h_uid sender)) 0 ts))
        end
  end.

End Handlers.
