(* ===== verification/Jwt.v ===== *)
(** * Login tokens (src/internal/pkg/jwt/jwt.go)

    [Manager] with [Generate] and [Validate], over an interface for the JWT
    library: signing and parsing. *)

From S2P Require Import Prelude Proto Snowflake Process.

Record Claims := mkClaims {
  c_UID : string;
  c_Username : string;
  c_Role : string;
  c_ExpiresAt : Z;
  c_IssuedAt : Z;
  c_Issuer : string
}.

Inductive TokenErr := ErrTokenExpired | ErrTokenSignature | ErrTokenInvalid (cause : string).

(** An error of the library: which of its sentinels it wraps, and its text. *)
Record LibErr := mkLibErr { le_expired : bool; le_signature : bool; le_text : string }.

(** [ParseWithClaims token keyFunc] at a given time.  The key function is asked
    with whether the token's method is an HMAC; it answers with a key, or an
    error that the library wraps.  On success, the claims and the [Valid] flag. *)
Class JwtLib := mkJwtLib {
  SignedString : Claims -> string -> string + string;
  ParseWithClaims : string -> (bool -> option string) -> Z -> LibErr + (Claims * bool);
  parse_signed : forall c secret tok keyFunc now,
    SignedString c secret = inr tok -> keyFunc true = Some secret ->
    if now <? c_ExpiresAt c
    then ParseWithClaims tok keyFunc now = inr (c, true)
    else exists t, ParseWithClaims tok keyFunc now = inl (mkLibErr true false t)
}.

Record Manager := mkManager { secret : string; expiration : Z }.

Definition NewManager (s : string) (e : Z) : Manager := mkManager s e.

(** [NewNumericDate] keeps whole seconds. *)
Definition NewNumericDate (t : Z) : Z := t / 1000000000 * 1000000000.

Section Jwt.
Context {E : Env} {J : JwtLib} {X : Type}.

Definition Generate (m : Manager) (uid username role : string) : St (X * Sys) (string + string) :=
  let! now := Now in
  let! now' := Now in
  ret (SignedString (mkClaims uid username role (NewNumericDate (now + expiration m))
    (NewNumericDate now') "im-server") (secret m)).

(** The key function of [Validate]. *)
Definition keyFunc (m : Manager) (hmac : bool) : option string :=
  if hmac then Some (secret m) else None.

Definition ValidateToken (m : Manager) (tok : string) : St (X * Sys) (TokenErr + Claims) :=
  let! now := Now in
  ret (match ParseWithClaims tok (keyFunc m) now with
       | inl err =>
           if le_expired err then inl ErrTokenExpired
           else if le_signature err then inl ErrTokenSignature
           else inl (ErrTokenInvalid (le_text err))
       | inr (c, valid) => if negb valid then inl (ErrTokenInvalid "") else inr c
       end).

End Jwt.

(** [tok] is good for the given user until [exp], whenever it is shown. *)
Definition token_for {E : Env} {J : JwtLib} (m : Manager) (tok uid username role : string) (exp : Z) : Prop :=
  forall (Y : Type) (y : Y) (s : Sys),
    match (ValidateToken m tok (y, s)).1 with
    | inr c => readings E (sys_tick s) < exp /\ c_UID c = uid /\ c_Username c = username /\ c_Role c = role
    | inl e => exp <= readings E (sys_tick s) /\ e = ErrTokenExpired
    end.

Lemma Generate_token_for {E : Env} {J : JwtLib} {X : Type} m uid username role (x : X) s tok p :
  Generate m uid username role (x, s) = (inr tok, p) ->
  token_for m tok uid username role (NewNumericDate (readings E (sys_tick s) + expiration m)).
Proof.
  intros Hg Y y s'. set (exp := NewNumericDate (readings E (sys_tick s) + expiration m)).
  set (c := mkClaims uid username role exp (NewNumericDate (readings E (S (sys_tick s)))) "im-server").
  assert (Hc : SignedString c (secret m) = inr tok).
  { unfold Generate, bind, ret, Now in Hg. simpl in Hg. by injection Hg. }
  pose proof (parse_signed c (secret m) tok (keyFunc m) (readings E (sys_tick s')) Hc eq_refl) as H.
  change (c_ExpiresAt c) with exp in H. unfold ValidateToken, bind, ret, Now. simpl.
  destruct (Z.ltb_spec (readings E (sys_tick s')) exp) as [Hlt|Hge].
  - rewrite H. by split_and!.
  - destruct H as [t ->]. by split.
Qed.

