(* ===== verification/Http.v ===== *)
(** * The HTTP API: requests, sessions, accounts (src/internal/gateway/server.go)

    [Server] as a state with the router, the user store and the object store; a
    handler is a function from a request to a response that changes that state.
    The server's message and group stores are the router's: cmd/gateway/main.go
    hands both the same objects.  Parsing of requests is net/http's and is given
    by the request record; [Recovery] and the origin check are here too. *)

From S2P Require Import Prelude GoStrings Proto Snowflake Process Client Hub HashRing Dedup RateLimiter.
From S2P Require Import Unread GroupStore Json Stores LogicClient Producer RouterState RouterDelivery.
From S2P Require Import RouterChat RouterGroup Sql Jwt.

(** ** net/http *)

(** The fields of a parsed form or query, in order; a key may repeat. *)
Abbreviation Values := (list (string * string)).

(** [url.Values.Get]: the first value, or nothing. *)
Definition valuesGet (v : Values) (key : string) : string :=
  default ""%string (snd <$> head (filter (fun p : string * string => p.1 = key) v)).

(** A request as the handlers see it.  [rq_formErr] is what [ParseForm] returns
    and [rq_form] what it put in [r.Form] (the body's values before the query's);
    the multipart fields are what [ParseMultipartForm], [FormFile] and reading
    the file return. *)
Record Request := mkRequest {
  rq_Method : string;
  rq_Origin : string;
  rq_formErr : option string;
  rq_form : Values;
  rq_query : Values;
  rq_multipartErr : option string;
  rq_file : string + (string * (string + string))
}.

Definition FormValue (r : Request) (key : string) : string := valuesGet (rq_form r) key.
Definition QueryGet (r : Request) (key : string) : string := valuesGet (rq_query r) key.

Inductive Body :=
| BError (text : string)
| BJson (doc : json)
| BData (contentType data : string).

Record Response := mkResponse { rs_status : Z; rs_body : Body }.

Definition StatusOK : Z := 200.
Definition StatusBadRequest : Z := 400.
Definition StatusUnauthorized : Z := 401.
Definition StatusForbidden : Z := 403.
Definition StatusNotFound : Z := 404.
Definition StatusMethodNotAllowed : Z := 405.
Definition StatusConflict : Z := 409.
Definition StatusRequestEntityTooLarge : Z := 413.
Definition StatusTooManyRequests : Z := 429.
Definition StatusInternalServerError : Z := 500.
Definition StatusServiceUnavailable : Z := 503.

(** [http.Error]. *)
Definition httpError (text : string) (status : Z) : Response := mkResponse status (BError text).
(** [json.Marshal] and [w.Write]. *)
Definition writeJson (doc : json) : Response := mkResponse StatusOK (BJson doc).

(** ** Passwords: golang.org/x/crypto/bcrypt *)

(** [GenerateFromPassword] draws a salt, given by the position in the sequence
    of observations. *)
Class Bcrypt := mkBcrypt {
  GenerateFromPassword : string -> nat -> string + string;
  CompareHashAndPassword : string -> string -> bool;
  compare_generated : forall p n h, GenerateFromPassword p n = inr h -> CompareHashAndPassword h p = true
}.

(** [ObjectStore] of object_store.go: data with a content type. *)
Class ObjectStore (O : Type) := mkObjectStore {
  Put : string -> string -> string -> St (O * Sys) (option string);
  GetObject : string -> St (O * Sys) (string + (string * string));
  DeleteObject : string -> St (O * Sys) (option string)
}.

Section Server.
Context {E : Env} {C : Codec} {B : Backends E} {J : JwtLib} {BC : Bcrypt}.
Context {US : Type} {USI : UserStore US} {OB : Type} {OBI : ObjectStore OB}.

(** [sv_checks] are the registered health checks; what one finds is an
    observation. *)
Record Server := mkServer {
  sv_router : Router;
  sv_userStore : option US;
  sv_objectStore : option OB;
  sv_jwtMgr : Manager;
  sv_DevMode : bool;
  sv_adminUIDs : gset string;
  sv_maxUpload : Z;
  sv_allowedOrigins : list string;
  sv_checks : gmap string (nat -> option string)
}.

Definition set_sv_router (r : Router) (s : Server) : Server :=
  mkServer r (sv_userStore s) (sv_objectStore s) (sv_jwtMgr s) (sv_DevMode s) (sv_adminUIDs s)
    (sv_maxUpload s) (sv_allowedOrigins s) (sv_checks s).
Definition set_sv_userStore (u : option US) (s : Server) : Server :=
  mkServer (sv_router s) u (sv_objectStore s) (sv_jwtMgr s) (sv_DevMode s) (sv_adminUIDs s)
    (sv_maxUpload s) (sv_allowedOrigins s) (sv_checks s).
Definition set_sv_objectStore (o : option OB) (s : Server) : Server :=
  mkServer (sv_router s) (sv_userStore s) o (sv_jwtMgr s) (sv_DevMode s) (sv_adminUIDs s)
    (sv_maxUpload s) (sv_allowedOrigins s) (sv_checks s).

Definition NewServer (router : Router) (jwtMgr : Manager) (userStore : option US) (devMode : bool)
  (allowedOrigins : list string) (objectStore : option OB) (maxUpload : Z) (adminUIDs : list string)
  : Server :=
  mkServer router userStore objectStore jwtMgr devMode (list_to_set adminUIDs) maxUpload allowedOrigins ∅.

Definition RegisterHealthCheck (name : string) (check : nat -> option string) (s : Server) : Server :=
  mkServer (sv_router s) (sv_userStore s) (sv_objectStore s) (sv_jwtMgr s) (sv_DevMode s) (sv_adminUIDs s)
    (sv_maxUpload s) (sv_allowedOrigins s) (<[name := check]> (sv_checks s)).

(** [buildOriginChecker]. *)
Definition checkOrigin (allowed : list string) (origin : string) : bool :=
  bool_decide (allowed = []) || bool_decide (origin = "") || bool_decide (origin ∈ allowed).

(** ** Handlers *)

Abbreviation H := (St (Server * Sys)).

Definition onSvRouter {A} (m : M A) : H A :=
  fun '(s, y) => let '(a, (r, y')) := m (sv_router s, y) in (a, (set_sv_router r s, y')).

(** A call on a store that a nil check has just found. *)
Definition onUsers {A} (u : US) (m : St (US * Sys) A) : H A :=
  fun '(s, y) => let '(a, (u', y')) := m (u, y) in (a, (set_sv_userStore (Some u') s, y')).
Definition onObjects {A} (o : OB) (m : St (OB * Sys) A) : H A :=
  fun '(s, y) => let '(a, (o', y')) := m (o, y) in (a, (set_sv_objectStore (Some o') s, y')).

(** Steps of a handler that may already give the response: [stop] is the early
    return. *)
Definition step {A} (m : H (Response + A)) (k : A -> H Response) : H Response :=
  let! r := m in match r with inl resp => ret resp | inr a => k a end.

Definition stopIf (b : bool) (text : string) (status : Z) (k : H Response) : H Response :=
  if b then ret (httpError text status) else k.

Definition requirePost (r : Request) (k : H Response) : H Response :=
  stopIf (negb (bool_decide (rq_Method r = "POST"))) "method not allowed" StatusMethodNotAllowed k.

(** The statement after [s.x == nil].  A later call on the same store in the
    handler finds the object as the earlier ones left it. *)
Definition withStore {X} (get : Server -> option X) (text : string) (k : X -> H Response) : H Response :=
  let! s := getX in
  match get s with
  | None => ret (httpError text StatusServiceUnavailable)
  | Some x => k x
  end.

(** [Recovery]: a handler that panics gives an internal error; the panic is
    [None]. *)
Definition Recovery (m : H (option Response)) : H Response :=
  let! r := m in
  ret (match r with
       | Some resp => resp
       | None => httpError "Internal Server Error" StatusInternalServerError
       end).

(** ** Authentication *)

Definition TokenErr_text (e : TokenErr) : string :=
  match e with
  | ErrTokenExpired => "token expired"
  | ErrTokenSignature => "token signature mismatch"
  | ErrTokenInvalid cause => if bool_decide (cause = "") then "token invalid" else "token invalid: " +:+ cause
  end.

(** What follows the extraction of uid and token in [authenticateRequest],
    [HandleUpload], [HandleSearch] and [HandleDownload]. *)
Definition checkToken (uid token : string) (missing : Z) : H (Response + Claims) :=
  if bool_decide (uid = "" \/ token = "") then ret (inl (httpError "uid and token required" missing))
  else
    let! s := getX in
    let! c := ValidateToken (sv_jwtMgr s) token in
    ret (match c with
         | inl e => inl (httpError ("invalid token: " +:+ TokenErr_text e) StatusUnauthorized)
         | inr claims =>
             if bool_decide (c_UID claims <> uid)
             then inl (httpError "uid does not match token" StatusForbidden) else inr claims
         end).

Definition authenticateRequest (r : Request) : H (Response + Claims) :=
  if bool_decide (rq_Method r = "POST") then
    match rq_formErr r with
    | Some _ => ret (inl (httpError "invalid form data" StatusBadRequest))
    | None => checkToken (FormValue r "uid") (FormValue r "token") StatusUnauthorized
    end
  else checkToken (QueryGet r "uid") (QueryGet r "token") StatusUnauthorized.

Definition adminAuth (r : Request) : H (Response + Claims) :=
  let! c := authenticateRequest r in
  ret (match c with
       | inl resp => inl resp
       | inr claims =>
           if bool_decide (c_Role claims <> "admin")
           then inl (httpError "admin access required" StatusForbidden) else inr claims
       end).

(** ** Accounts *)

Definition tokenDoc (uid username token : string) : json :=
  jmap [("uid", JString uid); ("username", JString username); ("token", JString token)].

(** The password check of [HandleLogin]: the name and role of the user. *)
Definition passwordLogin (uid password : string) : H (Response + (string * string)) :=
  let! s := getX in
  match sv_userStore s with
  | None => ret (inl (httpError "user store not available" StatusServiceUnavailable))
  | Some us =>
      let! u := onUsers us (GetByUID uid) in
      ret (match u with
           | inl _ => inl (httpError "internal error" StatusInternalServerError)
           | inr None => inl (httpError "user not found" StatusUnauthorized)
           | inr (Some u) =>
               if CompareHashAndPassword (u_PasswordHash u) password
               then inr (u_Username u, u_Role u)
               else inl (httpError "invalid password" StatusUnauthorized)
           end)
  end.

(** The token both login and registration answer with. *)
Definition issueToken (uid username role : string) : H Response :=
  let! s := getX in
  let! t := Jwt.Generate (sv_jwtMgr s) uid username role in
  ret (match t with
       | inl e => httpError ("generate token: " +:+ e) StatusInternalServerError
       | inr token => writeJson (tokenDoc uid username token)
       end).

Definition HandleLogin (r : Request) : H Response :=
  requirePost r
  match rq_formErr r with
  | Some e => ret (httpError ("invalid form data: " +:+ e) StatusBadRequest)
  | None =>
      let username := FormValue r "username" in
      let password := FormValue r "password" in
      let uid := if bool_decide (FormValue r "uid" = "") then username else FormValue r "uid" in
      stopIf (bool_decide (uid = "")) "uid required" StatusBadRequest
      (let! s := getX in
       step (if bool_decide (password <> "") then passwordLogin uid password
             else if negb (sv_DevMode s)
             then ret (inl (httpError "password required" StatusUnauthorized))
             else ret (inr (username, "user")))
       (fun '(username, role) =>
        let role := if sv_DevMode s && bool_decide (FormValue r "role" = "admin") then "admin" else role in
        let role := if bool_decide (uid ∈ sv_adminUIDs s) then "admin" else role in
        let username := if bool_decide (username = "") then uid else username in
        issueToken uid username role))
  end.

(** [bcrypt.GenerateFromPassword]. *)
Definition hashPassword (password : string) : H (string + string) :=
  fun '(s, y) => (GenerateFromPassword password (sys_tick y), (s, mkSys (S (sys_tick y)) (sys_snow y))).

Definition HandleRegister (r : Request) : H Response :=
  requirePost r
  match rq_formErr r with
  | Some e => ret (httpError ("invalid form data: " +:+ e) StatusBadRequest)
  | None =>
      let uid := FormValue r "uid" in
      let password := FormValue r "password" in
      stopIf (bool_decide (uid = "" \/ password = "")) "uid and password required" StatusBadRequest
      (let username := if bool_decide (FormValue r "username" = "") then uid else FormValue r "username" in
       withStore sv_userStore "user store not available" (fun us =>
       let! hash := hashPassword password in
       match hash with
       | inl _ => ret (httpError "internal error" StatusInternalServerError)
       | inr hash =>
           let! now := NowMilli in
           let! err := onUsers us (CreateUser (mkUser uid username hash "" false now)) in
           match err with
           | Some e =>
               ret (if Contains e "Duplicate entry" || Contains e "Error 1062"
                    then httpError "uid already exists" StatusConflict
                    else httpError "registration failed" StatusInternalServerError)
           | None =>
               let! s := getX in
               issueToken uid username (if bool_decide (uid ∈ sv_adminUIDs s) then "admin" else "user")
           end
       end))
  end.

Definition statusOkDoc : json := jmap [("status", JString "ok")].

Definition HandleChangePassword (r : Request) : H Response :=
  requirePost r
  (step (authenticateRequest r) (fun claims =>
   let oldPassword := FormValue r "old_password" in
   let newPassword := FormValue r "new_password" in
   stopIf (bool_decide (oldPassword = "" \/ newPassword = "")) "old_password and new_password required"
     StatusBadRequest
   (stopIf (Z.of_nat (String.length newPassword) <? 6) "new password must be at least 6 characters"
     StatusBadRequest
   (withStore sv_userStore "user store not available" (fun us =>
    let! u := onUsers us (GetByUID (c_UID claims)) in
    match u with
    | inl _ => ret (httpError "internal error" StatusInternalServerError)
    | inr None => ret (httpError "user not found" StatusNotFound)
    | inr (Some u) =>
        stopIf (negb (CompareHashAndPassword (u_PasswordHash u) oldPassword)) "invalid current password"
          StatusUnauthorized
        (let! newHash := hashPassword newPassword in
         match newHash with
         | inl _ => ret (httpError "internal error" StatusInternalServerError)
         | inr newHash =>
             withStore sv_userStore "" (fun us =>
             let! err := onUsers us (UpdatePassword (c_UID claims) newHash) in
             ret (match err with
                  | Some _ => httpError "failed to update password" StatusInternalServerError
                  | None => writeJson statusOkDoc
                  end))
         end)
    end))))).

Definition HandleOnlineUsers (r : Request) : H Response :=
  let! users := onSvRouter (onClients OnlineUsers) in
  ret (writeJson (jmap [("count", JInt (Z.of_nat (length users))); ("users", JArray (map JString users))])).

End Server.
Arguments Server {E B} US OB.
