(* ===== verification/HttpGroups.v ===== *)
(** * The HTTP API: groups, unread counts, friends (src/internal/gateway/server.go)

    The handlers of /group/*, /unread and /friend/* over the router's stores. *)

From S2P Require Import Prelude GoStrings Proto Snowflake Process Client Hub HashRing Dedup RateLimiter.
From S2P Require Import Unread GroupStore Json Stores LogicClient Producer RouterState RouterDelivery.
From S2P Require Import RouterChat RouterGroup Jwt Http.

Section Handlers.
Context {E : Env} {C : Codec} {B : Backends E} {J : JwtLib} {BC : Bcrypt}.
Context {US : Type} {USI : UserStore US} {OB : Type} {OBI : ObjectStore OB}.

Abbreviation H := (St (Server US OB * Sys)).

Definition svGroups (s : Server US OB) : option bk_G := groupStore (sv_router s).
Definition svFriends (s : Server US OB) : option bk_FS := friendStore (sv_router s).

(** The prelude of the group handlers that change something. *)
Definition groupRequest (r : Request) (k : bk_G -> Claims -> H Response) : H Response :=
  requirePost r
  (withStore svGroups "group store not available" (fun gs =>
   step (authenticateRequest r) (k gs))).

Definition okDoc (more : list (string * json)) : Response := writeJson (jmap (("ok", JString "true") :: more)).

(** Notify the group and answer. *)
Definition notified (fromUID gid notifType : string) (more : list (string * json)) : H Response :=
  onSvRouter (sendGroupNotification fromUID gid notifType) ;;! ret (okDoc more).

(** What the handlers answer to an error of the store: a status per sentinel. *)
Definition groupFailure (table : list (GroupErr * (string * Z))) (e : GroupErr) : Response :=
  match head (filter (fun p : GroupErr * (string * Z) => p.1 = e) table) with
  | Some (_, (text, status)) => httpError text status
  | None => httpError "internal error" StatusInternalServerError
  end.

(** The initial members: split at commas, trimmed, empty ones left out. *)
Definition parseMembers (s : string) : list string :=
  if bool_decide (s = "") then []
  else filter (fun uid => uid <> ""%string) (map TrimSpace (Split "," s)).

Definition HandleGroupCreate (r : Request) : H Response :=
  groupRequest r (fun gs claims =>
  let name := FormValue r "name" in
  stopIf (bool_decide (name = "")) "name required" StatusBadRequest
  (let members := parseMembers (FormValue r "members") in
   let! g := onSvRouter (onGroups gs (GroupStore.Create name (c_UID claims) members)) in
   match g with
   | inl _ => ret (httpError "internal error" StatusInternalServerError)
   | inr g =>
       let! memberList := onSvRouter (RangeKeys (elements (Members g))) in
       (if bool_decide (members <> [])
        then onSvRouter (sendGroupNotificationWithMembers (c_UID claims) (ID g) "member_joined"
               (Some memberList))
        else ret tt) ;;!
       ret (writeJson (jmap [("group_id", JString (ID g)); ("name", JString (Name g));
         ("owner_uid", JString (OwnerUID g)); ("members", JArray (map JString memberList));
         ("created_at", JInt (CreatedAt g))]))
   end)).

Definition HandleGroupJoin (r : Request) : H Response :=
  groupRequest r (fun gs claims =>
  let groupID := FormValue r "group_id" in
  stopIf (bool_decide (groupID = "")) "group_id required" StatusBadRequest
  (let! err := onSvRouter (onGroups gs (AddMember groupID (c_UID claims))) in
   match err with
   | Some e => ret (groupFailure
       [(ErrGroupNotFound, ("group not found", StatusNotFound));
        (ErrAlreadyMember, ("already a member", StatusConflict))] e)
   | None => notified (c_UID claims) groupID "member_joined" []
   end)).

(** The requester must own the group. *)
Definition ownerOnly (gs : bk_G) (groupID uid text : string) (k : H Response) : H Response :=
  let! g := onSvRouter (onGroups gs (GroupStore.Get groupID)) in
  match g with
  | inl _ => ret (httpError "group not found" StatusNotFound)
  | inr g => stopIf (bool_decide (OwnerUID g <> uid)) text StatusForbidden k
  end.

Definition HandleGroupInvite (r : Request) : H Response :=
  groupRequest r (fun gs claims =>
  let groupID := FormValue r "group_id" in
  stopIf (bool_decide (groupID = "")) "group_id required" StatusBadRequest
  (let targetUID := FormValue r "target_uid" in
   stopIf (bool_decide (targetUID = "")) "target_uid required" StatusBadRequest
  (stopIf (bool_decide (targetUID = c_UID claims)) "cannot invite yourself" StatusBadRequest
  (ownerOnly gs groupID (c_UID claims) "only the group owner can invite members"
  (let! err := onSvRouter (onGroups gs (AddMember groupID targetUID)) in
   match err with
   | Some e => ret (groupFailure
       [(ErrGroupNotFound, ("group not found", StatusNotFound));
        (ErrAlreadyMember, ("user is already a member", StatusConflict))] e)
   | None => notified targetUID groupID "member_joined" []
   end))))).

Definition HandleGroupLeave (r : Request) : H Response :=
  groupRequest r (fun gs claims =>
  let groupID := FormValue r "group_id" in
  stopIf (bool_decide (groupID = "")) "group_id required" StatusBadRequest
  (let! err := onSvRouter (onGroups gs (RemoveMember groupID (c_UID claims))) in
   match err with
   | Some e => ret (groupFailure
       [(ErrGroupNotFound, ("group not found", StatusNotFound));
        (ErrNotMember, ("not a member", StatusConflict))] e)
   | None => notified (c_UID claims) groupID "member_left" []
   end)).

Definition HandleGroupKick (r : Request) : H Response :=
  groupRequest r (fun gs claims =>
  let groupID := FormValue r "group_id" in
  let targetUID := FormValue r "target_uid" in
  stopIf (bool_decide (groupID = "" \/ targetUID = "")) "group_id and target_uid required" StatusBadRequest
  (ownerOnly gs groupID (c_UID claims) "only the group owner can kick members"
  (let! err := onSvRouter (onGroups gs (RemoveMember groupID targetUID)) in
   match err with
   | Some e => ret (groupFailure
       [(ErrGroupNotFound, ("group not found", StatusNotFound));
        (ErrNotMember, ("target user is not a member", StatusConflict))] e)
   | None => notified (c_UID claims) groupID "member_kicked" []
   end))).

Definition HandleGroupRename (r : Request) : H Response :=
  groupRequest r (fun gs claims =>
  let groupID := FormValue r "group_id" in
  let newName := FormValue r "name" in
  stopIf (bool_decide (groupID = "" \/ newName = "")) "group_id and name required" StatusBadRequest
  (ownerOnly gs groupID (c_UID claims) "only the group owner can rename the group"
  (let! err := onSvRouter (onGroups gs (UpdateName groupID newName)) in
   match err with
   | Some _ => ret (httpError "internal error" StatusInternalServerError)
   | None => notified (c_UID claims) groupID "group_renamed" [("name", JString newName)]
   end))).

Definition HandleGroupTransfer (r : Request) : H Response :=
  groupRequest r (fun gs claims =>
  let groupID := FormValue r "group_id" in
  let toUID := FormValue r "to_uid" in
  stopIf (bool_decide (groupID = "" \/ toUID = "")) "group_id and to_uid required" StatusBadRequest
  (stopIf (bool_decide (c_UID claims = toUID)) "cannot transfer ownership to yourself" StatusBadRequest
  (let! err := onSvRouter (onGroups gs (TransferOwnership groupID (c_UID claims) toUID)) in
   match err with
   | Some e => ret (groupFailure
       [(ErrGroupNotFound, ("group not found", StatusNotFound));
        (ErrNotOwner, ("only the group owner can transfer ownership", StatusForbidden));
        (ErrNotMember, ("target user is not a member of this group", StatusConflict))] e)
   | None => notified (c_UID claims) groupID "owner_transferred" [("owner_uid", JString toUID)]
   end))).

Definition HandleGroupMembers (r : Request) : H Response :=
  withStore svGroups "group store not available" (fun gs =>
  step (authenticateRequest r) (fun _ =>
  let groupID := QueryGet r "group_id" in
  stopIf (bool_decide (groupID = "")) "group_id required" StatusBadRequest
  (let! members := onSvRouter (onGroups gs (GroupStore.GetMembers groupID)) in
   ret (match members with
        | inl e => groupFailure [(ErrGroupNotFound, ("group not found", StatusNotFound))] e
        | inr members => writeJson (jmap [("group_id", JString groupID);
                           ("members", JArray (map JString members))])
        end)))).

Definition groupInfoDoc (g : Group) : json :=
  JObject [("id", JString (ID g)); ("name", JString (Name g)); ("owner_uid", JString (OwnerUID g));
    ("member_count", JInt (Z.of_nat (size (Members g)))); ("created_at", JInt (CreatedAt g))].

Definition HandleGroupList (r : Request) : H Response :=
  withStore svGroups "group store not available" (fun gs =>
  step (authenticateRequest r) (fun claims =>
  let! groups := onSvRouter (onGroups gs (GetUserGroups (c_UID claims))) in
  ret (match groups with
       | inl _ => httpError "internal error" StatusInternalServerError
       | inr groups => writeJson (jmap [("groups", JArray (map groupInfoDoc groups))])
       end))).

Definition countsDoc (counts : gmap string Z) : json :=
  jmap (map (fun p : string * Z => (p.1, JInt p.2)) (map_to_list counts)).

Definition HandleUnreadCount (r : Request) : H Response :=
  step (authenticateRequest r) (fun claims =>
  let! s := getX in
  let! counts := match unreadTracker (sv_router s) with
                 | Some ut => onSvRouter (onUnread ut (Unread.GetCounts (c_UID claims)))
                 | None => ret ∅
                 end in
  ret (writeJson (jmap [("uid", JString (c_UID claims)); ("counts", countsDoc counts)]))).

(** ** Friends *)

(** A friend command: the other user from the form, then one call on the store,
    whose error is answered with its text and [status]. *)
Definition friendCommand (r : Request) (field : string) (self : bool) (status : Z)
  (call : bk_FS -> string -> string -> M (option string)) : H Response :=
  requirePost r
  (step (authenticateRequest r) (fun claims =>
   let other := FormValue r field in
   stopIf (bool_decide (other = "")) (field +:+ " required") StatusBadRequest
   (stopIf (self && bool_decide (c_UID claims = other)) "cannot friend yourself" StatusBadRequest
   (withStore svFriends "friend system not available" (fun fs =>
    let! err := onSvRouter (call fs (c_UID claims) other) in
    ret (match err with
         | Some e => httpError e status
         | None => writeJson statusOkDoc
         end)))))).

Definition HandleFriendRequest (r : Request) : H Response :=
  friendCommand r "to_uid" true StatusConflict (fun fs uid other => onFriends fs (SendRequest uid other)).
Definition HandleFriendAccept (r : Request) : H Response :=
  friendCommand r "from_uid" false StatusNotFound (fun fs uid other => onFriends fs (AcceptRequest uid other)).
Definition HandleFriendReject (r : Request) : H Response :=
  friendCommand r "from_uid" false StatusNotFound (fun fs uid other => onFriends fs (RejectRequest uid other)).
Definition HandleFriendRemove (r : Request) : H Response :=
  friendCommand r "friend_uid" false StatusNotFound (fun fs uid other => onFriends fs (RemoveFriend uid other)).

Definition friendDoc (f : Friend) : json :=
  JObject [("uid", JString (f_UID f)); ("friend_uid", JString (f_FriendUID f));
    ("status", JInt (f_Status f)); ("created_at", JInt (f_CreatedAt f))].
Definition friendRequestDoc (f : FriendRequest) : json :=
  JObject [("from_uid", JString (fq_FromUID f)); ("username", JString (fq_Username f));
    ("created_at", JInt (fq_CreatedAt f))].

Definition HandleFriendList (r : Request) : H Response :=
  step (authenticateRequest r) (fun claims =>
  withStore svFriends "friend system not available" (fun fs =>
  let! friends := onSvRouter (onFriends fs (GetFriends (c_UID claims))) in
  match friends with
  | inl _ => ret (httpError "internal error" StatusInternalServerError)
  | inr friends =>
      let! requests := onSvRouter (onFriends fs (GetPendingRequests (c_UID claims))) in
      ret (match requests with
           | inl _ => httpError "internal error" StatusInternalServerError
           | inr requests => writeJson (jmap [("uid", JString (c_UID claims));
               ("friends", JArray (map friendDoc friends));
               ("pending_requests", JArray (map friendRequestDoc requests))])
           end)
  end)).

End Handlers.
