(* ===== verification/Thumbnail.v ===== *)
(** * Thumbnails and the in-memory object store (src/internal/gateway/thumbnail.go
    and src/internal/gateway/object_store.go)

    The size of a thumbnail in binary64 arithmetic, the pipeline around the image
    library, and [InMemoryObjectStore]. *)

From Stdlib Require Import Floats.SpecFloat.
From S2P Require Import Prelude GoStrings Proto Snowflake Process Client Hub HashRing Dedup RateLimiter.
From S2P Require Import Unread GroupStore Json Stores LogicClient Producer RouterState Jwt Http.

(** ** float64 *)

Definition float64 : Type := spec_float.

(** [float64(n)] of an integer, rounded to nearest, ties to even. *)
Definition float64_of (n : Z) : float64 := binary_normalize 53 1024 n 0 false.
Definition fdiv : float64 -> float64 -> float64 := SFdiv 53 1024.
Definition fmul : float64 -> float64 -> float64 := SFmul 53 1024.

(** [int(x)]: truncated toward zero; the code converts finite values only. *)
Definition int_of (x : float64) : Z :=
  match x with
  | S754_finite s m e =>
      let v := if 0 <=? e then Zpos m * 2 ^ e else Zpos m / 2 ^ (- e) in
      if s then - v else v
  | _ => 0
  end.

(** ** Thumbnails *)

Definition ThumbnailMaxDim : Z := 200.

(** The dimensions [Thumbnail] draws for a source of the given ones. *)
Definition thumbSize (srcW srcH : Z) : Z * Z :=
  if (ThumbnailMaxDim <? srcW) || (ThumbnailMaxDim <? srcH) then
    let scale := fdiv (float64_of ThumbnailMaxDim) (float64_of (Z.max srcW srcH)) in
    let dstW := int_of (fmul (float64_of srcW) scale) in
    let dstH := int_of (fmul (float64_of srcH) scale) in
    (if dstW <? 1 then 1 else dstW, if dstH <? 1 then 1 else dstH)
  else (srcW, srcH).

(** The image library: decoding (the dimensions of the bounds, and the pixels),
    reading the header, scaling and encoding as JPEG. *)
Class Images := mkImages {
  Image : Type;
  DecodeImage : string -> string + (Z * Z * Image);
  DecodeConfig : string -> string + (Z * Z);
  ScaleAndEncode : Image -> Z -> Z -> string + string
}.

(** [strings.HasPrefix]. *)
Definition HasPrefix (s p : string) : bool :=
  match cutPrefix p s with Some _ => true | None => false end.

Section Thumbnails.
Context {IM : Images}.

Definition Thumbnail (data : string) : string + string :=
  match DecodeImage data with
  | inl e => inl ("decode: " +:+ e)
  | inr (srcW, srcH, src) =>
      if (srcW <=? 0) || (srcH <=? 0)
      then inl ("invalid image dimensions: " +:+ itoa srcW +:+ "x" +:+ itoa srcH)
      else
        let '(dstW, dstH) := thumbSize srcW srcH in
        match ScaleAndEncode src dstW dstH with
        | inl e => inl ("encode jpeg: " +:+ e)
        | inr out => inr out
        end
  end.

Definition ImageDimensions (data : string) : Z * Z :=
  match DecodeConfig data with inl _ => (0, 0) | inr d => d end.

Definition IsImageMIME (mime : string) : bool :=
  HasPrefix mime "image/" && negb (bool_decide (mime = "image/svg+xml")).

End Thumbnails.

(** ** The in-memory object store *)

Record InMemoryObjectStore := mkInMemoryObjectStore { items : gmap string (string * string) }.

Definition NewInMemoryObjectStore : InMemoryObjectStore := mkInMemoryObjectStore ∅.

(** Data is copied in and out. *)
Definition MemPut (key data contentType : string) : St (InMemoryObjectStore * Sys) (option string) :=
  fun '(s, y) => (None, (mkInMemoryObjectStore (<[key := (data, contentType)]> (items s)), y)).

(** [%q] quotes as JSON does, up to the escapes of unusual characters. *)
Definition MemGetObject (key : string) : St (InMemoryObjectStore * Sys) (string + (string * string)) :=
  gets (fun '(s, _) => match items s !! key with
                       | Some o => inr o
                       | None => inl ("key " +:+ print (JString key) +:+ " not found")
                       end).

Definition MemDeleteObject (key : string) : St (InMemoryObjectStore * Sys) (option string) :=
  fun '(s, y) => (None, (mkInMemoryObjectStore (delete key (items s)), y)).

#[export] Instance InMemory_ObjectStore : ObjectStore InMemoryObjectStore :=
  mkObjectStore InMemoryObjectStore MemPut MemGetObject MemDeleteObject.

(** ** Sizes *)

Example thumb_wide : thumbSize 400 300 = (200, 150).
Proof. reflexivity. Qed.
Example thumb_thin : thumbSize 4096 1 = (200, 1).
Proof. reflexivity. Qed.

(** Truncation can lose a pixel on the longer side. *)
Example thumb_truncated : thumbSize 289 289 = (199, 199).
Proof. reflexivity. Qed.

(** A thumbnail has at least a pixel each way, and an image within the limits
    keeps its size. *)
Lemma thumbSize_positive w h :
  0 < w -> 0 < h -> 1 <= (thumbSize w h).1 /\ 1 <= (thumbSize w h).2.
Proof.
  intros Hw Hh. unfold thumbSize. destruct (_ || _); cbv zeta; cbn [fst snd]; [|lia].
  split; case_match eqn:H; (apply Z.ltb_ge in H || idtac); lia.
Qed.

Lemma thumbSize_small w h : w <= 200 -> h <= 200 -> thumbSize w h = (w, h).
Proof.
  intros Hw Hh. unfold thumbSize, ThumbnailMaxDim.
  by rewrite (proj2 (Z.ltb_ge 200 w)), (proj2 (Z.ltb_ge 200 h)).
Qed.
