(* ===== verification/GoTime.v ===== *)
(** * time.ParseDuration and Duration.String, as the configuration uses them

    Durations are 64-bit counts of nanoseconds.  A fraction is scaled in binary64
    arithmetic, as the library does. *)

From S2P Require Import Prelude GoStrings Json JsonFacts Thumbnail.

(** ** Parsing *)

Definition wrapu64 (z : Z) : Z := z mod 2 ^ 64.

(** [leadingInt]: the value of the leading digits and the rest; [None] beyond
    2^63. *)
Fixpoint leadingInt (x : Z) (s : string) : option (Z * string) :=
  match s with
  | String c s' =>
      if isDigit c then
        if 2 ^ 63 / 10 <? x then None
        else
          let x := x * 10 + (code c - 48) in
          if 2 ^ 63 <? x then None else leadingInt x s'
      else Some (x, s)
  | EmptyString => Some (x, s)
  end.

(** [leadingFraction]: digits beyond the precision are dropped. *)
Fixpoint leadingFraction (x : Z) (scale : float64) (overflow : bool) (s : string)
  : Z * float64 * string :=
  match s with
  | String c s' =>
      if isDigit c then
        if overflow then leadingFraction x scale true s'
        else if (2 ^ 63 - 1) / 10 <? x then leadingFraction x scale true s'
        else
          let y := x * 10 + (code c - 48) in
          if 2 ^ 63 <? y then leadingFraction x scale true s'
          else leadingFraction y (fmul scale (float64_of 10)) false s'
      else (x, scale, s)
  | EmptyString => (x, scale, s)
  end.

(** The unit: what comes before the next digit or period. *)
Fixpoint takeUnit (s : string) : string * string :=
  match s with
  | String c s' =>
      if (code c =? 46) || isDigit c then ("", s)
      else let '(u, r) := takeUnit s' in (String c u, r)
  | EmptyString => ("", "")
  end.

(** The micro sign, U+00B5, and the Greek letter, U+03BC. *)
Definition micro : string := String (chr 194) (String (chr 181) "s").
Definition greekMu : string := String (chr 206) (String (chr 188) "s").

Definition unitMap (u : string) : option Z :=
  if bool_decide (u = "ns") then Some 1
  else if bool_decide (u = "us" \/ u = micro \/ u = greekMu) then Some 1000
  else if bool_decide (u = "ms") then Some 1000000
  else if bool_decide (u = "s") then Some 1000000000
  else if bool_decide (u = "m") then Some 60000000000
  else if bool_decide (u = "h") then Some 3600000000000
  else None.

(** One number with its unit, added to [d]. *)
Definition parseTerm (d : Z) (s : string) : option (Z * string) :=
  match leadingInt 0 s with
  | None => None
  | Some (v, r) =>
      let pre := negb (bool_decide (r = s)) in
      let '(f, scale, r', post) :=
        match r with
        | String c r1 =>
            if code c =? 46
            then let '(f, scale, r2) := leadingFraction 0 (float64_of 1) false r1 in
                 (f, scale, r2, negb (bool_decide (r2 = r1)))
            else (0, float64_of 1, r, false)
        | EmptyString => (0, float64_of 1, r, false)
        end in
      if negb pre && negb post then None
      else
        let '(u, r3) := takeUnit r' in
        if bool_decide (u = "") then None
        else
          match unitMap u with
          | None => None
          | Some unit =>
              if 2 ^ 63 / unit <? v then None
              else
                let v := v * unit in
                let v := if 0 <? f
                         then wrapu64 (v + int_of (fmul (float64_of f) (fdiv (float64_of unit) scale)))
                         else v in
                if 2 ^ 63 <? v then None
                else
                  let d := wrapu64 (d + v) in
                  if 2 ^ 63 <? d then None else Some (d, r3)
          end
  end.

(** Each term is at least two bytes, so the length is fuel enough. *)
Fixpoint parseTerms (fuel : nat) (d : Z) (s : string) : option Z :=
  match fuel with
  | O => match s with EmptyString => Some d | _ => None end
  | S fuel =>
      match s with
      | EmptyString => Some d
      | _ => match parseTerm d s with
             | Some (d, r) => parseTerms fuel d r
             | None => None
             end
      end
  end.

Definition ParseDuration (s : string) : option Z :=
  let '(neg, s) := match s with
                   | String c s' => if code c =? 45 then (true, s')
                                    else if code c =? 43 then (false, s') else (false, s)
                   | EmptyString => (false, s)
                   end in
  if bool_decide (s = "0") then Some 0
  else if bool_decide (s = "") then None
  else
    match parseTerms (String.length s) 0 s with
    | None => None
    | Some d => if (neg : bool) then Some (- d) else if 2 ^ 63 - 1 <? d then None else Some d
    end.

(** ** Printing *)

(** [fmtFrac]: the last [prec] digits of [v] after a period, without trailing
    zeros, before [tail]; and what is left of [v]. *)
Fixpoint fmtFrac (prec : nat) (v : Z) (print : bool) (tail : string) : string * Z :=
  match prec with
  | O => (if print then String (chr 46) tail else tail, v)
  | S prec =>
      let digit := v mod 10 in
      let print := print || negb (digit =? 0) in
      fmtFrac prec (v / 10) print (if print then String (chr (48 + digit)) tail else tail)
  end.

(** The text of [u] nanoseconds. *)
Definition durationBody (u : Z) : string :=
  if u =? 0 then "0s"
  else if u <? 1000000000 then
    if u <? 1000 then itoa u +:+ "ns"
    else
      let '(frac, v) := if u <? 1000000 then fmtFrac 3 u false micro else fmtFrac 6 u false "ms" in
      itoa v +:+ frac
  else
    let '(frac, v) := fmtFrac 9 u false "s" in
    let secs := itoa (v mod 60) +:+ frac in
    let v := v / 60 in
    if v =? 0 then secs
    else
      let mins := itoa (v mod 60) +:+ "m" +:+ secs in
      let v := v / 60 in
      if v =? 0 then mins else itoa v +:+ "h" +:+ mins.

Definition DurationString (d : Z) : string :=
  let body := durationBody (wrapu64 (if d <? 0 then - d else d)) in
  if d <? 0 then "-" +:+ body else body.

(** ** Tests *)

Example parse_durations :
  map ParseDuration ["30s"; "1.5h"; "-2h3m0.25s"; "5m"; "1us"; "0"; "+.5s"; ""; "1"; "1x"; "9223372036854775808ns"] =
  [Some 30000000000; Some 5400000000000; Some (-7380250000000); Some 300000000000; Some 1000; Some 0;
   Some 500000000; None; None; None; None].
Proof. vm_compute. reflexivity. Qed.

Example print_durations :
  map DurationString [0; 30000000000; 5400000000000; -7380250000000; 1100000; 1; 86400000000000; - 2 ^ 63] =
  ["0s"; "30s"; "1h30m0s"; "-2h3m0.25s"; "1.1ms"; "1ns"; "24h0m0s"; "-2562047h47m16.854775808s"].
Proof. vm_compute. reflexivity. Qed.

Example parse_prints_back :
  let ds := [1500; 999999999; 1100000; 123456789123456789; - 2 ^ 63; 2 ^ 63 - 1] in
  map (fun d => ParseDuration (DurationString d)) ds = map Some ds.
Proof. vm_compute. reflexivity. Qed.

(** ** Printing and parsing whole seconds *)

Lemma leadingInt_go x s :
  Z.of_N x <= 2 ^ 63 -> leadingInt 0 (pretty_N_go x s) = leadingInt (Z.of_N x) s.
Proof.
  revert s. induction (N.lt_wf_0 x) as [x _ IH]; intros s Hx.
  destruct (decide (x = 0)%N) as [->|Hne]; [by rewrite pretty_N_go_0|].
  rewrite pretty_N_go_step by lia.
  destruct (pretty_N_char_digit (x mod 10)) as [H1 H2]; [by apply N.mod_lt|].
  assert (Hdm : x = (10 * (x / 10) + x mod 10)%N) by (apply N.div_mod; lia).
  assert (Hm : (x mod 10 < 10)%N) by (by apply N.mod_lt).
  assert (Hlt : (x / 10 < x)%N) by (apply N.div_lt; lia).
  set (q := (x / 10)%N) in *. set (m := (x mod 10)%N) in *. clearbody q m.
  assert (H63 : 2 ^ 63 = 9223372036854775808 /\ 2 ^ 63 / 10 = 922337203685477580) by done.
  rewrite IH by lia. cbn [leadingInt]. rewrite H1, H2.
  destruct (Z.ltb_spec (2 ^ 63 / 10) (Z.of_N q)) as [Hov|_]; [lia|].
  replace (Z.of_N q * 10 + (48 + Z.of_N m - 48)) with (Z.of_N x) by lia.
  destruct (Z.ltb_spec (2 ^ 63) (Z.of_N x)); [lia|done].
Qed.

Definition starts_number (s : string) : bool :=
  match s with String c _ => (code c =? 46) || isDigit c | EmptyString => true end.

Lemma leadingInt_stop x s : (forall c s', s = String c s' -> isDigit c = false) -> leadingInt x s = Some (x, s).
Proof. destruct s as [|c s']; [done|]. intros H. cbn. by rewrite (H c s'). Qed.

(** The digits before a unit. *)
Lemma leadingInt_itoa v r :
  0 <= v <= 2 ^ 63 -> (forall c s', r = String c s' -> isDigit c = false) ->
  leadingInt 0 (itoa v +:+ r) = Some (v, r).
Proof.
  intros Hv Hr. assert (Happ : forall x s, (pretty_N_go x s +:+ r = pretty_N_go x (s +:+ r))%string).
  { intros x. induction (N.lt_wf_0 x) as [x _ IH]; intros s.
    destruct (decide (x = 0)%N) as [->|Hne]; [by rewrite !pretty_N_go_0|].
    rewrite !(pretty_N_go_step x) by lia. by rewrite IH by (apply N.div_lt; lia). }
  unfold itoa, pretty, pretty_Z, pretty, pretty_positive, pretty, pretty_N.
  destruct v as [|p|p]; [|rewrite decide_False by done|lia].
  - change ("0" +:+ r)%string with (String "0" r). cbn [leadingInt]. by apply leadingInt_stop.
  - rewrite Happ. change ("" +:+ r)%string with r. rewrite leadingInt_go by lia. by apply leadingInt_stop.
Qed.

(** A unit is the letters up to the next number. *)
Definition unit_text (u : string) : Prop :=
  u <> "" /\ forall r, starts_number r = true -> takeUnit (u +:+ r) = (u, r).

Lemma parseTerm_whole d v u n r :
  0 <= v -> unitMap u = Some n -> unit_text u -> starts_number r = true ->
  (forall c s', (u +:+ r)%string = String c s' -> isDigit c = false /\ code c <> 46) ->
  0 < n -> 0 <= d -> d + v * n <= 2 ^ 63 ->
  parseTerm d (itoa v +:+ (u +:+ r)) = Some (d + v * n, r).
Proof.
  intros Hv Hu [Hne Htake] Hr Hfirst Hn Hd Hb. unfold parseTerm.
  assert (Hvn : v <= v * n) by nia.
  rewrite leadingInt_itoa; [|lia|intros c s' Hc; by apply (Hfirst c s')].
  rewrite (bool_decide_false ((u +:+ r)%string = _)).
  2:{ intros He. pose proof (itoa_nonempty v) as Hit. destruct (itoa v) as [|a t]; [done|].
      apply (f_equal String.length) in He. rewrite !length_append in He. cbn in He. lia. }
  assert (Hmatch : forall (A : Type) (f : string -> A) (a : A),
    match (u +:+ r)%string with String c r1 => if code c =? 46 then f r1 else a | EmptyString => a end = a).
  { intros A f a. destruct (u +:+ r)%string as [|c s'] eqn:He; [done|].
    destruct (Hfirst c s' eq_refl) as [_ Hc]. by rewrite (proj2 (Z.eqb_neq _ _) Hc). }
  rewrite Hmatch. cbn [negb andb]. rewrite Htake by done. rewrite bool_decide_false by done. rewrite Hu.
  assert (Hdiv : v <= 2 ^ 63 / n) by (apply Z.div_le_lower_bound; lia).
  destruct (Z.ltb_spec (2 ^ 63 / n) v) as [|_]; [lia|]. cbn [Z.ltb Z.compare].
  destruct (Z.ltb_spec (2 ^ 63) (v * n)) as [|_]; [nia|].
  unfold wrapu64. rewrite Z.mod_small by lia. by destruct (Z.ltb_spec (2 ^ 63) (d + v * n)); [lia|].
Qed.

Lemma fmtFrac_zero n k text : fmtFrac n (k * 10 ^ Z.of_nat n) false text = (text, k).
Proof.
  revert k. induction n as [|n IH]; intros k; [cbn; by rewrite Z.mul_1_r|].
  cbn [fmtFrac]. replace (k * 10 ^ Z.of_nat (S n)) with (k * 10 ^ Z.of_nat n * 10)
    by (rewrite Nat2Z.inj_succ, Z.pow_succ_r by lia; lia).
  rewrite Z.mod_mul, Z.div_mul by lia. cbn [orb negb Z.eqb]. apply IH.
Qed.

Lemma unit_letter c : (code c =? 46) || isDigit c = false -> unit_text (String c "").
Proof.
  intros Hc. split; [done|]. intros r Hr. 
  change (takeUnit (String c "" +:+ r)) with
    (if (code c =? 46) || isDigit c then (""%string, String c r)
     else let '(u, r') := takeUnit r in (String c u, r')).
  rewrite Hc. destruct r as [|d r']; [done|]. cbn [starts_number] in Hr. cbn [takeUnit]. by rewrite Hr.
Qed.

Lemma itoa_digit v : 0 <= v <= 2 ^ 63 -> exists c t, itoa v = String c t /\ isDigit c = true.
Proof.
  intros Hv. pose proof (itoa_nonempty v) as Hne.
  assert (Hl : leadingInt 0 (itoa v +:+ "") = Some (v, ""%string)) by (by apply leadingInt_itoa).
  destruct (itoa v) as [|c t]; [done|]. exists c, t. split; [done|].
  destruct (isDigit c) eqn:Hc; [done|]. 
  change (String c t +:+ "") with (String c (t +:+ "")) in Hl.
  rewrite (leadingInt_stop 0 (String c (t +:+ ""))) in Hl; [by simplify_eq|].
  intros c' s' Heq. by simplify_eq.
Qed.

Lemma itoa_starts v r : 0 <= v <= 2 ^ 63 -> starts_number (itoa v +:+ r) = true.
Proof.
  intros Hv. destruct (itoa_digit v Hv) as (c & t & -> & Hc).
  change (starts_number _) with ((code c =? 46) || isDigit c). rewrite Hc. apply orb_true_r.
Qed.

(** A letter's term. *)
Lemma parseTerm_letter d v c n r :
  0 <= v -> unitMap (String c "") = Some n -> (code c =? 46) || isDigit c = false ->
  starts_number r = true -> 0 < n -> 0 <= d -> d + v * n <= 2 ^ 63 ->
  parseTerm d (itoa v +:+ String c r) = Some (d + v * n, r).
Proof.
  intros Hv Hu Hc Hr Hn Hd Hb. apply (parseTerm_whole d v (String c "") n r); try done; [by apply unit_letter|].
  intros c' s' [= <- _]. apply orb_false_iff in Hc as [H1 H2]. split; [done|]. by apply Z.eqb_neq.
Qed.

(** [s] adds up to [d'] from [d]. *)
Definition parses (d : Z) (s : string) (d' : Z) : Prop :=
  forall fuel, (String.length s <= fuel)%nat -> parseTerms fuel d s = Some d'.

Lemma parses_end d : parses d "" d.
Proof. by intros [|fuel]. Qed.

Lemma parses_term d v c n r d' :
  0 <= v -> unitMap (String c "") = Some n -> (code c =? 46) || isDigit c = false ->
  starts_number r = true -> 0 < n -> 0 <= d -> d + v * n <= 2 ^ 63 ->
  parses (d + v * n) r d' -> parses d (itoa v +:+ String c r) d'.
Proof.
  intros Hv Hu Hc Hr Hn Hd Hb Hrest fuel Hf. rewrite length_append in Hf. cbn in Hf.
  destruct fuel as [|fuel]; [lia|]. cbn [parseTerms].
  pose proof (itoa_nonempty v) as Hne. destruct (itoa v +:+ String c r)%string as [|a t] eqn:He.
  { by destruct (itoa v). }
  rewrite <- He, (parseTerm_letter d v c n r) by done. apply Hrest. lia.
Qed.

(** What is printed of [k] seconds. *)
Definition wholeSeconds (k : Z) : string :=
  let secs := itoa (k mod 60) +:+ "s" in
  let v := k / 60 in
  if v =? 0 then secs
  else
    let mins := itoa (v mod 60) +:+ "m" +:+ secs in
    let v := v / 60 in
    if v =? 0 then mins else itoa v +:+ "h" +:+ mins.

Lemma DurationString_whole k :
  - 2 ^ 63 <= k * 1000000000 < 2 ^ 63 ->
  DurationString (k * 1000000000) = if k <? 0 then ("-" +:+ wholeSeconds (- k))%string else wholeSeconds k.
Proof.
  intros Hk. unfold DurationString.
  assert (Hu : wrapu64 (if k * 1000000000 <? 0 then - (k * 1000000000) else k * 1000000000) = Z.abs k * 1000000000).
  { unfold wrapu64. destruct (Z.ltb_spec (k * 1000000000) 0); rewrite Z.mod_small; lia. }
  rewrite Hu. replace (k * 1000000000 <? 0) with (k <? 0) by (destruct (Z.ltb_spec k 0), (Z.ltb_spec (k * 1000000000) 0); lia).
  assert (Hbody : durationBody (Z.abs k * 1000000000) = wholeSeconds (Z.abs k)).
  { unfold durationBody. destruct (Z.eqb_spec (Z.abs k * 1000000000) 0) as [H0|H0].
    - by replace (Z.abs k) with 0 by lia.
    - destruct (Z.ltb_spec (Z.abs k * 1000000000) 1000000000); [lia|].
      pose proof (fmtFrac_zero 9 (Z.abs k) "s") as Hf. change (10 ^ Z.of_nat 9) with 1000000000 in Hf.
      by rewrite Hf. }
  cbv zeta. rewrite Hbody. destruct (Z.ltb_spec k 0).
  - by replace (Z.abs k) with (- k) by lia.
  - by replace (Z.abs k) with k by lia.
Qed.

Lemma wholeSeconds_parses k :
  0 <= k -> k * 1000000000 <= 2 ^ 63 -> parses 0 (wholeSeconds k) (k * 1000000000).
Proof.
  intros Hk Hb. unfold wholeSeconds.
  assert (H63 : 2 ^ 63 = 9223372036854775808) by done.
  pose proof (Z.div_mod k 60). pose proof (Z.mod_pos_bound k 60).
  pose proof (Z.div_mod (k / 60) 60). pose proof (Z.mod_pos_bound (k / 60) 60).
  pose proof (Z.div_pos k 60). pose proof (Z.div_pos (k / 60) 60).
  assert (Hsecs : forall d, 0 <= d -> d + k mod 60 * 1000000000 = k * 1000000000 ->
    parses d (itoa (k mod 60) +:+ "s") (k * 1000000000)).
  { intros d Hd He. apply (parses_term d (k mod 60) "s" 1000000000); try done; try lia.
    rewrite He. apply parses_end. }
  assert (Hs63 : 0 <= k mod 60 <= 2 ^ 63) by lia. assert (Hm63 : 0 <= (k / 60) mod 60 <= 2 ^ 63) by lia.
  assert (Hmins : forall d, 0 <= d -> d + (k / 60) mod 60 * 60000000000 + k mod 60 * 1000000000 = k * 1000000000 ->
    parses d (itoa ((k / 60) mod 60) +:+ "m" +:+ (itoa (k mod 60) +:+ "s")) (k * 1000000000)).
  { intros d Hd He. apply (parses_term d ((k / 60) mod 60) "m" 60000000000); try done; try lia.
    - by apply itoa_starts.
    - apply Hsecs; lia. }
  destruct (Z.eqb_spec (k / 60) 0); [apply Hsecs; lia|].
  destruct (Z.eqb_spec (k / 60 / 60) 0); [apply Hmins; lia|].
  apply (parses_term 0 (k / 60 / 60) "h" 3600000000000); try done; try lia.
  - by apply itoa_starts.
  - apply Hmins; lia.
Qed.

Lemma wholeSeconds_start k :
  0 <= k -> k * 1000000000 <= 2 ^ 63 ->
  exists c t, wholeSeconds k = String c t /\ isDigit c = true /\ t <> "".
Proof.
  intros Hk Hb. unfold wholeSeconds. assert (H63 : 2 ^ 63 = 9223372036854775808) by done.
  assert (Hitoa : forall v u r, 0 <= v <= 2 ^ 63 ->
    exists c t, (itoa v +:+ String u r)%string = String c t /\ isDigit c = true /\ t <> "").
  { intros v u r Hv. destruct (itoa_digit v Hv) as (c & t & -> & Hc). exists c, (t +:+ String u r)%string.
    split_and!; [done|done|]. by destruct t. }
  pose proof (Z.mod_pos_bound k 60). pose proof (Z.mod_pos_bound (k / 60) 60).
  pose proof (Z.div_pos k 60). pose proof (Z.div_pos (k / 60) 60).
  pose proof (Z.div_le_upper_bound k 60 (2 ^ 63)). pose proof (Z.div_le_upper_bound (k / 60) 60 (2 ^ 63)).
  case_match; [apply Hitoa; lia|]. case_match; apply Hitoa; lia.
Qed.

(** Every whole number of seconds that a configuration can hold is printed as a
    text that reads back as the same duration. *)
Theorem duration_seconds_roundtrip k :
  - 2 ^ 63 <= k * 1000000000 < 2 ^ 63 ->
  ParseDuration (DurationString (k * 1000000000)) = Some (k * 1000000000).
Proof.
  intros Hk. rewrite DurationString_whole by done.
  set (a := Z.abs k). assert (Ha : 0 <= a /\ a * 1000000000 <= 2 ^ 63) by lia.
  destruct (wholeSeconds_start a) as (c & t & He & Hc & Ht); [lia|lia|].
  pose proof (wholeSeconds_parses a) as Hp. unfold parses in Hp.
  assert (Hsign : (code c =? 45) = false /\ (code c =? 43) = false).
  { unfold isDigit in Hc. apply andb_true_iff in Hc as [Hc _]. split; lia. }
  unfold ParseDuration. destruct (Z.ltb_spec k 0).
  - replace (- k) with a by lia.
    change ("-" +:+ wholeSeconds a)%string with (String "-" (wholeSeconds a)). cbv iota.
    change (code "-" =? 45) with true. cbv iota beta.
    rewrite !bool_decide_false by (rewrite He; intros H0; by simplify_eq). rewrite Hp by lia. f_equal. lia.
  - replace (wholeSeconds k) with (wholeSeconds a) by (f_equal; lia).
    rewrite He at 1. destruct Hsign as [-> ->]. cbn iota beta.
    rewrite !bool_decide_false by (rewrite He; intros H0; by simplify_eq).
    rewrite Hp by lia. replace (a * 1000000000) with (k * 1000000000) by lia.
    by destruct (Z.ltb_spec (2 ^ 63 - 1) (k * 1000000000)); [lia|].
Qed.
