(* ===== verification/Config.v ===== *)
(** * The configuration (src/configs/config.go)

    The structures, [Default] and [Load]: a document in JSON overrides the
    defaults field by field, at any depth.  Durations are written as text. *)

From S2P Require Import Prelude GoStrings Json Thumbnail GoTime.

(** ** The structures *)

(** Nanoseconds, written as text in a document. *)
Abbreviation Duration := Z (only parsing).

Record GNetConfig := mkGNetConfig {
  gn_NumEventLoops : Z;
  gn_WorkerPoolSize : Z
}.

Record MySQLConfig := mkMySQLConfig {
  my_Enabled : bool;
  my_DSN : string
}.

Record AuthConfig := mkAuthConfig {
  au_DevMode : bool
}.

Record KafkaConfig := mkKafkaConfig {
  ka_Enabled : bool;
  ka_Brokers : list string;
  ka_Topic : string
}.

Record LogicConfig := mkLogicConfig {
  lg_Addr : string;
  lg_ListenAddr : string;
  lg_MySQL : MySQLConfig;
  lg_Kafka : KafkaConfig;
  lg_WorkerID : Z
}.

Record ObjectStorageConfig := mkObjectStorageConfig {
  ob_Enabled : bool;
  ob_Endpoint : string;
  ob_AccessKey : string;
  ob_SecretKey : string;
  ob_Bucket : string;
  ob_UseSSL : bool;
  ob_MaxUpload : Z
}.

Record DiscoveryConfig := mkDiscoveryConfig {
  di_Mode : string;
  di_RedisKey : string;
  di_TTL : Duration;
  di_HealthInterval : Duration
}.

Record GrpcConfig := mkGrpcConfig {
  gr_Addr : string;
  gr_NodeID : string;
  gr_PeerAddrs : gmap string string;
  gr_ForwardDialTimeout : Duration;
  gr_ForwardRPCTimeout : Duration;
  gr_Discovery : DiscoveryConfig
}.

Record GatewayConnConfig := mkGatewayConnConfig {
  co_PongWait : Duration;
  co_PingPeriod : Duration;
  co_MaxMsgSize : Z;
  co_SendBufSize : Z;
  co_OfflineMaxSize : Z
}.

Record RateLimitConfig := mkRateLimitConfig {
  rl_Enabled : bool;
  rl_Rate : Z;
  rl_Burst : Z;
  rl_CleanupInterval : Duration
}.

Record RedisConfig := mkRedisConfig {
  re_Addr : string;
  re_Password : string;
  re_DB : Z
}.

Record GatewayConfig := mkGatewayConfig {
  gw_HTTPAddr : string;
  gw_TCPAddr : string;
  gw_Transport : string;
  gw_Heartbeat : Duration;
  gw_HeartbeatFail : Z;
  gw_CheckOrigin : list string;
  gw_Conn : GatewayConnConfig;
  gw_RateLimit : RateLimitConfig;
  gw_Redis : RedisConfig;
  gw_GNet : GNetConfig;
  gw_MySQL : MySQLConfig;
  gw_Auth : AuthConfig;
  gw_Kafka : KafkaConfig;
  gw_LogicGateway : LogicConfig;
  gw_Grpc : GrpcConfig;
  gw_ObjectStorage : ObjectStorageConfig;
  gw_RecallWindowMs : Z;
  gw_HistoryDefaultLimit : Z;
  gw_SearchDefaultLimit : Z;
  gw_DedupTTL : Duration;
  gw_PersistConcurrency : Z
}.

Record JWTConfig := mkJWTConfig {
  jw_Secret : string;
  jw_Expiration : Duration
}.

Record SnowConfig := mkSnowConfig {
  sn_WorkerID : Z
}.

Record StabilityConfig := mkStabilityConfig {
  st_MaxConnections : Z;
  st_HTTPReadTimeout : Duration;
  st_HTTPWriteTimeout : Duration;
  st_HTTPIdleTimeout : Duration;
  st_ShutdownTimeout : Duration;
  st_PprofEnabled : bool;
  st_PprofAddr : string;
  st_MetricsEnabled : bool
}.

Record Config := mkConfig {
  cf_Gateway : GatewayConfig;
  cf_Logic : LogicConfig;
  cf_JWT : JWTConfig;
  cf_Snow : SnowConfig;
  cf_Stability : StabilityConfig;
  cf_AdminUIDs : list string
}.

(** ** Decoding into a structure *)

(** [json.Unmarshal] into a field that has a value: every value the document
    gives to its name, in order; [null] leaves it, and a value of another kind
    is an error. *)
Definition field {A} (decode : option A -> json -> option A) (name : string) (old : A)
  (fs : list (string * json)) : option A := foldl decode (Some old) (valuesOf name fs).

Definition decodeStruct {A} (fill : A -> list (string * json) -> option A) (old : option A) (v : json)
  : option A :=
  match old, v with
  | Some o, JObject fs => fill o fs
  | Some o, JNull => Some o
  | _, _ => None
  end.

Definition decodeInt64 : option Z -> json -> option Z := decodeInt (- 2 ^ 63) (2 ^ 63 - 1).

Definition decodeBool (old : option bool) (v : json) : option bool :=
  match old, v with
  | Some _, JBool b => Some b
  | Some o, JNull => Some o
  | _, _ => None
  end.

(** [Duration.UnmarshalJSON] decodes a string, which [null] leaves empty, and
    parses it. *)
Definition UnmarshalJSON (v : json) : option Z :=
  match decodeString (Some "") v with
  | Some s => ParseDuration s
  | None => None
  end.

Definition MarshalJSON (d : Z) : json := JString (DurationString d).

Definition decodeDuration (old : option Z) (v : json) : option Z :=
  match old with Some _ => UnmarshalJSON v | None => None end.

(** A map is extended; [null] empties it; a null value is the empty string. *)
Definition decodeEntry (old : option (gmap string string)) (e : string * json) : option (gmap string string) :=
  match old, decodeString (Some "") e.2 with
  | Some m, Some s => Some (<[e.1 := s]> m)
  | _, _ => None
  end.

Definition decodeStringMap (old : option (gmap string string)) (v : json) : option (gmap string string) :=
  match old, v with
  | Some m, JObject fs => foldl decodeEntry (Some m) fs
  | Some _, JNull => Some ∅
  | _, _ => None
  end.

Definition decodeGNetConfig : option GNetConfig -> json -> option GNetConfig :=
  decodeStruct (fun (old : GNetConfig) fs =>
    v0 ← field decodeInt64 "num_event_loops" (gn_NumEventLoops old) fs;
    v1 ← field decodeInt64 "worker_pool_size" (gn_WorkerPoolSize old) fs;
    Some (mkGNetConfig v0 v1)).

Definition decodeMySQLConfig : option MySQLConfig -> json -> option MySQLConfig :=
  decodeStruct (fun (old : MySQLConfig) fs =>
    v0 ← field decodeBool "enabled" (my_Enabled old) fs;
    v1 ← field decodeString "dsn" (my_DSN old) fs;
    Some (mkMySQLConfig v0 v1)).

Definition decodeAuthConfig : option AuthConfig -> json -> option AuthConfig :=
  decodeStruct (fun (old : AuthConfig) fs =>
    v0 ← field decodeBool "dev_mode" (au_DevMode old) fs;
    Some (mkAuthConfig v0)).

Definition decodeKafkaConfig : option KafkaConfig -> json -> option KafkaConfig :=
  decodeStruct (fun (old : KafkaConfig) fs =>
    v0 ← field decodeBool "enabled" (ka_Enabled old) fs;
    v1 ← field decodeStringSlice "brokers" (ka_Brokers old) fs;
    v2 ← field decodeString "topic" (ka_Topic old) fs;
    Some (mkKafkaConfig v0 v1 v2)).

Definition decodeLogicConfig : option LogicConfig -> json -> option LogicConfig :=
  decodeStruct (fun (old : LogicConfig) fs =>
    v0 ← field decodeString "addr" (lg_Addr old) fs;
    v1 ← field decodeString "listen_addr" (lg_ListenAddr old) fs;
    v2 ← field decodeMySQLConfig "mysql" (lg_MySQL old) fs;
    v3 ← field decodeKafkaConfig "kafka" (lg_Kafka old) fs;
    v4 ← field decodeInt64 "worker_id" (lg_WorkerID old) fs;
    Some (mkLogicConfig v0 v1 v2 v3 v4)).

Definition decodeObjectStorageConfig : option ObjectStorageConfig -> json -> option ObjectStorageConfig :=
  decodeStruct (fun (old : ObjectStorageConfig) fs =>
    v0 ← field decodeBool "enabled" (ob_Enabled old) fs;
    v1 ← field decodeString "endpoint" (ob_Endpoint old) fs;
    v2 ← field decodeString "access_key" (ob_AccessKey old) fs;
    v3 ← field decodeString "secret_key" (ob_SecretKey old) fs;
    v4 ← field decodeString "bucket" (ob_Bucket old) fs;
    v5 ← field decodeBool "use_ssl" (ob_UseSSL old) fs;
    v6 ← field decodeInt64 "max_upload" (ob_MaxUpload old) fs;
    Some (mkObjectStorageConfig v0 v1 v2 v3 v4 v5 v6)).

Definition decodeDiscoveryConfig : option DiscoveryConfig -> json -> option DiscoveryConfig :=
  decodeStruct (fun (old : DiscoveryConfig) fs =>
    v0 ← field decodeString "mode" (di_Mode old) fs;
    v1 ← field decodeString "redis_key" (di_RedisKey old) fs;
    v2 ← field decodeDuration "ttl" (di_TTL old) fs;
    v3 ← field decodeDuration "health_interval" (di_HealthInterval old) fs;
    Some (mkDiscoveryConfig v0 v1 v2 v3)).

Definition decodeGrpcConfig : option GrpcConfig -> json -> option GrpcConfig :=
  decodeStruct (fun (old : GrpcConfig) fs =>
    v0 ← field decodeString "addr" (gr_Addr old) fs;
    v1 ← field decodeString "node_id" (gr_NodeID old) fs;
    v2 ← field decodeStringMap "peer_addrs" (gr_PeerAddrs old) fs;
    v3 ← field decodeDuration "forward_dial_timeout" (gr_ForwardDialTimeout old) fs;
    v4 ← field decodeDuration "forward_rpc_timeout" (gr_ForwardRPCTimeout old) fs;
    v5 ← field decodeDiscoveryConfig "discovery" (gr_Discovery old) fs;
    Some (mkGrpcConfig v0 v1 v2 v3 v4 v5)).

Definition decodeGatewayConnConfig : option GatewayConnConfig -> json -> option GatewayConnConfig :=
  decodeStruct (fun (old : GatewayConnConfig) fs =>
    v0 ← field decodeDuration "pong_wait" (co_PongWait old) fs;
    v1 ← field decodeDuration "ping_period" (co_PingPeriod old) fs;
    v2 ← field decodeInt64 "max_msg_size" (co_MaxMsgSize old) fs;
    v3 ← field decodeInt64 "send_buf_size" (co_SendBufSize old) fs;
    v4 ← field decodeInt64 "offline_max_size" (co_OfflineMaxSize old) fs;
    Some (mkGatewayConnConfig v0 v1 v2 v3 v4)).

Definition decodeRateLimitConfig : option RateLimitConfig -> json -> option RateLimitConfig :=
  decodeStruct (fun (old : RateLimitConfig) fs =>
    v0 ← field decodeBool "enabled" (rl_Enabled old) fs;
    v1 ← field decodeInt64 "rate" (rl_Rate old) fs;
    v2 ← field decodeInt64 "burst" (rl_Burst old) fs;
    v3 ← field decodeDuration "cleanup_interval" (rl_CleanupInterval old) fs;
    Some (mkRateLimitConfig v0 v1 v2 v3)).

Definition decodeRedisConfig : option RedisConfig -> json -> option RedisConfig :=
  decodeStruct (fun (old : RedisConfig) fs =>
    v0 ← field decodeString "addr" (re_Addr old) fs;
    v1 ← field decodeString "password" (re_Password old) fs;
    v2 ← field decodeInt64 "db" (re_DB old) fs;
    Some (mkRedisConfig v0 v1 v2)).

Definition decodeGatewayConfig : option GatewayConfig -> json -> option GatewayConfig :=
  decodeStruct (fun (old : GatewayConfig) fs =>
    v0 ← field decodeString "http_addr" (gw_HTTPAddr old) fs;
    v1 ← field decodeString "tcp_addr" (gw_TCPAddr old) fs;
    v2 ← field decodeString "transport" (gw_Transport old) fs;
    v3 ← field decodeDuration "heartbeat" (gw_Heartbeat old) fs;
    v4 ← field decodeInt64 "heartbeat_fail" (gw_HeartbeatFail old) fs;
    v5 ← field decodeStringSlice "check_origin" (gw_CheckOrigin old) fs;
    v6 ← field decodeGatewayConnConfig "conn" (gw_Conn old) fs;
    v7 ← field decodeRateLimitConfig "rate_limit" (gw_RateLimit old) fs;
    v8 ← field decodeRedisConfig "redis" (gw_Redis old) fs;
    v9 ← field decodeGNetConfig "gnet" (gw_GNet old) fs;
    v10 ← field decodeMySQLConfig "mysql" (gw_MySQL old) fs;
    v11 ← field decodeAuthConfig "auth" (gw_Auth old) fs;
    v12 ← field decodeKafkaConfig "kafka" (gw_Kafka old) fs;
    v13 ← field decodeLogicConfig "logic" (gw_LogicGateway old) fs;
    v14 ← field decodeGrpcConfig "grpc" (gw_Grpc old) fs;
    v15 ← field decodeObjectStorageConfig "object_storage" (gw_ObjectStorage old) fs;
    v16 ← field decodeInt64 "recall_window_ms" (gw_RecallWindowMs old) fs;
    v17 ← field decodeInt64 "history_default_limit" (gw_HistoryDefaultLimit old) fs;
    v18 ← field decodeInt64 "search_default_limit" (gw_SearchDefaultLimit old) fs;
    v19 ← field decodeDuration "dedup_ttl" (gw_DedupTTL old) fs;
    v20 ← field decodeInt64 "persist_concurrency" (gw_PersistConcurrency old) fs;
    Some (mkGatewayConfig v0 v1 v2 v3 v4 v5 v6 v7 v8 v9 v10 v11 v12 v13 v14 v15 v16 v17 v18 v19 v20)).

Definition decodeJWTConfig : option JWTConfig -> json -> option JWTConfig :=
  decodeStruct (fun (old : JWTConfig) fs =>
    v0 ← field decodeString "secret" (jw_Secret old) fs;
    v1 ← field decodeDuration "expiration" (jw_Expiration old) fs;
    Some (mkJWTConfig v0 v1)).

Definition decodeSnowConfig : option SnowConfig -> json -> option SnowConfig :=
  decodeStruct (fun (old : SnowConfig) fs =>
    v0 ← field decodeInt64 "worker_id" (sn_WorkerID old) fs;
    Some (mkSnowConfig v0)).

Definition decodeStabilityConfig : option StabilityConfig -> json -> option StabilityConfig :=
  decodeStruct (fun (old : StabilityConfig) fs =>
    v0 ← field decodeInt64 "max_connections" (st_MaxConnections old) fs;
    v1 ← field decodeDuration "http_read_timeout" (st_HTTPReadTimeout old) fs;
    v2 ← field decodeDuration "http_write_timeout" (st_HTTPWriteTimeout old) fs;
    v3 ← field decodeDuration "http_idle_timeout" (st_HTTPIdleTimeout old) fs;
    v4 ← field decodeDuration "shutdown_timeout" (st_ShutdownTimeout old) fs;
    v5 ← field decodeBool "pprof_enabled" (st_PprofEnabled old) fs;
    v6 ← field decodeString "pprof_addr" (st_PprofAddr old) fs;
    v7 ← field decodeBool "metrics_enabled" (st_MetricsEnabled old) fs;
    Some (mkStabilityConfig v0 v1 v2 v3 v4 v5 v6 v7)).

Definition decodeConfig : option Config -> json -> option Config :=
  decodeStruct (fun (old : Config) fs =>
    v0 ← field decodeGatewayConfig "gateway" (cf_Gateway old) fs;
    v1 ← field decodeLogicConfig "logic" (cf_Logic old) fs;
    v2 ← field decodeJWTConfig "jwt" (cf_JWT old) fs;
    v3 ← field decodeSnowConfig "snowflake" (cf_Snow old) fs;
    v4 ← field decodeStabilityConfig "stability" (cf_Stability old) fs;
    v5 ← field decodeStringSlice "admin_uids" (cf_AdminUIDs old) fs;
    Some (mkConfig v0 v1 v2 v3 v4 v5)).

(** ** Defaults *)

Definition Second : Z := 1000000000.
Definition Minute : Z := 60 * Second.
Definition Hour : Z := 60 * Minute.

Definition noMySQL : MySQLConfig := mkMySQLConfig false "".
Definition noKafka : KafkaConfig := mkKafkaConfig false [] "".

Definition DefaultGateway : GatewayConfig :=
  mkGatewayConfig ":8080" ":8081" "websocket" (30 * Second) 3 []
    (mkGatewayConnConfig (60 * Second) (54 * Second) 65536 256 1000)
    (mkRateLimitConfig true 10 20 (5 * Minute))
    (mkRedisConfig "" "" 0)
    (mkGNetConfig 0 0)
    (mkMySQLConfig false "im:im-dev@tcp(127.0.0.1:3307)/im?parseTime=true&charset=utf8mb4")
    (mkAuthConfig true)
    (mkKafkaConfig false ["localhost:9092"] "im.message.persist")
    (mkLogicConfig "" "" noMySQL noKafka 2)
    (mkGrpcConfig "" "" ∅ (3 * Second) (2 * Second)
      (mkDiscoveryConfig "" "im:gateway:node:" (15 * Second) (5 * Second)))
    (mkObjectStorageConfig false "localhost:9000" "minioadmin" "minioadmin" "im-files" false (10 * 1024 * 1024))
    120000 30 20 (5 * Minute) 64.

Definition Default : Config :=
  mkConfig DefaultGateway (mkLogicConfig "" "" noMySQL noKafka 0)
    (mkJWTConfig "change-me-in-production" (7 * 24 * Hour)) (mkSnowConfig 1)
    (mkStabilityConfig 0 (10 * Second) (10 * Second) (120 * Second) (30 * Second) false "localhost:6060" true)
    [].

(** ** Loading *)

(** What reading the file gives: nothing there, another error, or its bytes. *)
Inductive FileRead := NotExist | ReadError | FileData (data : string).

Definition Load (file : FileRead) : option Config :=
  match file with
  | NotExist => Some Default
  | ReadError => None
  | FileData data =>
      match Parse data with
      | Some doc => decodeConfig (Some Default) doc
      | None => None
      end
  end.

(** ** Lemmas *)

(** A duration of whole seconds is written so that it reads back. *)
Lemma duration_config_roundtrip old k :
  - 2 ^ 63 <= k * Second < 2 ^ 63 -> decodeDuration (Some old) (MarshalJSON (k * Second)) = Some (k * Second).
Proof. exact (duration_seconds_roundtrip k). Qed.

Lemma field_absent {A} (decode : option A -> json -> option A) name old fs :
  valuesOf name fs = [] -> field decode name old fs = Some old.
Proof. unfold field. by intros ->. Qed.

Lemma field_default {A} (decode : option A -> json -> option A) name old fs v :
  valuesOf name fs = [] -> field decode name old fs = Some v -> v = old.
Proof. intros Hv. rewrite field_absent by exact Hv. congruence. Qed.

(** Without a file, the configuration is the default one; a section the file
    does not name keeps its defaults (the secret of the tokens among them), and
    a document that is no object is refused, but for [null]. *)
Lemma Load_defaults data doc :
  Parse data = Some doc ->
  Load NotExist = Some Default /\
  match doc with
  | JObject fs => forall c, Load (FileData data) = Some c ->
      (valuesOf "gateway" fs = [] -> cf_Gateway c = DefaultGateway) /\
      (valuesOf "jwt" fs = [] -> cf_JWT c = cf_JWT Default) /\
      (valuesOf "snowflake" fs = [] -> cf_Snow c = cf_Snow Default) /\
      (valuesOf "stability" fs = [] -> cf_Stability c = cf_Stability Default) /\
      (valuesOf "admin_uids" fs = [] -> cf_AdminUIDs c = [])
  | JNull => Load (FileData data) = Some Default
  | _ => Load (FileData data) = None
  end.
Proof.
  intros Hd. split; [done|]. unfold Load. rewrite Hd. destruct doc; try done.
  intros c. unfold decodeConfig, decodeStruct.
  intros (g & Hg & (l & _ & (j & Hj & (w & Hw & (s & Hs & (a & Ha & [= <-])%bind_Some)%bind_Some)%bind_Some)%bind_Some)%bind_Some)%bind_Some.
  cbn [cf_Gateway cf_JWT cf_Snow cf_Stability cf_AdminUIDs].
  repeat apply conj; intros Hv;
    [apply (field_default _ _ _ _ _ Hv Hg)|apply (field_default _ _ _ _ _ Hv Hj)|apply (field_default _ _ _ _ _ Hv Hw)
    |apply (field_default _ _ _ _ _ Hv Hs)|apply (field_default _ _ _ _ _ Hv Ha)].
Qed.
