(* ===== verification/ObjectStores.v ===== *)
(** * Object stores (src/internal/gateway/object_store.go)

    What an [ObjectStore] promises, as the class [ObjectStoreLaws], and the store
    on MinIO.  minio-go is not under src/: the class [MinioClient], whose laws let
    any request fail, a failed write with or without its effect.  The in-memory
    store (Thumbnail.v) and the MinIO store are both shown to keep the promise. *)

From S2P Require Import Prelude GoStrings Proto Snowflake Process Client Hub HashRing Dedup RateLimiter.
From S2P Require Import Unread GroupStore Json Stores LogicClient Producer RouterState Jwt Http Thumbnail GoTime Config.

(** An object: its data and its content type. *)
Abbreviation Object := (string * string)%type.

(** [f'] is [f] but for what a request about [k], which may have failed, left
    there. *)
Definition onlyAt (k : string) (f f' : gmap string Object) : Prop := forall k', k' <> k -> f' !! k' = f !! k'.

(** The promise: [objects] is what the store keeps; a write that reports success
    has its whole effect, one that fails touches no other key, and what is read
    is what is kept. *)
Class ObjectStoreLaws (O : Type) `{!ObjectStore O} := {
  objects : O -> gmap string Object;
  put_law k d ct (o : O) y : let '(e, (o', _)) := Put k d ct (o, y) in
    match e with
    | None => objects o' = <[k := (d, ct)]> (objects o)
    | Some _ => onlyAt k (objects o) (objects o')
    end;
  get_law k (o : O) y : let '(res, (o', _)) := GetObject k (o, y) in
    objects o' = objects o /\ forall x, res = inr x -> objects o !! k = Some x;
  delete_law k (o : O) y : let '(e, (o', _)) := DeleteObject k (o, y) in
    match e with
    | None => objects o' = delete k (objects o)
    | Some _ => onlyAt k (objects o) (objects o')
    end
}.

(** A store that always answers. *)
Definition reliable (O : Type) `{ObjectStoreLaws O} : Prop :=
  forall k x (o : O) y, objects o !! k = Some x -> (GetObject k (o, y)).1 = inr x.

#[export] Instance InMemory_Laws : ObjectStoreLaws InMemoryObjectStore.
Proof.
  refine {| objects := items |}; intros; cbn; try done.
  destruct (items o !! k) as [x|]; split; try done. by intros ? [= ->].
Defined.

Lemma InMemory_reliable : reliable InMemoryObjectStore.
Proof. intros k x o y Hk. cbn in *. by rewrite Hk. Qed.

(** ** The MinIO client *)

(** Requests on a server with buckets.  [GetObject] of the library opens lazily;
    [Stat] gives the content type of the object, reading it the data. *)
Class MinioClient (K : Type) := {
  BucketExists : string -> St (K * Sys) (string + bool);
  MakeBucket : string -> St (K * Sys) (option string);
  PutObject : string -> string -> string -> string -> St (K * Sys) (option string);
  OpenObject : string -> string -> St (K * Sys) (option string);
  StatObject : string -> string -> St (K * Sys) (string + string);
  ReadObject : string -> string -> St (K * Sys) (string + string);
  RemoveObject : string -> string -> St (K * Sys) (option string)
}.

(** Documented: writes are atomic; a successful one has its effect.  A read that
    succeeds gives the object of the server. *)
Class MinioLaws (K : Type) `{!MinioClient K} := {
  bucket : string -> K -> gmap string Object;
  minio_put b k d ct (c : K) y : let '(e, (c', _)) := PutObject b k d ct (c, y) in
    match e with
    | None => bucket b c' = <[k := (d, ct)]> (bucket b c)
    | Some _ => onlyAt k (bucket b c) (bucket b c')
    end;
  minio_open b k (c : K) y : bucket b (OpenObject b k (c, y)).2.1 = bucket b c;
  minio_stat b k (c : K) y : let '(res, (c', _)) := StatObject b k (c, y) in
    bucket b c' = bucket b c /\ forall ct, res = inr ct -> exists d, bucket b c !! k = Some (d, ct);
  minio_read b k (c : K) y : let '(res, (c', _)) := ReadObject b k (c, y) in
    bucket b c' = bucket b c /\ forall d, res = inr d -> exists ct, bucket b c !! k = Some (d, ct);
  minio_remove b k (c : K) y : let '(e, (c', _)) := RemoveObject b k (c, y) in
    match e with
    | None => bucket b c' = delete k (bucket b c)
    | Some _ => onlyAt k (bucket b c) (bucket b c')
    end
}.

(** ** The store *)

Section Minio.
Context {K : Type} {MC : MinioClient K}.

Record MinioStore := mkMinioStore { ms_client : K; ms_bucket : string }.

Definition onMinio {A} (m : string -> St (K * Sys) A) : St (MinioStore * Sys) A :=
  fun '(s, y) =>
    let '(a, (c, y')) := m (ms_bucket s) (ms_client s, y) in (a, (mkMinioStore c (ms_bucket s), y')).

(** [fmt.Errorf("minio ... %q: %w", key, err)]; [%q] quotes as JSON does, up to the
    escapes of unusual characters. *)
Definition minioErr (what key err : string) : string :=
  "minio " +:+ what +:+ " " +:+ print (JString key) +:+ ": " +:+ err.

(** [dial] is what [minio.New] gives for the configuration. *)
Definition NewMinioStore (dial : string + K) (cfg : ObjectStorageConfig) (y : Sys)
  : (string + MinioStore) * Sys :=
  match dial with
  | inl e => (inl ("minio client: " +:+ e), y)
  | inr c =>
      let b := if bool_decide (ob_Bucket cfg = "") then "im-files"%string else ob_Bucket cfg in
      let '(exists_, (c, y)) := BucketExists b (c, y) in
      match exists_ with
      | inl e => (inl ("minio bucket check: " +:+ e), y)
      | inr true => (inr (mkMinioStore c b), y)
      | inr false =>
          let '(err, (c, y)) := MakeBucket b (c, y) in
          match err with
          | Some e => (inl ("minio make bucket: " +:+ e), y)
          | None => (inr (mkMinioStore c b), y)
          end
      end
  end.

Definition MinioPut (key data contentType : string) : St (MinioStore * Sys) (option string) :=
  let! err := onMinio (fun b => PutObject b key data contentType) in
  ret (match err with Some e => Some (minioErr "put" key e) | None => None end).

Definition MinioGet (key : string) : St (MinioStore * Sys) (string + Object) :=
  let! err := onMinio (fun b => OpenObject b key) in
  match err with
  | Some e => ret (inl (minioErr "get" key e))
  | None =>
      let! stat := onMinio (fun b => StatObject b key) in
      match stat with
      | inl e => ret (inl (minioErr "stat" key e))
      | inr contentType =>
          let! data := onMinio (fun b => ReadObject b key) in
          ret (match data with
               | inl e => inl (minioErr "read" key e)
               | inr d => inr (d, contentType)
               end)
      end
  end.

Definition MinioDelete (key : string) : St (MinioStore * Sys) (option string) :=
  let! err := onMinio (fun b => RemoveObject b key) in
  ret (match err with Some e => Some (minioErr "delete" key e) | None => None end).

Definition MinioPing : St (MinioStore * Sys) (option string) :=
  let! res := onMinio BucketExists in
  ret (match res with inl e => Some e | inr _ => None end).

#[export] Instance Minio_ObjectStore : ObjectStore MinioStore :=
  mkObjectStore MinioStore MinioPut MinioGet MinioDelete.

Context {ML : MinioLaws K}.

Lemma onMinio_run {A} (m : string -> St (K * Sys) A) s y :
  onMinio m (s, y) = let r := m (ms_bucket s) (ms_client s, y) in (r.1, (mkMinioStore r.2.1 (ms_bucket s), r.2.2)).
Proof. unfold onMinio. by destruct (m (ms_bucket s) (ms_client s, y)) as [a [c y']]. Qed.

Definition minioObjects (s : MinioStore) : gmap string Object := bucket (ms_bucket s) (ms_client s).

Lemma MinioPut_law k d ct s y : let '(e, (s', _)) := MinioPut k d ct (s, y) in
  match e with
  | None => minioObjects s' = <[k := (d, ct)]> (minioObjects s)
  | Some _ => onlyAt k (minioObjects s) (minioObjects s')
  end.
Proof.
  unfold MinioPut. rewrite bind_run, onMinio_run. cbv zeta.
  pose proof (minio_put (ms_bucket s) k d ct (ms_client s) y) as H.
  destruct (PutObject _ _ _ _ _) as [[e|] [c y']]; exact H.
Qed.

Lemma MinioGet_law k s y : let '(res, (s', _)) := MinioGet k (s, y) in
  minioObjects s' = minioObjects s /\ forall x, res = inr x -> minioObjects s !! k = Some x.
Proof.
  destruct s as [c b]. unfold MinioGet, minioObjects. rewrite bind_run, onMinio_run. cbn [ms_bucket ms_client]. cbv zeta.
  pose proof (minio_open b k c y) as H. destruct (OpenObject b k (c, y)) as [[e|] [c1 y1]]; cbn [fst snd ret] in *; [done|].
  rewrite bind_run, onMinio_run. cbn [ms_bucket ms_client fst snd]. cbv zeta.
  pose proof (minio_stat b k c1 y1) as H1. destruct (StatObject b k (c1, y1)) as [[e|ct] [c2 y2]]; cbn [fst snd ret] in *.
  { cbn. destruct H1 as [H1 _]. split; [congruence|done]. }
  rewrite bind_run, onMinio_run. cbn [ms_bucket ms_client fst snd ret]. cbv zeta.
  pose proof (minio_read b k c2 y2) as H2. destruct (ReadObject b k (c2, y2)) as [res [c3 y3]]. cbn [fst snd] in *.
  cbn. destruct H1 as [E1 H1], H2 as [E2 H2]. split; [congruence|].
  intros x Hx. destruct res as [e|d]; [done|]. injection Hx as <-.
  destruct (H1 ct eq_refl) as [d' Hd]. destruct (H2 d eq_refl) as [ct' Hct]. congruence.
Qed.

Lemma MinioDelete_law k s y : let '(e, (s', _)) := MinioDelete k (s, y) in
  match e with
  | None => minioObjects s' = delete k (minioObjects s)
  | Some _ => onlyAt k (minioObjects s) (minioObjects s')
  end.
Proof.
  unfold MinioDelete. rewrite bind_run, onMinio_run. cbv zeta.
  pose proof (minio_remove (ms_bucket s) k (ms_client s) y) as H.
  destruct (RemoveObject _ _ _) as [[e|] [c y']]; exact H.
Qed.

#[export] Instance Minio_Laws : ObjectStoreLaws MinioStore.
Proof.
  refine {| objects := minioObjects |}; intros.
  - apply MinioPut_law.
  - apply MinioGet_law.
  - apply MinioDelete_law.
Defined.

End Minio.

Arguments MinioStore : clear implicits.
