(* ===== verification/LogicApp.v ===== *)
(** * The Logic process (src/cmd/logic/main.go)

    What the service runs with: its own settings, else the gateway's; the gRPC
    server over the database and the consumer of the topic; the goroutines of the
    consumer ([Run] and [flushLoop] of src/internal/mq/consumer.go) and the shutdown
    as interleaved steps.  Connecting, listening and signals are I/O, so their
    outcomes are arguments.  The server and the consumer share the database and use
    different operations of it; each holds its own state of it here. *)

From S2P Require Import Prelude Proto Snowflake Process Sql Stores LogicClient MySQLMessages LogicServer.
From S2P Require Import MySQLGroups MySQLUsers Consumer Config.

Section LogicApp.
Context {E : Env} {CD : Codec} {D : Type} {DB : Database D} {R : Type} {KR : KafkaReader R}.

Abbreviation Srv := (LogicServer D D D D).

(** What the connections give: the database, an error to listen, and the reader
    of a topic for the group of the service. *)
Record LogicDials := mkLogicDials {
  ld_mysql : string -> string + D;
  ld_listen : string -> option string;
  ld_reader : list string -> string -> R
}.

Record LogicApp := mkLogicApp { la_server : Srv; la_consumer : option (Consumer R D) }.

Definition logicMySQL (cfg : Config) : MySQLConfig :=
  if bool_decide (my_DSN (lg_MySQL (cf_Logic cfg)) = "") then gw_MySQL (cf_Gateway cfg)
  else lg_MySQL (cf_Logic cfg).

Definition logicAddr (cfg : Config) : string :=
  let a := lg_ListenAddr (cf_Logic cfg) in
  let a := if bool_decide (a = "") then lg_ListenAddr (gw_LogicGateway (cf_Gateway cfg)) else a in
  if bool_decide (a = "") then ":50051" else a.

Definition logicKafka (cfg : Config) : KafkaConfig :=
  if bool_decide (ka_Brokers (lg_Kafka (cf_Logic cfg)) = []) then gw_Kafka (cf_Gateway cfg)
  else lg_Kafka (cf_Logic cfg).

Definition consumerFor (cfg : Config) (d : LogicDials) (db : D) : option (Consumer R D) :=
  let k := logicKafka cfg in
  if ka_Enabled k && negb (bool_decide (ka_Brokers k = []))
  then
    let topic := if bool_decide (ka_Topic k = "") then "im.message.persist" else ka_Topic k in
    Some (NewConsumer (ld_reader d (ka_Brokers k) topic) (Some db))
  else None.

(** [main] up to its services running; [None] where it exits. *)
Definition startLogic (cfg : Config) (d : LogicDials) (tick : nat) (g0 : Generator) : option LogicApp :=
  let dsn := my_DSN (logicMySQL cfg) in
  if bool_decide (dsn = "") then None
  else
    match ld_mysql d dsn with
    | inl _ => None
    | inr db =>
        match ld_listen d (logicAddr cfg) with
        | Some _ => None
        | None =>
            Some (mkLogicApp
              (NewServer (Some (mkMySQLHandle db db db db)) (lg_WorkerID (cf_Logic cfg)) tick g0)
              (consumerFor cfg d db))
        end
    end.

(** ** The process

    [main] after its start: serving, in [GracefulStop], in the consumer's [Wait]
    after the context is cancelled, with the reader closed, and gone, with the
    database closed by the deferred call. *)
Inductive LogicPc := LServing | LDraining | LWaiting | LReaderClosed | LExited.

(** [lp_rpcs]: calls being answered. *)
Record LogicProc := mkLogicProc { lp_pc : LogicPc; lp_rpcs : nat; lp_run : option (ConsumerRun R D) }.

Definition logicProc (a : LogicApp) : LogicProc := mkLogicProc LServing 0 (startRun <$> la_consumer a).

Inductive logic_step : LogicProc * Sys -> LogicProc * Sys -> Prop :=
| LConsumer pc n p s p' s' : pc <> LExited -> consumer_step (p, s) (p', s') ->
    logic_step (mkLogicProc pc n (Some p), s) (mkLogicProc pc n (Some p'), s')
| LAccept n r s : logic_step (mkLogicProc LServing n r, s) (mkLogicProc LServing (S n) r, s)
| LAnswer pc n r s : pc <> LExited -> logic_step (mkLogicProc pc (S n) r, s) (mkLogicProc pc n r, s)
(** A signal, or the server failed. *)
| LStops n r s : logic_step (mkLogicProc LServing n r, s) (mkLogicProc LDraining n r, s)
| LDrained r s : logic_step (mkLogicProc LDraining 0 r, s) (mkLogicProc LWaiting 0 (cancelRun <$> r), s)
| LWaited n r s : from_option waited True r ->
    logic_step (mkLogicProc LWaiting n r, s) (mkLogicProc LReaderClosed n r, s)
| LExits n r s : logic_step (mkLogicProc LReaderClosed n r, s) (mkLogicProc LExited n r, s).

Definition stopped (pc : LogicPc) : Prop := pc = LReaderClosed \/ pc = LExited.

Record logic_inv (p : LogicProc) : Prop := mkLogicInv {
  li_rpcs : lp_pc p = LWaiting \/ stopped (lp_pc p) -> lp_rpcs p = O;
  li_run : from_option run_inv True (lp_run p);
  li_cancelled : lp_pc p = LWaiting -> from_option (fun r => cr_cancelled r = true) True (lp_run p);
  li_waited : stopped (lp_pc p) -> from_option waited True (lp_run p)
}.

Lemma step_cancelled (p q : ConsumerRun R D * Sys) :
  consumer_step p q -> cr_cancelled p.1 = true -> cr_cancelled q.1 = true.
Proof. by destruct 1. Qed.

(** After [Wait] only the commits of dropped messages are left. *)
Lemma step_waited (p q : ConsumerRun R D * Sys) :
  consumer_step p q -> waited p.1 -> waited q.1 /\ cr_fetched q.1 = cr_fetched p.1 /\ cr_fates q.1 = cr_fates p.1.
Proof. unfold waited. by destruct 1; cbn; intros [? ?]. Qed.

Lemma logic_step_inv p q : logic_step p q -> logic_inv p.1 -> logic_inv q.1.
Proof.
  intros Hs [H1 H2 H3 H4]. destruct Hs; cbn [fst lp_pc lp_rpcs lp_run] in *.
  - split; cbn in *; [done| | |].
    + by apply (consumer_step_run_inv _ _ H0).
    + intros Hpc. by apply (step_cancelled _ _ H0), H3.
    + intros Hpc. by apply (step_waited _ _ H0), H4.
  - split; cbn; try done. intros [?|[?|?]]; done.
  - split; cbn; try done. intros Hpc. by specialize (H1 Hpc).
  - split; cbn; try done. intros [?|[?|?]]; done. intros [?|?]; done.
  - split; cbn; try done; [by destruct r as [r|]; cbn; [apply (live_step_run_inv (r, s) (cancelRun r, s)); [constructor|]|]
      |by destruct r|by intros [?|?]].
  - split; cbn; try done. intros _. apply H1. by left.
  - split; cbn; try done. intros _. apply H1. right. by left. intros _. apply H4. by left.
Qed.

Lemma consumer_runs pc n x y : pc <> LExited -> rtc consumer_step x y ->
  rtc logic_step (mkLogicProc pc n (Some x.1), x.2) (mkLogicProc pc n (Some y.1), y.2).
Proof.
  intros Hpc. induction 1 as [x|[p s] [p' s'] z Hs _ IH]; [done|]. eapply rtc_l; [by apply LConsumer|done].
Qed.

Lemma closed_exits n r s : exists r' s',
  rtc logic_step (mkLogicProc LReaderClosed n r, s) (mkLogicProc LExited n r', s').
Proof. exists r, s. by apply rtc_once, LExits. Qed.

Lemma waiting_exits n (r : option (ConsumerRun R D)) s : from_option (fun r => cr_cancelled r = true) True r ->
  exists r' s', rtc logic_step (mkLogicProc LWaiting n r, s) (mkLogicProc LExited n r', s').
Proof.
  intros Hr. assert (Hw : exists r' s', from_option waited True r' /\
    rtc logic_step (mkLogicProc LWaiting n r, s) (mkLogicProc LWaiting n r', s')).
  { destruct r as [p|]; [|by exists None, s]. destruct (cancelled_ends p s Hr) as (q & s' & Hrtc & Hq).
    exists (Some q), s'. split; [done|]. by apply (consumer_runs LWaiting n (p, s) (q, s')). }
  destruct Hw as (r' & s' & Hw & Hrtc). destruct (closed_exits n r' s') as (r2 & s2 & H2). exists r2, s2.
  etrans; [exact Hrtc|]. eapply rtc_l; [by apply LWaited|done].
Qed.

Lemma draining_exits n (r : option (ConsumerRun R D)) s : exists m r' s',
  rtc logic_step (mkLogicProc LDraining n r, s) (mkLogicProc LExited m r', s').
Proof.
  induction n as [|n (m & r' & s' & IH)].
  - destruct (waiting_exits 0 (cancelRun <$> r) s) as (r' & s' & H); [by destruct r|]. exists O, r', s'.
    eapply rtc_l; [apply LDrained|done].
  - exists m, r', s'. eapply rtc_l; [by apply LAnswer|done].
Qed.

Lemma logic_exits p s : logic_inv p -> exists p' s', rtc logic_step (p, s) (p', s') /\ lp_pc p' = LExited.
Proof.
  destruct p as [pc n r]. intros [_ _ Hc _]. cbn in Hc. destruct pc.
  - destruct (draining_exits n r s) as (m & r' & s' & H). eexists _, s'. split; [eapply rtc_l; [apply LStops|exact H]|done].
  - destruct (draining_exits n r s) as (m & r' & s' & H). by eexists _, s'.
  - destruct (waiting_exits n r s (Hc eq_refl)) as (r' & s' & H). by eexists _, s'.
  - destruct (closed_exits n r s) as (r' & s' & H). by eexists _, s'.
  - by eexists _, s.
Qed.

(** C20. However the goroutines of the Logic process interleave: a record that was
    fetched is in a batch, in the buffer or in hand until it has been saved, has
    failed to save, was malformed or was dropped; when [main] closes the reader and
    then the database no call is being answered, the consumer has ended, nothing is
    left in its buffer, and every record it fetched has met its fate; and from
    every state the process can come to its end. *)
Theorem logic_shutdown_drains cfg d tick g0 a s p :
  startLogic cfg d tick g0 = Some a -> rtc logic_step (logicProc a, s) p ->
  (forall r, lp_run p.1 = Some r -> cr_fetched r ≡ₚ open r ++ map fst (cr_fates r)) /\
  (stopped (lp_pc p.1) -> lp_rpcs p.1 = O /\
     forall r, lp_run p.1 = Some r -> waited r /\ open r = [] /\ cr_fetched r ≡ₚ map fst (cr_fates r)) /\
  (exists p' s', rtc logic_step p (p', s') /\ lp_pc p' = LExited).
Proof.
  intros Ha Hp. assert (Hi : logic_inv p.1).
  { revert p Hp. apply rtc_ind_r; [|by intros y z _ Hyz; apply logic_step_inv].
    split; cbn; try done; [|by intros []]. destruct (la_consumer a) as [c|] eqn:Hc; [|done]. cbn. apply start_run_inv.
    revert Ha. unfold startLogic, consumerFor. repeat case_match; try done; intros [= <-]; cbn in Hc;
      first [discriminate Hc | by injection Hc as <-]. }
  destruct p as [p s']. cbn [fst] in *. split; [|split].
  - intros r Hr. pose proof (li_run _ Hi) as H. rewrite Hr in H. apply H.
  - intros Hst. split; [by apply (li_rpcs _ Hi); right|]. intros r Hr.
    pose proof (li_run _ Hi) as H. pose proof (li_waited _ Hi Hst) as Hw. rewrite Hr in H, Hw. cbn in H, Hw.
    destruct H as [Hk Hl]. destruct Hw as [H1 H2]. rewrite H1 in Hl. destruct (Hl I) as [Hb _].
    assert (Ho : open r = []) by (unfold open; by rewrite H1, H2, Hb). rewrite Ho in Hk. done.
  - by apply logic_exits.
Qed.

(** The shutdown when no flush is under way: the consumer's last flush
    ([last_flush_is_flushAll]).  Returns the records it saved. *)
Definition stopLogic (a : LogicApp) (y : Sys) : list KafkaMessage * (LogicApp * Sys) :=
  match la_consumer a with
  | None => ([], (a, y))
  | Some c =>
      let '(saved, (c, y)) := flushAll (c, y) in
      (saved, (mkLogicApp (la_server a) (Some c), y))
  end.

(** ** Lemmas *)

(** [main] runs exactly with a DSN of its own or of the gateway's, a database
    that opens and an address to listen on. *)
Lemma startLogic_runs cfg d tick g0 :
  is_Some (startLogic cfg d tick g0) <->
  (my_DSN (lg_MySQL (cf_Logic cfg)) <> "" \/ my_DSN (gw_MySQL (cf_Gateway cfg)) <> "") /\
  (exists db, ld_mysql d (my_DSN (logicMySQL cfg)) = inr db) /\ ld_listen d (logicAddr cfg) = None.
Proof.
  unfold startLogic. set (dsn := my_DSN (logicMySQL cfg)).
  assert (Hdsn : dsn <> "" <->
    my_DSN (lg_MySQL (cf_Logic cfg)) <> "" \/ my_DSN (gw_MySQL (cf_Gateway cfg)) <> "").
  { unfold dsn, logicMySQL. case_bool_decide; naive_solver. }
  rewrite <- Hdsn. case_bool_decide as He.
  - split; [by intros [? ?]|by intros [Hne _]].
  - destruct (ld_mysql d dsn) as [e|db] eqn:Hdb; [split; [by intros [? ?]|by intros (_ & [? ?] & _)]|].
    destruct (ld_listen d (logicAddr cfg)) as [e|] eqn:Hl.
    + split; [by intros [? ?]|intros (_ & _ & [=])].
    + split; [|by eexists]. intros _. split_and!; [done|by exists db|done].
Qed.

(** With the default settings the service and the gateway take different worker
    ids, so the ids they give never meet. *)
Lemma default_workers_differ d tick g0 db :
  la_server <$> startLogic Default d tick g0 = Some db ->
  workerID (sys_snow (ls_sys db)) = 2 /\ sn_WorkerID (cf_Snow Default) = 1.
Proof.
  unfold startLogic. rewrite bool_decide_false by done.
  destruct (ld_mysql _ _); [done|]. destruct (ld_listen _ _); [done|].
  cbn [fmap option_fmap option_map la_server]. by intros [= <-].
Qed.

Lemma commit_buffer l (c : Consumer R D) (y : Sys) : buffer (commit l (c, y)).2.1 = buffer c.
Proof. done. Qed.

Lemma flushAll_empties (c : Consumer R D) y : buffer (flushAll (c, y)).2.1 = [].
Proof.
  destruct (decide (buffer c = [])) as [He|He]; [by rewrite flushAll_empty|].
  rewrite flushAll_run by done. cbn [snd].
  destruct (saveAll_run (buffer c) (set_buffer [] c) y) as (_ & Hb & _).
  destruct (saveAll _ _) as [saved [c1 y1]]. cbn [fst snd] in *. destruct saved; [done|].
  by rewrite commit_buffer.
Qed.

(** A service that has stopped has nothing left in its buffer. *)
Lemma stopLogic_empty a y c :
  la_consumer (stopLogic a y).2.1 = Some c -> buffer c = [].
Proof.
  unfold stopLogic. destruct (la_consumer a) as [c0|] eqn:Hc; [|by cbn; rewrite Hc].
  pose proof (flushAll_empties c0 y) as He. destruct (flushAll (c0, y)) as [saved [c1 y1]].
  cbn. by intros [= <-].
Qed.

End LogicApp.

(** ** A concrete process *)

Section Demo.
#[local] Existing Instance steadyEnv.
#[local] Existing Instance demoReader.
#[local] Existing Instance totalCodec.

Definition logicConfig : Config :=
  let c := Default in
  mkConfig (cf_Gateway c)
    (mkLogicConfig "" "" (mkMySQLConfig true "im") (mkKafkaConfig true ["localhost:9092"] "") 2)
    (cf_JWT c) (cf_Snow c) (cf_Stability c) [].

Definition logicDials : LogicDials (D := TableDB) (R := Partition) :=
  mkLogicDials (fun _ => inr (mkTableDB emptyTables emptyTables [])) (fun _ => None) (fun _ _ => mkPartition 5 5).

Definition logicStarted := startLogic logicConfig logicDials 0 (mkGenerator 0 0 0).

(** A record is in hand when the signal comes. *)
Lemma logic_shutdown_drains_witness :
  exists a p p', logicStarted = Some a /\ rtc logic_step (logicProc a, startSys) p /\ lp_pc p.1 = LDraining /\
    (forall r, lp_run p.1 = Some r -> cr_fetched r ≡ₚ open r ++ map fst (cr_fates r)) /\
    rtc logic_step p p' /\ lp_pc p'.1 = LExited.
Proof.
  destruct logicStarted as [a|] eqn:Ha; [|discriminate Ha].
  assert (Hp : exists p, rtc logic_step (logicProc a, startSys) p /\ lp_pc p.1 = LDraining).
  { injection Ha as <-. eexists. split.
    - eapply rtc_l; [apply LConsumer; [done|apply BeginFetch]|].
      eapply rtc_l; [apply LConsumer; [done|by apply FetchGives]|].
      eapply rtc_l; [apply LStops|]. apply rtc_refl.
    - reflexivity. }
  destruct Hp as (p & Hp & Hpc).
  destruct (logic_shutdown_drains logicConfig logicDials 0 (mkGenerator 0 0 0) a startSys p Ha Hp) as (H1 & _ & p' & s' & H2 & H3).
  by exists a, p, (p', s').
Defined.
End Demo.
