(* ===== verification/HttpFiles.v ===== *)
(** * The HTTP API: files, search, health, administration
    (src/internal/gateway/server.go) *)

From S2P Require Import Prelude GoStrings Proto Snowflake Process Client Hub HashRing Dedup RateLimiter.
From S2P Require Import Unread GroupStore Json Stores LogicClient Producer RouterState RouterDelivery.
From S2P Require Import RouterChat RouterGroup Jwt Http Thumbnail.

Section Handlers.
Context {E : Env} {C : Codec} {B : Backends E} {J : JwtLib} {BC : Bcrypt} {IM : Images}.
Context {US : Type} {USI : UserStore US} {OB : Type} {OBI : ObjectStore OB}.

(** [http.DetectContentType]. *)
Context (DetectContentType : string -> string).

Abbreviation H := (St (Server US OB * Sys)).

(** ** Upload and download *)

Definition maxImageDim : Z := 4096.

(** A call on the object store a nil check has found. *)
Definition objectStoreOp {A} (o : OB) (m : St (OB * Sys) A) : H A :=
  let! s := getX in
  onObjects (default o (sv_objectStore s)) m.

(** The thumbnail's dimensions, where one was made and stored. *)
Definition storeThumbnail (o : OB) (fileID data mime : string) (width height : Z) : H (Z * Z) :=
  if IsImageMIME mime then
    if (maxImageDim <? width) || (maxImageDim <? height) then ret (0, 0)
    else
      match Thumbnail data with
      | inl _ => ret (0, 0)
      | inr thumb =>
          let! err := objectStoreOp o (Put (fileID +:+ "_thumb") thumb "image/jpeg") in
          ret (match err with Some _ => (0, 0) | None => ImageDimensions thumb end)
      end
  else ret (0, 0).

(** What follows the read of the file. *)
Definition storeUpload (o : OB) (fileName data : string) : H Response :=
  let mime := DetectContentType data in
  let! n := NextID in
  let fileID := itoa n in
  let '(width, height) := ImageDimensions data in
  let! (thumbW, thumbH) := storeThumbnail o fileID data mime width height in
  let! err := objectStoreOp o (Put fileID data mime) in
  match err with
  | Some _ =>
      (if IsImageMIME mime then objectStoreOp o (DeleteObject (fileID +:+ "_thumb")) ;;! ret tt
       else ret tt) ;;!
      ret (httpError "upload failed" StatusInternalServerError)
  | None =>
      ret (writeJson (jmap [("file_id", JString fileID); ("name", JString fileName);
        ("size", JInt (Z.of_nat (String.length data))); ("mime", JString mime);
        ("width", JInt width); ("height", JInt height);
        ("thumb_width", JInt thumbW); ("thumb_height", JInt thumbH)]))
  end.

Definition HandleUpload (r : Request) : H Response :=
  requirePost r
  (withStore sv_objectStore "object store not available" (fun o =>
   step (checkToken (FormValue r "uid") (FormValue r "token") StatusBadRequest) (fun _ =>
   match rq_multipartErr r with
   | Some e => ret (httpError ("file too large or invalid form: " +:+ e) StatusRequestEntityTooLarge)
   | None =>
       match rq_file r with
       | inl e => ret (httpError ("file field required: " +:+ e) StatusBadRequest)
       | inr (_, inl _) => ret (httpError "read error" StatusInternalServerError)
       | inr (fileName, inr data) =>
           stopIf (bool_decide (data = "")) "file is empty" StatusBadRequest
           (storeUpload o fileName data)
       end
   end))).

Definition HandleDownload (r : Request) : H Response :=
  withStore sv_objectStore "object store not available" (fun o =>
  let fileID := QueryGet r "id" in
  stopIf (bool_decide (fileID = "")) "id required" StatusBadRequest
  (step (checkToken (QueryGet r "uid") (QueryGet r "token") StatusBadRequest) (fun _ =>
   let key := if bool_decide (QueryGet r "thumb" = "1") then fileID +:+ "_thumb" else fileID in
   let! res := objectStoreOp o (GetObject key) in
   ret (match res with
        | inl _ => httpError "file not found" StatusNotFound
        | inr (data, contentType) => mkResponse StatusOK (BData contentType data)
        end)))).

(** ** Search *)

(** An optional number of the query: the value in its place if it parses. *)
Definition queryInt (r : Request) (key : string) (accept : Z -> bool) (dflt : Z) : Z :=
  match Atoi (QueryGet r key) with
  | Some v => if accept v then v else dflt
  | None => dflt
  end.

Definition searchParamsOf (r : Request) (uid : string) : SearchParams :=
  mkSearchParams uid (QueryGet r "q") (QueryGet r "peer")
    (wrap32 (queryInt r "chat_type" (fun _ => true) 0))
    (wrap32 (queryInt r "msg_type" (fun _ => true) 0))
    (queryInt r "before" (fun _ => true) 0) (queryInt r "after" (fun _ => true) 0)
    (queryInt r "limit" (fun v => (0 <? v) && (v <=? 50)) 20)
    (queryInt r "cursor" (fun _ => true) 0).

(** A message by the JSON tags of the generated struct; zero fields are left
    out. *)
Definition messageDoc (m : Message) : json :=
  let int (name : string) (z : Z) := if z =? 0 then [] else [(name, JInt z)] in
  let str (name s : string) := if bool_decide (s = "") then [] else [(name, JString s)] in
  JObject (int "seq" (Seq m) ++ int "msg_id" (MsgId m) ++ int "cmd" (Cmd m) ++ str "from" (From m) ++
    str "to" (To m) ++ int "chat_type" (ChatType m) ++ int "msg_type" (MsgType m) ++
    str "content" (Content m) ++ int "timestamp" (Timestamp m) ++
    (if NeedAck m then [("need_ack"%string, JBool true)] else [])).

Definition HandleSearch (r : Request) : H Response :=
  step (checkToken (QueryGet r "uid") (QueryGet r "token") StatusBadRequest) (fun _ =>
  let uid := QueryGet r "uid" in
  let! limited := onSvRouter (checkRateLimit uid) in
  stopIf limited "rate limited" StatusTooManyRequests
  (let query := QueryGet r "q" in
   stopIf (bool_decide (query = "")) "q (query) required" StatusBadRequest
   (let! result := onSvRouter (RouterSearch (searchParamsOf r uid)) in
    ret (match result with
         | inl _ => httpError "search failed" StatusInternalServerError
         | inr result =>
             let result := default (mkSearchResult [] 0 0) result in
             writeJson (jmap [("query", JString query); ("messages", JArray (map messageDoc (sr_Messages result)));
               ("total", JInt (sr_Count result)); ("next_cursor", JInt (sr_NextCursor result))])
         end)))).

(** ** Health *)

(** The checks in some order; what each finds. *)
Fixpoint runChecks (names : list string) (deps : gmap string string) (allHealthy : bool)
  : H (gmap string string * bool) :=
  match names with
  | [] => ret (deps, allHealthy)
  | name :: names =>
      let! s := getX in
      let! found := fun '(s, y) =>
        (match sv_checks s !! name with Some check => check (sys_tick y) | None => None end,
         (s, mkSys (S (sys_tick y)) (sys_snow y))) in
      match found with
      | Some e => runChecks names (<[name := "unhealthy: " +:+ e]> deps) false
      | None => runChecks names (<[name := "ok"]> deps) allHealthy
      end
  end.

Definition healthOf : H (gmap string string * bool) :=
  let! s := getX in
  let! names := RangeKeys (elements (dom (sv_checks s))) in
  runChecks names ∅ true.

Definition depsDoc (deps : gmap string string) : json :=
  jmap (map (fun p : string * string => (p.1, JString p.2)) (map_to_list deps)).

Definition memoryDoc (alloc goroutines : Z) : json :=
  jmap [("alloc_mb", JInt (alloc / 1024 / 1024)); ("goroutines", JInt goroutines)].

Definition HandleHealth (r : Request) : H Response :=
  let! (deps, allHealthy) := healthOf in
  let! alloc := ReadAlloc in
  let! n := onSvRouter (onClients Count) in
  let! goroutines := NumGoroutine in
  ret (writeJson (jmap [("status", JString (if allHealthy : bool then "ok" else "degraded"));
    ("connections", JInt n); ("dependencies", depsDoc deps); ("memory", memoryDoc alloc goroutines)])).

(** ** Administration *)

(** The stores and totals of the statistics; an error counts as zero. *)
Definition totalOf (r : string + Z) : Z := match r with inl _ => 0 | inr n => n end.

Definition HandleAdminStats (r : Request) : H Response :=
  step (adminAuth r) (fun _ =>
  let! (deps, allHealthy) := healthOf in
  let! alloc := ReadAlloc in
  let! onlineUsers := onSvRouter (onClients Count) in
  let! s := getX in
  let! totalUsers := match sv_userStore s with
                     | Some us => let! n := onUsers us CountUsers in ret (totalOf n)
                     | None => ret 0
                     end in
  let! totalMessages := match msgStore (sv_router s) with
                        | Some ms => let! n := onSvRouter (onMsgs ms CountMessages) in ret (totalOf n)
                        | None => ret 0
                        end in
  let! goroutines := NumGoroutine in
  ret (writeJson (jmap [("status", JString (if allHealthy : bool then "ok" else "degraded"));
    ("online_users", JInt onlineUsers); ("total_users", JInt totalUsers);
    ("total_messages", JInt totalMessages); ("dependencies", depsDoc deps);
    ("memory", memoryDoc alloc goroutines)]))).

Definition userDoc (u : User) : json :=
  JObject [("uid", JString (u_UID u)); ("username", JString (u_Username u)); ("role", JString (u_Role u));
    ("is_disabled", JBool (u_IsDisabled u)); ("created_at", JInt (u_CreatedAt u))].

Definition HandleAdminUsers (r : Request) : H Response :=
  step (adminAuth r) (fun _ =>
  withStore sv_userStore "user store not available" (fun us =>
  let offset := queryInt r "offset" (fun v => 0 <=? v) 0 in
  let limit := queryInt r "limit" (fun v => (0 <? v) && (v <=? 200)) 50 in
  let! res := onUsers us (ListUsers offset limit) in
  ret (match res with
       | inl _ => httpError "internal error" StatusInternalServerError
       | inr (users, total) => writeJson (jmap [("users", JArray (map userDoc users)); ("total", JInt total);
           ("offset", JInt offset); ("limit", JInt limit)])
       end))).

Definition HandleAdminUserDelete (r : Request) : H Response :=
  requirePost r
  (step (adminAuth r) (fun claims =>
   withStore sv_userStore "user store not available" (fun us =>
   let targetUID := FormValue r "target_uid" in
   stopIf (bool_decide (targetUID = "")) "target_uid required" StatusBadRequest
   (stopIf (bool_decide (targetUID = c_UID claims)) "cannot delete yourself" StatusBadRequest
   (let! err := onUsers us (DeleteUser targetUID) in
    ret (match err with
         | Some e => httpError ("delete failed: " +:+ e) StatusInternalServerError
         | None => writeJson statusOkDoc
         end)))))).

Definition svMessages (s : Server US OB) : option bk_MS := msgStore (sv_router s).

Definition HandleAdminMessages (r : Request) : H Response :=
  step (adminAuth r) (fun _ =>
  withStore svMessages "message store not available" (fun ms =>
  let before := queryInt r "before" (fun _ => true) 0 in
  let limit := queryInt r "limit" (fun v => (0 <? v) && (v <=? 100)) 50 in
  let! res := onSvRouter (onMsgs ms (BrowseMessages before limit)) in
  ret (match res with
       | inl _ => httpError "internal error" StatusInternalServerError
       | inr msgs => writeJson (jmap [("messages", JArray (map messageDoc msgs)); ("limit", JInt limit)])
       end))).

Definition HandleAdminMessageDelete (r : Request) : H Response :=
  requirePost r
  (step (adminAuth r) (fun _ =>
   withStore svMessages "message store not available" (fun ms =>
   let msgIDStr := FormValue r "msg_id" in
   stopIf (bool_decide (msgIDStr = "")) "msg_id required" StatusBadRequest
   (match ParseInt msgIDStr with
    | None => ret (httpError "invalid msg_id" StatusBadRequest)
    | Some msgID =>
        let! err := onSvRouter (onMsgs ms (DeleteMessage msgID)) in
        ret (match err with
             | Some e => httpError ("delete failed: " +:+ e) StatusInternalServerError
             | None => writeJson statusOkDoc
             end)
    end)))).

End Handlers.
