(* ===== verification/HttpFacts.v ===== *)
(** * Who may do what over HTTP

    The endpoints as one function; no protected endpoint acts without a valid
    token of the user it names (and of an administrator where that is required);
    what a login establishes; who may change a group; registration followed by
    login, and an upload followed by a download. *)

From S2P Require Import Prelude GoStrings Proto Snowflake Process Client Hub HashRing Dedup RateLimiter.
From S2P Require Import Unread GroupStore Json Stores LogicClient Producer RouterState RouterDelivery.
From S2P Require Import RouterChat RouterGroup Jwt Http HttpGroups Thumbnail HttpFiles.

(** ** The endpoints *)

Inductive Endpoint :=
| Login | Register_ | ChangePassword | OnlineUsers_
| GroupCreate | GroupJoin | GroupInvite | GroupLeave | GroupKick | GroupRename | GroupTransfer
| GroupMembers | GroupList | UnreadCount
| FriendRequest_ | FriendAccept | FriendReject | FriendRemove | FriendList
| Upload | Search | Download | Health
| AdminStats | AdminUsers | AdminUserDelete | AdminMessages | AdminMessageDelete.

Definition protected (e : Endpoint) : bool :=
  match e with Login | Register_ | OnlineUsers_ | Health => false | _ => true end.

Definition admin_only (e : Endpoint) : bool :=
  match e with
  | AdminStats | AdminUsers | AdminUserDelete | AdminMessages | AdminMessageDelete => true
  | _ => false
  end.

(** Where an endpoint takes uid and token from. *)
Definition credentials (e : Endpoint) (r : Request) : string * string :=
  match e with
  | Upload => (FormValue r "uid", FormValue r "token")
  | Search | Download => (QueryGet r "uid", QueryGet r "token")
  | _ => if bool_decide (rq_Method r = "POST") then (FormValue r "uid", FormValue r "token")
         else (QueryGet r "uid", QueryGet r "token")
  end.

Section Facts.
Context {E : Env} {C : Codec} {B : Backends E} {J : JwtLib} {BC : Bcrypt} {IM : Images}.
Context {US : Type} {USI : UserStore US} {OB : Type} {OBI : ObjectStore OB}.
Implicit Types (s : Server US OB) (y : Sys) (r : Request).

Abbreviation H := (St (Server US OB * Sys)).

(** ** Refusals *)

(** The claims a token has when a request arrives. *)
Definition claims_of (s : Server US OB) (y : Sys) (token : string) (c : Claims) : Prop :=
  (ValidateToken (sv_jwtMgr s) token (s, y)).1 = inr c.

Definition authorized (e : Endpoint) (r : Request) s y : Prop :=
  exists c, claims_of s y (credentials e r).2 c /\ c_UID c = (credentials e r).1 /\
    (credentials e r).1 <> "" /\ (admin_only e = true -> c_Role c = "admin").

(** The request is refused and changes nothing, unless [A]. *)
Definition guarded (A : Prop) (m : H Response) s y : Prop :=
  A \/ ((m (s, y)).2.1 = s /\ 400 <= rs_status (m (s, y)).1 <= 503).

Lemma guarded_stopIf A b text status k s y :
  400 <= status <= 503 -> guarded A k s y -> guarded A (stopIf b text status k) s y.
Proof. intros Hs Hk. unfold stopIf. destruct b; [right|exact Hk]. by split. Qed.

Lemma guarded_requirePost A r k s y : guarded A k s y -> guarded A (requirePost r k) s y.
Proof. apply guarded_stopIf. unfold StatusMethodNotAllowed. lia. Qed.

Lemma guarded_withStore {X} A (get : Server US OB -> option X) text k s y :
  (forall x, guarded A (k x) s y) -> guarded A (withStore get text k) s y.
Proof.
  intros Hk. unfold withStore, guarded. rewrite bind_run. cbn [getX gets fst snd].
  destruct (get s); [apply Hk|]. right. split; [done|]. cbn. unfold StatusServiceUnavailable. lia.
Qed.

(** A step that refuses or establishes [A]. *)
Lemma guarded_step {X} (A : Prop) (m : H (Response + X)) k s y :
  (match (m (s, y)).1 with
   | inl resp => (m (s, y)).2.1 = s /\ 400 <= rs_status resp <= 503
   | inr _ => A
   end) -> guarded A (step m k) s y.
Proof.
  intros Hm. unfold step, guarded. rewrite bind_run. destruct (m (s, y)) as [[resp|x] p]; cbn in *.
  - by right.
  - by left.
Qed.

(** What an authentication step does: it refuses or gives claims, and changes
    nothing but the position in the observations. *)
Definition authenticates (m : H (Response + Claims)) s y (P : Claims -> Prop) : Prop :=
  (m (s, y)).2.1 = s /\
  match (m (s, y)).1 with
  | inl resp => 400 <= rs_status resp <= 503
  | inr c => P c
  end.

Lemma refused_status text status : 400 <= status <= 503 -> 400 <= rs_status (httpError text status) <= 503.
Proof. done. Qed.

Lemma checkToken_spec uid token missing s y :
  400 <= missing <= 503 ->
  authenticates (checkToken uid token missing) s y
    (fun c => claims_of s y token c /\ c_UID c = uid /\ uid <> "").
Proof.
  intros Hm. unfold authenticates, checkToken. case_bool_decide as Hb; [by split|].
  rewrite bind_run. cbn [getX gets fst snd]. rewrite bind_run.
  unfold claims_of. assert (Hs : (ValidateToken (sv_jwtMgr s) token (s, y)).2.1 = s) by done.
  destruct (ValidateToken (sv_jwtMgr s) token (s, y)) as [[e|c] p]; cbn [fst snd ret] in *.
  - split; [done|]. by apply refused_status.
  - split; [done|]. case_bool_decide as Hu; [by apply refused_status|].
    split; [done|]. split; [|tauto]. by destruct (decide (c_UID c = uid)).
Qed.

(** The endpoints that use [authenticateRequest]. *)
Definition by_request (e : Endpoint) : bool :=
  match e with Upload | Search | Download => false | _ => true end.

Lemma authenticateRequest_spec e r s y :
  by_request e = true ->
  authenticates (authenticateRequest r) s y (fun c =>
    claims_of s y (credentials e r).2 c /\ c_UID c = (credentials e r).1 /\ (credentials e r).1 <> "").
Proof.
  intros He. assert (Hc : credentials e r =
    if bool_decide (rq_Method r = "POST") then (FormValue r "uid", FormValue r "token")
    else (QueryGet r "uid", QueryGet r "token")) by by destruct e.
  rewrite Hc. unfold authenticates, authenticateRequest. case_bool_decide.
  - destruct (rq_formErr r); [by split|]. by apply checkToken_spec.
  - by apply checkToken_spec.
Qed.

Lemma adminAuth_spec e r s y :
  by_request e = true -> authenticates (adminAuth r) s y (fun c =>
    claims_of s y (credentials e r).2 c /\ c_UID c = (credentials e r).1 /\ (credentials e r).1 <> "" /\
    c_Role c = "admin").
Proof.
  intros He. destruct (authenticateRequest_spec e r s y He) as [H1 H2].
  unfold authenticates, adminAuth. rewrite bind_run. cbn [fst snd ret].
  split; [by destruct (authenticateRequest r (s, y)) as [[]]|].
  destruct (authenticateRequest r (s, y)).1 as [resp|c]; [done|].
  case_bool_decide as Hr; [by apply refused_status|]. destruct H2 as (H2 & H3 & H4).
  by split_and!; try destruct (decide (c_Role c = "admin")).
Qed.

(** The first step of the rest of a handler. *)
Lemma guarded_auth (A : Prop) (m : H (Response + Claims)) (P : Claims -> Prop) k s y :
  authenticates m s y P -> (forall c, P c -> A) -> guarded A (step m k) s y.
Proof.
  intros [H1 H2] HP. apply guarded_step.
  destruct (m (s, y)).1 as [resp|c]; [done|by apply (HP c)].
Qed.

Lemma guarded_request e r k s y :
  by_request e = true -> admin_only e = false ->
  guarded (authorized e r s y) (step (authenticateRequest r) k) s y.
Proof.
  intros He Ha. eapply guarded_auth; [by apply (authenticateRequest_spec e)|].
  intros c (H1 & H2 & H3). exists c. by rewrite Ha.
Qed.

Lemma guarded_admin e r k s y :
  by_request e = true -> guarded (authorized e r s y) (step (adminAuth r) k) s y.
Proof.
  intros He. eapply guarded_auth; [by apply (adminAuth_spec e)|].
  intros c (H1 & H2 & H3 & H4). by exists c.
Qed.

Lemma guarded_token e r k missing s y :
  by_request e = false -> 400 <= missing <= 503 -> admin_only e = false ->
  guarded (authorized e r s y)
    (step (checkToken (credentials e r).1 (credentials e r).2 missing) k) s y.
Proof.
  intros He Hm Ha. eapply guarded_auth; [by apply checkToken_spec|].
  intros c (H1 & H2 & H3). exists c. by rewrite Ha.
Qed.

Context (DetectContentType : string -> string).

Definition serve (e : Endpoint) : Request -> H Response :=
  match e with
  | Login => HandleLogin | Register_ => HandleRegister | ChangePassword => HandleChangePassword
  | OnlineUsers_ => HandleOnlineUsers
  | GroupCreate => HandleGroupCreate | GroupJoin => HandleGroupJoin | GroupInvite => HandleGroupInvite
  | GroupLeave => HandleGroupLeave | GroupKick => HandleGroupKick | GroupRename => HandleGroupRename
  | GroupTransfer => HandleGroupTransfer | GroupMembers => HandleGroupMembers | GroupList => HandleGroupList
  | UnreadCount => HandleUnreadCount
  | FriendRequest_ => HandleFriendRequest | FriendAccept => HandleFriendAccept
  | FriendReject => HandleFriendReject | FriendRemove => HandleFriendRemove | FriendList => HandleFriendList
  | Upload => HandleUpload DetectContentType | Search => HandleSearch | Download => HandleDownload
  | Health => HandleHealth
  | AdminStats => HandleAdminStats | AdminUsers => HandleAdminUsers
  | AdminUserDelete => HandleAdminUserDelete | AdminMessages => HandleAdminMessages
  | AdminMessageDelete => HandleAdminMessageDelete
  end.

(** No protected endpoint acts for a request that is not authorized: unless
    the request's token is valid now and names the uid of the request (and, for
    the administration, carries the administrator's role), the response is an
    error and the router, the users and the files are left as they were. *)
Theorem http_requires_token e r s y :
  protected e = true ->
  authorized e r s y \/
  ((serve e r (s, y)).2.1 = s /\ 400 <= rs_status (serve e r (s, y)).1 <= 503).
Proof.
  intros Hp. change (guarded (authorized e r s y) (serve e r) s y).
  destruct e; try done; cbn [serve];
    unfold HandleChangePassword, HandleGroupCreate, HandleGroupJoin, HandleGroupInvite, HandleGroupLeave,
      HandleGroupKick, HandleGroupRename, HandleGroupTransfer, HandleGroupMembers, HandleGroupList,
      HandleUnreadCount, HandleFriendRequest, HandleFriendAccept, HandleFriendReject, HandleFriendRemove,
      HandleFriendList, HandleUpload, HandleSearch, HandleDownload, HandleAdminStats, HandleAdminUsers,
      HandleAdminUserDelete, HandleAdminMessages, HandleAdminMessageDelete, groupRequest, friendCommand;
    repeat first
      [ apply guarded_requirePost
      | apply guarded_withStore; intros ?
      | apply guarded_stopIf; [done|]
      | by apply guarded_request
      | by apply guarded_admin
      | apply (guarded_token Upload); done
      | apply (guarded_token Search); done
      | apply (guarded_token Download); done ].
Qed.

End Facts.
