(* ===== verification/HttpAccounts.v ===== *)
(** * Login, registration and passwords over HTTP: what they establish *)

From S2P Require Import Prelude GoStrings Proto Snowflake Process Client Hub HashRing Dedup RateLimiter.
From S2P Require Import Unread GroupStore Json Stores LogicClient Producer RouterState RouterDelivery.
From S2P Require Import RouterChat RouterGroup Jwt Http HttpGroups Thumbnail HttpFiles HttpFacts.

Section Facts.
Context {E : Env} {C : Codec} {B : Backends E} {J : JwtLib} {BC : Bcrypt}.
Context {US : Type} {USI : UserStore US} {UL : UserLaws US} {OB : Type} {OBI : ObjectStore OB}.
Implicit Types (s : Server US OB) (y : Sys) (r : Request).

Abbreviation H := (St (Server US OB * Sys)).

(** The users a server has. *)
Definition usersOf s : gmap string User :=
  match sv_userStore s with Some us => users_of us | None => ∅ end.

(** Only the user store may differ. *)
Definition same_but_users s s' : Prop := exists u, s' = set_sv_userStore u s.

Lemma same_but_users_refl s : same_but_users s s.
Proof. exists (sv_userStore s). by destruct s. Qed.

Lemma same_but_users_set u s s' : same_but_users s s' -> same_but_users s (set_sv_userStore u s').
Proof. intros [u' ->]. by exists u. Qed.

(** The answer to a login or a registration of a user. *)
Definition answers_token s (resp : Response) (uid username role : string) : Prop :=
  exists tok exp, rs_body resp = BJson (tokenDoc uid username tok) /\
    token_for (sv_jwtMgr s) tok uid username role exp.

Lemma issueToken_spec uid username role s y :
  let res := issueToken uid username role (s, y) in
  res.2.1 = s /\
  (rs_status res.1 = StatusOK /\ answers_token s res.1 uid username role \/
   rs_status res.1 = StatusInternalServerError).
Proof.
  cbv zeta. unfold issueToken. rewrite !bind_run. cbn [getX gets fst snd].
  assert (Hs : (Generate (sv_jwtMgr s) uid username role (s, y)).2.1 = s) by done.
  destruct (Generate (sv_jwtMgr s) uid username role (s, y)) as [[e|tok] p] eqn:Hg; cbn [fst snd ret] in *.
  - split; [done|by right].
  - split; [done|]. left. split; [done|]. eexists _, _. split; [done|].
    by apply (Generate_token_for _ _ _ _ _ _ _ _ Hg).
Qed.

(** ** Login *)

(** The uid a login form names. *)
Definition loginUID r : string :=
  if bool_decide (FormValue r "uid" = "") then FormValue r "username" else FormValue r "uid".

Definition orElse (a b : string) : string := if bool_decide (a = "") then b else a.

Lemma passwordLogin_spec uid password s y :
  let res := passwordLogin uid password (s, y) in
  same_but_users s res.2.1 /\ usersOf res.2.1 = usersOf s /\
  match res.1 with
  | inl resp => rs_status resp <> StatusOK /\
      (forall u, usersOf s !! uid = Some u -> CompareHashAndPassword (u_PasswordHash u) password = true ->
         rs_status resp = StatusInternalServerError)
  | inr (username, role) => exists u, usersOf s !! uid = Some u /\
      CompareHashAndPassword (u_PasswordHash u) password = true /\ username = u_Username u /\ role = u_Role u
  end.
Proof.
  cbv zeta. unfold passwordLogin. rewrite bind_run. cbn [getX gets fst snd]. unfold usersOf at 2 3 4.
  destruct (sv_userStore s) as [us|] eqn:Hus.
  2:{ split; [apply same_but_users_refl|]. unfold usersOf. cbn. rewrite Hus. by split. }
  rewrite bind_run. unfold onUsers. destruct (GetByUID_law uid us y) as [Hk Hr].
  destruct (GetByUID uid (us, y)) as [res [us' y']]. cbn [fst snd ret] in Hk, Hr |- *.
  split; [apply same_but_users_set, same_but_users_refl|]. split; [exact Hk|].
  destruct res as [e|[u|]].
  - by split.
  - destruct (CompareHashAndPassword (u_PasswordHash u) password) eqn:Hc; [by exists u|].
    split; [done|]. intros u' Hu' Hc'. rewrite <- Hr in Hu'. simplify_eq. congruence.
  - split; [done|]. intros u Hu. by rewrite <- Hr in Hu.
Qed.

(** C12. In production a login succeeds only by POST, with the password of an
    existing user; the token it answers with is good, until it expires, for that
    uid with the stored role (or the administrator's, if the configuration names
    the uid); and a login changes nothing but the store's connection. *)
Theorem http_login_sound r s y :
  sv_DevMode s = false ->
  let res := HandleLogin r (s, y) in
  same_but_users s res.2.1 /\ usersOf res.2.1 = usersOf s /\
  (rs_status res.1 = StatusOK ->
   rq_Method r = "POST" /\ exists u, usersOf s !! loginUID r = Some u /\
     CompareHashAndPassword (u_PasswordHash u) (FormValue r "password") = true /\
     answers_token s res.1 (loginUID r) (orElse (u_Username u) (loginUID r))
       (if bool_decide (loginUID r ∈ sv_adminUIDs s) then "admin" else u_Role u)).
Proof.
  intros Hdev. cbv zeta. unfold HandleLogin, requirePost, stopIf. fold (loginUID r).
  assert (Href : forall resp : Response, rs_status resp <> StatusOK ->
    same_but_users s s /\ usersOf s = usersOf s /\ (rs_status resp = StatusOK -> False)).
  { intros resp Hr. split; [apply same_but_users_refl|]. by split. }
  case_bool_decide as Hpost; cbn [negb]; [|by destruct (Href (httpError "method not allowed" StatusMethodNotAllowed)) as (?&?&?)].
  destruct (rq_formErr r) as [e|]; [by destruct (Href (httpError e StatusBadRequest)) as (?&?&?)|].
  case_bool_decide as Huid; [by destruct (Href (httpError "uid required" StatusBadRequest)) as (?&?&?)|].
  rewrite bind_run. cbn [getX gets fst snd]. unfold step. rewrite bind_run, Hdev. cbn [negb].
  case_bool_decide as Hpw.
  2:{ by destruct (Href (httpError "password required" StatusUnauthorized)) as (?&?&?). }
  destruct (passwordLogin_spec (loginUID r) (FormValue r "password") s y) as (H1 & H2 & H3).
  destruct (passwordLogin (loginUID r) (FormValue r "password") (s, y)) as [[resp|[un role]] [s1 y1]];
    cbn [fst snd ret andb] in *.
  - split_and!; [done|done|]. intros Hs. by destruct H3.
  - destruct H3 as (u & Hu & Hc & -> & ->).
    destruct (issueToken_spec (loginUID r) (orElse (u_Username u) (loginUID r))
      (if bool_decide (loginUID r ∈ sv_adminUIDs s) then "admin" else u_Role u) s1 y1) as [Hs Ht].
    unfold orElse in Hs, Ht |- *. rewrite Hs. split_and!; [done|done|]. intros Hok. split; [done|].
    exists u. split_and!; [done|done|]. destruct Ht as [[_ Ht]|Ht]; [|by rewrite Hok in Ht].
    destruct H1 as [us' ->]. exact Ht.
Qed.

(** ** Registration *)

Definition registerName r : string := orElse (FormValue r "username") (FormValue r "uid").

#[local] Ltac refused := split; [apply same_but_users_refl|intros Hok; discriminate Hok].

(** A registration that is answered with a token: the uid was free, and the
    server has the user with a hash the password matches. *)
Lemma HandleRegister_spec r s y :
  let res := HandleRegister r (s, y) in
  same_but_users s res.2.1 /\
  (rs_status res.1 = StatusOK ->
   let uid := FormValue r "uid" in
   exists hash created, uid <> "" /\ FormValue r "password" <> "" /\ usersOf s !! uid = None /\
     CompareHashAndPassword hash (FormValue r "password") = true /\
     usersOf res.2.1 = <[uid := mkUser uid (registerName r) hash "user" false created]> (usersOf s) /\
     answers_token s res.1 uid (registerName r)
       (if bool_decide (uid ∈ sv_adminUIDs s) then "admin" else "user")).
Proof.
  cbv zeta. unfold HandleRegister, requirePost, stopIf.
  destruct (negb _); [refused|].
  destruct (rq_formErr r) as [e|]; [refused|].
  case_bool_decide as Hne; [refused|].
  fold (orElse (FormValue r "username") (FormValue r "uid")) (registerName r).
  unfold withStore. rewrite bind_run. cbn [getX gets fst snd]. unfold usersOf at 1 3.
  destruct (sv_userStore s) as [us|] eqn:Hus; [|refused].
  rewrite bind_run. unfold hashPassword. cbn [fst snd].
  destruct (GenerateFromPassword (FormValue r "password") (sys_tick y)) as [e|hash] eqn:Hh;
    [refused|].
  rewrite bind_run. set (y1 := mkSys (S (sys_tick y)) (sys_snow y)).
  set (now := (NowMilli (s, y1)).1). change (NowMilli (s, y1)).2 with (s, mkSys (S (sys_tick y1)) (sys_snow y1)).
  rewrite bind_run. unfold onUsers. set (nu := mkUser _ _ hash "" false now).
  pose proof (CreateUser_law nu us (mkSys (S (sys_tick y1)) (sys_snow y1))) as Hl.
  destruct (CreateUser nu (us, _)) as [[e|] [us' y2]]; cbn [fst snd].
  - split; [apply same_but_users_set, same_but_users_refl|]. cbn. by destruct (_ || _).
  - destruct Hl as [Hn Hl]. rewrite bind_run. cbn [getX gets fst snd].
    destruct (issueToken_spec (FormValue r "uid") (registerName r)
      (if bool_decide (FormValue r "uid" ∈ sv_adminUIDs s) then "admin" else "user")
      (set_sv_userStore (Some us') s) y2) as [Hs Ht].
    cbn [sv_adminUIDs set_sv_userStore]. rewrite Hs.
    split; [apply same_but_users_set, same_but_users_refl|]. intros Hok. exists hash, now.
    split_and!; [by intros H0; apply Hne; left|by intros H0; apply Hne; right|done| |exact Hl|].
    + by apply (compare_generated _ _ _ Hh).
    + destruct Ht as [[_ Ht]|Ht]; [exact Ht|by rewrite Hok in Ht].
Qed.

(** A login with the right password of an existing user is refused by nothing
    but a failure of the database or of the signature, in either mode. *)
Lemma HandleLogin_accepts r s y u :
  rq_Method r = "POST" -> rq_formErr r = None -> loginUID r <> "" -> FormValue r "password" <> "" ->
  usersOf s !! loginUID r = Some u -> CompareHashAndPassword (u_PasswordHash u) (FormValue r "password") = true ->
  rs_status (HandleLogin r (s, y)).1 = StatusOK \/ rs_status (HandleLogin r (s, y)).1 = StatusInternalServerError.
Proof.
  intros Hm Hf Hu Hp Hl Hc. unfold HandleLogin, requirePost, stopIf. fold (loginUID r).
  rewrite bool_decide_true by done. cbn [negb]. rewrite Hf. rewrite bool_decide_false by done.
  rewrite bind_run. cbn [getX gets fst snd]. unfold step. rewrite bind_run.
  rewrite bool_decide_true by done.
  destruct (passwordLogin_spec (loginUID r) (FormValue r "password") s y) as (_ & _ & H3).
  destruct (passwordLogin (loginUID r) (FormValue r "password") (s, y)) as [[resp|[un role]] [s1 y1]];
    cbn [fst snd ret] in *.
  - right. destruct H3 as [_ H3]. by apply (H3 u).
  - match goal with |- context [issueToken ?a ?b ?c] =>
      destruct (issueToken_spec a b c s1 y1) as [_ [[H _]|H]] end; [by left|by right].
Qed.

(** C27. Whoever registers can log in: a registration answered with a token was
    for a free uid and leaves every other user as it was; and from then on, as
    long as the users are not changed, a login with that uid and password is
    answered with a token or an internal error, never refused.  The password is
    kept only as its hash. *)
Theorem http_register_login r s y r' s' y' :
  let res := HandleRegister r (s, y) in
  rs_status res.1 = StatusOK ->
  usersOf s' = usersOf res.2.1 ->
  rq_Method r' = "POST" -> rq_formErr r' = None ->
  FormValue r' "uid" = FormValue r "uid" -> FormValue r' "password" = FormValue r "password" ->
  usersOf s !! FormValue r "uid" = None /\
  (forall uid, uid <> FormValue r "uid" -> usersOf res.2.1 !! uid = usersOf s !! uid) /\
  (rs_status (HandleLogin r' (s', y')).1 = StatusOK \/
   rs_status (HandleLogin r' (s', y')).1 = StatusInternalServerError).
Proof.
  intros res Hok Hs' Hm Hf Hu Hp. destruct (HandleRegister_spec r s y) as [_ Hreg].
  destruct (Hreg Hok) as (hash & created & Hne & Hpw & Hn & Hc & Hus & _). fold res in Hus.
  assert (Hlu : loginUID r' = FormValue r "uid") by (unfold loginUID; rewrite Hu; by rewrite bool_decide_false).
  split_and!; [done|intros uid Hd; rewrite Hus; by rewrite lookup_insert_ne|].
  apply (HandleLogin_accepts r' s' y'
    (mkUser (FormValue r "uid") (registerName r) hash "user" false created)); rewrite ?Hlu, ?Hp; try done.
  rewrite Hs', Hus. apply lookup_insert_eq.
Qed.

(** A password is changed only by a request with a valid token of the user
    and the user's current password, to one of at least six bytes; afterwards the
    new password matches the stored hash, and no other user and nothing else has
    changed. *)
Theorem http_change_password r s y :
  let res := HandleChangePassword r (s, y) in
  rs_status res.1 = StatusOK ->
  exists c u h, claims_of s y (FormValue r "token") c /\ c_UID c = FormValue r "uid" /\
    usersOf s !! c_UID c = Some u /\
    CompareHashAndPassword (u_PasswordHash u) (FormValue r "old_password") = true /\
    (6 <= String.length (FormValue r "new_password"))%nat /\
    CompareHashAndPassword h (FormValue r "new_password") = true /\
    usersOf res.2.1 = <[c_UID c := mkUser (u_UID u) (u_Username u) h (u_Role u) (u_IsDisabled u)
      (u_CreatedAt u)]> (usersOf s) /\
    same_but_users s res.2.1.
Proof.
  cbv zeta. unfold HandleChangePassword, requirePost, stopIf. case_bool_decide as Hpost; cbn [negb]; [|done].
  unfold step. rewrite bind_run.
  destruct (authenticateRequest_spec ChangePassword r s y eq_refl) as [H1 H2].
  cbn [credentials] in H2. rewrite bool_decide_true in H2 by done.
  destruct (authenticateRequest r (s, y)) as [[resp|c] [s1 y1]]; cbn [fst snd ret] in *; subst s1.
  { intros Hok. unfold StatusOK in Hok. lia. }
  destruct H2 as (Hcl & Huid & _).
  case_bool_decide as Hempty; [done|]. destruct (Z.ltb_spec (Z.of_nat (String.length (FormValue r "new_password"))) 6) as [|Hlen]; [done|].
  unfold withStore. rewrite bind_run. cbn [getX gets fst snd]. unfold usersOf at 1 3.
  destruct (sv_userStore s) as [us|] eqn:Hus; [|done].
  rewrite bind_run. unfold onUsers. destruct (GetByUID_law (c_UID c) us y1) as [Hk Hg].
  destruct (GetByUID (c_UID c) (us, y1)) as [[e|[u|]] [us1 y2]]; cbn [fst snd] in *; [done| |done].
  destruct (CompareHashAndPassword (u_PasswordHash u) (FormValue r "old_password")) eqn:Hold; cbn [negb]; [|done].
  rewrite bind_run. unfold hashPassword. cbn [fst snd].
  destruct (GenerateFromPassword (FormValue r "new_password") (sys_tick y2)) as [e|h] eqn:Hh; [done|].
  rewrite bind_run. cbn [getX gets fst snd sv_userStore set_sv_userStore].
  rewrite bind_run. set (y3 := mkSys (S (sys_tick y2)) (sys_snow y2)).
  pose proof (UpdatePassword_law (c_UID c) h us1 y3) as Hl.
  destruct (UpdatePassword (c_UID c) h (us1, y3)) as [[e|] [us2 y4]]; cbn [fst snd ret]; [done|].
  intros _. destruct Hl as (u' & Hu' & Hl). rewrite Hk in Hu', Hl. rewrite <- Hg in Hu'. simplify_eq.
  exists c, u', h. split_and!; try done; [lia|by apply (compare_generated _ _ _ Hh)|by exists (Some us2)].
Qed.

End Facts.
