(* ===== verification/KitHttp.v ===== *)
(** * The kit against the server's HTTP API

    The network of one server: a POST to /login reaches [HandleLogin] with the
    form parsed from its body, a GET of /health reaches [HandleHealth], and the
    reply is the printed response.  The theorems: the kit's login gives the token
    the server issued and the uid it asked for, or reports the server's refusal;
    and it reads the health report as the server meant it. *)

From S2P Require Import Prelude GoStrings Proto Snowflake Process Client Hub HashRing Dedup RateLimiter.
From S2P Require Import Unread GroupStore Json JsonFacts Url Stores LogicClient Producer RouterState RouterDelivery.
From S2P Require Import RouterChat RouterGroup Framing Kit Jwt Http HttpGroups Thumbnail HttpFiles HttpFacts HttpAccounts.

Section KitHttp.
Context {E : Env} {C : Codec} {B : Backends E} {J : JwtLib} {BC : Bcrypt}.
Context {US : Type} {USI : UserStore US} {UL : UserLaws US} {OB : Type} {OBI : ObjectStore OB}.
Context {T : ErrorTexts} (base : string).
Implicit Types (s : Server US OB) (y : Sys).

Definition replyOf (resp : Response) : Reply :=
  mkReply (rs_status resp)
    (match rs_body resp with
     | BError text => text +:+ String (chr 10) ""
     | BJson doc => print doc
     | BData _ data => data
     end) None.

(** A request whose form is [body]. *)
Definition formRequest (method body : string) : Request :=
  let (form, bad) := ParseQuery body in
  mkRequest method "" (if bad : bool then Some "invalid form" else None) form [] None (inl "").

#[export] Instance serverNet : HttpNet (Server US OB) :=
  mkHttpNet _
    (fun url => if bool_decide (url = base +:+ "/health")
                then let! r := HandleHealth (formRequest "GET" "") in ret (inr (replyOf r))
                else ret (inr (replyOf (httpError "404 page not found" StatusNotFound))))
    (fun url _ body => if bool_decide (url = base +:+ "/login")
                       then let! r := HandleLogin (formRequest "POST" body) in ret (inr (replyOf r))
                       else ret (inr (replyOf (httpError "404 page not found" StatusNotFound)))).

(** ** Login *)

(** The request the server sees of [Login]. *)
Definition loginRequest (uid username password : string) : Request :=
  formRequest "POST" (Encode (loginForm uid username password)).

Lemma loginRequest_form uid username password :
  let r := loginRequest uid username password in
  rq_Method r = "POST" /\ rq_formErr r = None /\ FormValue r "uid" = uid /\
  FormValue r "username" = username /\ FormValue r "password" = password /\ FormValue r "role" = "".
Proof.
  cbv zeta. unfold loginRequest, formRequest. rewrite ParseQuery_Encode. unfold loginForm.
  repeat case_bool_decide; simplify_eq; repeat match goal with H : ~ (_ <> _) |- _ => apply dec_stable in H; subst end;
    split_and!; vm_compute; reflexivity.
Qed.

(** The document of a token is read back as it was meant. *)
Lemma decodeLogin_tokenDoc uid username tok :
  utf8 uid -> utf8 username -> utf8 tok ->
  decodeLogin (print (tokenDoc uid username tok)) = Some (mkLoginResult uid username tok).
Proof.
  intros Hu Hn Ht. unfold decodeLogin, UnmarshalObject.
  assert (Hdoc : tokenDoc uid username tok =
    JObject [("token", JString tok); ("uid", JString uid); ("username", JString username)]) by (vm_compute; reflexivity).
  rewrite Hdoc, Parse_print; [vm_compute; reflexivity|].
  assert (Hd : exists d, maxNestingDepth = S d) by (exists (Z.to_nat 9999); unfold maxNestingDepth; lia).
  destruct Hd as [d ->]. apply PrintableObject. repeat (apply Forall_cons; split); [..|apply Forall_nil; exact I];
    (split; [done|by apply PrintableString]).
Qed.

(** Tokens are ASCII. *)
Context (Htok : forall c k tok, SignedString c k = inr tok -> utf8 tok).

(** What a login is answered with, in either mode. *)
Lemma HandleLogin_answer r s y :
  let res := HandleLogin r (s, y) in
  rs_status res.1 = StatusOK ->
  exists name role tok exp, rs_body res.1 = BJson (tokenDoc (loginUID r) name tok) /\
    utf8 tok /\ token_for (sv_jwtMgr s) tok (loginUID r) name role exp /\ sv_jwtMgr res.2.1 = sv_jwtMgr s /\
    (if bool_decide (FormValue r "password" <> "")
     then exists u, usersOf s !! loginUID r = Some u /\
       CompareHashAndPassword (u_PasswordHash u) (FormValue r "password") = true /\
       name = orElse (u_Username u) (loginUID r)
     else sv_DevMode s = true /\ name = orElse (FormValue r "username") (loginUID r)).
Proof.
  cbv zeta. unfold HandleLogin, requirePost, stopIf. fold (loginUID r).
  destruct (negb _); [done|]. destruct (rq_formErr r) as [e|]; [done|].
  case_bool_decide; [done|]. rewrite bind_run. cbn [getX gets fst snd]. unfold step. rewrite bind_run.
  assert (Hissue : forall name role s1 y1, sv_jwtMgr s1 = sv_jwtMgr s ->
    let res := issueToken (loginUID r) name role (s1, y1) in rs_status res.1 = StatusOK ->
    exists tok exp, rs_body res.1 = BJson (tokenDoc (loginUID r) name tok) /\ utf8 tok /\
      token_for (sv_jwtMgr s) tok (loginUID r) name role exp /\ sv_jwtMgr res.2.1 = sv_jwtMgr s).
  { intros name role s1 y1 Hm. cbv zeta. unfold issueToken. rewrite !bind_run. cbn [getX gets fst snd].
    assert (Hs : (Generate (sv_jwtMgr s1) (loginUID r) name role (s1, y1)).2.1 = s1) by done.
    destruct (Generate (sv_jwtMgr s1) (loginUID r) name role (s1, y1)) as [[e|tok] p] eqn:Hg; cbn [fst snd ret] in *;
      [done|]. intros _. exists tok, (NewNumericDate (readings E (sys_tick y1) + expiration (sv_jwtMgr s1))).
    split; [done|]. split.
    - eapply Htok. unfold Generate, bind, ret, Now in Hg. simpl in Hg. by injection Hg.
    - split; [|by rewrite Hs]. rewrite <- Hm. by apply (Generate_token_for _ _ _ _ _ _ _ _ Hg). }
  destruct (bool_decide (FormValue r "password" <> "")) eqn:Hp.
  - pose proof (passwordLogin_spec (loginUID r) (FormValue r "password") s y) as (H1 & H2 & H3).
    destruct (passwordLogin (loginUID r) (FormValue r "password") (s, y)) as [[resp|[un role]] [s1 y1]];
      cbn [fst snd ret] in *; [by destruct H3|].
    destruct H3 as (u & Hu & Hc & -> & ->). destruct H1 as [us ->]. intros Hok.
    edestruct (Hissue (orElse (u_Username u) (loginUID r))) as (tok & exp & H3 & H4 & H5 & H6); [|exact Hok|]; [done|].
    eexists _, _, tok, exp. split_and!; [exact H3|exact H4|exact H5|exact H6|]. by exists u.
  - destruct (sv_DevMode s) eqn:Hdev; cbn [negb ret fst snd]; [|done]. intros Hok.
    edestruct (Hissue (orElse (FormValue r "username") (loginUID r))) as (tok & exp & H3 & H4 & H5 & H6); [|exact Hok|]; [done|].
    eexists _, _, tok, exp. split_and!; [exact H3|exact H4|exact H5|exact H6|done|done].
Qed.

(** C18. A login by the kit, against this server: it succeeds exactly when the
    server answers 200, and then gives the token and the uid of the server's
    document; the token is good for that uid until it expires, and was given for
    the user's password, or in development mode for none.  Otherwise it reports
    the server's status and text.  The form the kit encodes is the form the
    server reads, whatever bytes the arguments hold. *)
Theorem kit_login uid username password s y :
  uid <> "" -> utf8 uid -> utf8 username -> (forall u, usersOf s !! uid = Some u -> utf8 (u_Username u)) ->
  let res := Kit.Login (base +:+ "/login") uid username password (s, y) in
  let resp := (HandleLogin (loginRequest uid username password) (s, y)).1 in
  match res.1 with
  | inr (tok, u) => rs_status resp = StatusOK /\ u = uid /\
      (exists name role exp, token_for (sv_jwtMgr s) tok uid name role exp) /\
      (if bool_decide (password <> "")
       then exists usr, usersOf s !! uid = Some usr /\ CompareHashAndPassword (u_PasswordHash usr) password = true
       else sv_DevMode s = true)
  | inl err => rs_status resp <> StatusOK /\
      err = PlainError ("login returned " +:+ itoa (rs_status resp) +:+ ": " +:+ rp_body (replyOf resp))
  end.
Proof.
  intros Hne Hu Hn Hus. cbv zeta. destruct (loginRequest_form uid username password) as (_ & _ & Hf & Hfn & Hfp & _).
  pose proof (HandleLogin_answer (loginRequest uid username password) s y) as Ha. cbv zeta in Ha.
  unfold Kit.Login, try. rewrite bind_run. cbn [http_Post serverNet]. rewrite bool_decide_true by done.
  rewrite bind_run. fold (loginRequest uid username password).
  assert (HU : loginUID (loginRequest uid username password) = uid)
    by (unfold loginUID; rewrite Hf; by rewrite bool_decide_false).
  rewrite HU, Hfp, Hfn in Ha.
  destruct (HandleLogin _ (s, y)) as [resp [s' y']]. cbn [fst snd ret] in *.
  cbn [replyOf rp_readErr rp_status]. change (rs_status resp =? 200) with (rs_status resp =? StatusOK).
  destruct (Z.eqb_spec (rs_status resp) StatusOK) as [Hs|Hs]; cbn [negb]; [|by split].
  destruct (Ha Hs) as (name & role & tok & exp & Hb & Ht & Htf & Hm & Hp).
  assert (Hname : utf8 name).
  { destruct (bool_decide (password <> "")).
    - destruct Hp as (usr & Hl & _ & ->). unfold orElse. case_bool_decide; [done|by eapply Hus].
    - destruct Hp as [_ ->]. unfold orElse. by case_bool_decide. }
  unfold replyOf at 1. rewrite Hb. cbn [rp_body]. rewrite decodeLogin_tokenDoc by done. cbn [fst ret lr_Token lr_UID].
  split_and!; [done|done|by eexists _, _, _|].
  destruct (bool_decide (password <> "")); [destruct Hp as (usr & ? & ? & _); by exists usr|by destruct Hp].
Qed.

(** ** Health *)

Lemma utf8_ascii c t : code c < 128 -> utf8 t -> utf8 (String c t).
Proof.
  intros Hc Ht. unfold utf8. cbn [String.length validUTF8 decodeRune].
  by rewrite (proj2 (Z.ltb_lt _ _) Hc).
Qed.

Lemma utf8_unhealthy e : utf8 e -> utf8 ("unhealthy: " +:+ e).
Proof. intros He. repeat (apply utf8_ascii; [by vm_compute|]). exact He. Qed.

(** The names of the checks and what they find are text. *)
Definition checks_text s : Prop := forall name check, sv_checks s !! name = Some check ->
  utf8 name /\ forall n e, check n = Some e -> utf8 e.

Definition deps_text (deps : gmap string string) : Prop := map_Forall (fun k v => utf8 k /\ utf8 v) deps.

Lemma runChecks_text names deps ok s y :
  checks_text s -> (forall n, n ∈ names -> is_Some (sv_checks s !! n)) -> deps_text deps ->
  let res := runChecks names deps ok (s, y) in
  deps_text res.1.1 /\ res.2.1 = s.
Proof.
  intros Hs. revert deps ok y. induction names as [|name names IH]; intros deps ok y Hin Hd; [done|].
  cbv zeta. cbn [runChecks]. rewrite bind_run. cbn [getX gets fst snd]. rewrite bind_run. cbn [fst snd].
  destruct (Hin name) as [check Hc]; [by left|]. rewrite Hc. destruct (Hs name check Hc) as [Hn He].
  assert (Hin' : forall n, n ∈ names -> is_Some (sv_checks s !! n)) by (intros n Hi; apply Hin; by right).
  destruct (check (sys_tick y)) as [e|] eqn:Hf; (apply IH; [done|]); (apply map_Forall_insert_2; [|done]);
    (split; [done|]); [by eapply utf8_unhealthy, He|done].
Qed.

Lemma healthOf_text s y : checks_text s -> let res := healthOf (s, y) in deps_text res.1.1 /\ res.2.1 = s.
Proof.
  intros Hs. cbv zeta. unfold healthOf. rewrite bind_run. cbn [getX gets fst snd]. rewrite bind_run.
  cbn [RangeKeys fst snd]. apply runChecks_text; [done| |apply map_Forall_empty].
  intros n Hn. rewrite order_perm, elem_of_elements, elem_of_dom in Hn. exact Hn.
Qed.

(** A map of strings is read back. *)
Lemma decodeMap_deps deps : decodeMap (Some ∅) (depsDoc deps) = Some deps.
Proof.
  unfold depsDoc, jmap, decodeMap. set (g := fun p : string * string => (p.1, JString p.2)).
  assert (Hp : merge_sort (fun a b => String.le a.1 b.1) (map g (map_to_list deps)) ≡ₚ map g (map_to_list deps))
    by apply merge_sort_Permutation.
  destruct (Permutation_map_inv _ _ Hp) as (l & -> & Hl).
  assert (Hfold : forall l m, foldl (fun m f => match m, decodeString (Some ""%string) f.2 with
      | Some m, Some s => Some (<[f.1 := s]> m) | _, _ => None end) (Some m) (map g l) =
      Some (foldl (fun (m : gmap string string) p => <[p.1 := p.2]> m) m l)).
  { clear. induction l as [|p l IH]; intros m; [done|]. cbn [map foldl g decodeString snd fst]. apply IH. }
  rewrite Hfold. f_equal. rewrite <- (list_to_map_to_list deps).
  assert (Hrev : forall l (m : gmap string string), foldl (fun m p => <[p.1 := p.2]> m) m l = foldr (fun p m => <[p.1 := p.2]> m) m (reverse l)).
  { clear. induction l as [|p l IH]; intros m; [done|]. rewrite reverse_cons, foldr_app. apply IH. }
  rewrite Hrev. change (list_to_map (M := gmap string string) (reverse l) = list_to_map (map_to_list deps)).
  symmetry. apply list_to_map_proper; [apply NoDup_fst_map_to_list|]. by rewrite Hl, reverse_Permutation.
Qed.

Lemma depsDoc_printable deps d : deps_text deps -> printable (S d) (depsDoc deps).
Proof.
  intros Hd. apply PrintableObject. rewrite merge_sort_Permutation. apply Forall_fmap, Forall_forall.
  intros [k v] Hin. apply elem_of_map_to_list in Hin. destruct (Hd k v Hin). split; [done|by apply PrintableString].
Qed.

Lemma healthDoc_sorted a b c d :
  jmap [("status", a); ("connections", b); ("dependencies", c); ("memory", d)] =
  JObject [("connections", b); ("dependencies", c); ("memory", d); ("status", a)].
Proof. vm_compute. reflexivity. Qed.

Lemma memoryDoc_sorted alloc goroutines :
  memoryDoc alloc goroutines =
  JObject [("alloc_mb", JInt (alloc / 1024 / 1024)); ("goroutines", JInt goroutines)].
Proof. unfold memoryDoc. generalize (JInt (alloc / 1024 / 1024)) (JInt goroutines). intros. vm_compute. reflexivity. Qed.

Lemma healthDoc_values a b c d :
  let fs := [("connections", a); ("dependencies", b); ("memory", c); ("status", d)] in
  valuesOf "status" fs = [d] /\ valuesOf "connections" fs = [a] /\ valuesOf "dependencies" fs = [b] /\
  valuesOf "memory" fs = [c].
Proof. vm_compute. by split_and!. Qed.

Lemma memoryDoc_values a b :
  let fs := [("alloc_mb", a); ("goroutines", b)] in
  valuesOf "alloc_mb" fs = [a] /\ valuesOf "goroutines" fs = [b].
Proof. vm_compute. by split_and!. Qed.

(** The struct a health report is decoded into. *)
Lemma decodeHealth_doc status n deps alloc goroutines :
  utf8 status -> deps_text deps -> in_int64 n -> 0 <= alloc < 2 ^ 64 -> 0 <= goroutines < 2 ^ 63 ->
  decodeHealth (print (jmap [("status", JString status); ("connections", JInt n); ("dependencies", depsDoc deps);
    ("memory", memoryDoc alloc goroutines)])) =
  Some (mkHealthStatus status n deps (alloc / 1024 / 1024) goroutines).
Proof.
  intros Hs Hd Hn Ha Hg. rewrite healthDoc_sorted, memoryDoc_sorted.
  assert (Hmb : in_int64 (alloc / 1024 / 1024)).
  { rewrite Z.div_div by lia. unfold in_int64. split; [apply Z.le_trans with 0; [done|apply Z.div_pos; lia]|].
    apply Z.div_lt_upper_bound; lia. }
  unfold decodeHealth, UnmarshalObject. rewrite Parse_print.
  2: { assert (Hdep : exists d, maxNestingDepth = S (S d)) by (exists (Z.to_nat 9998); unfold maxNestingDepth; lia).
       destruct Hdep as [d ->]. apply PrintableObject. repeat (apply Forall_cons; split); [..|apply Forall_nil; exact I];
         (split; [done|]).
       - apply PrintableInt.
       - by apply depsDoc_printable.
       - apply PrintableObject. repeat (apply Forall_cons; split); [..|apply Forall_nil; exact I]; (split; [done|apply PrintableInt]).
       - by apply PrintableString. }
  cbn [mbind option_bind].
  assert (Hint : forall z, in_int64 z -> decodeInt (- 2 ^ 63) (2 ^ 63 - 1) (Some 0) (JInt z) = Some z).
  { intros z Hz. cbn [decodeInt JInt]. rewrite parseInt_itoa. unfold in_int64 in Hz.
    by replace ((- 2 ^ 63 <=? z) && (z <=? 2 ^ 63 - 1)) with true by lia. }
  unfold field_string, field_int64. destruct healthDoc_values with (a := JInt n) (b := depsDoc deps) (d := JString status)
    (c := JObject [("alloc_mb", JInt (alloc / 1024 / 1024)); ("goroutines", JInt goroutines)]) as (-> & -> & -> & ->).
  cbn [foldl decodeString mbind option_bind]. rewrite Hint by done. cbn [mbind option_bind].
  rewrite decodeMap_deps. cbn [mbind option_bind decodeStruct app].
  destruct memoryDoc_values with (a := JInt (alloc / 1024 / 1024)) (b := JInt goroutines) as (-> & ->).
  cbn [foldl]. by rewrite !Hint by first [done|unfold in_int64; lia].
Qed.

(** The kit reads the report of /health as the server meant it: the number
    of connections, the finding of every registered check, whether all are
    well, and the memory in whole megabytes. *)
Theorem kit_health s y :
  checks_text s -> in_int64 (onSvRouter (onClients Count) (s, y)).1 ->
  let found := (healthOf (s, y)).1 in
  exists h, (GetHealth (base +:+ "/health") (s, y)).1 = inr h /\
    hs_Connections h = (onSvRouter (onClients Count) (s, y)).1 /\ hs_Dependencies h = found.1 /\
    hs_Status h = (if found.2 : bool then "ok" else "degraded") /\ 0 <= hs_AllocMB h < 2 ^ 44.
Proof.
  intros Hs Hc. cbv zeta. destruct (healthOf_text s y Hs) as [Hd Hk].
  unfold GetHealth, try. rewrite bind_run. cbn [http_Get serverNet]. rewrite bool_decide_true by done.
  rewrite bind_run. unfold HandleHealth. rewrite bind_run. cbv beta.
  destruct (healthOf (s, y)) as [[deps ok] [s' y']]. cbn [fst snd] in *. subst s'.
  rewrite !bind_run. cbn [ReadAlloc fst snd]. set (y1 := mkSys _ _).
  assert (Hn : (onSvRouter (onClients Count) (s, y1)).1 = (onSvRouter (onClients Count) (s, y)).1) by (by destruct s).
  rewrite Hn. set (p := (onSvRouter (onClients Count) (s, y1)).2).
  assert (Hg : exists k, (NumGoroutine p).1 = numGoroutine E k) by (destruct p; by eexists).
  destruct Hg as [k Hg]. rewrite Hg. cbn [fst snd ret replyOf rp_body rp_status writeJson rs_body].
  destruct (runtime_range E (sys_tick y')) as [Hm _], (runtime_range E k) as [_ Hk'].
  rewrite decodeHealth_doc by (try done; by destruct ok).
  eexists. split; [done|]. cbn [hs_Connections hs_Dependencies hs_Status hs_AllocMB].
  split_and!; try done; rewrite Z.div_div by lia; [apply Z.div_pos; lia|].
  apply Z.div_lt_upper_bound; lia.
Qed.
End KitHttp.
