(* ===== verification/LoadMetrics.v ===== *)
(** * What a load test measures (src/bench/loadtest/metrics.go)

    Series of latencies in binary64 with their percentiles, the counters, the
    sampler of the server's health with its pointers, and the result as a table
    or as JSON.  How fmt and encoding/json print a float is a parameter. *)

From Stdlib Require Import SpecFloat.
From S2P Require Import Prelude Proto Snowflake Process Json RateLimiter Kit.

(** ** Floats *)

Definition flt (x y : float64) : bool := SFltb x y.
Definition isNaN (x : float64) : bool := match x with S754_nan => true | _ => false end.

(** The order of [sort.Float64s]: NaN before the numbers. *)
Definition floatLess (x y : float64) : bool := flt x y || (isNaN x && negb (isNaN y)).
Definition floatLe (x y : float64) : Prop := floatLess y x = false.
#[export] Instance floatLe_dec x y : Decision (floatLe x y).
Proof. unfold floatLe. apply _. Defined.

(** [int(math.Ceil(x))]; a float without a value in the range of [int] gives
    what amd64 gives. *)
Definition ceilInt (x : float64) : Z :=
  let out := - 2 ^ 63 in
  match x with
  | S754_zero _ => 0
  | S754_infinity _ | S754_nan => out
  | S754_finite neg m e =>
      let m := if neg then Z.neg m else Z.pos m in
      let v := if 0 <=? e then m * 2 ^ e else - ((- m) / 2 ^ (- e)) in
      if bool_decide (in_int64 v) then v else out
  end.

(** ** A series *)

(** [values] in the order they were added; the lock makes each method a step. *)
Definition series : Type := list float64.

Definition add (ms : float64) (s : series) : series :=
  s ++ [if flt ms (of_int 0) then of_int 0 else ms].

Definition count (s : series) : Z := Z.of_nat (length s).

Definition sortFloats (s : series) : series := merge_sort floatLe s.

(** The place of percentile [p] among [n > 0] sorted samples. *)
Definition pctIndex (p : float64) (n : Z) : Z :=
  let idx := wrap64 (ceilInt (fmul (fdiv p (of_int 100)) (of_int n)) - 1) in
  let idx := if idx <? 0 then 0 else idx in
  if n <=? idx then n - 1 else idx.

(** The Go map of the percentiles as pairs in the order they are set; asking
    twice for one percentile sets the same value. *)
Definition percentiles (pcts : list float64) (s : series) : list (float64 * float64) :=
  match s with
  | [] => []
  | _ =>
      let sorted := sortFloats s in
      map (fun p => (p, nth (Z.to_nat (pctIndex p (count s))) sorted (of_int 0))) pcts
  end.

(** ** Counters *)

Record stats := mkStats {
  delivery : series; ack : series; fanout : series; request : series; hist : series;
  sent : Z; delivered : Z; acked : Z; failed : Z; connects : Z; connectOK : Z; drops : Z;
  searchOK : Z; searchFail : Z; historyOK : Z; historyMsg : Z; hbOK : Z; hbFail : Z
}.

Definition newStats : stats := mkStats [] [] [] [] [] 0 0 0 0 0 0 0 0 0 0 0 0 0.

Inductive Counter :=
  Sent | Delivered | Acked | Failed | Connects | ConnectOK | SearchOK | SearchFail | HistoryOK | HistoryMsg | HbOK | HbFail.

Definition loadCounter (c : Counter) (st : stats) : Z :=
  match c with
  | Sent => sent st | Delivered => delivered st | Acked => acked st | Failed => failed st
  | Connects => connects st | ConnectOK => connectOK st | SearchOK => searchOK st
  | SearchFail => searchFail st | HistoryOK => historyOK st | HistoryMsg => historyMsg st
  | HbOK => hbOK st | HbFail => hbFail st
  end.

(** [x.Add(n)] of an [atomic.Int64]. *)
Definition addTo (c : Counter) (n : Z) (st : stats) : stats :=
  let up (c' : Counter) (v : Z) := if match c, c' with
    | Sent, Sent | Delivered, Delivered | Acked, Acked | Failed, Failed | Connects, Connects
    | ConnectOK, ConnectOK | SearchOK, SearchOK | SearchFail, SearchFail | HistoryOK, HistoryOK
    | HistoryMsg, HistoryMsg | HbOK, HbOK | HbFail, HbFail => true
    | _, _ => false end then wrap64 (v + n) else v in
  mkStats (delivery st) (ack st) (fanout st) (request st) (hist st)
    (up Sent (sent st)) (up Delivered (delivered st)) (up Acked (acked st)) (up Failed (failed st))
    (up Connects (connects st)) (up ConnectOK (connectOK st)) (drops st)
    (up SearchOK (searchOK st)) (up SearchFail (searchFail st)) (up HistoryOK (historyOK st))
    (up HistoryMsg (historyMsg st)) (up HbOK (hbOK st)) (up HbFail (hbFail st)).

Inductive Series := Delivery | Ack | Fanout | RequestLat | Hist.

Definition addSample (w : Series) (ms : float64) (st : stats) : stats :=
  mkStats (match w with Delivery => add ms (delivery st) | _ => delivery st end)
    (match w with Ack => add ms (ack st) | _ => ack st end)
    (match w with Fanout => add ms (fanout st) | _ => fanout st end)
    (match w with RequestLat => add ms (request st) | _ => request st end)
    (match w with Hist => add ms (hist st) | _ => hist st end)
    (sent st) (delivered st) (acked st) (failed st) (connects st) (connectOK st) (drops st)
    (searchOK st) (searchFail st) (historyOK st) (historyMsg st) (hbOK st) (hbFail st).

(** ** The sampler *)

Record sample := mkSample { Connections : Z; AllocMB : Z; Goroutines : Z }.

(** [min], [max] and [last] are pointers: places in a store of samples. *)
Record serviceSampler := mkSampler {
  store : list sample;
  sp_min : option nat;
  sp_max : option nat;
  sp_last : option nat;
  sp_count : Z
}.

Definition newSampler : serviceSampler := mkSampler [] None None None 0.

Definition deref (s : serviceSampler) (p : option nat) : sample :=
  default (mkSample 0 0 0) (p ≫= fun i => store s !! i).

(** An assignment to a field of the sample a pointer points to. *)
Definition assign (p : option nat) (f : sample -> sample) (s : serviceSampler) : serviceSampler :=
  match p with
  | Some i => mkSampler (alter f i (store s)) (sp_min s) (sp_max s) (sp_last s) (sp_count s)
  | None => s
  end.

Definition setConnections (v : Z) (x : sample) : sample := mkSample v (AllocMB x) (Goroutines x).
Definition setAllocMB (v : Z) (x : sample) : sample := mkSample (Connections x) v (Goroutines x).
Definition setGoroutines (v : Z) (x : sample) : sample := mkSample (Connections x) (AllocMB x) v.

(** One of the six comparisons at the end of [record]. *)
Definition compareField (get : sample -> Z) (set : Z -> sample -> sample) (v : Z) (s : serviceSampler) : serviceSampler :=
  let s := if v <? get (deref s (sp_min s)) then assign (sp_min s) (set v) s else s in
  if get (deref s (sp_max s)) <? v then assign (sp_max s) (set v) s else s.

(** [s.record(&sample{...})]: a new sample. *)
Definition record (p : sample) (s : serviceSampler) : serviceSampler :=
  let i := length (store s) in
  let s := mkSampler (store s ++ [p]) (sp_min s) (sp_max s) (Some i) (sp_count s + 1) in
  match sp_min s with
  | None => mkSampler (store s) (Some i) (Some i) (sp_last s) (sp_count s)
  | Some _ =>
      compareField Goroutines setGoroutines (Goroutines p)
      (compareField AllocMB setAllocMB (AllocMB p)
      (compareField Connections setConnections (Connections p) s))
  end.

Record ServiceSummary := mkSummary {
  MinConnections : Z; MaxConnections : Z; LastConnections : Z;
  MinAllocMB : Z; MaxAllocMB : Z; LastAllocMB : Z;
  MinGoroutines : Z; MaxGoroutines : Z; LastGoroutines : Z;
  Samples : Z
}.

Definition summary (s : serviceSampler) : option ServiceSummary :=
  if sp_count s =? 0 then None
  else
    let mn := deref s (sp_min s) in let mx := deref s (sp_max s) in let l := deref s (sp_last s) in
    Some (mkSummary (Connections mn) (Connections mx) (Connections l) (AllocMB mn) (AllocMB mx) (AllocMB l)
      (Goroutines mn) (Goroutines mx) (Goroutines l) (sp_count s)).

(** One tick of the sampler's goroutine: a failed request is not recorded. *)
Definition samplerTick {E : Env} {T : ErrorTexts} {W : Type} {HN : HttpNet W} (healthURL : string)
  : St (serviceSampler * W * Sys) unit :=
  fun '((s, w), y) =>
    let '(res, (w, y)) := GetHealth healthURL (w, y) in
    (tt, (match res with
          | inr h => record (mkSample (hs_Connections h) (hs_AllocMB h) (hs_Goroutines h)) s
          | inl _ => s
          end, w, y)).

(** The interval the sampler is started with. *)
Definition samplerInterval (interval : Z) : Z := if interval <=? 0 then 10 * Second else interval.

(** How long the stop function waits, by whether [done] has been closed, which
    ends the goroutine. *)
Definition stopWait (doneClosed : bool) (interval : Z) : Z :=
  if doneClosed then 0 else samplerInterval interval + Second.

(** ** The result *)

Record Result := mkResult {
  r_Scenario : string; r_DurationS : float64;
  r_Sent : Z; r_Delivered : Z; r_Acked : Z; r_Failed : Z; r_Drops : Z; r_Connects : Z; r_ConnectOK : Z;
  r_SearchOK : Z; r_SearchFail : Z; r_HistoryOK : Z; r_HistoryMsg : Z; r_HbOK : Z; r_HbFail : Z;
  r_Delivery : list (float64 * float64); r_AckLat : list (float64 * float64); r_Fanout : list (float64 * float64);
  r_Request : list (float64 * float64); r_Hist : list (float64 * float64);
  r_Service : option ServiceSummary
}.

(** How a float is printed by [%.1f], by [%v] and by encoding/json, which has no
    text for NaN and infinities. *)
Class FloatText := mkFloatText {
  fixed1 : float64 -> string;
  shortest : float64 -> string;
  jsonFloat : float64 -> option string
}.

Section Print.
Context {FT : FloatText}.

(** The keys of a map, once each, in order. *)
Definition sortedPcts (m : list (float64 * float64)) : list (float64 * float64) :=
  merge_sort (fun a b => floatLe a.1 b.1)
    (foldr (fun e l => if existsb (fun e' => negb (floatLess e.1 e'.1) && negb (floatLess e'.1 e.1)) l then l else e :: l) [] m).

Definition newline : string := String (chr 10) "".

Definition printSeries (label : string) (m : list (float64 * float64)) : string :=
  match m with
  | [] => ""
  | _ => label +:+ ":" +:+
      foldr (fun e rest => " P" +:+ shortest e.1 +:+ "=" +:+ shortest e.2 +:+ rest) newline (sortedPcts m)
  end.

Definition perSecond (n : Z) (r : Result) : string := fixed1 (fdiv (of_int n) (r_DurationS r)).

Definition line (b : bool) (text : string) : string := if b then text +:+ newline else "".

Definition serviceLine (s : ServiceSummary) : string :=
  "服务端: 连接 min/max/last = " +:+ itoa (MinConnections s) +:+ "/" +:+ itoa (MaxConnections s) +:+ "/" +:+ itoa (LastConnections s) +:+
  " 内存(MB) " +:+ itoa (MinAllocMB s) +:+ "/" +:+ itoa (MaxAllocMB s) +:+ "/" +:+ itoa (LastAllocMB s) +:+
  " goroutines " +:+ itoa (MinGoroutines s) +:+ "/" +:+ itoa (MaxGoroutines s) +:+ "/" +:+ itoa (LastGoroutines s) +:+
  " 采样 " +:+ itoa (Samples s).

Definition writeTable (r : Result) : string :=
  newline +:+ "=== 压测结果: " +:+ r_Scenario r +:+ " ===" +:+ newline +:+
  "时长: " +:+ fixed1 (r_DurationS r) +:+ "s" +:+ newline +:+
  line (0 <? r_Sent r) ("发送: " +:+ itoa (r_Sent r) +:+ " (" +:+ perSecond (r_Sent r) r +:+ " msg/s)") +:+
  line (0 <? r_Delivered r) ("投递: " +:+ itoa (r_Delivered r) +:+ " (" +:+ perSecond (r_Delivered r) r +:+ " msg/s)") +:+
  line (0 <? r_Acked r)
    (let miss := wrap64 (r_Sent r - r_Acked r) in
     let miss := if miss <? 0 then 0 else miss in
     "ACK:  " +:+ itoa (r_Acked r) +:+ " (" +:+ perSecond (r_Acked r) r +:+ " msg/s) 未确认 " +:+ itoa miss) +:+
  line (0 <? r_Connects r)
    (let rate := fmul (fdiv (of_int (r_ConnectOK r)) (of_int (r_Connects r))) (of_int 100) in
     "连接: " +:+ itoa (r_Connects r) +:+ " 成功 " +:+ itoa (r_ConnectOK r) +:+ " (" +:+ fixed1 rate +:+ "%)") +:+
  line (0 <? wrap64 (r_SearchOK r + r_SearchFail r))
    ("搜索: " +:+ itoa (r_SearchOK r) +:+ " 成功 / " +:+ itoa (r_SearchFail r) +:+ " 失败 (" +:+
     perSecond (r_SearchOK r) r +:+ " rps)") +:+
  line (0 <? r_HistoryOK r)
    ("历史查询: " +:+ itoa (r_HistoryOK r) +:+ " 次 / " +:+ itoa (r_HistoryMsg r) +:+ " 条消息 (" +:+
     perSecond (r_HistoryOK r) r +:+ " rps)") +:+
  line (0 <? wrap64 (r_HbOK r + r_HbFail r))
    ("心跳: " +:+ itoa (r_HbOK r) +:+ " 成功 / " +:+ itoa (r_HbFail r) +:+ " 失败") +:+
  printSeries "投递延迟 (ms)" (r_Delivery r) +:+
  printSeries "ACK延迟 (ms)" (r_AckLat r) +:+
  printSeries "扇出逐条最差 (ms)" (r_Fanout r) +:+
  printSeries "请求延迟 (ms)" (r_Request r) +:+
  printSeries "历史翻页延迟 (ms)" (r_Hist r) +:+
  line (0 <? r_Failed r) ("错误: " +:+ itoa (r_Failed r)) +:+
  match r_Service r with Some s => serviceLine s +:+ newline | None => "" end.

(** ** JSON *)

Definition serviceDoc (s : ServiceSummary) : json :=
  JObject [("min_connections", JInt (MinConnections s)); ("max_connections", JInt (MaxConnections s));
    ("last_connections", JInt (LastConnections s)); ("min_alloc_mb", JInt (MinAllocMB s));
    ("max_alloc_mb", JInt (MaxAllocMB s)); ("last_alloc_mb", JInt (LastAllocMB s));
    ("min_goroutines", JInt (MinGoroutines s)); ("max_goroutines", JInt (MaxGoroutines s));
    ("last_goroutines", JInt (LastGoroutines s)); ("samples", JInt (Samples s))].

(** A [map[float64]float64] with [omitempty]: nothing when empty, and otherwise
    the error of a type encoding/json does not support. *)
Definition latencyField (m : list (float64 * float64)) : option (list (string * json)) :=
  match m with [] => Some [] | _ => None end.

(** The document [enc.Encode(r)] writes, unless it gives an error. *)
Definition resultDoc (r : Result) : option json :=
  duration ← jsonFloat (r_DurationS r);
  d ← latencyField (r_Delivery r); a ← latencyField (r_AckLat r); f ← latencyField (r_Fanout r);
  q ← latencyField (r_Request r); h ← latencyField (r_Hist r);
  Some (JObject ([("scenario", JString (r_Scenario r)); ("duration_s", JNumber duration); ("sent", JInt (r_Sent r));
    ("delivered", JInt (r_Delivered r)); ("acked", JInt (r_Acked r)); ("failed", JInt (r_Failed r));
    ("drops", JInt (r_Drops r)); ("connects", JInt (r_Connects r)); ("connect_ok", JInt (r_ConnectOK r));
    ("search_ok", JInt (r_SearchOK r)); ("search_fail", JInt (r_SearchFail r)); ("history_ok", JInt (r_HistoryOK r));
    ("history_messages", JInt (r_HistoryMsg r)); ("heartbeat_ok", JInt (r_HbOK r)); ("heartbeat_fail", JInt (r_HbFail r))]
    ++ d ++ a ++ f ++ q ++ h ++ match r_Service r with Some s => [("service", serviceDoc s)] | None => [] end)).

(** The encoder with [SetIndent] of two spaces. *)
Fixpoint spaces (n : nat) : string := match n with O => "" | S n => "  " +:+ spaces n end.

Fixpoint printIndent (depth : nat) (v : json) : string :=
  let sep := newline +:+ spaces (S depth) in
  match v with
  | JArray (_ :: _ as l) =>
      "[" +:+ sep +:+ String.concat ("," +:+ sep) (map (printIndent (S depth)) l) +:+ newline +:+ spaces depth +:+ "]"
  | JObject (_ :: _ as fs) =>
      "{" +:+ sep +:+ String.concat ("," +:+ sep)
        (map (fun f => match f with (k, x) => printString k +:+ ": " +:+ printIndent (S depth) x end) fs)
        +:+ newline +:+ spaces depth +:+ "}"
  | _ => print v
  end.

(** The error of [Encode] is dropped; nothing is written then. *)
Definition writeJSON (r : Result) : string :=
  match resultDoc r with Some doc => printIndent 0 doc +:+ newline | None => "" end.

End Print.
