(* ===== verification/LoadConn.v ===== *)
(** * Connections and options of a load test (src/bench/loadtest/conn.go, main.go)

    The two transports behind one interface, the handshake of [dial], the pool
    of logins, the flags, and [main] up to the scenario it runs. *)

From Stdlib Require Import SpecFloat.
From S2P Require Import Prelude GoStrings Proto Snowflake Process Json JsonFacts Url RateLimiter Framing Kit LoadMetrics.

(** ** Texts *)

Fixpoint zeros (n : nat) : string := match n with O => "" | S n => String "0" (zeros n) end.

(** [%06d] and the like, of a number that is not negative. *)
Definition padded (width : nat) (n : Z) : string := zeros (width - String.length (itoa n)) +:+ itoa n.

Definition userUID (i : Z) : string := "user-" +:+ padded 6 i.

(** A run that returns, panics, or waits for ever. *)
Inductive Ran (A : Type) := Returns (a : A) | Panics | Hangs.
Arguments Returns {A} a.
Arguments Panics {A}.
Arguments Hangs {A}.

(** ** The transports *)

Section Conn.
Context {E : Env} {C : Codec} {T : ErrorTexts} {W : Type} {TN : TcpNet W} {WN : WsNet W} {HN : HttpNet W} {UP : UrlParser}.

Inductive benchConn := wsConn (c : WConn) | tcpConn (c : TConn).

Abbreviation K := (St (W * Sys)).

Definition ReadMsg (conn : benchConn) (d : Z) : K (GoError + Message) :=
  match conn with wsConn c => ReadMessage c d | tcpConn c => ReadFrame c d end.

Definition WriteMsg (conn : benchConn) (m : Message) (d : Z) : K (GoError + unit) :=
  match conn with wsConn c => WriteMessage c m d | tcpConn c => WriteFrame c m d end.

Definition CloseMsg (conn : benchConn) : K (option GoError) :=
  match conn with wsConn c => CloseWS (Some c) | tcpConn c => CloseTCP (Some c) end.

(** The statement after a call whose error closes the connection first. *)
Definition orClose {A R} (conn : benchConn) (wrap : GoError -> GoError) (m : K (GoError + A)) (k : A -> K (GoError + R))
  : K (GoError + R) :=
  let! r := m in
  match r with
  | inl err => CloseMsg conn ;;! ret (inl (wrap err))
  | inr a => k a
  end.

(** What the peer answers over TCP is not looked at. *)
Definition dial (transport wsURL tcpAddr token : string) : K (GoError + benchConn) :=
  if bool_decide (transport = "tcp") then
    try (WrapError "tcp dial: ") (ConnectTCP tcpAddr) (fun tc =>
    orClose (tcpConn tc) (WrapError "tcp login: ") (LoginTCP tc token (10 * Second)) (fun _ => ret (inr (tcpConn tc))))
  else
    try (WrapError "ws connect: ") (ConnectWS wsURL token) (fun wc =>
    orClose (wsConn wc) (WrapError "ws login: ") (DrainLoginResp wc (10 * Second)) (fun _ => ret (inr (wsConn wc)))).

(** The results of the pool of logins, one per user, in the order [finished] in
    which the workers send them. *)
Fixpoint collectLogins (httpBase : string) (finished : list Z) (tokens : gmap string string)
  : K (GoError + gmap string string) :=
  match finished with
  | [] => ret (inr tokens)
  | i :: rest =>
      let! j := LoginDev (httpBase +:+ "/login") (userUID i) (userUID i) in
      match j with
      | inl err => ret (inl (WrapError ("login " +:+ userUID i +:+ ": ") err))
      | inr (token, _) => collectLogins httpBase rest (<[userUID i := token]> tokens)
      end
  end.

Definition loginAll (httpBase : string) (finished : list Z) : K (GoError + gmap string string) :=
  collectLogins httpBase finished ∅.

(** ** Options *)

Record options := mkOptions {
  o_scenario : string; o_addr : string; o_tcpAddr : string; o_transport : string;
  o_users : Z; o_conns : Z; o_rate : float64; o_duration : Z; o_workers : Z; o_connRate : float64;
  o_groupSize : Z; o_groups : Z; o_msgs : Z;
  o_query : string; o_historyCon : Z; o_interval : Z; o_seqBase : Z;
  o_pct : option (list float64); o_jsonOut : bool; o_verbose : bool
}.

Definition defaultOptions : options :=
  mkOptions "" "localhost:8080" "localhost:18083" "ws" 100 100 (of_int 1) (60 * Second) 10 (of_int 50)
    100 1 100 "bench" 10 (30 * Second) 0 None false false.

(** [pctFlag.Set]; [parse] is [strconv.ParseFloat]. *)
Definition pctSet (parse : string -> option float64) (v : string) : GoError + list float64 :=
  (fix go (parts : list string) : GoError + list float64 :=
     match parts with
     | [] => inr []
     | s :: parts =>
         match parse (TrimSpace s) with
         | None => inl (PlainError ("invalid pct " +:+ String quote (s +:+ String quote "")))
         | Some f => match go parts with inl e => inl e | inr out => inr (f :: out) end
         end
     end) (Split "," v).

Definition pctOf (opts : options) : list float64 :=
  default [of_int 50; of_int 95; of_int 99] (o_pct opts).

(** [rand.Int63n(1<<52) << 8], of what the generator drew. *)
Definition seqBaseOf (drawn : Z) : Z := Z.shiftl (drawn mod 2 ^ 52) 8.

Definition setSeqBase (v : Z) (o : options) : options :=
  mkOptions (o_scenario o) (o_addr o) (o_tcpAddr o) (o_transport o) (o_users o) (o_conns o) (o_rate o) (o_duration o)
    (o_workers o) (o_connRate o) (o_groupSize o) (o_groups o) (o_msgs o) (o_query o) (o_historyCon o) (o_interval o) v
    (o_pct o) (o_jsonOut o) (o_verbose o).

(** ** [main] *)

(** What the program does in the end: exit with a code and a message on the
    error output, print the result, panic, or not end. *)
Inductive Outcome := Exit (code : Z) (message : string) | Output (text : string) | Panicked | Hung.

Definition usageAndExit (msg : string) : Outcome := Exit 2 ("error: " +:+ msg).

(** [runs] are the scenarios; [drawn] is what the generator drew; [None] when
    the poll of /health ran out of fuel. *)
Definition main {FT : FloatText} (durationText : Z -> string) (fuel : nat) (drawn : Z)
  (runs : string -> option (options -> string -> string -> K (Ran (GoError + Result)))) (opts : options)
  : K (option Outcome) :=
  if bool_decide (o_scenario opts = "") then ret (Some (usageAndExit "scenario is required"))
  else if negb (Z.rem (o_users opts) 2 =? 0) then ret (Some (usageAndExit "users must be even (pairs)"))
  else
    let opts := setSeqBase (seqBaseOf drawn) opts in
    let httpBase := "http://" +:+ o_addr opts in
    let wsURL := "ws://" +:+ o_addr opts +:+ "/ws" in
    let! healthy := WaitHealthy durationText fuel (httpBase +:+ "/health") (5 * Second) in
    match healthy with
    | None => ret None
    | Some (Some err) => ret (Some (Exit 1 ("gateway not reachable at " +:+ httpBase +:+ ": " +:+ ErrorText err)))
    | Some None =>
        match runs (o_scenario opts) with
        | None => ret (Some (usageAndExit ("unknown scenario: " +:+ o_scenario opts)))
        | Some run =>
            let! res := run opts httpBase wsURL in
            ret (Some (match res with
                       | Panics => Panicked
                       | Hangs => Hung
                       | Returns (inl err) => Exit 1 ("scenario " +:+ o_scenario opts +:+ " failed: " +:+ ErrorText err)
                       | Returns (inr r) => Output (if o_jsonOut opts then writeJSON r else writeTable r)
                       end))
        end
    end.

End Conn.
