(* ===== verification/LoadScenarios.v ===== *)
(** * The scenarios of the load test (src/bench/loadtest/scenarios.go)

    A scenario starts goroutines that share counters and connections: its state
    is a record of them, one turn of a goroutine's loop a function on that state,
    and a run any interleaving of turns, given as a list.  A ticker that has
    fired is the turn's taking place; when the context is done as well, [select]
    takes either case.  A run may also panic, or hang. *)

From Stdlib Require Import SpecFloat.
From S2P Require Import Prelude GoStrings Proto Snowflake Process Json JsonFacts Url RateLimiter Framing Kit LoadMetrics LoadConn.

(** ** What the scenarios share *)

(** [err.(net.Error)] does not look inside a wrapped error. *)
Definition isTimeout (err : GoError) : bool :=
  match err with NetError timeout _ => timeout | _ => false end.

(** [context.WithTimeout] from the time the scenario starts. *)
Record Ctx := mkCtx { ctx_deadline : Z; ctx_cancelled : bool }.

(** [int64(x)] and [time.Duration(x)] of a float: towards zero; amd64's result
    when it does not fit. *)
Definition truncInt (x : float64) : Z :=
  match x with
  | S754_finite false m e => if 0 <=? e then ceilInt x else Z.pos m / 2 ^ (- e)
  | _ => ceilInt x
  end.

(** [time.Duration(float64(time.Second) / rate)]. *)
Definition perRate (rate : float64) : Z := truncInt (fdiv (of_int Second) rate).

(** [float64(d.Microseconds()) / 1000.0] of the time since [t]. *)
Definition sinceMs (now t : Z) : float64 := fdiv (of_int (Z.quot (timeSub now t) 1000)) (of_int 1000).

(** [float64(time.Now().UnixMilli() - msg.Timestamp)]. *)
Definition deliveryMs (now : Z) (msg : Message) : float64 := of_int (wrap64 (UnixMilli now - Timestamp msg)).

Definition heartbeat : Message := heartbeatMessage.

Section Scenarios.
Context {E : Env} {C : Codec} {T : ErrorTexts} {W : Type} {TN : TcpNet W} {WN : WsNet W} {HN : HttpNet W} {UP : UrlParser}.

Section Shared.
Context {X : Type}.

(** The state of a running scenario, with what is its own in [rn_x]. *)
Record Run := mkRun { rn_stats : stats; rn_ctx : Ctx; rn_sampler : serviceSampler; rn_x : X }.

Abbreviation Sc := (St ((Run * W) * Sys)).

Definition onNet {A} (m : St (W * Sys) A) : Sc A :=
  fun '((r, w), y) => let '(a, (w, y)) := m (w, y) in (a, ((r, w), y)).

Definition changeRun (f : Run -> Run) : Sc unit := modify (fun p => ((f p.1.1, p.1.2), p.2)).
Definition getRun : Sc Run := gets (fun p => p.1.1).

Definition onStats (f : stats -> stats) : Sc unit :=
  changeRun (fun r => mkRun (f (rn_stats r)) (rn_ctx r) (rn_sampler r) (rn_x r)).
Definition changeX (f : X -> X) : Sc unit :=
  changeRun (fun r => mkRun (rn_stats r) (rn_ctx r) (rn_sampler r) (f (rn_x r))).

Definition countOne (c : Counter) : Sc unit := onStats (addTo c 1).
Definition addSampleTo (s : Series) (ms : float64) : Sc unit := onStats (addSample s ms).

(** The non-blocking [select] on [ctx.Done()]. *)
Definition ctxDone : Sc bool :=
  let! r := getRun in
  let! now := Now in
  ret (ctx_cancelled (rn_ctx r) || (ctx_deadline (rn_ctx r) <=? now)).

Definition cancel : Sc unit :=
  changeRun (fun r => mkRun (rn_stats r) (mkCtx (ctx_deadline (rn_ctx r)) true) (rn_sampler r) (rn_x r)).

(** The [select] between [ctx.Done()] and a ticker that has fired: whether the
    goroutine ends. *)
Definition selectDone : Sc bool :=
  let! d := ctxDone in
  if d : bool then Pick else ret false.

(** One turn of [readLoop]; [Some b] when it returns [b]. *)
Definition readTurn (conn : benchConn) (timeout : Z) (fn : Message -> Sc unit) : Sc (option bool) :=
  let! r := onNet (ReadMsg conn timeout) in
  match r with
  | inl err =>
      let! d := ctxDone in
      if d : bool then ret (Some false) else if isTimeout err then ret None else ret (Some true)
  | inr msg => fn msg ;;! ret None
  end.

(** One tick of the sampler. *)
Definition sampleTurn (httpBase : string) : Sc unit :=
  fun '((r, w), y) =>
    let '(_, (s, w, y)) := samplerTick (httpBase +:+ "/health") ((rn_sampler r, w), y) in
    (tt, ((mkRun (rn_stats r) (rn_ctx r) s (rn_x r), w), y)).

Definition buildResult (scenario : string) (opts : options) : Sc Result :=
  let! r := getRun in
  let st := rn_stats r in
  let pct := percentiles (pctOf opts) in
  ret (mkResult scenario (Seconds (o_duration opts)) (sent st) (delivered st) (acked st) (failed st) (drops st)
    (connects st) (connectOK st) (searchOK st) (searchFail st) (historyOK st) (historyMsg st) (hbOK st) (hbFail st)
    (pct (delivery st)) (pct (ack st)) (pct (fanout st)) (pct (request st)) (pct (hist st))
    (summary (rn_sampler r))).

(** The state a scenario starts in. *)
Definition startRun {A} (opts : options) (x : X) (m : Sc A) : St (W * Sys) A :=
  fun '(w, y) =>
    let '(now, (w, y)) := Now (w, y) in
    let '(a, ((_, w), y)) := m ((mkRun newStats (mkCtx (now + o_duration opts) false) newSampler x, w), y) in
    (a, (w, y)).

(** The dials of all users, in the order in which they finish. *)
Definition dialAll (opts : options) (wsURL : string) (tokens : gmap string string) (dialled : list Z)
  (put : Z -> benchConn -> X -> X) : Sc unit :=
  forEach dialled (fun i =>
    let! r := onNet (dial (o_transport opts) wsURL (o_tcpAddr opts) (default "" (tokens !! userUID i))) in
    match r with inl _ => countOne Failed | inr conn => changeX (put i conn) end).

(** [connRate], or fifty. *)
Definition connRateOf (opts : options) : float64 :=
  if SFleb (o_connRate opts) (of_int 0) then of_int 50 else o_connRate opts.

(** The logins and the dials: the workers of the pool and the slots of the
    semaphore must exist, and the sizes not be negative. *)
Definition connectAll (opts : options) (httpBase wsURL : string) (users : Z) (finished dialled : list Z)
  (put : Z -> benchConn -> X -> X) : Sc (Ran (GoError + unit)) :=
  if users <? 0 then ret Panics
  else if (o_workers opts <=? 0) && (0 <? users) then ret Hangs
  else
    let! r := onNet (loginAll httpBase finished) in
    match r with
    | inl err => ret (Returns (inl err))
    | inr tokens =>
        let slots := truncInt (connRateOf opts) in
        if slots <? 0 then ret Panics
        else if (slots =? 0) && (0 <? users) then ret Hangs
        else
          dialAll opts wsURL tokens dialled put ;;!
          let! r := getRun in
          let n := failed (rn_stats r) in
          ret (Returns (if 0 <? n
                        then inl (PlainError (itoa n +:+ "/" +:+ itoa users +:+ " connections failed"))
                        else inr tt))
    end.

End Shared.

(** The goroutines, and then the result. *)
Definition finish {X} (scenario : string) (opts : options) (m : St ((@Run X * W) * Sys) unit)
  : St ((@Run X * W) * Sys) (Ran (GoError + Result)) :=
  m ;;! let! r := buildResult scenario opts in ret (Returns (inr r)).

(** ** Churn: connect, log in, one heartbeat, close *)

(** A worker's next number, and whether it runs. *)
Abbreviation ChurnX := (gmap Z (Z * bool)).

Inductive ChurnEvent := ChurnTurn (worker : Z) | ChurnSample.

Definition churnTurn (opts : options) (httpBase wsURL : string) (worker : Z) : St ((@Run ChurnX * W) * Sys) unit :=
  let! r := getRun in
  match rn_x r !! worker with
  | None | Some (_, false) => ret tt
  | Some (seq, true) =>
      let! stop := selectDone in
      if stop : bool then changeX (<[worker := (seq, false)]>)
      else
        let uid := "churn-" +:+ padded 3 worker +:+ "-" +:+ padded 6 seq in
        changeX (<[worker := (seq + 1, true)]>) ;;!
        countOne Connects ;;!
        let! res := onNet (LoginDev (httpBase +:+ "/login") uid uid) in
        match res with
        | inl _ => countOne Failed
        | inr (token, _) =>
            let! res := onNet (dial (o_transport opts) wsURL (o_tcpAddr opts) token) in
            match res with
            | inl _ => countOne Failed
            | inr conn =>
                countOne ConnectOK ;;!
                let! err := onNet (WriteMsg conn heartbeat (5 * Second)) in
                match err with
                | inl _ => ret tt
                | inr _ =>
                    let! res := onNet (ReadMsg conn (5 * Second)) in
                    match res with inl _ => ret tt | inr _ => countOne HbOK end
                end ;;!
                let! err := onNet (CloseMsg conn) in ret tt
            end
        end
  end.

Definition churnEvent (opts : options) (httpBase wsURL : string) (e : ChurnEvent) : St ((@Run ChurnX * W) * Sys) unit :=
  match e with
  | ChurnTurn w => churnTurn opts httpBase wsURL w
  | ChurnSample => sampleTurn httpBase
  end.

(** The workers of a scenario. *)
Definition workerIds (n : Z) : list Z := map Z.of_nat (seq 0 (Z.to_nat n)).

Definition runChurn (schedule : list ChurnEvent) (opts : options) (httpBase wsURL : string)
  : St (W * Sys) (Ran (GoError + Result)) :=
  if perRate (connRateOf opts) <=? 0 then ret Panics
  else
    startRun opts (list_to_map (map (fun w => (w, (0, true))) (workerIds (o_workers opts))))
      (finish "churn" opts (forEach schedule (churnEvent opts httpBase wsURL))).

(** ** Chat: pairs of users write to each other *)

Record chatConn := mkChatConn {
  cc_conn : benchConn;
  cc_uid : string;
  cc_clock : gmap Z Z;
  cc_seq : Z;
  cc_reading : bool;
  cc_sending : bool
}.

Abbreviation ChatX := (gmap Z chatConn).

(** [seqClock.record] and [take]. *)
Definition clockRecord (seq t : Z) (m : gmap Z Z) : gmap Z Z := <[seq := t]> m.
Definition clockTake (seq : Z) (m : gmap Z Z) : option Z * gmap Z Z := (m !! seq, delete seq m).

Definition setClock (m : gmap Z Z) (c : chatConn) : chatConn :=
  mkChatConn (cc_conn c) (cc_uid c) m (cc_seq c) (cc_reading c) (cc_sending c).
Definition setSeq (n : Z) (c : chatConn) : chatConn :=
  mkChatConn (cc_conn c) (cc_uid c) (cc_clock c) n (cc_reading c) (cc_sending c).
Definition stopReading (c : chatConn) : chatConn :=
  mkChatConn (cc_conn c) (cc_uid c) (cc_clock c) (cc_seq c) false (cc_sending c).
Definition stopSending (c : chatConn) : chatConn :=
  mkChatConn (cc_conn c) (cc_uid c) (cc_clock c) (cc_seq c) (cc_reading c) false.

Definition chatStart (opts : options) (i : Z) (conn : benchConn) : ChatX -> ChatX :=
  <[i := mkChatConn conn (userUID i) ∅ (wrap64 (o_seqBase opts + i * 1000000)) true true]>.

(** What the reader of connection [i] does with a message. *)
Definition chatRecv (i : Z) (msg : Message) : St ((@Run ChatX * W) * Sys) unit :=
  if Cmd msg =? CmdChat then
    countOne Delivered ;;!
    let! now := Now in
    addSampleTo Delivery (deliveryMs now msg)
  else if Cmd msg =? CmdAck then
    countOne Acked ;;!
    let! r := getRun in
    match rn_x r !! i with
    | None => ret tt
    | Some cc =>
        let (t, clock) := clockTake (Seq msg) (cc_clock cc) in
        changeX (<[i := setClock clock cc]>) ;;!
        match t with
        | Some t => let! now := Now in addSampleTo Ack (sinceMs now t)
        | None => ret tt
        end
    end
  else ret tt.

Definition chatRead (i : Z) : St ((@Run ChatX * W) * Sys) unit :=
  let! r := getRun in
  match rn_x r !! i with
  | None => ret tt
  | Some cc =>
      if cc_reading cc then
        let! res := readTurn (cc_conn cc) Second (chatRecv i) in
        match res with
        | Some _ => changeX (alter stopReading i)
        | None => ret tt
        end
      else ret tt
  end.

Definition chatMessage (partner : string) (seq : Z) : Message :=
  mkMessage seq 0 CmdChat "" partner ChatTypeSingle MsgTypeText "bench-chat-0000000000" 0 true.

Definition chatSend (i : Z) : St ((@Run ChatX * W) * Sys) unit :=
  let! r := getRun in
  match rn_x r !! i with
  | None => ret tt
  | Some cc =>
      if cc_sending cc then
        let! stop := selectDone in
        if stop : bool then changeX (alter stopSending i)
        else
          let! now := Now in
          let seq := cc_seq cc in
          changeX (<[i := setSeq (wrap64 (seq + 1)) (setClock (clockRecord seq now (cc_clock cc)) cc)]>) ;;!
          countOne Sent ;;!
          let! err := onNet (WriteMsg (cc_conn cc) (chatMessage (userUID (Z.lxor i 1)) seq) (2 * Second)) in
          match err with
          | inr _ => ret tt
          | inl _ =>
              countOne Failed ;;!
              let! d := ctxDone in
              if d : bool then changeX (alter stopSending i) else ret tt
          end
      else ret tt
  end.

Inductive ChatEvent := ChatSend (i : Z) | ChatRead (i : Z) | ChatSample.

Definition chatEvent (httpBase : string) (e : ChatEvent) : St ((@Run ChatX * W) * Sys) unit :=
  match e with
  | ChatSend i => chatSend i
  | ChatRead i => chatRead i
  | ChatSample => sampleTurn httpBase
  end.

Definition runChat (finished dialled : list Z) (schedule : list ChatEvent) (opts : options) (httpBase wsURL : string)
  : St (W * Sys) (Ran (GoError + Result)) :=
  startRun opts ∅
    (let! c := connectAll opts httpBase wsURL (o_users opts) finished dialled (chatStart opts) in
     match c with
     | Panics => ret Panics
     | Hangs => ret Hangs
     | Returns (inl err) => ret (Returns (inl err))
     | Returns (inr _) =>
         if (perRate (o_rate opts) <=? 0) && (0 <? o_users opts) then ret Panics
         else finish "chat" opts (forEach schedule (chatEvent httpBase))
     end).

(** ** Group: the owners write, every member reads *)

Record groupInfo := mkGroupInfo { gi_id : string; gi_owner : Z; gi_members : list Z }.

(** A sender: the next number, how many messages it has to send, whether it
    runs. *)
Record GroupX := mkGroupX {
  gx_conns : gmap Z benchConn;
  gx_groups : list groupInfo;
  gx_senders : gmap Z (Z * Z * bool);
  gx_reading : gset Z;
  gx_fan : gmap Z float64
}.

Definition startGroupX : GroupX := mkGroupX ∅ [] ∅ ∅ ∅.
Definition setFan (f : gmap Z float64) (x : GroupX) : GroupX :=
  mkGroupX (gx_conns x) (gx_groups x) (gx_senders x) (gx_reading x) f.
Definition setSender (g : Z) (v : Z * Z * bool) (x : GroupX) : GroupX :=
  mkGroupX (gx_conns x) (gx_groups x) (<[g := v]> (gx_senders x)) (gx_reading x) (gx_fan x).
Definition addConn (i : Z) (c : benchConn) (x : GroupX) : GroupX :=
  mkGroupX (<[i := c]> (gx_conns x)) (gx_groups x) (gx_senders x) (gx_reading x) (gx_fan x).
Definition stopReader (i : Z) (x : GroupX) : GroupX :=
  mkGroupX (gx_conns x) (gx_groups x) (gx_senders x) (gx_reading x ∖ {[i]}) (gx_fan x).

(** The goroutines are started: a reader per connection, a sender per group. *)
Definition startGroups (opts : options) (groups : list groupInfo) (x : GroupX) : GroupX :=
  mkGroupX (gx_conns x) groups
    (list_to_map (map (fun g => (g, (wrap64 (o_seqBase opts + wrap64 (g * 100) + 50), o_msgs opts, true)))
      (workerIds (o_groups opts))))
    (list_to_set (workerIds (o_groups opts * o_groupSize opts))) (gx_fan x).

(** The loop of [readGroupCreate]; [None] when the fuel runs out. *)
Fixpoint readGroupCreate (fuel : nat) (conn : benchConn) (deadline : Z) : St (W * Sys) (option (GoError + string)) :=
  match fuel with
  | O => ret None
  | S fuel =>
      let! now := Now in
      if negb (now <? deadline) then ret (Some (inl (PlainError "timeout waiting group create response")))
      else
        let! res := ReadMsg conn (15 * Second) in
        match res with
        | inl err => ret (Some (inl (WrapError "read group create resp: " err)))
        | inr msg =>
            if Cmd msg =? CmdGroupCreate then
              match (fs ← UnmarshalObject (Content msg); field_string "id" fs) with
              | None => ret (Some (inl (WrapError "parse group create resp: " (jsonErr (Content msg)))))
              | Some id => if bool_decide (id <> "") then ret (Some (inr id)) else readGroupCreate fuel conn deadline
              end
            else readGroupCreate fuel conn deadline
        end
  end.

Definition groupRequest (opts : options) (g : Z) : Message :=
  let ownerIdx := g * o_groupSize opts in
  let memberIdxs := map (fun m => ownerIdx + 1 + m) (workerIds (o_groupSize opts - 1)) in
  let content := print (jmap [("name", JString ("bench-group-" +:+ itoa g));
                              ("members", JArray (map (fun m => JString (userUID m)) memberIdxs))]) in
  mkMessage 0 0 CmdGroupCreate "" "" 0 0 content 0 false.

Definition createGroup (fuel : nat) (opts : options) (conns : gmap Z benchConn) (g : Z)
  : St (W * Sys) (Ran (GoError + groupInfo)) :=
  let ownerIdx := g * o_groupSize opts in
  if o_groupSize opts - 1 <? 0 then ret Panics
  else match conns !! ownerIdx with
  | None => ret Panics
  | Some ownerConn =>
      let! err := WriteMsg ownerConn (groupRequest opts g) (5 * Second) in
      match err with
      | inl e => ret (Returns (inl (WrapError "group create write: " e)))
      | inr _ =>
          let! now := Now in
          let! res := readGroupCreate fuel ownerConn (now + 15 * Second) in
          ret (match res with
               | None => Hangs
               | Some (inl e) => Returns (inl (WrapError ("group " +:+ itoa g +:+ " create: ") e))
               | Some (inr gid) => Returns (inr (mkGroupInfo gid ownerIdx
                   (map (fun m => ownerIdx + 1 + m) (workerIds (o_groupSize opts - 1)))))
               end)
      end
  end.

Fixpoint createGroups (fuel : nat) (opts : options) (conns : gmap Z benchConn) (gs : list Z)
  : St (W * Sys) (Ran (GoError + list groupInfo)) :=
  match gs with
  | [] => ret (Returns (inr []))
  | g :: gs =>
      let! r := createGroup fuel opts conns g in
      match r with
      | Panics => ret Panics
      | Hangs => ret Hangs
      | Returns (inl e) => ret (Returns (inl e))
      | Returns (inr info) =>
          let! rest := createGroups fuel opts conns gs in
          ret (match rest with
               | Returns (inr l) => Returns (inr (info :: l))
               | other => other
               end)
      end
  end.

(** The latest a message with this number has been anywhere. *)
Definition fanUpdate (seq : Z) (lat : float64) (m : gmap Z float64) : gmap Z float64 :=
  match m !! seq with
  | Some v => if flt v lat then <[seq := lat]> m else m
  | None => <[seq := lat]> m
  end.

Definition groupRecv (msg : Message) : St ((@Run GroupX * W) * Sys) unit :=
  if negb (Cmd msg =? CmdChat) || (Seq msg <=? 0) then ret tt
  else
    countOne Delivered ;;!
    let! now := Now in
    changeX (fun x => setFan (fanUpdate (Seq msg) (deliveryMs now msg) (gx_fan x)) x).

Definition groupRead (i : Z) : St ((@Run GroupX * W) * Sys) unit :=
  let! r := getRun in
  match gx_conns (rn_x r) !! i with
  | Some conn =>
      if bool_decide (i ∈ gx_reading (rn_x r)) then
        let! res := readTurn conn Second groupRecv in
        match res with Some _ => changeX (stopReader i) | None => ret tt end
      else ret tt
  | None => ret tt
  end.

Definition groupMessage (gid : string) (seq : Z) : Message :=
  mkMessage seq 0 CmdChat "" gid ChatTypeGroup MsgTypeText "bench-group-message" 0 true.

Definition groupSend (g : Z) : St ((@Run GroupX * W) * Sys) unit :=
  let! r := getRun in
  match gx_senders (rn_x r) !! g, gx_groups (rn_x r) !! Z.to_nat g with
  | Some (seq, todo, true), Some info =>
      if todo <=? 0 then changeX (setSender g (seq, todo, false))
      else
        let! stop := selectDone in
        if stop : bool then changeX (setSender g (seq, todo, false))
        else
          countOne Sent ;;!
          changeX (setSender g (wrap64 (seq + 1), todo - 1, true)) ;;!
          match gx_conns (rn_x r) !! gi_owner info with
          | None => ret tt
          | Some c =>
              let! err := onNet (WriteMsg c (groupMessage (gi_id info) seq) (2 * Second)) in
              match err with inl _ => countOne Failed | inr _ => ret tt end
          end
  | _, _ => ret tt
  end.

Inductive GroupEvent := GroupSend (g : Z) | GroupRead (i : Z) | GroupSample.

Definition groupEvent (httpBase : string) (e : GroupEvent) : St ((@Run GroupX * W) * Sys) unit :=
  match e with
  | GroupSend g => groupSend g
  | GroupRead i => groupRead i
  | GroupSample => sampleTurn httpBase
  end.

(** The interval between an owner's messages. *)
Definition groupInterval (opts : options) : Z :=
  let d := truncInt (fdiv (of_int (o_duration opts)) (of_int (o_msgs opts))) in
  if d <=? 0 then 100 * 1000000 else d.

(** [rest] are the turns of the readers after the context is cancelled.  The
    order in which the map is ranged over does not matter to a series. *)
Definition runGroup (fuel : nat) (finished dialled : list Z) (schedule rest : list GroupEvent)
  (opts : options) (httpBase wsURL : string) : St (W * Sys) (Ran (GoError + Result)) :=
  startRun opts startGroupX
    (let! c := connectAll opts httpBase wsURL (wrap64 (o_groups opts * o_groupSize opts)) finished dialled addConn in
     match c with
     | Panics => ret Panics
     | Hangs => ret Hangs
     | Returns (inl err) => ret (Returns (inl err))
     | Returns (inr _) =>
         if o_groups opts <? 0 then ret Panics
         else
           let! r := getRun in
           let! gs := onNet (createGroups fuel opts (gx_conns (rn_x r)) (workerIds (o_groups opts))) in
           match gs with
           | Panics => ret Panics
           | Hangs => ret Hangs
           | Returns (inl err) => ret (Returns (inl err))
           | Returns (inr groups) =>
               changeX (startGroups opts groups) ;;!
               finish "group" opts
                 (forEach schedule (groupEvent httpBase) ;;!
                  cancel ;;!
                  forEach rest (groupEvent httpBase) ;;!
                  let! r := getRun in
                  forEach (map_to_list (gx_fan (rn_x r))) (fun e => addSampleTo Fanout e.2))
           end
     end).

(** ** Search: queries over HTTP, and pages of history *)

(** A search worker's query, and a history worker's connection, while they run. *)
Record SearchX := mkSearchX {
  sx_search : gmap Z Params;
  sx_hist : gmap Z benchConn
}.

Definition setSearch (m : gmap Z Params) (x : SearchX) : SearchX := mkSearchX m (sx_hist x).
Definition setHist (m : gmap Z benchConn) (x : SearchX) : SearchX := mkSearchX (sx_search x) m.

Definition searchParams (uid token query : string) : Params :=
  paramsSet "limit" "20" (paramsSet "q" query (paramsSet "token" token (paramsSet "uid" uid []))).

Definition searchStart (opts : options) (httpBase : string) (w : Z) : St ((@Run SearchX * W) * Sys) unit :=
  let uid := userUID (w * 2) in
  let! res := onNet (LoginDev (httpBase +:+ "/login") uid uid) in
  match res with
  | inl _ => countOne Failed
  | inr (token, _) => changeX (fun x => setSearch (<[w := searchParams uid token (o_query opts)]> (sx_search x)) x)
  end.

Definition searchTurn (httpBase : string) (w : Z) : St ((@Run SearchX * W) * Sys) unit :=
  let! r := getRun in
  match sx_search (rn_x r) !! w with
  | None => ret tt
  | Some params =>
      let! d := ctxDone in
      if d : bool then changeX (fun x => setSearch (delete w (sx_search x)) x)
      else
        let! begin := Now in
        let! res := onNet (HTTPGetJSON httpBase "/search" params) in
        match res with
        | inl _ => countOne SearchFail
        | inr _ =>
            countOne SearchOK ;;!
            let! now := Now in
            addSampleTo RequestLat (sinceMs now begin)
        end
  end.

Definition histStart (opts : options) (httpBase wsURL : string) (w : Z) : St ((@Run SearchX * W) * Sys) unit :=
  let uid := userUID (w * 2) in
  let! res := onNet (LoginDev (httpBase +:+ "/login") uid uid) in
  match res with
  | inl _ => countOne Failed
  | inr (token, _) =>
      let! res := onNet (dial (o_transport opts) wsURL (o_tcpAddr opts) token) in
      match res with
      | inl _ => countOne Failed
      | inr conn => changeX (fun x => setHist (<[w := conn]> (sx_hist x)) x)
      end
  end.

Definition historyMessage (partner : string) (ts : Z) : Message :=
  mkMessage 30 0 CmdHistory "" partner ChatTypeSingle 0 "" ts false.

(** Read until the page is complete: its number of messages, an error, or
    [None] when the fuel runs out. *)
Fixpoint readHistory (fuel : nat) (conn : benchConn) : St (W * Sys) (option (GoError + Z)) :=
  match fuel with
  | O => ret None
  | S fuel =>
      let! res := ReadMsg conn (15 * Second) in
      match res with
      | inl err => ret (Some (inl err))
      | inr msg => if Cmd msg =? CmdHistory then ret (Some (inr (Seq msg))) else readHistory fuel conn
      end
  end.

(** The worker returns: its deferred [Close] runs. *)
Definition histEnd (w : Z) (conn : benchConn) : St ((@Run SearchX * W) * Sys) unit :=
  changeX (fun x => setHist (delete w (sx_hist x)) x) ;;!
  let! err := onNet (CloseMsg conn) in ret tt.

Definition histTurn (fuel : nat) (w : Z) : St ((@Run SearchX * W) * Sys) unit :=
  let! r := getRun in
  match sx_hist (rn_x r) !! w with
  | None => ret tt
  | Some conn =>
      let! d := ctxDone in
      if d : bool then histEnd w conn
      else
        let! ts := NowMilli in
        let! begin := Now in
        let! err := onNet (WriteMsg conn (historyMessage (userUID (w * 2 + 1)) ts) (5 * Second)) in
        match err with
        | inl _ => countOne Failed ;;! histEnd w conn
        | inr _ =>
            let! page := onNet (readHistory fuel conn) in
            match page with
            | None => ret tt
            | Some (inl _) => countOne Failed ;;! histEnd w conn
            | Some (inr n) =>
                countOne HistoryOK ;;!
                onStats (addTo HistoryMsg n) ;;!
                let! now := Now in
                addSampleTo Hist (sinceMs now begin)
            end
        end
  end.

Inductive SearchEvent := SearchStart (w : Z) | SearchTurn (w : Z) | HistStart (w : Z) | HistTurn (w : Z) | SearchSample.

Definition searchEvent (fuel : nat) (opts : options) (httpBase wsURL : string) (e : SearchEvent)
  : St ((@Run SearchX * W) * Sys) unit :=
  match e with
  | SearchStart w => searchStart opts httpBase w
  | SearchTurn w => searchTurn httpBase w
  | HistStart w => histStart opts httpBase wsURL w
  | HistTurn w => histTurn fuel w
  | SearchSample => sampleTurn httpBase
  end.

Definition runSearch (fuel : nat) (schedule : list SearchEvent) (opts : options) (httpBase wsURL : string)
  : St (W * Sys) (Ran (GoError + Result)) :=
  startRun opts (mkSearchX ∅ ∅)
    (finish "search" opts (forEach schedule (searchEvent fuel opts httpBase wsURL))).

(** ** Heartbeat: idle connections are kept *)

Record hbConn := mkHbConn {
  hb_conn : benchConn;
  hb_lastSent : option Z;
  hb_reading : bool;
  hb_sending : bool
}.

Abbreviation HeartbeatX := (gmap Z hbConn).

Definition markSent (t : Z) (c : hbConn) : hbConn := mkHbConn (hb_conn c) (Some t) (hb_reading c) (hb_sending c).
Definition hbStopReading (c : hbConn) : hbConn := mkHbConn (hb_conn c) (hb_lastSent c) false (hb_sending c).
Definition hbStopSending (c : hbConn) : hbConn := mkHbConn (hb_conn c) (hb_lastSent c) (hb_reading c) false.

(** The reader's timeout for a heartbeat interval. *)
Definition readTimeout (interval : Z) : Z :=
  let t := 30 * Second in
  let t := if (0 <? interval) && (interval <? t) then Z.quot interval 2 else t in
  if t <? Second then Second else t.

(** One turn of the loop that dials: the reader and the sender are started at
    once. *)
Definition hbDial (opts : options) (httpBase wsURL : string) (i : Z) : St ((@Run HeartbeatX * W) * Sys) unit :=
  let uid := "hb-" +:+ padded 5 i in
  let! res := onNet (LoginDev (httpBase +:+ "/login") uid uid) in
  match res with
  | inl _ => countOne Failed
  | inr (token, _) =>
      let! res := onNet (dial (o_transport opts) wsURL (o_tcpAddr opts) token) in
      match res with
      | inl _ => countOne Failed
      | inr conn =>
          countOne Connects ;;! countOne ConnectOK ;;!
          changeX (<[i := mkHbConn conn None true true]>)
      end
  end.

Definition hbRead (opts : options) (i : Z) : St ((@Run HeartbeatX * W) * Sys) unit :=
  let! r := getRun in
  match rn_x r !! i with
  | None => ret tt
  | Some hc =>
      if hb_reading hc then
        let! res := onNet (ReadMsg (hb_conn hc) (readTimeout (o_interval opts))) in
        match res with
        | inl err =>
            let! d := ctxDone in
            if d : bool then changeX (alter hbStopReading i)
            else if isTimeout err then ret tt
            else countOne HbFail ;;! changeX (alter hbStopReading i)
        | inr msg =>
            if Cmd msg =? CmdHeartbeat then
              countOne HbOK ;;!
              let! r := getRun in
              match rn_x r !! i ≫= hb_lastSent with
              | Some t => let! now := Now in addSampleTo Ack (sinceMs now t)
              | None => ret tt
              end
            else ret tt
        end
      else ret tt
  end.

Definition hbSend (i : Z) : St ((@Run HeartbeatX * W) * Sys) unit :=
  let! r := getRun in
  match rn_x r !! i with
  | None => ret tt
  | Some hc =>
      if hb_sending hc then
        let! stop := selectDone in
        if stop : bool then changeX (alter hbStopSending i)
        else
          let! now := Now in
          changeX (alter (markSent now) i) ;;!
          let! err := onNet (WriteMsg (hb_conn hc) heartbeat (10 * Second)) in
          match err with inl _ => countOne HbFail | inr _ => ret tt end
      else ret tt
  end.

Inductive HeartbeatEvent := HbDial (i : Z) | HbRead (i : Z) | HbSend (i : Z) | HbSample.

Definition hbEvent (opts : options) (httpBase wsURL : string) (e : HeartbeatEvent)
  : St ((@Run HeartbeatX * W) * Sys) unit :=
  match e with
  | HbDial i => hbDial opts httpBase wsURL i
  | HbRead i => hbRead opts i
  | HbSend i => hbSend i
  | HbSample => sampleTurn httpBase
  end.

(** A sender's ticker panics when the interval is not positive. *)
Definition runHeartbeat (schedule : list HeartbeatEvent) (opts : options) (httpBase wsURL : string)
  : St (W * Sys) (Ran (GoError + Result)) :=
  startRun opts ∅
    (let! res := finish "heartbeat" opts (forEach schedule (hbEvent opts httpBase wsURL)) in
     let! r := getRun in
     ret (if (o_interval opts <=? 0) && negb (bool_decide (rn_x r = ∅)) then Panics else res)).

(** ** The choice of the scenario *)

(** An interleaving for each scenario, and the order of its logins and dials. *)
Record Schedule := mkSchedule {
  sd_finished : list Z;
  sd_dialled : list Z;
  sd_churn : list ChurnEvent;
  sd_chat : list ChatEvent;
  sd_group : list GroupEvent;
  sd_groupRest : list GroupEvent;
  sd_search : list SearchEvent;
  sd_heartbeat : list HeartbeatEvent
}.

Definition scenarioOf (fuel : nat) (sd : Schedule) (name : string)
  : option (options -> string -> string -> St (W * Sys) (Ran (GoError + Result))) :=
  if bool_decide (name = "churn") then Some (runChurn (sd_churn sd))
  else if bool_decide (name = "chat") then Some (runChat (sd_finished sd) (sd_dialled sd) (sd_chat sd))
  else if bool_decide (name = "group")
  then Some (runGroup fuel (sd_finished sd) (sd_dialled sd) (sd_group sd) (sd_groupRest sd))
  else if bool_decide (name = "search") then Some (runSearch fuel (sd_search sd))
  else if bool_decide (name = "heartbeat") then Some (runHeartbeat (sd_heartbeat sd))
  else None.

Definition loadtest {FT : FloatText} (durationText : Z -> string) (fuel : nat) (drawn : Z) (sd : Schedule) (opts : options)
  : St (W * Sys) (option Outcome) :=
  main durationText fuel drawn (scenarioOf fuel sd) opts.

End Scenarios.
