(* ===== verification/LoadFacts.v ===== *)
(** * What the load test's numbers mean

    Percentiles are samples of the right rank; what the sampler, the readers and
    the JSON output do instead of what they are meant to do; the counters of a
    run, whatever the interleaving; users and pairs, polls that end, the fan-out of
    a group message, and where the scenarios' numbers and limits go wrong. *)

From Stdlib Require Import SpecFloat.
From S2P Require Import Prelude GoStrings Proto Snowflake Process RateLimiter Json JsonFacts Url.
From S2P Require Import Framing Kit LoadMetrics LoadConn LoadScenarios.

(** ** The order of floats *)

(** A float's place in the order: its class, and for a finite number its
    exponent and mantissa. *)
Definition fkey (x : float64) : Z * Z * Z :=
  match x with
  | S754_nan => (-3, 0, 0)
  | S754_infinity true => (-2, 0, 0)
  | S754_finite true m e => (-1, - e, - Z.pos m)
  | S754_zero _ => (0, 0, 0)
  | S754_finite false m e => (1, e, Z.pos m)
  | S754_infinity false => (2, 0, 0)
  end.

Definition keyLt (a b : Z * Z * Z) : Prop :=
  let '(a1, a2, a3) := a in let '(b1, b2, b3) := b in
  a1 < b1 \/ a1 = b1 /\ (a2 < b2 \/ a2 = b2 /\ a3 < b3).

Lemma floatLess_key x y : floatLess x y = true <-> keyLt (fkey x) (fkey y).
Proof.
  unfold floatLess, flt, SFltb, SFcompare. 
  destruct x as [sx|[]| |[] mx ex], y as [sy|[]| |[] my ey]; cbn; try (split; intros; (done || lia)).
  - destruct (Z.compare_spec ex ey); cbn; try (split; intros; (done || lia)).
    subst. rewrite Pos.compare_cont_spec. destruct (Pos.compare_spec mx my); cbn; split; intros; (done || lia).
  - destruct (Z.compare_spec ex ey); cbn; try (split; intros; (done || lia)).
    subst. rewrite Pos.compare_cont_spec. destruct (Pos.compare_spec mx my); cbn; split; intros; (done || lia).
Qed.

Lemma floatLe_key x y : floatLe x y <-> ~ keyLt (fkey y) (fkey x).
Proof. unfold floatLe. rewrite <- floatLess_key. by rewrite not_true_iff_false. Qed.

#[export] Instance floatLe_trans : Transitive floatLe.
Proof.
  intros x y z. rewrite !floatLe_key. destruct (fkey x) as [[a1 a2] a3], (fkey y) as [[b1 b2] b3], (fkey z) as [[c1 c2] c3].
  unfold keyLt. lia.
Qed.

#[export] Instance floatLe_total : Total floatLe.
Proof.
  intros x y. rewrite !floatLe_key. destruct (fkey x) as [[a1 a2] a3], (fkey y) as [[b1 b2] b3]. unfold keyLt. lia.
Qed.

Lemma floatLe_refl x : floatLe x x.
Proof. destruct (floatLe_total x x); done. Qed.

(** ** Percentiles *)

Lemma sortFloats_perm s : sortFloats s ≡ₚ s.
Proof. apply merge_sort_Permutation. Qed.

Lemma sortFloats_sorted s : StronglySorted floatLe (sortFloats s).
Proof. apply StronglySorted_merge_sort; apply _. Qed.

(** In a sorted list the elements before a place are at most the one there, and
    those after it at least. *)
Lemma sorted_rank (l : list float64) i v :
  StronglySorted floatLe l -> l !! i = Some v ->
  (S i <= length (filter (fun x => floatLe x v) l))%nat /\
  (length l - i <= length (filter (fun x => floatLe v x) l))%nat.
Proof.
  intros Hs. revert i. induction Hs as [|x l Hs IH Hx]; intros i Hi; [done|].
  destruct i as [|i]; cbn in Hi.
  - injection Hi as ->. rewrite !filter_cons, !decide_True by apply floatLe_refl. cbn. split; [lia|].
    assert (Hall : filter (fun x => floatLe v x) l = l); [|rewrite Hall; lia].
    clear -Hx. induction Hx as [|y l Hy Hx IH]; [done|]. by rewrite filter_cons, decide_True, IH.
  - destruct (IH i Hi) as [H1 H2]. rewrite !filter_cons.
    assert (Hxv : floatLe x v) by (rewrite Forall_forall in Hx; apply Hx; by apply list_elem_of_lookup_2 in Hi).
    rewrite decide_True by done. cbn. split; [lia|]. case_decide; cbn; lia.
Qed.

Lemma pctIndex_range p n : 0 < n -> 0 <= pctIndex p n < n.
Proof.
  intros Hn. unfold pctIndex. set (i := wrap64 _). clearbody i. cbv zeta.
  destruct (Z.ltb_spec i 0); [destruct (Z.leb_spec n 0)|destruct (Z.leb_spec n i)]; lia.
Qed.

(** A percentile that is reported is one of the samples, at the computed
    place of the sorted series: so many samples are at most it and so many at
    least it, whatever the order in which they came. *)
Theorem percentile_rank pcts s p v :
  (p, v) ∈ percentiles pcts s ->
  let i := Z.to_nat (pctIndex p (count s)) in
  p ∈ pcts /\ v ∈ s /\ (i < length s)%nat /\
  (S i <= length (filter (fun x => floatLe x v) s))%nat /\
  (length s - i <= length (filter (fun x => floatLe v x) s))%nat.
Proof.
  intros Hin. cbv zeta. destruct s as [|x s]; [by apply not_elem_of_nil in Hin|].
  set (l := x :: s) in *. change (percentiles pcts l) with
    (map (fun p => (p, nth (Z.to_nat (pctIndex p (count l))) (sortFloats l) (of_int 0))) pcts) in Hin.
  apply list_elem_of_fmap in Hin as (p' & [= <- Hv] & Hp).
  assert (Hlen : length (sortFloats l) = length l) by (by rewrite sortFloats_perm).
  assert (Hr : 0 <= pctIndex p (count l) < count l) by (apply pctIndex_range; unfold count, l; simpl; lia).
  set (i := Z.to_nat (pctIndex p (count l))) in *.
  assert (Hi : (i < length l)%nat) by (unfold i, count in *; lia).
  assert (Hl : sortFloats l !! i = Some v).
  { destruct (nth_lookup_or_length (sortFloats l) i (of_int 0)) as [H|H]; [etrans; [exact H|by rewrite Hv]|lia]. }
  destruct (sorted_rank _ i v (sortFloats_sorted l) Hl) as [H1 H2].
  rewrite sortFloats_perm in H1, H2. split_and!; try done.
  apply list_elem_of_lookup_2 in Hl. by rewrite sortFloats_perm in Hl.
Qed.

(** The nearest rank. *)
Definition nearestRank (p n : Z) : Z := - ((- (p * n)) / 100) - 1.

Definition exactUpTo (p : Z) (n : nat) : bool :=
  forallb (fun k => let m := Z.of_nat (S k) in pctIndex (of_int p) m =? nearestRank p m) (seq 0 n).

Lemma exactUpTo_spec p n m :
  exactUpTo p n = true -> 0 < m <= Z.of_nat n -> pctIndex (of_int p) m = nearestRank p m.
Proof.
  unfold exactUpTo. rewrite forallb_forall. intros H Hm.
  assert (Hin : In (Z.to_nat (m - 1)) (seq 0 n)) by (apply in_seq; lia).
  apply H, Z.eqb_eq in Hin. by replace (Z.of_nat (S (Z.to_nat (m - 1)))) with m in Hin by lia.
Qed.

Lemma defaults_exact : forallb (fun p => exactUpTo p 2000) [50; 95; 99] = true.
Proof. vm_compute. reflexivity. Qed.

(** The default percentiles of up to 2000 samples are nearest ranks; with the
    rounding of [p/100*n] not every percentile is. *)
Lemma default_percentiles_exact p n :
  p ∈ [50; 95; 99] -> 0 < n <= 2000 -> pctIndex (of_int p) n = nearestRank p n.
Proof.
  intros Hp Hn. apply exactUpTo_spec with 2000%nat; [|lia].
  pose proof defaults_exact as H. rewrite forallb_forall in H. apply H. by apply list_elem_of_In.
Qed.

Lemma seventh_percentile_off : pctIndex (of_int 7) 100 = 7 /\ nearestRank 7 100 = 6.
Proof. vm_compute. done. Qed.

(** ** The sampler *)

(** [min] and [max] are one pointer, and what it points to is as the newest
    sample. *)
Record sampler_inv (s : serviceSampler) (newest : sample) : Prop := mkSamplerInv {
  si_alias : exists i j, sp_min s = Some i /\ sp_max s = Some i /\ sp_last s = Some j /\
    store s !! i = Some newest /\ store s !! j = Some newest
}.

Lemma alter_known {A} (f : A -> A) i (l : list A) x : l !! i = Some x -> alter f i l = <[i := f x]> l.
Proof. intros Hx. rewrite list_insert_alter. apply list_alter_ext; [|done]. intros y Hy. by simplify_eq. Qed.

(** The two comparisons of a field with the one sample behind both pointers set
    it to the newest value. *)
Lemma compareField_latest get set v s i x :
  get (set v x) = v -> (get x = v -> set v x = x) ->
  sp_min s = Some i -> sp_max s = Some i -> store s !! i = Some x ->
  compareField get set v s = mkSampler (<[i := set v x]> (store s)) (sp_min s) (sp_max s) (sp_last s) (sp_count s).
Proof.
  intros Hg Hs Hmin Hmax Hx. destruct s as [st mn mx la n]. cbn in *. subst mn mx.
  unfold compareField, assign, deref. cbn. rewrite Hx. cbn. rewrite (alter_known _ _ _ _ Hx).
  destruct (Z.ltb_spec v (get x)) as [H1|H1]; cbn.
  - rewrite list_lookup_insert_eq by (by eapply lookup_lt_Some). cbn. by rewrite Hg, Z.ltb_irrefl.
  - rewrite Hx. cbn. destruct (Z.ltb_spec (get x) v) as [H2|H2]; [by rewrite ?(alter_known _ _ _ _ Hx)|].
    rewrite Hs by lia. by rewrite list_insert_id.
Qed.

Lemma record_inv s newest p : sampler_inv s newest -> sampler_inv (record p s) p.
Proof.
  intros [(i & j & Hmin & Hmax & Hlast & Hi & Hj)]. unfold record. rewrite Hmin. cbn zeta. rewrite Hmax.
  set (n := length (store s)). assert (Hin : (i < n)%nat) by (by eapply lookup_lt_Some).
  assert (Hi' : (store s ++ [p]) !! i = Some newest) by (by rewrite lookup_app_l).
  assert (Hlen : (i < length (store s ++ [p]))%nat) by (rewrite length_app; lia).
  rewrite (compareField_latest Connections setConnections _ _ i newest) by (done || by intros <-; destruct newest).
  cbn [store sp_min sp_max sp_last sp_count].
  rewrite (compareField_latest AllocMB setAllocMB _ _ i (setConnections (Connections p) newest))
    by first [done | by intros <-; destruct newest | by apply list_lookup_insert_eq].
  cbn [store sp_min sp_max sp_last sp_count].
  rewrite (compareField_latest Goroutines setGoroutines _ _ i (setAllocMB (AllocMB p) (setConnections (Connections p) newest)))
    by first [done | by intros <-; destruct newest | by apply list_lookup_insert_eq; rewrite length_insert].
  cbn [store sp_min sp_max sp_last sp_count]. split. exists i, n. split_and!; try done; rewrite !list_insert_insert_eq; cbn [store].
  - rewrite list_lookup_insert_eq by (rewrite length_app; lia). by destruct p.
  - rewrite list_lookup_insert_ne by lia. by rewrite lookup_app_r, Nat.sub_diag by done.
Qed.

Lemma record_count p s : sp_count (record p s) = sp_count s + 1.
Proof.
  unfold record. cbn zeta. cbn [sp_min]. destruct (sp_min s); [|done].
  assert (H : forall get set v s', sp_count (compareField get set v s') = sp_count s').
  { intros get set v s'. unfold compareField, assign. repeat case_match; done. }
  by rewrite !H.
Qed.

Lemma records_inv ps p s newest :
  sampler_inv s newest -> sampler_inv (foldl (fun s p => record p s) s (ps ++ [p])) p.
Proof.
  revert s newest. induction ps as [|q ps IH]; intros s newest Hs; cbn; [by eapply record_inv|].
  by eapply IH, record_inv.
Qed.

Lemma records_count ps s : sp_count (foldl (fun s p => record p s) s ps) = sp_count s + Z.of_nat (length ps).
Proof.
  revert s. induction ps as [|q ps IH]; intros s; cbn [foldl length]; [lia|]. rewrite IH, record_count. lia.
Qed.

(** Whatever the sampler sees, the smallest, the largest and the last value
    it reports are all the newest sample's: the first sample becomes both [min]
    and [max], one object, which every later sample then overwrites. *)
Theorem sampler_reports_newest ps p :
  summary (foldl (fun s p => record p s) newSampler (ps ++ [p])) =
  Some (mkSummary (Connections p) (Connections p) (Connections p) (AllocMB p) (AllocMB p) (AllocMB p)
    (Goroutines p) (Goroutines p) (Goroutines p) (Z.of_nat (S (length ps)))).
Proof.
  set (s := foldl _ _ _). assert (Hinv : sampler_inv s p).
  { unfold s. destruct ps as [|q ps].
    - split. by exists 0%nat, 0%nat.
    - cbn [app foldl]. apply records_inv with q. split. by exists 0%nat, 0%nat. }
  destruct Hinv as [(i & j & Hmin & Hmax & Hlast & Hi & Hj)].
  assert (Hc : sp_count s = Z.of_nat (S (length ps))).
  { unfold s. rewrite records_count, length_app. cbn [length sp_count newSampler]. lia. }
  unfold summary, deref. rewrite Hc. destruct (Z.eqb_spec (Z.of_nat (S (length ps))) 0) as [H0|_]; [exfalso; clear -H0; lia|].
  rewrite Hmin, Hmax, Hlast. cbn. by rewrite Hi, Hj.
Qed.

(** ** JSON *)

(** As soon as one latency has been measured and one percentile is asked
    for, [-json] prints nothing: the result holds a map with float keys, which
    encoding/json does not encode, and the error is dropped. *)
Theorem json_prints_nothing {FT : FloatText} r :
  r_Delivery r <> [] \/ r_AckLat r <> [] \/ r_Fanout r <> [] \/ r_Request r <> [] \/ r_Hist r <> [] -> writeJSON r = "".
Proof.
  intros H. unfold writeJSON, resultDoc. destruct (jsonFloat (r_DurationS r)); [|done]. cbn [mbind option_bind].
  destruct (r_Delivery r); [|done]. destruct (r_AckLat r); [|done]. destruct (r_Fanout r); [|done].
  destruct (r_Request r); [|done]. destruct (r_Hist r); [|done]. naive_solver.
Qed.

(** ** Idle readers *)

Section Readers.
Context {E : Env} {C : Codec} {T : ErrorTexts} {W : Type} {TN : TcpNet W} {WN : WsNet W} {HN : HttpNet W} {UP : UrlParser}.

Lemma try_wrapped {A R} (wrap : GoError -> GoError) (m : St (W * Sys) (GoError + A)) (k : A -> St (W * Sys) (GoError + R)) p e :
  (forall x, isTimeout (wrap x) = false) ->
  (forall a p e, (k a p).1 = inl e -> isTimeout e = false) ->
  (try wrap m k p).1 = inl e -> isTimeout e = false.
Proof.
  intros Hw Hk. unfold try. rewrite bind_run. destruct (m p) as [[x|a] q]; cbn [fst snd ret]; [|apply Hk].
  intros [= <-]. apply Hw.
Qed.

(** Every error of [ReadMsg] is one the kit has made or wrapped. *)
Lemma ReadMsg_not_timeout conn d p e : (ReadMsg conn d p).1 = inl e -> isTimeout e = false.
Proof.
  destruct conn as [c|c]; cbn [ReadMsg].
  - unfold ReadMessage. apply try_wrapped; [done|]. intros [n raw] q e'. destruct (unmarshal raw); [done|]. by intros [= <-].
  - unfold ReadFrame. rewrite bind_run. cbn [Now fst snd]. rewrite bind_run.
    apply try_wrapped; [done|]. intros header q e'. destruct (65536 <? Uint32 header); [by intros [= <-]|].
    apply try_wrapped; [done|]. intros payload q' e''. destruct (unmarshal payload); [done|]. by intros [= <-].
Qed.

(** Steps that leave the shared state of a run alone. *)
Definition keepsRun {X A} (m : St ((@Run X * W) * Sys) A) : Prop :=
  forall r w y, exists a w' y', m ((r, w), y) = (a, ((r, w'), y')).

Lemma keepsRun_onNet {X A} (m : St (W * Sys) A) : keepsRun (X := X) (onNet m).
Proof. intros r w y. unfold onNet. destruct (m (w, y)) as [a [w' y']]. by exists a, w', y'. Qed.

Lemma ctxDone_run {X} (r : @Run X) (w : W) y :
  ctxDone ((r, w), y) =
  (ctx_cancelled (rn_ctx r) || (ctx_deadline (rn_ctx r) <=? readings E (sys_tick y)), ((r, w), mkSys (S (sys_tick y)) (sys_snow y))).
Proof. done. Qed.

Lemma keepsRun_ctxDone {X} : keepsRun (X := X) ctxDone.
Proof. intros r w y. rewrite ctxDone_run. by eexists _, _, _. Qed.

Lemma keepsRun_selectDone {X} : keepsRun (X := X) selectDone.
Proof.
  intros r w y. unfold selectDone. rewrite bind_run, ctxDone_run. cbn [fst snd].
  destruct (_ || _); unfold Pick, ret; by eexists _, _, _.
Qed.

(** The first read that fails ends a reader, an idle timeout included: the
    kit wraps every error, and [isTimeout] does not look inside, so the loop
    that means to go on after a timeout returns, with [true] if the context is
    not done. *)
Theorem idle_timeout_ends_reader {X} conn timeout fn (r : @Run X) (w : W) y e :
  (ReadMsg conn timeout (w, y)).1 = inl e ->
  isTimeout e = false /\ exists b, (readTurn conn timeout fn ((r, w), y)).1 = Some b.
Proof.
  intros He. assert (Ht : isTimeout e = false) by (by eapply ReadMsg_not_timeout). split; [done|].
  unfold readTurn. rewrite bind_run. unfold onNet. destruct (ReadMsg conn timeout (w, y)) as [res [w' y']].
  cbn [fst snd] in *. subst res. rewrite bind_run, ctxDone_run. cbn [fst snd]. rewrite Ht.
  destruct (_ || _); by eexists.
Qed.

Lemma wrap64_small z : in_int64 z -> wrap64 z = z.
Proof. unfold in_int64, wrap64. intros Hz. rewrite Z.mod_small by lia. lia. Qed.

Lemma count_add ms s : count (add ms s) = count s + 1.
Proof. unfold count, add. rewrite length_app. simpl. lia. Qed.

(** Runs of the steps that change the shared state. *)
Lemma changeRun_run {X} f (r : @Run X) (w : W) y : changeRun f ((r, w), y) = (tt, ((f r, w), y)).
Proof. done. Qed.

Lemma getRun_run {X} (r : @Run X) (w : W) y : getRun ((r, w), y) = (r, ((r, w), y)).
Proof. done. Qed.

Lemma Now_run {X} (r : @Run X) (w : W) y :
  Now ((r, w), y) = (readings E (sys_tick y), ((r, w), mkSys (S (sys_tick y)) (sys_snow y))).
Proof. done. Qed.

End Readers.

(** A step that reads or changes the shared state. *)
Ltac runs := rewrite ?bind_run; cbn [fst snd];
  rewrite ?getRun_run, ?Now_run; unfold countOne, addSampleTo, onStats, changeX; rewrite ?changeRun_run;
  cbn [fst snd rn_stats rn_ctx rn_sampler rn_x].

Section Chat.
Context {E : Env} {C : Codec} {T : ErrorTexts} {W : Type} {TN : TcpNet W} {WN : WsNet W} {HN : HttpNet W} {UP : UrlParser}.

(** ** The counters of a chat run *)

Abbreviation ChatX := (gmap Z chatConn).

(** Sent messages whose ACK has not been taken. *)
Definition pending (x : ChatX) : Z :=
  Z.of_nat (sum_list_with (fun p : Z * chatConn => size (cc_clock p.2)) (map_to_list x)).

Lemma pending_split (x : ChatX) i cc :
  x !! i = Some cc -> pending x = Z.of_nat (size (cc_clock cc)) + pending (delete i x).
Proof.
  intros Hi. unfold pending.
  pose proof (map_to_list_insert (delete i x) i cc (lookup_delete_eq x i)) as Hp.
  rewrite insert_delete_id in Hp by done. rewrite Hp. cbn [sum_list_with snd]. lia.
Qed.

Lemma pending_insert (x : ChatX) i cc cc' :
  x !! i = Some cc ->
  pending (<[i := cc']> x) = pending x - Z.of_nat (size (cc_clock cc)) + Z.of_nat (size (cc_clock cc')).
Proof.
  intros Hi. rewrite (pending_split x i cc Hi), (pending_split (<[i := cc']> x) i cc') by apply lookup_insert_eq.
  replace (delete i (<[i := cc']> x)) with (delete i x) by (symmetry; apply delete_insert_eq). lia.
Qed.

Lemma pending_alter (x : ChatX) i f :
  (forall cc, cc_clock (f cc) = cc_clock cc) -> pending (alter f i x) = pending x.
Proof.
  intros Hf. destruct (x !! i) as [cc|] eqn:Hi.
  - rewrite (alter_alt_Some _ _ _ _ Hi). rewrite (pending_insert x i cc) by done. rewrite Hf. lia.
  - rewrite alter_id; [done|]. intros cc Hc. by rewrite Hi in Hc.
Qed.

Lemma size_record seq t (m : gmap Z Z) : (size (clockRecord seq t m) <= S (size m))%nat.
Proof.
  unfold clockRecord. destruct (m !! seq) as [v|] eqn:H; [erewrite map_size_insert_Some by done|rewrite map_size_insert_None by done]; lia.
Qed.

(** What holds of the counters after [k] turns: each measured round trip is that
    of a message sent and not measured before. *)
Record chat_inv (k : Z) (r : @Run ChatX) : Prop := mkChatInv {
  ci_failed : 0 <= failed (rn_stats r) <= sent (rn_stats r);
  ci_sent : sent (rn_stats r) <= k;
  ci_delivered : delivered (rn_stats r) = count (delivery (rn_stats r)) /\ count (delivery (rn_stats r)) <= k;
  ci_acked : count (ack (rn_stats r)) <= acked (rn_stats r) <= k;
  ci_measured : count (ack (rn_stats r)) + pending (rn_x r) <= sent (rn_stats r)
}.

Lemma chat_inv_later k r : chat_inv k r -> chat_inv (k + 1) r.
Proof. intros []. split; lia. Qed.

(** Stopping a goroutine of a connection changes no counter and no clock. *)
Lemma chat_inv_alter k r f i :
  (forall cc, cc_clock (f cc) = cc_clock cc) -> chat_inv k r ->
  chat_inv k (mkRun (rn_stats r) (rn_ctx r) (rn_sampler r) (alter f i (rn_x r))).
Proof. intros Hf [H1 H2 H3 H4 H5]. split; cbn; try done. by rewrite pending_alter. Qed.

Lemma count_pos s : 0 <= count s.
Proof. unfold count. lia. Qed.

Lemma pending_pos x : 0 <= pending x.
Proof. unfold pending. lia. Qed.

(** The bounds a counting step needs, and the arithmetic of the invariant. *)
Ltac counted r :=
  pose proof (count_pos (delivery (rn_stats r))); pose proof (count_pos (ack (rn_stats r)));
  split; cbn -[add count wrap64 pending]; rewrite ?count_add, ?wrap64_small by (unfold in_int64; lia);
  try split; try lia.

Lemma chatRecv_inv k i msg r (w : W) y :
  0 <= k -> k + 1 < 2 ^ 63 -> chat_inv k r -> chat_inv (k + 1) (chatRecv i msg ((r, w), y)).2.1.1.
Proof.
  intros Hk0 Hk Hr. unfold chatRecv. destruct (Cmd msg =? CmdChat); [|destruct (Cmd msg =? CmdAck)].
  - do 3 runs. destruct Hr as [H1 H2 H3 H4 H5]. counted r.
  - do 2 runs. destruct (rn_x r !! i) as [cc|] eqn:Hi.
    + unfold clockTake. runs. pose proof (pending_insert (rn_x r) i cc (setClock (delete (Seq msg) (cc_clock cc)) cc) Hi) as Hp.
      cbn [cc_clock setClock] in Hp. destruct (cc_clock cc !! Seq msg) as [t|] eqn:Ht.
      * rewrite map_size_delete_Some in Hp by (by exists t). do 2 runs. destruct Hr as [H1 H2 H3 H4 H5].
        assert (Hsz : (0 < size (cc_clock cc))%nat).
        { destruct (size (cc_clock cc)) eqn:Hs; [|lia]. apply map_size_empty_inv in Hs. by rewrite Hs in Ht. }
        counted r.
      * rewrite map_size_delete_None in Hp by done. destruct Hr as [H1 H2 H3 H4 H5]. counted r.
    + destruct Hr as [H1 H2 H3 H4 H5]. counted r.
  - by apply chat_inv_later.
Qed.

Lemma chatRead_inv k i r (w : W) y :
  0 <= k -> k + 1 < 2 ^ 63 -> chat_inv k r -> chat_inv (k + 1) (chatRead i ((r, w), y)).2.1.1.
Proof.
  intros Hk0 Hk Hr. unfold chatRead. runs. destruct (rn_x r !! i) as [cc|] eqn:Hi; [|by apply chat_inv_later].
  destruct (cc_reading cc); [|by apply chat_inv_later]. rewrite bind_run. unfold readTurn.
  rewrite bind_run. destruct (keepsRun_onNet (ReadMsg (cc_conn cc) Second) r w y) as (res & w1 & y1 & ->). cbn [fst snd].
  destruct res as [e|msg].
  - rewrite bind_run, ctxDone_run. cbn [fst snd].
    destruct (_ || _); [|destruct (isTimeout e)]; cbn [ret fst snd]; try by apply chat_inv_later.
    all: unfold changeX; rewrite changeRun_run; cbn [fst snd]; by apply chat_inv_later, chat_inv_alter.
  - rewrite bind_run. cbn [ret fst snd]. by apply chatRecv_inv.
Qed.

Lemma chatSend_inv k i r (w : W) y :
  0 <= k -> k + 1 < 2 ^ 63 -> chat_inv k r -> chat_inv (k + 1) (chatSend i ((r, w), y)).2.1.1.
Proof.
  intros Hk0 Hk Hr. unfold chatSend. runs. destruct (rn_x r !! i) as [cc|] eqn:Hi; [|by apply chat_inv_later].
  destruct (cc_sending cc); [|by apply chat_inv_later]. rewrite bind_run.
  destruct (keepsRun_selectDone r w y) as (stop & w1 & y1 & ->). cbn [fst snd].
  destruct stop; [runs; by apply chat_inv_later, chat_inv_alter|].
  do 3 runs. set (x := <[i := _]> (rn_x r)).
  assert (Hp : pending x <= pending (rn_x r) + 1).
  { unfold x. rewrite (pending_insert _ _ _ _ Hi). cbn [cc_clock setSeq setClock].
    pose proof (size_record (cc_seq cc) (readings E (sys_tick y1)) (cc_clock cc)). lia. }
  set (r1 := mkRun _ _ _ x).
  match goal with |- context [onNet ?m ((r1, ?w2), ?y2)] =>
    destruct (keepsRun_onNet m r1 w2 y2) as (res & w3 & y3 & ->) end. cbn [fst snd].
  assert (Hr1 : chat_inv (k + 1) r1 /\ failed (rn_stats r1) < sent (rn_stats r1)).
  { destruct Hr as [H1 H2 H3 H4 H5]. split; [|cbn -[wrap64]; rewrite wrap64_small by (unfold in_int64; lia); lia].
    unfold r1. counted r. }
  destruct Hr1 as [Hr1 Hlt]. destruct res as [e|[]]; [|done].
  runs. set (r2 := mkRun _ _ _ _).
  assert (Hr2 : chat_inv (k + 1) r2).
  { destruct Hr1 as [H1 H2 H3 H4 H5]. unfold r2. clearbody r1. counted r1. }
  rewrite ctxDone_run. cbn [fst snd]. destruct (_ || _); [|done]. rewrite changeRun_run. by apply chat_inv_alter.
Qed.

Lemma sampleTurn_run {X} httpBase (r : @Run X) (w : W) y : exists s w' y',
  sampleTurn httpBase ((r, w), y) = (tt, ((mkRun (rn_stats r) (rn_ctx r) s (rn_x r), w'), y')).
Proof. unfold sampleTurn. destruct (samplerTick _ _) as [[] [[s w'] y']]. by exists s, w', y'. Qed.

(** The counters of a chat run, for every interleaving of its goroutines
    and whatever the network does, after fewer than 2^63 turns: every delivered
    message has given one sample; every measured round trip is an ACK, and one
    of a message that was sent and not measured before, so there are no more of
    them than messages sent; no more writes failed than were begun. *)
Theorem chat_run_counts httpBase schedule (r : @Run ChatX) (w : W) y :
  rn_stats r = newStats -> (forall i cc, rn_x r !! i = Some cc -> cc_clock cc = ∅) ->
  Z.of_nat (length schedule) < 2 ^ 63 ->
  let st := rn_stats (forEach schedule (chatEvent httpBase) ((r, w), y)).2.1.1 in
  delivered st = count (delivery st) /\ count (ack st) <= acked st /\ count (ack st) <= sent st /\
  0 <= failed st <= sent st /\ sent st <= Z.of_nat (length schedule).
Proof.
  intros Hst Hclock Hlen. cbv zeta.
  assert (Hstart : chat_inv 0 r).
  { assert (Hp : pending (rn_x r) = 0).
    { unfold pending. enough (Hz : sum_list_with (fun p : Z * chatConn => size (cc_clock p.2)) (map_to_list (rn_x r)) = 0%nat) by lia.
      assert (Hall : Forall (fun p : Z * chatConn => cc_clock p.2 = ∅) (map_to_list (rn_x r))).
      { apply Forall_forall. intros [i cc] Hin. apply (Hclock i). by apply elem_of_map_to_list. }
      induction Hall as [|p l Hp _ IH]; [done|]. cbn. by rewrite Hp, IH. }
    split; rewrite ?Hst, ?Hp; unfold count; cbn; lia. }
  assert (Hgen : forall k r w y, 0 <= k -> k + Z.of_nat (length schedule) < 2 ^ 63 -> chat_inv k r ->
    chat_inv (k + Z.of_nat (length schedule)) (forEach schedule (chatEvent httpBase) ((r, w), y)).2.1.1).
  { clear. induction schedule as [|e es IH]; intros k r w y Hk0 Hk Hr; [by rewrite Z.add_0_r|].
    rewrite forEach_cons. cbn [length] in *. replace (k + Z.of_nat (S (length es))) with ((k + 1) + Z.of_nat (length es)) in * by lia.
    assert (He : chat_inv (k + 1) (chatEvent httpBase e ((r, w), y)).2.1.1).
    { destruct e as [i|i|]; cbn [chatEvent]; [apply chatSend_inv|apply chatRead_inv|]; try done; try lia.
      destruct (sampleTurn_run httpBase r w y) as (s & w' & y' & ->). apply chat_inv_later. by destruct Hr; split. }
    destruct (chatEvent httpBase e ((r, w), y)) as [[] [[r1 w1] y1]]. cbn [fst snd] in *. apply IH; [lia|lia|done]. }
  destruct (Hgen 0 r w y ltac:(lia) ltac:(lia) Hstart) as [H1 H2 [H3 H3'] H4 H5].
  pose proof (pending_pos (rn_x (forEach schedule (chatEvent httpBase) ((r, w), y)).2.1.1)). split_and!; try done; lia.
Qed.

End Chat.

(** * What the scenarios of the load test do

    Users and pairs, the counters of a churn run, the fan-out of a group message
    as the worst latency of its receivers, and where the scenarios' numbers and
    limits go wrong. *)

(** ** Users *)

Lemma digitsValue_zeros k s : digitsValue 0 (zeros k +:+ s) = digitsValue 0 s.
Proof. induction k as [|k IH]; [done|]. cbn [zeros]. rewrite append_cons. cbn. exact IH. Qed.

Lemma digitsValue_itoa n : 0 <= n -> digitsValue 0 (itoa n) = Some n.
Proof.
  intros Hn. pose proof (parseInt_itoa n) as Hp. destruct (itoa_shape n) as [He|(sign & c & d & He & Hs & Hc & _ & _)].
  - rewrite He in Hp |- *. exact Hp.
  - destruct Hs as [-> | ->].
    + rewrite append_nil in He. rewrite He in Hp |- *. unfold parseInt in Hp. unfold isDigit in Hc.
      destruct (Z.eqb_spec (code c) 45); [lia|exact Hp].
    + exfalso. rewrite He, append_cons, append_nil in Hp. unfold parseInt in Hp.
      change (code "-" =? 45) with true in Hp. cbv iota in Hp.
      destruct (digitsValue 0 (String c d)) as [z|] eqn:Hz; [|done]. injection Hp as Hp.
      assert (Hpos : forall s acc v, 0 <= acc -> digitsValue acc s = Some v -> 0 <= v).
      { clear. induction s as [|a s IH]; intros acc v Ha; cbn; [by intros [= <-]|].
        destruct (isDigit a) eqn:Hd; [|done]. unfold isDigit in Hd. apply IH. lia. }
      assert (Hz0 : 0 <= z) by (by apply (Hpos (String c d) 0)).
      assert (Hn0 : n = 0) by lia. rewrite Hn0 in He. change (itoa 0) with "0"%string in He. discriminate He.
Qed.

Lemma padded_inj width a b : 0 <= a -> 0 <= b -> padded width a = padded width b -> a = b.
Proof.
  intros Ha Hb H. apply (f_equal (digitsValue 0)) in H. unfold padded in H.
  rewrite !digitsValue_zeros, !digitsValue_itoa in H by done. by injection H.
Qed.

Lemma userUID_inj a b : 0 <= a -> 0 <= b -> userUID a = userUID b -> a = b.
Proof. intros Ha Hb H. unfold userUID in H. apply padded_inj with 6%nat; [done|done|]. by repeat injection H as H. Qed.

(** Chat users write to each other in pairs. *)
Lemma chat_pairs users i :
  Z.rem users 2 = 0 -> 0 <= i < users ->
  0 <= Z.lxor i 1 < users /\ Z.lxor (Z.lxor i 1) 1 = i /\ userUID (Z.lxor i 1) <> userUID i.
Proof.
  intros Hu Hi.
  assert (Hx : Z.lxor i 1 = if Z.even i then i + 1 else i - 1).
  { destruct i as [|p|p]; [done| |lia]. destruct p; cbn; try done; lia. }
  assert (Hr : 0 <= Z.lxor i 1 < users).
  { rewrite Hx. destruct (Z.even i) eqn:He; [|split; [|lia]].
    - split; [lia|]. apply Z.even_spec in He as [k ->]. 
      assert (Hm : users = 2 * Z.quot users 2) by (pose proof (Z.quot_rem users 2 ltac:(lia)); lia).
      destruct (Z.eq_dec users (2 * k + 1)) as [E|]; [|lia]. exfalso. rewrite E in Hm at 1. lia.
    - destruct (Z.eq_dec i 0) as [->|]; [done|lia]. }
  split_and!; [lia|lia| |].
  - by rewrite Z.lxor_assoc, Z.lxor_nilpotent, Z.lxor_0_r.
  - intros H. apply userUID_inj in H; [|lia|lia]. rewrite Hx in H. destruct (Z.even i); lia.
Qed.

(** ** Fan-out *)

(** Rounding a mantissa that is not negative does not make it so. *)
Lemma iter_pos_shr n mrs : 0 <= shr_m mrs -> 0 <= shr_m (SpecFloat.iter_pos shr_1 n mrs).
Proof.
  assert (H1 : forall x, 0 <= shr_m x -> 0 <= shr_m (shr_1 x)).
  { intros [[|[p|p|]|p] r s] Hx; cbn in *; lia. }
  revert mrs. induction n as [n IH|n IH|]; intros mrs Hm; cbn; auto.
Qed.

Lemma shr_fexp_pos m e l : 0 <= m -> 0 <= shr_m (shr_fexp prec emax m e l).1.
Proof.
  intros Hm. unfold shr_fexp, shr. destruct (_ - _); cbn [fst]; [|apply iter_pos_shr|]; by destruct l as [|[]].
Qed.

Lemma of_int_number z : isNaN (of_int z) = false.
Proof.
  assert (Hr : forall sg p, isNaN (binary_round prec emax sg p 0) = false).
  { intros sg p. unfold binary_round, binary_round_aux. destruct (shl_align _ _ _) as [m e].
    pose proof (shr_fexp_pos (Zpos m) e loc_Exact ltac:(lia)) as H1.
    destruct (shr_fexp prec emax (Zpos m) e loc_Exact) as [mrs e']. cbn [fst] in H1.
    assert (H2 : 0 <= round_nearest_even (shr_m mrs) (loc_of_shr_record mrs)).
    { unfold round_nearest_even. repeat case_match; lia. }
    pose proof (shr_fexp_pos _ e' loc_Exact H2) as H3.
    destruct (shr_fexp prec emax _ e' loc_Exact) as [mrs2 e2]. cbn [fst] in H3.
    destruct (shr_m mrs2); [done|by destruct (_ <=? _)|lia]. }
  unfold of_int, binary_normalize. by destruct z.
Qed.

(** The latencies of the messages with one number. *)
Definition latenciesOf (seq : Z) (events : list (Z * float64)) : list float64 :=
  omap (fun e : Z * float64 => if bool_decide (e.1 = seq) then Some e.2 else None) events.

Definition fanOf (events : list (Z * float64)) : gmap Z float64 :=
  foldl (fun m e => fanUpdate e.1 e.2 m) ∅ events.

Lemma fanOf_snoc events e : fanOf (events ++ [e]) = fanUpdate e.1 e.2 (fanOf events).
Proof. unfold fanOf. by rewrite foldl_app. Qed.

Lemma latenciesOf_snoc seq events e :
  latenciesOf seq (events ++ [e]) = latenciesOf seq events ++ if bool_decide (e.1 = seq) then [e.2] else [].
Proof. unfold latenciesOf. rewrite omap_app. cbn. by case_bool_decide. Qed.

(** What is reported of a group message is the largest of the latencies with
    which its receivers got it, in whatever order they did. *)
Theorem fan_is_worst events seq :
  Forall (fun e : Z * float64 => isNaN e.2 = false) events ->
  match fanOf events !! seq with
  | Some v => v ∈ latenciesOf seq events /\ Forall (fun lat => floatLe lat v) (latenciesOf seq events)
  | None => latenciesOf seq events = []
  end.
Proof.
  induction events as [|e events IH] using rev_ind; [done|]. intros [Hn He]%Forall_app. specialize (IH Hn).
  apply Forall_cons in He as [He _]. destruct e as [s lat]. cbn [snd] in He.
  rewrite fanOf_snoc, latenciesOf_snoc. cbn [fst snd]. unfold fanUpdate.
  destruct (decide (s = seq)) as [->|Hne].
  - rewrite bool_decide_eq_true_2 by done. destruct (fanOf events !! seq) as [v|] eqn:Hv.
    + destruct IH as [Hin Hall]. destruct (flt v lat) eqn:Hlt.
      * rewrite lookup_insert_eq. split; [set_solver|]. apply Forall_app. split; [|by apply Forall_singleton, floatLe_refl].
        eapply Forall_impl; [exact Hall|]. intros x Hx. transitivity v; [done|]. apply floatLe_key.
        assert (Hvl : floatLess v lat = true) by (unfold floatLess; by rewrite Hlt). apply floatLess_key in Hvl.
        destruct (fkey v) as [[a1 a2] a3], (fkey lat) as [[b1 b2] b3]. unfold keyLt in *. lia.
      * rewrite Hv. split; [set_solver|]. apply Forall_app. split; [done|]. apply Forall_singleton.
        unfold floatLe, floatLess. rewrite Hlt. cbn.
        assert (Hvn : isNaN v = false); [|by rewrite Hvn].
        unfold latenciesOf in Hin. apply list_elem_of_omap in Hin as ([s x] & Hx & Hs). cbn in Hs.
        case_bool_decide; [|done]. injection Hs as <-. rewrite Forall_forall in Hn. by apply (Hn (s, x)).
    + rewrite lookup_insert_eq, IH. cbn. split; [by left|]. by apply Forall_singleton, floatLe_refl.
  - rewrite bool_decide_eq_false_2 by done. rewrite app_nil_r.
    destruct (fanOf events !! s) as [v'|]; [destruct (flt v' lat)|]; rewrite ?lookup_insert_ne by done; exact IH.
Qed.

(** ** Numbers and limits *)

(** The number of a group's [k]-th message. *)
Definition groupSeq (base g k : Z) : Z := base + g * 100 + 50 + k.

(** The numbers of two groups are apart while a group sends at most a hundred
    messages, and the next hundred are the next group's. *)
Lemma group_seqs base msgs g g' k k' :
  0 <= k < msgs -> 0 <= k' < msgs -> msgs <= 100 -> groupSeq base g k = groupSeq base g' k' -> g = g' /\ k = k'.
Proof. unfold groupSeq. lia. Qed.

Lemma group_seqs_overlap base g msgs : 100 < msgs -> 0 <= 100 < msgs /\ groupSeq base g 100 = groupSeq base (g + 1) 0.
Proof. unfold groupSeq. lia. Qed.

(** The reader's timeout is below the heartbeat interval only between one second
    and thirty; at the default interval, thirty seconds, it is the interval. *)
Lemma readTimeout_below interval : readTimeout interval < interval <-> Second < interval < 30 * Second \/ 30 * Second < interval.
Proof.
  unfold readTimeout, Second. destruct (Z.ltb_spec 0 interval); cbn [andb].
  - destruct (Z.ltb_spec interval (30 * 1000000000)); cbn [andb].
    + rewrite Z.quot_div_nonneg by lia. pose proof (Z.div_mod interval 2 ltac:(lia)). pose proof (Z.mod_pos_bound interval 2 ltac:(lia)).
      destruct (Z.ltb_spec (interval / 2) 1000000000); lia.
    + destruct (Z.ltb_spec (30 * 1000000000) 1000000000); lia.
  - destruct (Z.ltb_spec (30 * 1000000000) 1000000000); lia.
Qed.

Lemma readTimeout_default : readTimeout (o_interval defaultOptions) = o_interval defaultOptions.
Proof. reflexivity. Qed.

(** Half a connection per second leaves no slot in the semaphore; a rate of zero
    messages per second no interval for the ticker. *)
Lemma half_rate_no_slot : truncInt (fdiv (of_int 1) (of_int 2)) = 0.
Proof. vm_compute. reflexivity. Qed.

Lemma zero_rate_no_interval : perRate (of_int 0) = - 2 ^ 63.
Proof. vm_compute. reflexivity. Qed.

Section Runs.
Context {E : Env} {C : Codec} {T : ErrorTexts} {W : Type} {TN : TcpNet W} {WN : WsNet W} {HN : HttpNet W} {UP : UrlParser}.

(** A chat run that has logged its users in with a connection rate below one
    dials none of them: it hangs. *)
Lemma chat_low_rate_hangs finished dialled schedule opts httpBase wsURL (w : W) y tokens p :
  0 < o_users opts -> 0 < o_workers opts -> truncInt (connRateOf opts) = 0 ->
  loginAll httpBase finished (w, mkSys (S (sys_tick y)) (sys_snow y)) = (inr tokens, p) ->
  (runChat finished dialled schedule opts httpBase wsURL (w, y)).1 = Hangs.
Proof.
  intros Hu Hw Hr Hl. unfold runChat, startRun. cbn [Now]. unfold bind at 1.
  unfold connectAll. rewrite (proj2 (Z.ltb_ge _ _)) by lia. rewrite (proj2 (Z.leb_gt _ _)) by lia. cbn [andb].
  rewrite bind_run. unfold onNet. rewrite Hl. destruct p as [w' y']. cbn [fst snd].
  rewrite Hr. cbn [Z.ltb Z.compare Z.eqb andb]. by rewrite (proj2 (Z.ltb_lt _ _) Hu).
Qed.

(** ** The polls end *)

(** The loop of [WaitHealthy] ends: once every reading of the clock is past the
    deadline, fuel for the readings that are left is enough. *)
Lemma pollHealth_returns url deadline N :
  (forall w s, (sys_tick s <= sys_tick (http_Get (W := W) url (w, s)).2.2)%nat) ->
  (forall n, (N <= n)%nat -> deadline <= readings E n) ->
  forall fuel (w : W) s, (0 < fuel)%nat -> (N < sys_tick s + fuel)%nat ->
    exists b, (pollHealth fuel url deadline (w, s)).1 = Some b.
Proof.
  intros Hnet Hpast. induction fuel as [|fuel IH]; intros w s H0 Hfuel; [lia|]. cbn [pollHealth].
  rewrite bind_run. cbn [Now fst snd]. destruct (Z.ltb_spec (readings E (sys_tick s)) deadline) as [Hlt|Hge];
    [|by exists false].
  assert (Hbefore : (sys_tick s < N)%nat). { destruct (le_lt_dec N (sys_tick s)) as [Hle|]; [|done]. specialize (Hpast _ Hle). lia. }
  cbn [negb]. rewrite bind_run. specialize (Hnet w (mkSys (S (sys_tick s)) (sys_snow s))).
  destruct (http_Get url _) as [[e|r] [w' s']]; cbn [fst snd sys_tick] in *; [|destruct (_ =? _); [by exists true|]];
    apply IH; lia.
Qed.

(** So does the wait for the response to a group's creation, whatever else the
    connection receives. *)
Lemma readGroupCreate_returns conn deadline N :
  (forall (w : W) s, (sys_tick s <= sys_tick (ReadMsg conn (15 * Second) (w, s)).2.2)%nat) ->
  (forall n, (N <= n)%nat -> deadline <= readings E n) ->
  forall fuel (w : W) s, (0 < fuel)%nat -> (N < sys_tick s + fuel)%nat ->
    exists r, (readGroupCreate fuel conn deadline (w, s)).1 = Some r.
Proof.
  intros Hnet Hpast. induction fuel as [|fuel IH]; intros w s H0 Hfuel; [lia|]. cbn [readGroupCreate].
  rewrite bind_run. cbn [Now fst snd]. destruct (Z.ltb_spec (readings E (sys_tick s)) deadline) as [Hlt|Hge];
    [|by eexists].
  assert (Hbefore : (sys_tick s < N)%nat). { destruct (le_lt_dec N (sys_tick s)) as [Hle|]; [|done]. specialize (Hpast _ Hle). lia. }
  cbn [negb]. rewrite bind_run. specialize (Hnet w (mkSys (S (sys_tick s)) (sys_snow s))).
  destruct (ReadMsg conn _ _) as [[e|msg] [w' s']]; cbn [fst snd sys_tick] in *; [by eexists|].
  destruct (Cmd msg =? CmdGroupCreate); [|apply IH; lia].
  destruct (UnmarshalObject (Content msg) ≫= field_string "id") as [id|]; [|by eexists].
  case_bool_decide; [by eexists|apply IH; lia].
Qed.

(** ** Churn *)

(** What holds of the counters after [k] turns. *)
Record churn_inv (k : Z) (r : @Run (gmap Z (Z * bool))) : Prop := mkChurnInv {
  ch_all : connects (rn_stats r) = connectOK (rn_stats r) + failed (rn_stats r);
  ch_ok : 0 <= hbOK (rn_stats r) <= connectOK (rn_stats r);
  ch_failed : 0 <= failed (rn_stats r);
  ch_connects : connects (rn_stats r) <= k
}.

Lemma churn_inv_x k r x c s : churn_inv k r -> churn_inv k (mkRun (rn_stats r) c s x).
Proof. by intros []; split. Qed.

Lemma churn_inv_later k r : churn_inv k r -> churn_inv (k + 1) r.
Proof. intros []. split; try done. lia. Qed.

(** A connection is counted with its failure, or with its success and the
    heartbeat that may have been answered. *)
Lemma churn_counted k r x :
  k + 1 < 2 ^ 63 -> churn_inv k r ->
  churn_inv (k + 1) (mkRun (addTo Failed 1 (addTo Connects 1 (rn_stats r))) (rn_ctx r) (rn_sampler r) x) /\
  churn_inv (k + 1) (mkRun (addTo ConnectOK 1 (addTo Connects 1 (rn_stats r))) (rn_ctx r) (rn_sampler r) x) /\
  churn_inv (k + 1) (mkRun (addTo HbOK 1 (addTo ConnectOK 1 (addTo Connects 1 (rn_stats r)))) (rn_ctx r) (rn_sampler r) x).
Proof.
  intros Hk [H1 H2 H3 H4]. split_and!; split; cbn -[wrap64]; rewrite ?wrap64_small by (unfold in_int64; lia); lia.
Qed.

(** A call on the network: a result and another network. *)
Ltac network := rewrite ?bind_run; cbn [fst snd ret];
  match goal with |- context [onNet ?m ((?r1, ?w2), ?y2)] =>
    let res := fresh "res" in let w' := fresh "w" in let y' := fresh "y" in
    destruct (keepsRun_onNet m r1 w2 y2) as (res & w' & y' & ->) end; cbn [fst snd].

Lemma churnTurn_inv k opts httpBase wsURL worker r (w : W) y :
  k + 1 < 2 ^ 63 -> churn_inv k r -> churn_inv (k + 1) (churnTurn opts httpBase wsURL worker ((r, w), y)).2.1.1.
Proof.
  intros Hk Hr. unfold churnTurn. runs. destruct (rn_x r !! worker) as [[seq [|]]|]; try by apply churn_inv_later.
  rewrite bind_run. destruct (keepsRun_selectDone r w y) as (stop & w1 & y1 & ->). cbn [fst snd].
  destruct stop; [runs; by apply churn_inv_later, churn_inv_x|]. do 2 runs.
  destruct (churn_counted k r (<[worker := (seq + 1, true)]> (rn_x r)) Hk Hr) as (H1 & H2 & H3).
  network. destruct res as [e|[token u]]; [exact H1|].
  network. destruct res as [e|conn]; [exact H1|]. runs.
  network. destruct res as [e|[]]; [network; exact H2|].
  network. destruct res as [e|msg]; [network; exact H2|]. runs. network. exact H3.
Qed.

(** The counters of a churn run, for every interleaving of its workers and
    whatever the network does, after fewer than 2^63 turns: every connection
    that was tried either succeeded or failed, and no more heartbeats were
    answered than connections succeeded. *)
Theorem churn_run_counts opts httpBase wsURL schedule (r : @Run (gmap Z (Z * bool))) (w : W) y :
  rn_stats r = newStats -> Z.of_nat (length schedule) < 2 ^ 63 ->
  let st := rn_stats (forEach schedule (churnEvent opts httpBase wsURL) ((r, w), y)).2.1.1 in
  connects st = connectOK st + failed st /\ 0 <= hbOK st <= connectOK st /\ 0 <= failed st /\
  connects st <= Z.of_nat (length schedule).
Proof.
  intros Hst Hlen. cbv zeta.
  assert (Hgen : forall k r w y, k + Z.of_nat (length schedule) < 2 ^ 63 -> churn_inv k r ->
    churn_inv (k + Z.of_nat (length schedule)) (forEach schedule (churnEvent opts httpBase wsURL) ((r, w), y)).2.1.1).
  { clear. induction schedule as [|e es IH]; intros k r w y Hk Hr; [by rewrite Z.add_0_r|].
    rewrite forEach_cons. cbn [length] in *. replace (k + Z.of_nat (S (length es))) with ((k + 1) + Z.of_nat (length es)) in * by lia.
    assert (He : churn_inv (k + 1) (churnEvent opts httpBase wsURL e ((r, w), y)).2.1.1).
    { destruct e as [i|]; cbn [churnEvent]; [apply churnTurn_inv; [lia|done]|].
      destruct (sampleTurn_run httpBase r w y) as (s & w' & y' & ->). by apply churn_inv_later, churn_inv_x. }
    destruct (churnEvent opts httpBase wsURL e ((r, w), y)) as [[] [[r1 w1] y1]]. cbn [fst snd] in *. by apply IH. }
  destruct (Hgen 0 r w y ltac:(lia)) as [H1 H2 H3 H4]; [split; rewrite Hst; cbn; lia|]. split_and!; try done; lia.
Qed.

(** ** Logins *)

(** When the pool of logins succeeds, every user it logged in has the token
    of a successful login of its own, and nobody else has one: no two users
    share a padded uid. *)
Theorem loginAll_tokens httpBase finished (w : W) y tokens p :
  NoDup finished -> Forall (fun i => 0 <= i) finished ->
  loginAll httpBase finished (w, y) = (inr tokens, p) ->
  (forall i, i ∈ finished -> exists w' y' token u, tokens !! userUID i = Some token /\
     (LoginDev (httpBase +:+ "/login") (userUID i) (userUID i) (w', y')).1 = inr (token, u)) /\
  dom tokens = list_to_set (map userUID finished).
Proof.
  intros Hnd Hpos. unfold loginAll.
  assert (Hgen : forall acc w y, collectLogins httpBase finished acc (w, y) = (inr tokens, p) ->
    (forall i, i ∈ finished -> exists w' y' token u, tokens !! userUID i = Some token /\
       (LoginDev (httpBase +:+ "/login") (userUID i) (userUID i) (w', y')).1 = inr (token, u)) /\
    dom tokens = dom acc ∪ list_to_set (map userUID finished) /\
    (forall k, k ∉ map userUID finished -> tokens !! k = acc !! k)).
  { clear w y. induction finished as [|i rest IH]; intros acc w y Hrun.
    - injection Hrun as -> _. split_and!; [by intros i Hi%not_elem_of_nil|set_solver|done].
    - apply NoDup_cons in Hnd as [Hi Hnd]. apply Forall_cons in Hpos as [Hi0 Hpos]. cbn [collectLogins] in Hrun.
      rewrite bind_run in Hrun. destruct (LoginDev _ (userUID i) (userUID i) (w, y)) as [[e|[token u]] [w1 y1]] eqn:Hl; [done|].
      cbn [fst snd] in Hrun. destruct (IH Hnd Hpos _ _ _ Hrun) as (H1 & H2 & H3).
      assert (Hout : userUID i ∉ map userUID rest).
      { intros (j & Hj & Hr)%list_elem_of_fmap. apply userUID_inj in Hj as ->; [done|done|].
        by apply (proj1 (Forall_forall _ _) Hpos). }
      split_and!.
      + intros j [->|Hj]%elem_of_cons; [|by apply H1]. exists w, y, token, u. by rewrite Hl, H3, lookup_insert_eq.
      + rewrite H2, dom_insert_L. cbn. set_solver.
      + intros k Hk. cbn in Hk. apply not_elem_of_cons in Hk as [Hk1 Hk2]. by rewrite H3, lookup_insert_ne. }
  intros Hrun. destruct (Hgen ∅ w y Hrun) as (H1 & H2 & _). split; [done|]. rewrite H2. set_solver.
Qed.

End Runs.
