(* ===== verification/Router.v ===== *)
(** * Dispatch (src/internal/gateway/router.go, [Route])

    Validation, the command counter, and the handler of each command. *)

From S2P Require Import Prelude Proto Snowflake Process Client Hub HashRing Dedup RateLimiter.
From S2P Require Import Unread GroupStore Json Stores LogicClient Producer RouterState RouterDelivery.
From S2P Require Import RouterChat RouterGroup.

Section Route.
Context {E : Env} {C : Codec} {B : Backends E}.
Context (unmarshalError : string -> string).

Definition dispatch (sender : Handle) (msg : Message) : M unit :=
  let c := Cmd msg in
  if c =? CmdNone then ret tt
  else if c =? CmdHeartbeat then handleHeartbeat sender msg
  else if c =? CmdChat then handleChat sender msg
  else if c =? CmdFile then handleChat sender msg
  else if c =? CmdOffline then handleOffline sender
  else if c =? CmdHistory then handleHistory sender msg
  else if c =? CmdReadReceipt then handleReadReceipt sender msg
  else if c =? CmdUnreadCount then handleUnreadCount sender msg
  else if c =? CmdSearch then handleSearch sender msg
  else if c =? CmdGroupCreate then handleGroupCreate unmarshalError sender msg
  else if c =? CmdGroupJoin then handleGroupJoin sender msg
  else if c =? CmdGroupInviteMember then handleGroupInviteMember sender msg
  else if c =? CmdGroupLeave then handleGroupLeave sender msg
  else if c =? CmdGroupInfo then handleGroupInfo sender msg
  else if c =? CmdGroupList then handleGroupList sender msg
  else if c =? CmdRecall then handleRecall sender msg
  else if c =? CmdFriendRequest then handleFriendRequest sender msg
  else if c =? CmdFriendResponse then handleFriendResponse sender msg
  else if c =? CmdTyping then handleTyping sender msg
  else if c =? CmdForward then handleForward sender msg
  else if c =? CmdEdit then handleEdit sender msg
  else if c =? CmdKick then ret tt
  else ret tt.

Definition Route (sender : Handle) (msg : Message) : M unit :=
  match Validate msg with
  | Some _ => ret tt
  | None => record (RecordCommand (Cmd msg)) ;;! dispatch sender msg
  end.

End Route.
