(* ===== verification/RouterFrame.v ===== *)
(** * Footprints of the router's handlers

    [stable I] says that a predicate on the router and the process survives
    every primitive action a handler is made of.  Each handler is then stable
    by its structure, so an invariant of the whole dispatcher is proved by
    checking the primitives.  The parts of [stable] are separate, and each
    handler's lemma names the parts it needs: that is its footprint. *)

From S2P Require Import Prelude Proto Snowflake Process Client Hub HashRing Dedup RateLimiter.
From S2P Require Import Unread GroupStore Json Stores LogicClient Producer RouterState RouterDelivery.
From S2P Require Import RouterChat RouterGroup Router.

Create HintDb frame discriminated.

Section Frame.
Context {E : Env} {C : Codec} {B : Backends E}.
Context (I : Router * Sys -> Prop).
Implicit Types (sender : Handle) (msg : Message).

(** Reading the clock, drawing an id, counting a metric, sending. *)
Record stable_send : Prop := mkStableSend {
  st_sendTo : forall h m, preserves I (sendTo h m);
  st_record : forall m, handler_metric m -> preserves I (record m);
  st_NextID : preserves I NextID;
  st_Now : preserves I Now
}.

(** Handing a message to another place: offline storage or a peer. *)
Record stable_store : Prop := mkStableStore {
  st_storeOffline : forall uid m, preserves I (storeOffline uid m);
  st_forward : forall f uid m, preserves I (onForwarder f (Forward uid m))
}.

Record stable_persist : Prop := mkStablePersist {
  st_enqueue : forall m, preserves I (enqueuePersist m)
}.

Record stable_accept : Prop := mkStableAccept {
  st_IsDuplicate : forall u n, preserves I (onDedup (IsDuplicate u n));
  st_Mark : forall u n id, preserves I (onDedup (Mark u n id));
  st_Allow : forall rl u, preserves I (onRate rl (Allow u))
}.

Record stable_group_reads : Prop := mkStableGroupReads {
  st_GetMembers : forall gs g, preserves I (onGroups gs (GetMembers g));
  st_GetGroup : forall gs g, preserves I (onGroups gs (GroupStore.Get g));
  st_GetUserGroups : forall gs u, preserves I (onGroups gs (GetUserGroups u));
  st_panic : preserves I markPanic
}.

Record stable_unread_writes : Prop := mkStableUnreadWrites {
  st_Increment : forall ut a b, preserves I (onUnread ut (Increment a b));
  st_MarkRead : forall ut a b, preserves I (onUnread ut (MarkRead a b))
}.

Record stable_queries : Prop := mkStableQueries {
  st_Drain : forall uid, preserves I (onOffline (DrainOffline uid));
  st_GetCounts : forall ut u, preserves I (onUnread ut (GetCounts u));
  st_QueryHistory : forall ms a b t n, preserves I (onMsgs ms (Stores.QueryHistory a b t n));
  st_QueryGroupHistory : forall ms g t n, preserves I (onMsgs ms (Stores.QueryGroupHistory g t n));
  st_SearchMessages : forall ms p, preserves I (onMsgs ms (Stores.SearchMessages p));
  st_logic : forall (R A : Type) (nil : A) (rpc : bk_L -> (string + R) * bk_L) k,
    preserves I (onLogic (call nil rpc k))
}.

Record stable_edits : Prop := mkStableEdits {
  st_Recall : forall ms a b c, preserves I (onMsgs ms (RecallMessage a b c));
  st_Update : forall ms a b c, preserves I (onMsgs ms (UpdateMessageContent a b c))
}.

Record stable_group_writes : Prop := mkStableGroupWrites {
  st_Create : forall gs a b c, preserves I (onGroups gs (GroupStore.Create a b c));
  st_AddMember : forall gs a b, preserves I (onGroups gs (AddMember a b));
  st_RemoveMember : forall gs a b, preserves I (onGroups gs (RemoveMember a b))
}.

Record stable_friends : Prop := mkStableFriends {
  st_SendRequest : forall fs a b, preserves I (onFriends fs (SendRequest a b));
  st_Accept : forall fs a b, preserves I (onFriends fs (AcceptRequest a b));
  st_Reject : forall fs a b, preserves I (onFriends fs (RejectRequest a b))
}.

Lemma preserves_onClients_gets {A} (f : Conn * Sys -> A) : preserves I (onClients (gets f)).
Proof. intros [r s] H. unfold onClients, zoom, gets. simpl. by destruct r. Qed.

Lemma preserves_getX : preserves I (getX (X := Router)).
Proof. apply preserves_gets. Qed.

Lemma preserves_getClient uid : preserves I (getClient uid).
Proof. apply preserves_onClients_gets. Qed.

Lemma label_received msg : handler_metric (RecordMessagesReceived (ChatTypeStr msg)).
Proof. apply ChatTypeStr_label. Qed.
Lemma label_delivered msg : handler_metric (RecordMessageDelivered (ChatTypeStr msg)).
Proof. apply ChatTypeStr_label. Qed.
Lemma label_duration msg d : handler_metric (RecordDeliveredDuration (ChatTypeStr msg) d).
Proof. apply ChatTypeStr_label. Qed.
Lemma label_group : handler_metric (RecordMessageDelivered "group").
Proof. by right. Qed.
#[local] Hint Resolve label_received label_delivered label_duration label_group : frame.
#[local] Hint Extern 1 (handler_metric _) => exact Logic.I : frame.

(** The tactic: structure, then the primitives in the context. *)
#[local] Hint Resolve preserves_getX preserves_getClient : frame.
#[local] Hint Resolve st_sendTo st_record st_NextID st_Now st_storeOffline st_forward st_enqueue
  st_IsDuplicate st_Mark st_Allow st_GetMembers st_GetGroup st_GetUserGroups st_panic
  st_Increment st_MarkRead st_Drain st_GetCounts st_QueryHistory st_QueryGroupHistory
  st_SearchMessages st_logic st_Recall st_Update st_Create st_AddMember st_RemoveMember
  st_SendRequest st_Accept st_Reject : frame.

Ltac frame := repeat first [solve [eauto 3 with frame] | preserve_step].

Lemma NowMilli_stable : stable_send -> preserves I NowMilli.
Proof. intros. unfold NowMilli. frame. Qed.
#[local] Hint Resolve NowMilli_stable : frame.

Lemma send__stable h m : stable_send -> preserves I (send_ h m).
Proof. intros. unfold send_. frame. Qed.
#[local] Hint Resolve send__stable : frame.

Lemma stamped_stable {A} (k : Z -> Z -> M A) :
  stable_send -> (forall id ts, preserves I (k id ts)) -> preserves I (stamped k).
Proof. intros. unfold stamped. frame. Qed.

Lemma reply_stable h a b c d n : stable_send -> preserves I (reply h a b c d n).
Proof. intros. apply stamped_stable; [done|]. intros. frame. Qed.
#[local] Hint Resolve reply_stable : frame.

Lemma persistAsync_stable msg :
  stable_send -> stable_persist -> preserves I (persistAsync msg).
Proof. intros. unfold persistAsync. frame. Qed.
#[local] Hint Resolve persistAsync_stable : frame.

Lemma routeOrStoreOffline_stable uid msg :
  stable_store -> preserves I (routeOrStoreOffline uid msg).
Proof. intros. unfold routeOrStoreOffline. frame. Qed.
#[local] Hint Resolve routeOrStoreOffline_stable : frame.

Lemma fanoutMember_stable u msg m :
  stable_send -> stable_store -> preserves I (fanoutMember u msg m).
Proof. intros. unfold fanoutMember. frame. Qed.
#[local] Hint Resolve fanoutMember_stable : frame.

Lemma groupMembers_stable gs g : stable_group_reads -> preserves I (groupMembers gs g).
Proof. intros. unfold groupMembers. frame. Qed.
#[local] Hint Resolve groupMembers_stable : frame.

Lemma fanoutGroup_stable gs u msg :
  stable_send -> stable_store -> stable_group_reads -> preserves I (fanoutGroup gs u msg).
Proof. intros. unfold fanoutGroup. frame. Qed.
#[local] Hint Resolve fanoutGroup_stable : frame.

Lemma incrementUnread_stable a b : stable_unread_writes -> preserves I (incrementUnread a b).
Proof. intros. unfold incrementUnread. frame. Qed.
#[local] Hint Resolve incrementUnread_stable : frame.

Lemma countUnread_stable u msg :
  stable_group_reads -> stable_unread_writes -> preserves I (countUnread u msg).
Proof. intros. unfold countUnread. frame. Qed.
#[local] Hint Resolve countUnread_stable : frame.

(** ** The handlers *)

Lemma handleHeartbeat_stable sender msg : stable_send -> preserves I (handleHeartbeat sender msg).
Proof. intros. unfold handleHeartbeat. frame. Qed.

Lemma sendAck_stable sender msg : stable_send -> preserves I (sendAck sender msg).
Proof. intros. unfold sendAck. frame. Qed.
#[local] Hint Resolve sendAck_stable : frame.

Lemma markIfSeq_stable sender msg : stable_accept -> preserves I (markIfSeq sender msg).
Proof. intros. unfold markIfSeq. frame. Qed.
#[local] Hint Resolve markIfSeq_stable : frame.

Lemma chatDeliver_stable sender msg :
  stable_send -> stable_store -> stable_accept -> stable_group_reads ->
  preserves I (chatDeliver sender msg).
Proof. intros. unfold chatDeliver, chatSingle. frame. Qed.
#[local] Hint Resolve chatDeliver_stable : frame.

Lemma checkRateLimit_stable u : stable_accept -> preserves I (checkRateLimit u).
Proof. intros. unfold checkRateLimit. frame. Qed.
#[local] Hint Resolve checkRateLimit_stable : frame.

Lemma chatTail_stable sender start msg :
  stable_send -> stable_group_reads -> stable_unread_writes -> stable_persist ->
  preserves I (chatTail sender start msg).
Proof. intros. unfold chatTail. frame. Qed.
#[local] Hint Resolve chatTail_stable : frame.

Lemma chatAccept_stable sender start msg :
  stable_send -> stable_store -> stable_accept -> stable_group_reads ->
  stable_unread_writes -> stable_persist -> preserves I (chatAccept sender start msg).
Proof.
  intros. unfold chatAccept. frame. apply stamped_stable; [done|]. intros. frame.
Qed.
#[local] Hint Resolve chatAccept_stable : frame.

Lemma handleChat_stable sender msg :
  stable_send -> stable_store -> stable_accept -> stable_group_reads ->
  stable_unread_writes -> stable_persist -> preserves I (handleChat sender msg).
Proof. intros. unfold handleChat. frame. Qed.

Lemma recallDeliver_stable msg :
  stable_send -> stable_store -> preserves I (recallDeliver msg).
Proof. intros. unfold recallDeliver. frame. Qed.
#[local] Hint Resolve recallDeliver_stable : frame.

Lemma handleRecall_stable sender msg :
  stable_send -> stable_store -> stable_edits -> preserves I (handleRecall sender msg).
Proof.
  intros. unfold handleRecall, sendRecallError. frame. apply stamped_stable; [done|]. intros. frame.
Qed.

Lemma deliverOffline_stable sender msgs :
  stable_send -> stable_store -> preserves I (deliverOffline sender msgs).
Proof. intros. induction msgs; simpl; frame. Qed.
#[local] Hint Resolve deliverOffline_stable : frame.

Lemma handleOffline_stable sender :
  stable_send -> stable_store -> stable_queries -> preserves I (handleOffline sender).
Proof. intros. unfold handleOffline. frame. Qed.

Lemma sendUntilError_stable sender msgs : stable_send -> preserves I (sendUntilError sender msgs).
Proof. intros. induction msgs; simpl; frame. Qed.
#[local] Hint Resolve sendUntilError_stable : frame.

Lemma handleHistory_stable sender msg :
  stable_send -> stable_queries -> preserves I (handleHistory sender msg).
Proof. intros. unfold handleHistory, historyQuery, ClientQueryHistory. frame. Qed.

Lemma handleReadReceipt_stable sender msg :
  stable_send -> stable_store -> stable_queries -> stable_unread_writes ->
  preserves I (handleReadReceipt sender msg).
Proof.
  intros. unfold handleReadReceipt, clearUnread, markReadLocal, MarkReadClient. frame.
  apply stamped_stable; [done|]. intros. unfold forwardReceipt. frame.
Qed.

Lemma handleUnreadCount_stable sender msg :
  stable_send -> stable_queries -> preserves I (handleUnreadCount sender msg).
Proof. intros. unfold handleUnreadCount, GetUnreadCountsClient. frame. Qed.

Lemma handleSearch_stable sender msg :
  stable_send -> stable_queries -> preserves I (handleSearch sender msg).
Proof.
  intros. unfold handleSearch, searchQuery, searchLocal, ClientSearchMessages. frame.
Qed.

Lemma handleTyping_stable sender msg :
  stable_send -> stable_group_reads -> preserves I (handleTyping sender msg).
Proof. intros. unfold handleTyping, typingTo. frame. Qed.

Lemma plainDeliver_stable sender msg :
  stable_send -> stable_store -> stable_group_reads -> preserves I (plainDeliver sender msg).
Proof. intros. unfold plainDeliver, plainSingle. frame. Qed.
#[local] Hint Resolve plainDeliver_stable : frame.

Lemma handleForward_stable sender msg :
  stable_send -> stable_store -> stable_group_reads -> stable_unread_writes ->
  stable_persist -> preserves I (handleForward sender msg).
Proof.
  intros. unfold handleForward. frame. apply stamped_stable; [done|]. intros. frame.
Qed.

Lemma handleEdit_stable sender msg :
  stable_send -> stable_store -> stable_group_reads -> stable_edits ->
  preserves I (handleEdit sender msg).
Proof.
  intros. unfold handleEdit. frame. apply stamped_stable; [done|]. intros. frame.
Qed.

Lemma sendGroupError_stable sender c e : stable_send -> preserves I (sendGroupError sender c e).
Proof. intros. unfold sendGroupError. frame. Qed.
#[local] Hint Resolve sendGroupError_stable : frame.

Lemma groupMembersOrNil_stable gs g :
  stable_group_reads -> preserves I (groupMembersOrNil gs g).
Proof. intros. unfold groupMembersOrNil. frame. Qed.
#[local] Hint Resolve groupMembersOrNil_stable : frame.

Lemma withGroupStore_stable k :
  stable_group_reads -> (forall gs, preserves I (k gs)) -> preserves I (withGroupStore k).
Proof. intros. unfold withGroupStore. frame. Qed.

Lemma notification_stable a b c d :
  stable_send -> stable_store -> stable_group_reads -> stable_persist ->
  preserves I (sendGroupNotificationWithMembers a b c d).
Proof.
  intros. unfold sendGroupNotificationWithMembers, fanoutGroupWithMembers.
  apply stamped_stable; [done|]. intros. frame. apply withGroupStore_stable; [done|]. intros. frame.
Qed.
#[local] Hint Resolve notification_stable : frame.

Lemma notification'_stable a b c :
  stable_send -> stable_store -> stable_group_reads -> stable_persist ->
  preserves I (sendGroupNotification a b c).
Proof. intros. unfold sendGroupNotification. frame. Qed.
#[local] Hint Resolve notification'_stable : frame.

Lemma logicMembers_stable g : stable_queries -> preserves I (logicMembers g).
Proof. intros. unfold logicMembers, GetGroupClient. frame. Qed.
#[local] Hint Resolve logicMembers_stable : frame.

Lemma joinInitial_stable sender g l j : stable_queries -> preserves I (joinInitial sender g l j).
Proof.
  intros. revert j. induction l as [|m l IH]; intros j; simpl; [frame|].
  unfold JoinGroupClient. frame.
Qed.
#[local] Hint Resolve joinInitial_stable : frame.

Section GroupHandlers.
Context (Hs : stable_send) (Ho : stable_store) (Hg : stable_group_reads).
Context (Hq : stable_queries) (Hp : stable_persist) (Hw : stable_group_writes).

Lemma createLocal_stable sender n l : preserves I (createLocal sender n l).
Proof.
  unfold createLocal. frame. apply withGroupStore_stable; [done|]. intros. frame.
Qed.

Lemma handleGroupCreate_stable err sender msg : preserves I (handleGroupCreate err sender msg).
Proof.
  pose proof createLocal_stable.
  unfold handleGroupCreate, createViaLogic, CreateGroupClient. frame.
Qed.

Lemma handleGroupJoin_stable sender msg : preserves I (handleGroupJoin sender msg).
Proof.
  unfold handleGroupJoin, joinLocal, JoinGroupClient. frame.
  apply withGroupStore_stable; [done|]. intros. frame.
Qed.

Lemma handleGroupInviteMember_stable sender msg : preserves I (handleGroupInviteMember sender msg).
Proof.
  unfold handleGroupInviteMember, inviteLogic, inviteLocal, JoinGroupClient, GetGroupClient. frame.
  apply withGroupStore_stable; [done|]. intros. frame.
  apply withGroupStore_stable; [done|]. intros. frame.
Qed.

Lemma handleGroupLeave_stable sender msg : preserves I (handleGroupLeave sender msg).
Proof.
  unfold handleGroupLeave, leaveLocal, LeaveGroupClient. frame.
  apply withGroupStore_stable; [done|]. intros. frame.
Qed.

End GroupHandlers.

Lemma handleGroupInfo_stable sender msg :
  stable_send -> stable_group_reads -> stable_queries -> preserves I (handleGroupInfo sender msg).
Proof.
  intros. unfold handleGroupInfo, infoLocal, GetGroupClient. frame.
  apply withGroupStore_stable; [done|]. intros. frame.
Qed.

Lemma handleGroupList_stable sender msg :
  stable_send -> stable_group_reads -> stable_queries -> preserves I (handleGroupList sender msg).
Proof. intros. unfold handleGroupList, ListGroupsClient. frame. Qed.

Lemma handleFriendRequest_stable sender msg :
  stable_send -> stable_store -> stable_friends -> preserves I (handleFriendRequest sender msg).
Proof.
  intros. unfold handleFriendRequest. frame. apply stamped_stable; [done|]. intros. frame.
Qed.

Lemma handleFriendResponse_stable sender msg :
  stable_send -> stable_store -> stable_friends -> preserves I (handleFriendResponse sender msg).
Proof.
  intros. unfold handleFriendResponse. frame. apply stamped_stable; [done|]. intros. frame.
Qed.

(** ** The whole dispatcher *)

Record stable : Prop := mkStable {
  stable_1 : stable_send; stable_2 : stable_store; stable_3 : stable_persist;
  stable_4 : stable_accept; stable_5 : stable_group_reads; stable_6 : stable_unread_writes;
  stable_7 : stable_queries; stable_8 : stable_edits; stable_9 : stable_group_writes;
  stable_10 : stable_friends
}.

Lemma dispatch_stable err sender msg : stable -> preserves I (dispatch err sender msg).
Proof.
  intros []. unfold dispatch.
  repeat (match goal with |- preserves _ (if ?b then _ else _) => destruct b end;
    [solve [first [apply preserves_ret | apply handleHeartbeat_stable | apply handleChat_stable
      | apply handleOffline_stable | apply handleHistory_stable | apply handleReadReceipt_stable
      | apply handleUnreadCount_stable | apply handleSearch_stable
      | apply handleGroupCreate_stable | apply handleGroupJoin_stable
      | apply handleGroupInviteMember_stable | apply handleGroupLeave_stable
      | apply handleGroupInfo_stable | apply handleGroupList_stable | apply handleRecall_stable
      | apply handleFriendRequest_stable | apply handleFriendResponse_stable
      | apply handleTyping_stable | apply handleForward_stable | apply handleEdit_stable]; done]|]).
  apply preserves_ret.
Qed.

Lemma Route_stable err sender msg :
  stable -> (forall c, preserves I (record (RecordCommand c))) -> preserves I (Route err sender msg).
Proof.
  intros Hs Hc. unfold Route. preserve_step; [apply preserves_ret|].
  apply preserves_bind; [apply Hc|]. intros _. by apply dispatch_stable.
Qed.

(** Commands other than the four that write to the group store. *)
Definition changes_groups (c : Z) : bool :=
  (c =? CmdGroupCreate) || (c =? CmdGroupJoin) || (c =? CmdGroupInviteMember) ||
  (c =? CmdGroupLeave).

Lemma dispatch_reads_stable err sender msg :
  stable_send -> stable_store -> stable_persist -> stable_accept -> stable_group_reads ->
  stable_unread_writes -> stable_queries -> stable_edits -> stable_friends ->
  changes_groups (Cmd msg) = false -> preserves I (dispatch err sender msg).
Proof.
  intros ? ? ? ? ? ? ? ? ? Hc. unfold changes_groups in Hc.
  apply orb_false_elim in Hc as [Hc C4]. apply orb_false_elim in Hc as [Hc C3].
  apply orb_false_elim in Hc as [C1 C2]. unfold dispatch. rewrite C1, C2, C3, C4.
  repeat (match goal with |- preserves _ (if ?b then _ else _) => destruct b end;
    [solve [first [apply preserves_ret | apply handleHeartbeat_stable | apply handleChat_stable
      | apply handleOffline_stable | apply handleHistory_stable | apply handleReadReceipt_stable
      | apply handleUnreadCount_stable | apply handleSearch_stable
      | apply handleGroupInfo_stable | apply handleGroupList_stable | apply handleRecall_stable
      | apply handleFriendRequest_stable | apply handleFriendResponse_stable
      | apply handleTyping_stable | apply handleForward_stable | apply handleEdit_stable]; done]|]).
  apply preserves_ret.
Qed.

End Frame.
