(* ===== verification/RouterInv.v ===== *)
(** * The router's invariant

    What every command keeps, whatever the backends do within their laws:
    well-formedness of the id generator, the bounds of the two task queues, the
    offline store's invariant; and what it may change of a connection: frames
    are only appended to send buffers, within capacity; nobody is registered,
    unregistered or closed. *)

From S2P Require Import Prelude Proto Snowflake Process Client Hub HashRing Dedup RateLimiter.
From S2P Require Import Unread GroupStore Json Stores LogicClient Producer RouterState RouterDelivery.
From S2P Require Import RouterChat RouterGroup Router RouterFrame.

#[global] Arguments Mark : simpl never.
#[global] Arguments IsDuplicate : simpl never.
#[global] Arguments Allow : simpl never.
#[global] Arguments NextID : simpl never.

(** ** Connections only receive frames *)

Record client_ext (c c' : Client) : Prop := mkClientExt {
  ext_UID : UID c' = UID c;
  ext_cap : sendCap c' = sendCap c;
  ext_closed : closed c' = closed c;
  ext_buf : sendBuf c `prefix_of` sendBuf c';
  ext_bound : (length (sendBuf c) <= sendCap c)%nat -> (length (sendBuf c') <= sendCap c')%nat
}.

Record conn_ext (cn cn' : Conn) : Prop := mkConnExt {
  ext_registry : Hub.clients cn' = Hub.clients cn;
  ext_max : maxConnections cn' = maxConnections cn;
  ext_heap : forall i c, heap cn !! i = Some c ->
    exists c', heap cn' !! i = Some c' /\ client_ext c c'
}.

Lemma client_ext_refl c : client_ext c c.
Proof. by split. Qed.

Lemma client_ext_trans a b c : client_ext a b -> client_ext b c -> client_ext a c.
Proof. intros [] []. split; try congruence; [by etrans|auto]. Qed.

Lemma conn_ext_refl cn : conn_ext cn cn.
Proof. split; [done|done|]. intros i c H. eauto using client_ext_refl. Qed.

Lemma conn_ext_trans a b c : conn_ext a b -> conn_ext b c -> conn_ext a c.
Proof.
  intros [H1 H2 H3] [H1' H2' H3']. split; [congruence|congruence|].
  intros i x Hi. destruct (H3 i x Hi) as (y & Hy & Hxy).
  destruct (H3' i y Hy) as (z & Hz & Hyz). eauto using client_ext_trans.
Qed.

Section Sending.
Context {E : Env} {C : Codec}.

Lemma Send_result_ext m c e c' : Send_result m c e c' -> client_ext c c'.
Proof.
  intros H. pose proof (Send_result_frame m c e c' H) as (H1 & H2 & H3).
  split; [done..| |by eapply Send_result_bound].
  destruct H; simpl; try done. by apply prefix_app_r.
Qed.

Lemma SendTo_ext h m cn s :
  let r := SendTo h m (cn, s) in
  conn_ext cn r.2.1 /\ sys_snow r.2.2 = sys_snow s /\ (sys_tick s <= sys_tick r.2.2)%nat.
Proof.
  unfold SendTo, onClient. destruct (heap cn !! h_id h) as [c|] eqn:Hc.
  2:{ simpl. auto using conn_ext_refl. }
  pose proof (Send_spec m c s) as H. destruct (Send m (c, s)) as [e [c' s']].
  destruct H as (Hr & Hs & Ht). simpl. split; [|done]. split; [done|done|]. simpl.
  intros i x Hi. destruct (decide (i = h_id h)) as [->|Hne].
  - rewrite lookup_insert_eq. simplify_eq. eauto using Send_result_ext.
  - rewrite lookup_insert_ne by done. eauto using client_ext_refl.
Qed.

Lemma SendTo_sys h m cn s : sys_wf E s -> sys_wf E (SendTo h m (cn, s)).2.2.
Proof.
  intros Hs. destruct (SendTo_ext h m cn s) as (_ & H1 & H2).
  unfold sys_wf. rewrite H1. by eapply wf_later.
Qed.

End Sending.

(** ** What the backends promise *)

Definition sys_keeps (E : Env) {X A} (m : St (X * Sys) A) : Prop :=
  forall x s, sys_wf E s -> sys_wf E (m (x, s)).2.2.

(** Safety, which every combination of backends gives. *)
Class BackendSafe (E : Env) (B : Backends E) := mkBackendSafe {
  bs_offline :: OfflineSafe E bk_O;
  bs_groups : forall gid uid a b l,
    sys_keeps E (X := bk_G) (GroupStore.Create a b l) /\
    sys_keeps E (X := bk_G) (AddMember gid uid) /\
    sys_keeps E (X := bk_G) (RemoveMember gid uid) /\
    sys_keeps E (X := bk_G) (GetMembers gid) /\
    sys_keeps E (X := bk_G) (GroupStore.Get gid) /\
    sys_keeps E (X := bk_G) (GetUserGroups uid);
  bs_unread : forall to from,
    sys_keeps E (X := bk_U) (Increment to from) /\ sys_keeps E (X := bk_U) (MarkRead to from) /\
    sys_keeps E (X := bk_U) (GetCounts to) /\ sys_keeps E (X := bk_U) (GetCount to from);
  bs_msgs : (forall a b t n, sys_keeps E (X := bk_MS) (Stores.QueryHistory a b t n)) /\
    (forall g t n, sys_keeps E (X := bk_MS) (Stores.QueryGroupHistory g t n)) /\
    (forall p, sys_keeps E (X := bk_MS) (Stores.SearchMessages p)) /\
    (forall a b c, sys_keeps E (X := bk_MS) (RecallMessage a b c)) /\
    (forall a b c, sys_keeps E (X := bk_MS) (UpdateMessageContent a b c)) /\
    (forall m, sys_keeps E (X := bk_MS) (Save m));
  bs_friends : forall a b, sys_keeps E (X := bk_FS) (SendRequest a b) /\
    sys_keeps E (X := bk_FS) (AcceptRequest a b) /\ sys_keeps E (X := bk_FS) (RejectRequest a b);
  bs_forward : forall u m, sys_keeps E (X := bk_F) (Forward u m)
}.

(** Safety, and the stores that a gateway without external services uses. *)
Class BackendLaws (E : Env) (B : Backends E) := mkBackendLaws {
  bl_offline :: OfflineLaws E bk_O;
  bl_groups :: GroupLaws E bk_G;
  bl_unread :: UnreadLaws E bk_U;
  bl_msgs : (forall a b t n, sys_keeps E (X := bk_MS) (Stores.QueryHistory a b t n)) /\
    (forall g t n, sys_keeps E (X := bk_MS) (Stores.QueryGroupHistory g t n)) /\
    (forall p, sys_keeps E (X := bk_MS) (Stores.SearchMessages p)) /\
    (forall a b c, sys_keeps E (X := bk_MS) (RecallMessage a b c)) /\
    (forall a b c, sys_keeps E (X := bk_MS) (UpdateMessageContent a b c)) /\
    (forall m, sys_keeps E (X := bk_MS) (Save m));
  bl_friends : forall a b, sys_keeps E (X := bk_FS) (SendRequest a b) /\
    sys_keeps E (X := bk_FS) (AcceptRequest a b) /\ sys_keeps E (X := bk_FS) (RejectRequest a b);
  bl_forward : forall u m, sys_keeps E (X := bk_F) (Forward u m)
}.

#[export] Instance backend_laws_safe (E : Env) (B : Backends E) (BL : BackendLaws E B) : BackendSafe E B.
Proof.
  refine (mkBackendSafe E B (offline_laws_safe E bk_O) _ _ bl_msgs bl_friends bl_forward).
  - intros gid uid a b l. split_and!; intros g s Hs; by apply (groups_sys gid uid a b l g s Hs).
  - intros to from. split_and!; intros u s Hs; by apply (unread_sys to from u s Hs).
Defined.

Section Invariant.
Context {E : Env} {C : Codec} {B : Backends E} {BS : BackendSafe E B}.

Record router_inv (r : Router) (s : Sys) : Prop := mkRouterInv {
  inv_sys : sys_wf E s;
  inv_persist : (length (persistTasks r) <= persistQueueCap)%nat;
  inv_dedup : tasks_ok (dedup r);
  inv_offline : safe_ok (offline r)
}.

(** What a command leaves as it was. *)
Record router_frame (r r' : Router) : Prop := mkRouterFrame {
  fr_clients : conn_ext (clients r) (clients r');
  fr_limit : safe_limit (offline r') = safe_limit (offline r);
  fr_ring : hashRing r' = hashRing r /\ thisNodeID r' = thisNodeID r;
  fr_config : recallWindow r' = recallWindow r /\ historyLimit r' = historyLimit r /\
    searchLimit r' = searchLimit r /\ rlCleanup r' = rlCleanup r;
  fr_kafka : kafka r' = kafka r /\ persistStopped r' = persistStopped r;
  fr_metrics : metrics r `prefix_of` metrics r'
}.

Definition safe (r0 : Router) (p : Router * Sys) : Prop :=
  router_inv p.1 p.2 /\ router_frame r0 p.1.

(** ** Sub-states *)

Lemma preserves_zoom {X A} (I : Router * Sys -> Prop) get put (m : St (X * Sys) A) :
  (forall r s, I (r, s) -> I (put (m (get r, s)).2.1 r, (m (get r, s)).2.2)) ->
  preserves I (zoom get put m).
Proof.
  intros H [r s] HI. unfold zoom. specialize (H r s HI).
  by destruct (m (get r, s)) as [a [x' s']].
Qed.

Lemma preserves_zoomSome {X A} (I : Router * Sys -> Prop) get put (x : X) (m : St (X * Sys) A) :
  (forall r s y, I (r, s) -> get r = Some y ->
     I (put (Some (m (y, s)).2.1) r, (m (y, s)).2.2)) ->
  (forall r s, I (r, s) -> get r = None -> I (r, (m (x, s)).2.2)) ->
  preserves I (zoomSome get put x m).
Proof.
  intros H1 H2 [r s] HI. unfold zoomSome. destruct (get r) as [y|] eqn:Hg.
  - specialize (H1 r s y HI Hg). by destruct (m (y, s)) as [a [x' s']].
  - specialize (H2 r s HI Hg). by destruct (m (x, s)) as [a [x' s']].
Qed.

Lemma preserves_update (I : Router * Sys -> Prop) f :
  (forall r s, I (r, s) -> I (f r, s)) -> preserves I (update f).
Proof. intros H [r s] HI. by apply H. Qed.

(** The invariant survives a change of the parts it does not look at. *)
Lemma safe_sys r0 r s s' : safe r0 (r, s) -> sys_wf E s' -> safe r0 (r, s').
Proof. intros [[] ?] ?. by split. Qed.

Lemma sys_keeps_reads {X A} (m : St (X * Sys) A) : observes m -> sys_keeps E m.
Proof. intros H x s Hs. by apply H. Qed.

Lemma safe_record r0 m : preserves (safe r0) (record m).
Proof.
  apply preserves_update. intros r s [[] []]. split; split; auto. simpl. by apply prefix_app_r.
Qed.

Lemma safe_stable_send r0 : stable_send (safe r0).
Proof.
  split.
  - intros h m. apply preserves_zoom. intros r s [[] []].
    destruct (SendTo_ext h m (clients r) s) as (He & _ & _).
    pose proof (SendTo_sys h m (clients r) s).
    split; split; simpl; auto. by eapply conn_ext_trans.
  - intros m _. apply safe_record.
  - intros [r s] H. eapply safe_sys in H; [|apply (observes_NextID r s), H].
    destruct (observes_NextID r s) as [Hr _].
    destruct (NextID (r, s)) as [id [r' s']]. simpl in *. by subst.
  - intros [r s] H. eapply safe_sys in H; [exact H|]. apply sys_wf_tick1, H.
Qed.

Lemma safe_stable_store r0 : stable_store (safe r0).
Proof.
  split.
  - intros uid m. apply preserves_zoom. intros r s [[Hs Hp Hd Ho] []].
    destruct (store_safe uid m (offline r) s Ho) as (H1 & H2).
    pose proof (store_safe_sys uid m (offline r) s Hs).
    split; split; simpl; auto. by rewrite H2.
  - intros f uid m. apply preserves_zoomSome.
    + intros r s y [[] []] _. split; split; simpl; auto. by apply bs_forward.
    + intros r s H _. eapply safe_sys; [exact H|]. apply bs_forward, H.
Qed.

Lemma safe_stable_persist r0 : stable_persist (safe r0).
Proof.
  split. intros m [r s] [[] []]. unfold enqueuePersist.
  destruct (Nat.ltb_spec (length (persistTasks r)) persistQueueCap); simpl; split; split; auto.
  simpl. rewrite length_app. simpl. lia.
Qed.

Lemma IsDuplicate_sys u n d s : sys_wf E s -> sys_wf E (IsDuplicate u n (d, s)).2.2.
Proof.
  intros Hs. unfold IsDuplicate, bind, getX, gets, ret. simpl.
  destruct (seen d !! _); [done|]. destruct (redis d); [|done].
  destruct (marks d =? 0); [|done]. destruct (redisGet _ _); [|done]. by apply sys_wf_tick1.
Qed.

Lemma safe_stable_accept r0 : stable_accept (safe r0).
Proof.
  split.
  - intros u n. apply preserves_zoom. intros r s [[Hs Hp Hd Ho] []].
    pose proof (dedup_run1_tasks (OpIsDuplicate u n) (dedup r) s Hd) as H.
    pose proof (IsDuplicate_sys u n (dedup r) s Hs) as H'.
    unfold dedup_run1 in H. rewrite bind_ret_state in H.
    split; split; simpl; auto.
  - intros u n id. apply preserves_zoom. intros r s [[Hs Hp Hd Ho] []].
    pose proof (dedup_run1_tasks (OpMark u n id) (dedup r) s Hd) as H.
    split; split; simpl; auto. by apply sys_wf_tick1.
  - intros rl u. apply preserves_zoomSome.
    + intros r s y [[] []] _. destruct (Allow_frame u y s) as (_ & _ & _ & Ht & _).
      split; split; simpl; auto. rewrite Ht. by apply sys_wf_tick1.
    + intros r s H _. eapply safe_sys; [exact H|].
      destruct (Allow_frame u rl s) as (_ & _ & _ & -> & _). apply sys_wf_tick1, H.
Qed.

Lemma safe_zoomSome {X A} r0 get put (x : X) (m : St (X * Sys) A) :
  sys_keeps E m ->
  (forall y r, router_frame r0 r -> router_frame r0 (put y r)) ->
  (forall y r s, router_inv r s -> router_inv (put y r) s) ->
  preserves (safe r0) (zoomSome get put x m).
Proof.
  intros Hk H1 H2. apply preserves_zoomSome.
  - intros r s y [Hi Hf] _. split; [|by apply H1]. simpl. apply H2.
    destruct Hi. split; auto.
  - intros r s H _. eapply safe_sys; [exact H|]. apply Hk, H.
Qed.

Ltac component := apply safe_zoomSome; [|intros ? ? []; by split|intros ? ? ? []; by split].

Lemma safe_stable_group_reads r0 : stable_group_reads (safe r0).
Proof.
  split; intros; try (component; by apply (bs_groups g "" "" "" [])).
  - component. by apply (bs_groups "" u "" "" []).
  - apply preserves_update. intros r s [[] []]. split; split; auto.
Qed.

Lemma safe_stable_group_writes r0 : stable_group_writes (safe r0).
Proof.
  split; intros; component.
  - by apply (bs_groups "" "" a b c).
  - by apply (bs_groups a b "" "" []).
  - by apply (bs_groups a b "" "" []).
Qed.

Lemma safe_stable_unread_writes r0 : stable_unread_writes (safe r0).
Proof. split; intros; component; apply (bs_unread a b). Qed.

Lemma safe_stable_queries r0 : stable_queries (safe r0).
Proof.
  split.
  - intros uid. apply preserves_zoom. intros r s [[Hs Hp Hd Ho] []].
    destruct (drain_safe uid (offline r) s Ho) as (H1 & H2).
    pose proof (drain_safe_sys uid (offline r) s Hs).
    split; split; simpl; auto. by rewrite H2.
  - intros ut u. component. apply (bs_unread u u).
  - intros. component. apply bs_msgs.
  - intros. component. apply bs_msgs.
  - intros. component. apply bs_msgs.
  - intros. apply preserves_zoom. intros r s [[] []]. rewrite call_sys. split; split; auto.
Qed.

Lemma safe_stable_edits r0 : stable_edits (safe r0).
Proof. split; intros; component; apply bs_msgs. Qed.

Lemma safe_stable_friends r0 : stable_friends (safe r0).
Proof. split; intros; component; apply bs_friends. Qed.

Lemma safe_stable r0 : stable (safe r0).
Proof.
  split.
  - apply safe_stable_send.
  - apply safe_stable_store.
  - apply safe_stable_persist.
  - apply safe_stable_accept.
  - apply safe_stable_group_reads.
  - apply safe_stable_unread_writes.
  - apply safe_stable_queries.
  - apply safe_stable_edits.
  - apply safe_stable_group_writes.
  - apply safe_stable_friends.
Qed.

Lemma router_frame_refl r : router_frame r r.
Proof. split; auto using conn_ext_refl. Qed.

End Invariant.

(** A predicate on the router that a primitive's field does not affect. *)
Ltac inert := split; intros;
  first
  [ apply preserves_zoom; intros ? ? Hkeep; exact Hkeep
  | apply preserves_zoomSome; [intros ? ? ? Hkeep _; exact Hkeep|intros ? ? Hkeep _; exact Hkeep]
  | apply preserves_update; intros ? ? Hkeep; exact Hkeep
  | intros [r s] Hkeep; unfold NextID;
    match goal with |- context [Next ?e ?x ?y] => destruct (Next e x y) as [[? ?] ?] end; exact Hkeep
  | intros [r s] Hkeep; exact Hkeep
  | intros [r s] Hkeep; unfold enqueuePersist; case_match; exact Hkeep ].
