(* ===== verification/Durable.v ===== *)
(** * The durable stores are safe backends

    The stores over MySQL and Redis change nothing of the process but the clock's
    position and the ids they draw, so a gateway that uses them keeps the
    router's invariant however the database fails; and an interface value of Go,
    which holds one of two implementations, as a sum. *)

From S2P Require Import Prelude GoStrings Proto Snowflake Process Sql Client Hub RedisStore HashRing Dedup RateLimiter.
From S2P Require Import Unread GroupStore Json Stores LogicClient MySQLMessages LogicServer MySQLGroups MySQLUsers.
From S2P Require Import Producer GrpcForwarder RouterState RouterDelivery RouterChat RouterGroup Http Router RouterFrame RouterInv.

(** ** Operations that keep the generator well formed *)

Create HintDb keeps.

Section Keeps.
Context {E : Env} {X : Type}.

Lemma keeps_ret {A} (a : A) : sys_keeps E (ret a : St (X * Sys) A).
Proof. by intros x s Hs. Qed.

Lemma keeps_bind {A A'} (m : St (X * Sys) A) (k : A -> St (X * Sys) A') :
  sys_keeps E m -> (forall a, sys_keeps E (k a)) -> sys_keeps E (bind m k).
Proof.
  intros Hm Hk x s Hs. rewrite bind_snd. specialize (Hm x s Hs).
  destruct (m (x, s)) as [a [x' s']]. by apply Hk.
Qed.

Lemma keeps_observes {A} (m : St (X * Sys) A) : observes m -> sys_keeps E m.
Proof. apply sys_keeps_reads. Qed.

Lemma keeps_Now : sys_keeps E (Now (X := X)).
Proof. intros x s Hs. by apply sys_wf_tick1. Qed.

Lemma keeps_NowMilli : sys_keeps E (NowMilli (X := X)).
Proof. apply keeps_bind; [apply keeps_Now|]. intros ?. apply keeps_ret. Qed.

Lemma keeps_NextID : sys_keeps E (NextID (X := X)).
Proof. intros x s Hs. by apply (observes_NextID x s). Qed.

End Keeps.

#[export] Hint Resolve keeps_ret keeps_Now keeps_NowMilli keeps_NextID : keeps.

Section Database.
Context {E : Env} {D : Type} {DB : Database D}.

Lemma keeps_onDb {A} (f : D -> A * D) : sys_keeps E (onDb f).
Proof. intros d s Hs. unfold onDb. by destruct (f d). Qed.

Lemma keeps_exec st : sys_keeps E (exec (D := D) st).
Proof. apply keeps_onDb. Qed.

Lemma keeps_query {A} (q : Select A) : sys_keeps E (query (D := D) q).
Proof. apply keeps_onDb. Qed.

Lemma keeps_queryRow {A} (q : Select A) : sys_keeps E (queryRow (D := D) q).
Proof. apply keeps_bind; [apply keeps_query|]. intros ?. apply keeps_ret. Qed.

Lemma keeps_queryOne {A} (q : Select A) : sys_keeps E (queryOne (D := D) q).
Proof. apply keeps_bind; [apply keeps_queryRow|]. intros ?. apply keeps_ret. Qed.

Lemma keeps_withTx {Err A} (wrap : string -> Err) (body : St (D * Sys) (Err + A)) text :
  sys_keeps E body -> sys_keeps E (withTx wrap body text).
Proof.
  intros Hb. apply keeps_bind; [apply keeps_onDb|]. intros [e|]; [apply keeps_ret|].
  apply keeps_bind; [done|]. intros [e|a].
  - apply keeps_bind; [apply keeps_onDb|]. intros ?. apply keeps_ret.
  - apply keeps_bind; [apply keeps_onDb|]. intros [e|]; apply keeps_ret.
Qed.

End Database.

#[export] Hint Resolve keeps_exec keeps_query keeps_queryRow keeps_queryOne : keeps.

(** The steps of an operation, one by one. *)
Ltac keeps :=
  repeat first
    [ solve [eauto with keeps]
    | apply keeps_withTx
    | apply keeps_bind; [|intros ?]
    | progress intros
    | case_match ].

Section MySQL.
Context {E : Env} {D : Type} {DB : Database D}.

Lemma insertMembers_keeps id owner now members :
  sys_keeps E (insertMembers (D := D) id owner now members).
Proof. induction members as [|u members IH]; cbn [insertMembers]; keeps. Qed.

Lemma fillGroups_keeps rows : sys_keeps E (fillGroups (D := D) rows).
Proof.
  induction rows as [|row rows IH]; cbn [fillGroups]; unfold SqlGetMembers; keeps.
Qed.

Lemma MySQL_groups_keep gid uid a b l :
  sys_keeps E (X := D) (GroupStore.Create a b l) /\ sys_keeps E (X := D) (AddMember gid uid) /\
  sys_keeps E (X := D) (RemoveMember gid uid) /\ sys_keeps E (X := D) (GetMembers gid) /\
  sys_keeps E (X := D) (GroupStore.Get gid) /\ sys_keeps E (X := D) (GetUserGroups uid).
Proof.
  pose proof insertMembers_keeps. pose proof fillGroups_keeps.
  cbn [GroupStore.Create AddMember RemoveMember GetMembers GroupStore.Get GetUserGroups MySQL_GroupStore].
  split_and!; unfold AdapterCreate, SqlCreateGroup, newGroupIDSQL, createBody, SqlAddMember, addInsert,
    AdapterRemoveMember, SqlRemoveMember, removeBody, SqlGetMembers, AdapterGet, SqlGetMembersForGroup,
    SqlGetGroup, SqlGetMembers, AdapterGetUserGroups, SqlListGroups; keeps.
Qed.

Lemma MySQL_messages_keep :
  (forall a b t n, sys_keeps E (X := D) (Stores.QueryHistory a b t n)) /\
  (forall g t n, sys_keeps E (X := D) (Stores.QueryGroupHistory g t n)) /\
  (forall p, sys_keeps E (X := D) (Stores.SearchMessages p)) /\
  (forall a b c, sys_keeps E (X := D) (RecallMessage a b c)) /\
  (forall a b c, sys_keeps E (X := D) (UpdateMessageContent a b c)) /\
  (forall m, sys_keeps E (X := D) (Save m)).
Proof.
  cbn [Stores.QueryHistory Stores.QueryGroupHistory Stores.SearchMessages RecallMessage
    UpdateMessageContent Save MySQL_MessageStore].
  split_and!; intros; unfold SqlQueryHistory, SqlQueryGroupHistory, SqlSearchMessages, SqlRecallMessage,
    SqlUpdateMessageContent, SqlSave, queryMessages; keeps.
Qed.

Lemma MySQL_friends_keep a b :
  sys_keeps E (X := D) (SendRequest a b) /\ sys_keeps E (X := D) (AcceptRequest a b) /\
  sys_keeps E (X := D) (RejectRequest a b).
Proof.
  cbn [SendRequest AcceptRequest RejectRequest MySQL_FriendStore].
  split_and!; unfold SqlSendRequest, SqlAcceptRequest, SqlRejectRequest, answerRequest; keeps.
Qed.

End MySQL.

(** ** The Redis offline store *)

Section Redis.
Context {E : Env} {CD : Codec} {R F : Type} {RS : RedisScripts R} {FB : OfflineStore F} {FS : OfflineSafe E F}.

Abbreviation Store := (RedisOfflineStore R F).

(** Its bound and its key prefix stay, and its fallback is safe. *)
Definition redis_ok (rs : Store) : Prop :=
  match rs_fallback rs with Some fb => safe_ok fb | None => True end.

Definition redis_safe (n : Z) (p : Store * Sys) : Prop := redis_ok p.1 /\ rs_maxSize p.1 = n.

Lemma script_safe {A} n (f : Lists -> A * Lists) : preserves (redis_safe n) (script f).
Proof. intros [rs s] H. unfold script. by destruct (RunScript f (rs_client rs)). Qed.

Lemma onFallback_safe {A} n (d : A) (m : St (F * Sys) A) :
  (forall fb s, safe_ok fb -> safe_ok (m (fb, s)).2.1) -> preserves (redis_safe n) (onFallback d m).
Proof.
  intros Hm [rs s] [H1 H2]. cbn [fst] in *. unfold onFallback, redis_ok in *.
  destruct (rs_fallback rs) as [fb|] eqn:Hfb; [|by split; [unfold redis_ok; cbn; rewrite Hfb|]].
  specialize (Hm fb s H1). destruct (m (fb, s)) as [a [fb' s']]. by split.
Qed.

Lemma script_keeps {A} (f : Lists -> A * Lists) : sys_keeps E (X := Store) (script f).
Proof. intros rs s Hs. unfold script. by destruct (RunScript f (rs_client rs)). Qed.

Lemma onFallback_keeps {A} (d : A) (m : St (F * Sys) A) :
  sys_keeps E m -> sys_keeps E (X := Store) (onFallback d m).
Proof.
  intros Hm rs s Hs. unfold onFallback. destruct (rs_fallback rs) as [fb|]; [|done].
  specialize (Hm fb s Hs). by destruct (m (fb, s)) as [a [fb' s']].
Qed.

Lemma getX_keeps {X} : sys_keeps E (X := X) getX.
Proof. by intros x s Hs. Qed.

Lemma store_safe_ok uid m fb s : safe_ok (O := F) fb -> safe_ok (StoreOffline uid m (fb, s)).2.1.
Proof. intros Ho. by apply store_safe. Qed.

Lemma drain_safe_ok uid fb s : safe_ok (O := F) fb -> safe_ok (DrainOffline uid (fb, s)).2.1.
Proof. intros Ho. by apply drain_safe. Qed.

#[export] Instance Redis_OfflineSafe : OfflineSafe E Store.
Proof.
  refine (mkOfflineSafe E Store _ redis_ok (fun rs => Z.to_nat (rs_maxSize rs)) _ _ _ _).
  - intros uid m rs s Hok o'.
    assert (H : preserves (redis_safe (rs_maxSize rs)) (RedisStoreOffline uid m)).
    { unfold RedisStoreOffline. destruct (marshal m); [|apply onFallback_safe, store_safe_ok].
      apply preserves_bind; [apply preserves_gets|intros ?]. apply preserves_bind; [apply script_safe|].
      intros [e|n]; [apply onFallback_safe, store_safe_ok|apply preserves_ret]. }
    destruct (H (rs, s)) as [H1 H2]; [done|]. split; [done|]. exact (f_equal Z.to_nat H2).
  - intros uid rs s Hok o'.
    assert (H : preserves (redis_safe (rs_maxSize rs)) (RedisDrainOffline uid)).
    { unfold RedisDrainOffline.
      apply preserves_bind; [apply preserves_gets|intros ?]. apply preserves_bind; [apply script_safe|].
      intros [e|n]; [apply onFallback_safe, drain_safe_ok|apply preserves_ret]. }
    destruct (H (rs, s)) as [H1 H2]; [done|]. split; [done|]. exact (f_equal Z.to_nat H2).
  - intros uid m. change (sys_keeps E (X := Store) (RedisStoreOffline uid m)). unfold RedisStoreOffline.
    assert (Hf : sys_keeps E (X := Store) (onFallback tt (StoreOffline uid m))).
    { apply onFallback_keeps. intros fb s. apply store_safe_sys. }
    destruct (marshal m); [|done]. apply keeps_bind; [apply getX_keeps|intros ?].
    apply keeps_bind; [apply script_keeps|]. intros [e|n]; [done|apply keeps_ret].
  - intros uid. change (sys_keeps E (X := Store) (RedisDrainOffline uid)). unfold RedisDrainOffline.
    apply keeps_bind; [apply getX_keeps|intros ?]. apply keeps_bind; [apply script_keeps|].
    intros [e|n]; [|apply keeps_ret]. apply onFallback_keeps. intros fb s. apply drain_safe_sys.
Defined.

End Redis.

(** ** Interface values

    A variable of an interface type that holds one of two implementations. *)

Definition onEither {A B X} (f : St (A * Sys) X) (g : St (B * Sys) X) : St ((A + B) * Sys) X :=
  fun '(x, s) =>
    match x with
    | inl a => let '(r, (a', s')) := f (a, s) in (r, (inl a', s'))
    | inr b => let '(r, (b', s')) := g (b, s) in (r, (inr b', s'))
    end.

#[export] Instance Either_OfflineStore {A B} {OA : OfflineStore A} {OB : OfflineStore B} : OfflineStore (A + B) :=
  mkOfflineStore _ (fun uid m => onEither (StoreOffline uid m) (StoreOffline uid m))
    (fun uid => onEither (DrainOffline uid) (DrainOffline uid)).

#[export] Instance Either_GroupStore {A B} {GA : GroupStore A} {GB : GroupStore B} : GroupStore (A + B) :=
  mkGroupStore _ (fun n o l => onEither (GroupStore.Create n o l) (GroupStore.Create n o l))
    (fun g u => onEither (AddMember g u) (AddMember g u))
    (fun g u => onEither (RemoveMember g u) (RemoveMember g u))
    (fun g => onEither (GetMembers g) (GetMembers g))
    (fun g u => onEither (IsMember g u) (IsMember g u))
    (fun u => onEither (GetUserGroups u) (GetUserGroups u))
    (fun g => onEither (GroupStore.Get g) (GroupStore.Get g))
    (fun g n => onEither (UpdateName g n) (UpdateName g n))
    (fun g a b => onEither (TransferOwnership g a b) (TransferOwnership g a b)).

#[export] Instance Either_ObjectStore {A B} {OA : ObjectStore A} {OB : ObjectStore B} : ObjectStore (A + B) :=
  mkObjectStore _ (fun k d c => onEither (Put k d c) (Put k d c))
    (fun k => onEither (GetObject k) (GetObject k)) (fun k => onEither (DeleteObject k) (DeleteObject k)).

Section Either.
Context {E : Env} {A B : Type}.

Lemma onEither_keeps {X} (f : St (A * Sys) X) (g : St (B * Sys) X) :
  sys_keeps E f -> sys_keeps E g -> sys_keeps E (onEither f g).
Proof.
  intros Hf Hg [a|b] s Hs; cbn.
  - specialize (Hf a s Hs). by destruct (f (a, s)) as [r [a' s']].
  - specialize (Hg b s Hs). by destruct (g (b, s)) as [r [b' s']].
Qed.

#[export] Instance Either_OfflineSafe {OA : OfflineStore A} {OB : OfflineStore B}
  {SA : OfflineSafe E A} {SB : OfflineSafe E B} : OfflineSafe E (A + B).
Proof.
  refine (mkOfflineSafe E (A + B) _
    (fun x => match x with inl a => safe_ok a | inr b => safe_ok b end)
    (fun x => match x with inl a => safe_limit a | inr b => safe_limit b end) _ _ _ _).
  - intros uid m [a|b] s Ho; cbn.
    + pose proof (store_safe uid m a s Ho). by destruct (StoreOffline uid m (a, s)) as [r [a' s']].
    + pose proof (store_safe uid m b s Ho). by destruct (StoreOffline uid m (b, s)) as [r [b' s']].
  - intros uid [a|b] s Ho; cbn.
    + pose proof (drain_safe uid a s Ho). by destruct (DrainOffline uid (a, s)) as [r [a' s']].
    + pose proof (drain_safe uid b s Ho). by destruct (DrainOffline uid (b, s)) as [r [b' s']].
  - intros uid m. apply onEither_keeps; intros x s; apply store_safe_sys.
  - intros uid. apply onEither_keeps; intros x s; apply drain_safe_sys.
Defined.

Lemma Either_groups_keep {GA : GroupStore A} {GB : GroupStore B} gid uid a b l :
  (sys_keeps E (X := A) (GroupStore.Create a b l) /\ sys_keeps E (X := A) (AddMember gid uid) /\
   sys_keeps E (X := A) (RemoveMember gid uid) /\ sys_keeps E (X := A) (GetMembers gid) /\
   sys_keeps E (X := A) (GroupStore.Get gid) /\ sys_keeps E (X := A) (GetUserGroups uid)) ->
  (sys_keeps E (X := B) (GroupStore.Create a b l) /\ sys_keeps E (X := B) (AddMember gid uid) /\
   sys_keeps E (X := B) (RemoveMember gid uid) /\ sys_keeps E (X := B) (GetMembers gid) /\
   sys_keeps E (X := B) (GroupStore.Get gid) /\ sys_keeps E (X := B) (GetUserGroups uid)) ->
  sys_keeps E (X := A + B) (GroupStore.Create a b l) /\ sys_keeps E (X := A + B) (AddMember gid uid) /\
  sys_keeps E (X := A + B) (RemoveMember gid uid) /\ sys_keeps E (X := A + B) (GetMembers gid) /\
  sys_keeps E (X := A + B) (GroupStore.Get gid) /\ sys_keeps E (X := A + B) (GetUserGroups uid).
Proof. intros HA HB. split_and!; apply onEither_keeps; first [apply HA|apply HB]. Qed.

End Either.
