(* ===== verification/App.v ===== *)
(** * The gateway process: start-up and routes (src/cmd/gateway/main.go)

    [NewApp] from a configuration and what its connections give; the HTTP routes
    of [Run].  Connecting is I/O, so its outcomes are arguments.  The Redis
    client is one connection whose three users (offline queues, deduplication,
    node registry) keep their keys apart, and the four users of the database
    (messages, users, friends, groups) their tables, so each holds its own
    state of it here. *)

From S2P Require Import Prelude GoStrings Proto Snowflake Process Sql Client Hub RedisStore HashRing Dedup RateLimiter.
From S2P Require Import Unread GroupStore Json Stores LogicClient MySQLMessages LogicServer MySQLGroups MySQLUsers.
From S2P Require Import Producer GrpcServer GrpcForwarder Cluster RouterState RouterDelivery RouterChat RouterGroup.
From S2P Require Import Jwt Http HttpGroups Thumbnail GoTime Config HttpFiles HttpFacts Router RouterFrame RouterInv Durable.

Section App.
Context {E : Env} {CD : Codec} {J : JwtLib} {BC : Bcrypt} {IM : Images}.
Context {D : Type} {DB : Database D} {R : Type} {RS : RedisScripts R} {RK : RedisKV R} {NR : NodeRegistry R}.
Context {K : Type} {KW : KafkaWriter K} {L : Type} {LR : LogicRPC L} {P : Type} {PN : PeerNet P}.
Context {MO : Type} {MI : ObjectStore MO}.
Context (errNoPeer : string).

(** The interfaces of the source with the implementations that start-up can
    give them. *)
#[local] Instance app_forwarder : Forwarder (GrpcForwarder * P) := GrpcForwarder_Forwarder errNoPeer.

#[export] Instance appBackends : Backends E :=
  mkBackends E (Offline + RedisOfflineStore R Offline) Either_OfflineStore R RK D MySQL_MessageStore K KW L LR
    (GrpcForwarder * P) app_forwarder (D + InMemoryGroupStore) Either_GroupStore
    InMemoryUnreadTracker InMemory_UnreadTracker D MySQL_FriendStore.

Abbreviation Objects := (MO + InMemoryObjectStore)%type.
Abbreviation Srv := (Server (B := appBackends) D Objects).

(** What the connections of [NewApp] give; [dl_mysql] is the connected and
    migrated database, [dl_found] and [dl_known] the orders in which the first
    discovery visits its maps, and [dl_pings] what a ping of each finds at a
    time. *)
Record Dials := mkDials {
  dl_redis : R;
  dl_ping : option string;
  dl_mysql : string + D;
  dl_kafka : string + K;
  dl_logic : string + L;
  dl_peers : P;
  dl_grpc : option string;
  dl_minio : string + MO;
  dl_found : list string;
  dl_known : list string;
  dl_pings : string -> nat -> option string
}.

Record App := mkApp {
  ap_server : Srv;
  ap_redis : option R;
  ap_mysql : option D;
  ap_grpcServer : option (GrpcGatewayServer (Offline + RedisOfflineStore R Offline));
  ap_clusterMgr : option (ClusterManager R)
}.

(** ** The pieces *)

(** The Redis client, if one is configured and answers. *)
Definition dialRedis (cfg : Config) (d : Dials) : option R :=
  if bool_decide (re_Addr (gw_Redis (cf_Gateway cfg)) <> "") then
    match dl_ping d with Some _ => None | None => Some (dl_redis d) end
  else None.

Definition offlineStoreFor (cfg : Config) (rdb : option R) : Offline + RedisOfflineStore R Offline :=
  let max := co_OfflineMaxSize (gw_Conn (cf_Gateway cfg)) in
  let hub := NewOffline max in
  match rdb with
  | Some c => inr (WithFallback hub (NewRedisStore c max))
  | None => inl hub
  end.

(** Administrators of the configuration get their role in the database. *)
Definition promoteAdmins (uids : list string) : St (D * Sys) unit :=
  forEach uids (fun uid => SqlUpdateUserRole uid "admin" ;;! ret tt).

Definition dialMySQL (cfg : Config) (d : Dials) : option D :=
  if my_Enabled (gw_MySQL (cf_Gateway cfg)) then
    match dl_mysql d with inl _ => None | inr db => Some db end
  else None.

Definition openMySQL (cfg : Config) (d : Dials) (y : Sys) : option D * Sys :=
  match dialMySQL cfg d with
  | None => (None, y)
  | Some db => let '(_, (db, y)) := promoteAdmins (cf_AdminUIDs cfg) (db, y) in (Some db, y)
  end.

Definition kafkaFor (cfg : Config) (d : Dials) : option K :=
  let k := gw_Kafka (cf_Gateway cfg) in
  if ka_Enabled k && negb (bool_decide (ka_Brokers k = [])) then
    match dl_kafka d with inl _ => None | inr k => Some k end
  else None.

(** [NewLogicClient]. *)
Definition logicFor (cfg : Config) (d : Dials) : option L :=
  if bool_decide (lg_Addr (gw_LogicGateway (cf_Gateway cfg)) = "") then None
  else match dl_logic d with inl _ => None | inr l => Some l end.

Definition routerConfig (cfg : Config) : RouterConfig :=
  let g := cf_Gateway cfg in
  mkRouterConfig (gw_DedupTTL g) (gw_PersistConcurrency g) (gw_RecallWindowMs g)
    (gw_HistoryDefaultLimit g) (gw_SearchDefaultLimit g) (rl_CleanupInterval (gw_RateLimit g)).

Definition hubFor (cfg : Config) : Conn :=
  let max := st_MaxConnections (cf_Stability cfg) in
  if 0 <? max then mkConn ∅ max ∅ else NewConn.

(** Whether the gateway is one of several. *)
Definition clustered (cfg : Config) : bool :=
  let g := gw_Grpc (cf_Gateway cfg) in
  bool_decide (gr_Addr g <> "") && bool_decide (gr_NodeID g <> "").

(** The ring of the configured peers, visited in the order [range] takes. *)
Definition startRing (cfg : Config) (order : list string) : HashRing :=
  let g := gw_Grpc (cf_Gateway cfg) in
  HashRing.Add (gr_NodeID g) (fold_left (fun hr n => HashRing.Add n hr) order (NewHashRing 150)).

Definition startForwarder (cfg : Config) (hr : HashRing) : GrpcForwarder :=
  let g := gw_Grpc (cf_Gateway cfg) in
  NewGrpcForwarder hr (gr_NodeID g) (gr_PeerAddrs g) (gr_ForwardDialTimeout g) (gr_ForwardRPCTimeout g).

Definition clusterConfig (cfg : Config) (rdb : option R) : ClusterConfig R :=
  let g := gw_Grpc (cf_Gateway cfg) in
  let dv := gr_Discovery g in
  let positive z := if 0 <? z then z else 0 in
  if bool_decide (di_Mode dv = "redis") && bool_decide (rdb <> None)
  then mkClusterConfig (gr_NodeID g) (gr_Addr g) (positive (di_HealthInterval dv)) 0 rdb
         (di_RedisKey dv) (positive (di_TTL dv))
  else mkClusterConfig (gr_NodeID g) (gr_Addr g) (positive (di_HealthInterval dv)) 0 None "" 0.

Definition objectStoreFor (cfg : Config) (d : Dials) : Objects :=
  if ob_Enabled (gw_ObjectStorage (cf_Gateway cfg)) then
    match dl_minio d with
    | inl _ => inr NewInMemoryObjectStore
    | inr m => inl m
    end
  else inr NewInMemoryObjectStore.

Definition groupStoreFor (mysql : option D) : D + InMemoryGroupStore :=
  match mysql with Some db => inl db | None => inr NewInMemoryGroupStore end.

(** ** The router *)

Definition startRouter (cfg : Config) (d : Dials) (rdb : option R) (mysql : option D) (fw : option GrpcForwarder)
  : Router (B := appBackends) :=
  let g := cf_Gateway cfg in
  let r := NewRouter (B := appBackends) (hubFor cfg) (offlineStoreFor cfg rdb) mysql (routerConfig cfg) in
  let r := SetKafkaProducer (B := appBackends) (kafkaFor cfg d) r in
  let r := SetLogicClient (B := appBackends) (logicFor cfg d) r in
  let r := if rl_Enabled (gw_RateLimit g)
           then SetRateLimit (rl_Rate (gw_RateLimit g)) (rl_Burst (gw_RateLimit g)) r else r in
  let r := match fw with
           | Some f => SetThisNodeID (gr_NodeID (gw_Grpc g))
                         (SetForwarder (B := appBackends) (Some (f, dl_peers d))
                           (SetHashRing (Some (f_hashRing f)) r))
           | None => r
           end in
  let r := SetGroupStore (B := appBackends) (Some (groupStoreFor mysql)) r in
  let r := set_dedup (Dedup.set_redis rdb (dedup r)) r in
  let r := SetFriendStore (B := appBackends) mysql r in
  SetUnreadTracker (B := appBackends) (Some NewInMemoryUnreadTracker) r.

(** The health checks of what the gateway uses; Kafka's is always content. *)
Definition registerHealthChecks (cfg : Config) (d : Dials) (rdb : option R) (mysql : option D) (s : Srv) : Srv :=
  let s := match rdb with Some _ => RegisterHealthCheck "redis" (dl_pings d "redis") s | None => s end in
  let s := match mysql with Some _ => RegisterHealthCheck "mysql" (dl_pings d "mysql") s | None => s end in
  let s := match kafkaFor cfg d with Some _ => RegisterHealthCheck "kafka" (fun _ => None) s | None => s end in
  match objectStoreFor cfg d with
  | inl _ => RegisterHealthCheck "minio" (dl_pings d "minio") s
  | inr _ => s
  end.

(** ** [NewApp] and [Close] *)

(** The cluster manager works on the forwarder and the ring the router was given;
    the router has them as the manager's start leaves them.

    [None] when the worker id is refused; nothing else stops the start. *)
Definition NewApp (cfg : Config) (d : Dials) (tick : nat) : option (App * Sys) :=
  match Snowflake.New (sn_WorkerID (cf_Snow cfg)) with
  | None => None
  | Some snow =>
      let g := cf_Gateway cfg in
      let rdb := dialRedis cfg d in
      let '(mysql, y) := openMySQL cfg d (mkSys tick snow) in
      let '(fw, (_, y)) :=
        if clustered cfg
        then (let! nodes := RangeKeys (elements (dom (gr_PeerAddrs (gw_Grpc g)))) in
              ret (Some (startForwarder cfg (startRing cfg nodes)))) (tt, y)
        else (None, (tt, y)) in
      let grpcSrv := match fw, dl_grpc d with
                     | Some _, None =>
                         Some (NewGrpcGatewayServer (hubFor cfg) (offlineStoreFor cfg rdb) (gr_NodeID (gw_Grpc g)))
                     | _, _ => None
                     end in
      let cluster := match fw, grpcSrv with
                     | Some f, Some _ =>
                         Some (Cluster.Start (dl_found d) (dl_known d) (NewClusterManager f (clusterConfig cfg rdb)))
                     | _, _ => None
                     end in
      let fw := match cluster with Some cm => Some (cm_fw cm) | None => fw end in
      let router := startRouter cfg d rdb mysql fw in
      let server := NewServer (B := appBackends) router
        (Jwt.NewManager (jw_Secret (cf_JWT cfg)) (jw_Expiration (cf_JWT cfg))) mysql
        (au_DevMode (gw_Auth g)) (gw_CheckOrigin g) (Some (objectStoreFor cfg d))
        (ob_MaxUpload (gw_ObjectStorage g)) (cf_AdminUIDs cfg) in
      Some (mkApp (registerHealthChecks cfg d rdb mysql server) rdb mysql grpcSrv cluster, y)
  end.

(** The connections are closed besides, which is I/O. *)
Definition CloseApp (app : App) (y : Sys) : App * Sys :=
  let '(_, (r, y)) := StopRouter (B := appBackends) (sv_router (ap_server app), y) in
  let r := SetForwarder (B := appBackends) ((fun f => (CloseForwarder f.1, f.2)) <$> forwarder r) r in
  (mkApp (set_sv_router r (ap_server app)) (ap_redis app) (ap_mysql app) (ap_grpcServer app)
     (StopCluster <$> ap_clusterMgr app), y).

(** ** The routes of [Run] *)

Inductive Served := SvHttp (e : Endpoint) | SvWS | SvMetrics.

Definition transportOf (cfg : Config) : string :=
  if bool_decide (gw_Transport (cf_Gateway cfg) = "") then "websocket" else gw_Transport (cf_Gateway cfg).

Definition routes (cfg : Config) : list (string * Served) :=
  [("/login", SvHttp Login); ("/register", SvHttp Register_); ("/online", SvHttp OnlineUsers_);
   ("/group/create", SvHttp GroupCreate); ("/group/join", SvHttp GroupJoin);
   ("/group/invite", SvHttp GroupInvite); ("/group/leave", SvHttp GroupLeave);
   ("/group/kick", SvHttp GroupKick); ("/group/rename", SvHttp GroupRename);
   ("/group/transfer", SvHttp GroupTransfer); ("/group/members", SvHttp GroupMembers);
   ("/group/list", SvHttp GroupList); ("/unread", SvHttp UnreadCount); ("/upload", SvHttp Upload);
   ("/file", SvHttp Download); ("/search", SvHttp Search); ("/change-password", SvHttp ChangePassword);
   ("/friend/request", SvHttp FriendRequest_); ("/friend/accept", SvHttp FriendAccept);
   ("/friend/reject", SvHttp FriendReject); ("/friend/remove", SvHttp FriendRemove);
   ("/friend/list", SvHttp FriendList)] ++
  (if bool_decide (transportOf cfg = "websocket" \/ transportOf cfg = "both") then [("/ws", SvWS)] else []) ++
  [("/health", SvHttp Health)] ++
  (if st_MetricsEnabled (cf_Stability cfg) then [("/metrics", SvMetrics)] else []) ++
  [("/admin/stats", SvHttp AdminStats); ("/admin/users", SvHttp AdminUsers);
   ("/admin/users/delete", SvHttp AdminUserDelete); ("/admin/messages", SvHttp AdminMessages);
   ("/admin/messages/delete", SvHttp AdminMessageDelete)].

(** [http.ServeMux] with patterns that are whole paths. *)
Definition mux (cfg : Config) (path : string) : option Served :=
  snd <$> head (filter (fun p : string * Served => p.1 = path) (routes cfg)).

Context (DetectContentType : string -> string).

(** The handler of the server, [Recovery] around the routes; the WebSocket
    endpoint and the metrics are other components', given as [other]. *)
Definition handle (other : Served -> Request -> St (Srv * Sys) Response) (cfg : Config) (path : string)
  (r : Request) : St (Srv * Sys) Response :=
  Recovery
    (let! resp := match mux cfg path with
                  | Some (SvHttp e) => HttpFacts.serve DetectContentType e r
                  | Some sv => other sv r
                  | None => ret (httpError "404 page not found" StatusNotFound)
                  end in
     ret (Some resp)).

End App.
