(* ===== verification/Demo.v ===== *)
(** * A concrete gateway

    Backends as finite maps and counters, under which the router runs on
    concrete inputs: the in-memory hub queues, unread tracker and group store
    of the code, and small stores, peers and services written here.  They show
    that the laws assumed of backends can hold; the properties' witnesses are
    evaluated on them. *)

From S2P Require Import Prelude Proto Snowflake Process Client Hub HashRing Dedup RateLimiter.
From S2P Require Import Unread GroupStore Json Stores LogicClient Producer RouterState RouterDelivery.
From S2P Require Import RouterChat RouterGroup Router RouterFrame RouterInv.

#[export] Existing Instance demoCodec.

(** A message store: what was saved, and which recalls it refuses. *)
Record DemoMessages := mkDemoMessages { dm_saved : list Message; dm_updates : list (Z * string) }.

Definition demoSave (m : Message) : St (DemoMessages * Sys) (option string) :=
  fun '(x, s) => (None, (mkDemoMessages (dm_saved x ++ [m]) (dm_updates x), s)).
Definition demoQuery (_ _ : string) (_ _ : Z) : St (DemoMessages * Sys) (string + list Message) :=
  fun '(x, s) => (inr (dm_saved x), (x, s)).
Definition demoGroupQuery (_ : string) (_ _ : Z) : St (DemoMessages * Sys) (string + list Message) :=
  fun '(x, s) => (inr (dm_saved x), (x, s)).
Definition demoSearch (_ : SearchParams) : St (DemoMessages * Sys) (string + option SearchResult) :=
  fun '(x, s) => (inr (Some (mkSearchResult (dm_saved x) (Z.of_nat (length (dm_saved x))) 0)), (x, s)).
(** A recall is accepted for the sender's own saved messages. *)
Definition demoRecall (id : Z) (uid : string) (_ : Z) : St (DemoMessages * Sys) (option string) :=
  fun '(x, s) =>
    (if bool_decide (Exists (fun m => MsgId m = id /\ From m = uid) (dm_saved x))
     then None else Some "message not found", (x, s)).
Definition demoUpdate (id : Z) (uid text : string) : St (DemoMessages * Sys) (option string) :=
  fun '(x, s) => (None, (mkDemoMessages (dm_saved x) (dm_updates x ++ [(id, text)]), s)).

Definition demoMessageStore : MessageStore DemoMessages :=
  mkMessageStore _ demoSave demoQuery demoGroupQuery demoSearch demoRecall demoUpdate
    (fun _ _ x => (inr [], x)) (fun _ x => (None, x)) (fun x => (inr 0, x)).

(** A friend store: the requests sent. *)
Definition demoFriend (a b : string) : St (list (string * string) * Sys) (option string) :=
  fun '(x, s) => (None, (x ++ [(a, b)], s)).
Definition demoFriendStore : FriendStore (list (string * string)) :=
  mkFriendStore _ demoFriend demoFriend demoFriend demoFriend (fun _ x => (inr [], x)) (fun _ x => (inr [], x)).

(** A peer that keeps what it is given. *)
Definition demoForwarder : Forwarder (list (string * Message)) :=
  mkForwarder _ (fun u m '(x, s) => (inr true, (x ++ [(u, m)], s))).

Definition demoKafka : KafkaWriter (list (bytes * bytes)) :=
  mkKafkaWriter _ (fun k v x => (None, x ++ [(k, v)])).

(** A Logic service that accepts every request and knows no group. *)
Definition demoLogic : LogicRPC unit :=
  mkLogicRPC unit (fun _ l => (inr [], l)) (fun u l => (inr (mkUserResponse u u true), l))
    (fun _ l => (inr (mkSearchResponse [] 0 0), l)) (fun _ _ l => (inr (mkCreateGroupResponse None ""), l))
    (fun _ _ l => (inr (mkJoinGroupResponse true ""), l))
    (fun _ _ l => (inr (mkLeaveGroupResponse true false ""), l))
    (fun _ l => (inr (mkGetGroupResponse None false), l)) (fun _ l => (inr [], l))
    (fun _ _ l => (inr 1, l)) (fun _ _ l => (inr true, l)) (fun _ l => (inr [], l)).

#[export] Instance demoBackends : Backends steadyEnv :=
  mkBackends steadyEnv Offline Hub_OfflineStore (gmap string Z) mapRedis
    DemoMessages demoMessageStore (list (bytes * bytes)) demoKafka unit demoLogic
    (list (string * Message)) demoForwarder InMemoryGroupStore (@InMemory_GroupStore steadyEnv)
    InMemoryUnreadTracker InMemory_UnreadTracker (list (string * string)) demoFriendStore.

#[export] Existing Instance steadyEnv.

#[export] Instance demoLaws : BackendLaws steadyEnv demoBackends.
Proof.
  refine (mkBackendLaws steadyEnv demoBackends (Hub_OfflineLaws steadyEnv)
    (InMemory_GroupLaws steadyEnv) (InMemory_UnreadLaws steadyEnv) _ _ _).
  - split_and!; intros; by intros x s Hs.
  - intros a b. split_and!; by intros x s Hs.
  - intros u m x s Hs. exact Hs.
Defined.

Definition demoStart : Sys := mkSys 0 (mkGenerator 1 0 0).

(** Two users connected with room for three frames each, and a third whose
    buffer has no room. *)
Definition alice : Handle := mkHandle 0 "alice".
Definition bob : Handle := mkHandle 1 "bob".
Definition carol : Handle := mkHandle 2 "carol".

Definition demoConn : Conn :=
  mkConn {[ "alice" := alice; "bob" := bob; "carol" := carol ]} 0
    {[ 0%nat := NewClient "alice" "Alice" 3 0; 1%nat := NewClient "bob" "Bob" 3 0; 
       2%nat := NewClient "carol" "Carol" 0 0 ]}.

Definition demoRouter : Router (B := demoBackends) :=
  let r := NewRouter (B := demoBackends) demoConn (NewOffline 100)
    (Some (mkDemoMessages [] [])) DefaultRouterConfig in
  set_groupStore (Some (mkInMemoryGroupStore {[ "g_1" := mkGroup "g_1" "team" "alice"
      {["alice"; "bob"; "carol"; "dave"]} 0 ]} : bk_G (Backends := demoBackends)))
    (set_unreadTracker (Some (NewInMemoryUnreadTracker : bk_U (Backends := demoBackends)))
      (set_friendStore (Some ([] : bk_FS (Backends := demoBackends))) r)).

Lemma demo_inv : router_inv demoRouter demoStart.
Proof.
  split.
  - split; [split; by vm_compute|split; by vm_compute|by left].
  - simpl. lia.
  - split; simpl; [lia|constructor].
  - done.
Qed.

Definition demoChat (to : string) : Message :=
  mkMessage 7 0 CmdChat "alice" to ChatTypeSingle MsgTypeText "hi" 0 true.
Definition demoGroupChat : Message :=
  mkMessage 8 0 CmdChat "alice" "g_1" ChatTypeGroup MsgTypeText "hi all" 0 true.
