(* ===== verification/RouterChatFacts.v ===== *)
(** * Delivery of chat messages

    What happens to an accepted message in every situation of its recipient,
    what a retry gets, and what a group fan-out does to every member. *)

From S2P Require Import Prelude Proto Snowflake Process Client Hub HashRing Dedup RateLimiter.
From S2P Require Import Unread GroupStore Json Stores LogicClient Producer RouterState RouterDelivery.
From S2P Require Import RouterChat RouterGroup Router RouterFrame RouterInv Demo.

(** ** Predicates that primitives do not look at *)

Section Inert.
Context {E : Env} {C : Codec} {B : Backends E} {BL : BackendLaws E B}.

Lemma preserves_snd {S A} (I : S -> Prop) (m : St S A) s : preserves I m -> I s -> I (m s).2.
Proof. auto. Qed.

Lemma NextID_router (r : Router) s : (NextID (r, s)).2 = (r, (NextID (r, s)).2.2).
Proof.
  destruct (observes_NextID (E := E) r s) as [H _].
  destruct (NextID (r, s)) as [id [r' s']]. simpl in *. by subst.
Qed.

(** Connections, whatever the handler does. *)
Definition conn_since (cn : Conn) (p : Router * Sys) : Prop := conn_ext cn (clients p.1).

Lemma conn_since_stable cn : stable (conn_since cn).
Proof.
  assert (Hsend : stable_send (conn_since cn)).
  { split.
    - intros h m. apply preserves_zoom. intros r s H. unfold conn_since. simpl.
      destruct (SendTo_ext h m (clients r) s) as [He _]. by eapply conn_ext_trans.
    - intros m _. apply preserves_update. intros ? ? H. exact H.
    - intros [r s] H. unfold NextID. by destruct (Next E (sys_snow s) (sys_tick s)) as [[? ?] ?].
    - intros [r s] H. exact H. }
  split; [exact Hsend|inert..].
Qed.

Lemma conn_since_record cn m : preserves (conn_since cn) (record m).
Proof. apply preserves_update. intros ? ? H. exact H. Qed.

Definition offline_is (o : bk_O) (p : Router * Sys) : Prop := offline p.1 = o.

Lemma offline_is_stable o :
  stable_send (offline_is o) /\ stable_persist (offline_is o) /\ stable_accept (offline_is o) /\
  stable_group_reads (offline_is o) /\ stable_unread_writes (offline_is o) /\
  stable_edits (offline_is o) /\ stable_group_writes (offline_is o) /\
  stable_friends (offline_is o).
Proof. split_and!; inert. Qed.

Definition dedup_is (d : DedupCache bk_R) (p : Router * Sys) : Prop := dedup p.1 = d.

Lemma dedup_is_stable d :
  stable_send (dedup_is d) /\ stable_store (dedup_is d) /\ stable_persist (dedup_is d) /\
  stable_group_reads (dedup_is d) /\ stable_unread_writes (dedup_is d) /\
  stable_queries (dedup_is d) /\ stable_edits (dedup_is d) /\ stable_group_writes (dedup_is d) /\
  stable_friends (dedup_is d).
Proof. split_and!; inert. Qed.

(** The queue of tasks and whether anything consumes it. *)
Definition persist_is (q : list Message) (k : option bk_K) (b : bool) (p : Router * Sys) : Prop :=
  persistTasks p.1 = q /\ kafka p.1 = k /\ bool_decide (is_Some (msgStore p.1)) = b.

Lemma persist_is_stable q k b :
  stable_send (persist_is q k b) /\ stable_store (persist_is q k b) /\
  stable_accept (persist_is q k b) /\ stable_group_reads (persist_is q k b) /\
  stable_unread_writes (persist_is q k b) /\ stable_group_writes (persist_is q k b).
Proof. split_and!; inert. Qed.

(** The message store, for handlers that only read from it. *)
Definition msgs_is (ms : option bk_MS) (p : Router * Sys) : Prop := msgStore p.1 = ms.

Lemma msgs_is_stable ms :
  stable_send (msgs_is ms) /\ stable_store (msgs_is ms) /\ stable_persist (msgs_is ms) /\
  stable_accept (msgs_is ms) /\ stable_group_reads (msgs_is ms) /\
  stable_unread_writes (msgs_is ms) /\ stable_group_writes (msgs_is ms) /\
  stable_friends (msgs_is ms).
Proof. split_and!; inert. Qed.

(** The table of unread counters. *)
Definition unread_is (ut : option bk_U) (p : Router * Sys) : Prop := unreadTracker p.1 = ut.

Lemma unread_is_stable ut :
  stable_send (unread_is ut) /\ stable_store (unread_is ut) /\ stable_persist (unread_is ut) /\
  stable_accept (unread_is ut) /\ stable_group_reads (unread_is ut) /\
  stable_edits (unread_is ut) /\ stable_group_writes (unread_is ut) /\
  stable_friends (unread_is ut).
Proof. split_and!; inert. Qed.

End Inert.

(** ** Single steps *)

Section Steps.
Context {E : Env} {C : Codec} {B : Backends E} {BL : BackendLaws E B}.
Implicit Types (r : Router) (s : Sys) (sender h : Handle) (msg : Message).

Lemma set_clients_id r : set_clients (clients r) r = r.
Proof. by destruct r. Qed.

Lemma getClient_run uid r s :
  getClient uid (r, s) = (Hub.clients (clients r) !! uid, (r, s)).
Proof. unfold getClient, onClients, zoom, Hub.Get, gets. simpl. by rewrite set_clients_id. Qed.

(** The buffer of one client, as a heap update. *)
Definition push_frame (i : nat) (c : Client) (d : bytes) (cn : Conn) : Conn :=
  Hub.set_heap (<[i := set_sendBuf (sendBuf c ++ [d]) c]> (heap cn)) cn.

(** An open connection whose buffer has room takes the frame. *)
Lemma sendTo_open h m r s c d :
  heap (clients r) !! h_id h = Some c -> closed c = false -> marshal m = Some d ->
  (length (sendBuf c) < sendCap c)%nat ->
  sendTo h m (r, s) = (None, (set_clients (push_frame (h_id h) c d (clients r)) r, s)).
Proof.
  intros Hc Ho Hm Hl. unfold sendTo, onClients, zoom, SendTo, onClient. rewrite Hc.
  unfold Send. rewrite Hm. unfold bind, getX, gets. simpl. rewrite Ho.
  unfold hasRoom. by apply Nat.ltb_lt in Hl as ->.
Qed.

(** One whose buffer is full refuses it and is not changed. *)
Lemma sendTo_full h m r s c d :
  heap (clients r) !! h_id h = Some c -> closed c = false -> marshal m = Some d ->
  (sendCap c <= length (sendBuf c))%nat ->
  sendTo h m (r, s) = (Some ErrSendBufferFull, (r, s)).
Proof.
  intros Hc Ho Hm Hl. unfold sendTo, onClients, zoom, SendTo, onClient. rewrite Hc.
  unfold Send. rewrite Hm. unfold bind, getX, gets. simpl. rewrite Ho.
  unfold hasRoom. replace (length (sendBuf c) <? sendCap c)%nat with false
    by (symmetry; apply Nat.ltb_ge; done).
  simpl. do 2 f_equal. rewrite insert_id by done. unfold Hub.set_heap.
  destruct r as [cl]. by destruct cl.
Qed.

Lemma storeOffline_run uid m r s :
  storeOffline uid m (r, s) =
  ((StoreOffline uid m (offline r, s)).1,
   (set_offline (StoreOffline uid m (offline r, s)).2.1 r, (StoreOffline uid m (offline r, s)).2.2)).
Proof.
  unfold storeOffline, onOffline, zoom.
  by destruct (StoreOffline uid m (offline r, s)) as [[] [o s']].
Qed.

(** A gateway on its own keeps for itself whatever it cannot deliver. *)
Lemma route_single uid m r s :
  hashRing r = None -> routeOrStoreOffline uid m (r, s) = storeOffline uid m (r, s).
Proof. intros H. unfold routeOrStoreOffline, bind, getX, gets. simpl. by rewrite H. Qed.

(** ** Getting past the checks *)

Definition tick1 s : Sys := mkSys (S (sys_tick s)) (sys_snow s).

(** The deduplication cache does not know the message: it has no sequence
    number, or its pair is not recorded and there is no Redis to ask. *)
Definition not_duplicate r sender msg : Prop :=
  Seq msg <= 0 \/
  (redis (dedup r) = None /\ seen (dedup r) !! dedupKey (h_uid sender) (Seq msg) = None).

(** The limiter, when there is one, lets the sender's call through. *)
Definition within_rate r s sender : Prop :=
  match rateLimit r with
  | None => True
  | Some rl => (Allow (h_uid sender) (rl, tick1 s)).1 = true
  end.

Lemma set_dedup_id r : set_dedup (dedup r) r = r.
Proof. by destruct r. Qed.

Lemma not_duplicate_run r s sender msg :
  not_duplicate r sender msg ->
  (if 0 <? Seq msg then onDedup (IsDuplicate (h_uid sender) (Seq msg)) else ret (false, 0)) (r, s)
  = ((false, 0), (r, s)).
Proof.
  intros [H|[Hr Hs]]; [by replace (0 <? Seq msg) with false by lia|].
  destruct (0 <? Seq msg); [|done]. unfold onDedup, zoom, IsDuplicate, bind, getX, gets. simpl.
  rewrite Hs, Hr. simpl. by rewrite set_dedup_id.
Qed.

Lemma set_rateLimit_id r : set_rateLimit (rateLimit r) r = r.
Proof. by destruct r. Qed.

Lemma within_rate_run r s sender :
  within_rate r s sender -> sys_wf E s ->
  exists rl s', checkRateLimit (h_uid sender) (r, tick1 s) = (false, (set_rateLimit rl r, s')) /\
    sys_wf E s'.
Proof.
  unfold within_rate, checkRateLimit, bind, getX, gets. simpl. intros H Hs.
  assert (Hs1 : sys_wf E (tick1 s)) by by apply sys_wf_tick1.
  destruct (rateLimit r) as [rl|] eqn:Hr.
  - unfold onRate, zoomSome. rewrite Hr.
    destruct (Allow_frame (h_uid sender) rl (tick1 s)) as (_ & _ & _ & Ht & _).
    destruct (Allow (h_uid sender) (rl, tick1 s)) as [v [rl' s']]. simpl in *. subst v s'.
    eexists _, _. split; [done|]. exact (sys_wf_tick1 (tick1 s) Hs1).
  - exists (rateLimit r), (tick1 s). by rewrite set_rateLimit_id.
Qed.

(** An accepted message is numbered, stamped, delivered and followed by the
    tail; until then only metrics and the limiter have changed. *)
Lemma handleChat_accepted sender msg r s :
  Validate msg = None -> not_duplicate r sender msg -> within_rate r s sender -> sys_wf E s ->
  exists mts rl start id ts s1, sys_wf E s1 /\
    let msg' := setTimestamp ts (setMsgId id msg) in
    (handleChat sender msg (r, s)).2 =
    (chatTail sender start msg'
      (chatDeliver sender msg' (set_rateLimit rl (set_metrics mts r), s1)).2).2.
Proof.
  intros Hv Hd Hw Hs. unfold handleChat. rewrite !bind_run.
  set (r1 := set_metrics (metrics r ++ [RecordMessagesReceived (ChatTypeStr msg)]) r).
  change ((Now _).2) with (r1, tick1 s).
  rewrite not_duplicate_run by (destruct Hd; [by left|by right]). cbn [fst snd].
  unfold chatAccept. rewrite Hv.
  destruct (within_rate_run r1 s sender) as (rl & s' & Hrun & Hs'); [exact Hw|exact Hs|].
  rewrite bind_run, Hrun. cbn [fst snd]. unfold stamped. rewrite !bind_run.
  destruct (observes_NextID (E := E) (set_rateLimit rl r1) s') as [_ Hid]. specialize (Hid Hs').
  rewrite NextID_router. cbn [fst snd] in *.
  set (s2 := (NextID (set_rateLimit rl r1, s')).2.2) in *.
  set (id := (NextID (set_rateLimit rl r1, s')).1).
  change ((NowMilli _).2) with (set_rateLimit rl r1, tick1 s2).
  exists (metrics r1), rl, (readings E (sys_tick s)), id, (NowMilli (E := E) (set_rateLimit rl r1, s2)).1, (tick1 s2).
  split; [by apply sys_wf_tick1|]. cbv zeta. done.
Qed.

End Steps.

(** ** The tail of a chat *)

Section Tail.
Context {E : Env} {C : Codec} {B : Backends E} {BL : BackendLaws E B}.
Implicit Types (r : Router) (s : Sys) (sender h : Handle) (msg : Message).

Lemma chatTail_keeps (I : Router * Sys -> Prop) sender start msg p :
  stable_send I -> stable_group_reads I -> stable_unread_writes I -> stable_persist I ->
  I p -> I (chatTail sender start msg p).2.
Proof. intros. by apply preserves_snd; [apply chatTail_stable|]. Qed.

Lemma chatTail_conn cn sender start msg p :
  conn_since cn p -> conn_since cn (chatTail sender start msg p).2.
Proof. destruct (conn_since_stable cn). by apply chatTail_keeps. Qed.

Lemma chatTail_offline sender start msg p : offline (chatTail sender start msg p).2.1 = offline p.1.
Proof.
  destruct (offline_is_stable (offline p.1)) as (H1 & H2 & H3 & H4 & H5 & _).
  by apply (chatTail_keeps (offline_is (offline p.1))).
Qed.

Lemma chatTail_dedup sender start msg p : dedup (chatTail sender start msg p).2.1 = dedup p.1.
Proof.
  destruct (dedup_is_stable (dedup p.1)) as (H1 & H2 & H3 & H4 & H5 & _).
  by apply (chatTail_keeps (dedup_is (dedup p.1))).
Qed.

(** The tail queues the message for persistence, when there is a backend and
    room. *)
Definition queued (q : list Message) (msg : Message) : list Message :=
  if (length q <? persistQueueCap)%nat then q ++ [msg] else q.

Definition has_persistence r : Prop := is_Some (kafka r) \/ is_Some (msgStore r).

Lemma persistAsync_queued msg p :
  has_persistence p.1 -> persistTasks (persistAsync msg p).2.1 = queued (persistTasks p.1) msg.
Proof.
  destruct p as [r s]. unfold has_persistence, persistAsync. simpl. intros H.
  unfold bind at 1, getX, gets. simpl.
  assert (Hq : persistTasks ((let! queued := enqueuePersist msg in
      if queued then ret tt else record RecordPersistQueueDrop) (r, s)).2.1
    = queued (persistTasks r) msg).
  { unfold enqueuePersist, bind, queued. by destruct (length (persistTasks r) <? persistQueueCap)%nat. }
  destruct (kafka r), (msgStore r); try done. by destruct H as [[]|[]].
Qed.

Lemma has_persistence_is q k b p :
  persist_is q k b p -> has_persistence p.1 <-> is_Some k \/ b = true.
Proof.
  intros (_ & <- & <-). unfold has_persistence. by rewrite bool_decide_eq_true.
Qed.

Lemma chatTail_persist sender start msg p :
  has_persistence p.1 ->
  persistTasks (chatTail sender start msg p).2.1 = queued (persistTasks p.1) msg.
Proof.
  intros Hp. set (I := persist_is (persistTasks p.1) (kafka p.1) (bool_decide (is_Some (msgStore p.1)))).
  destruct (persist_is_stable (persistTasks p.1) (kafka p.1)
    (bool_decide (is_Some (msgStore p.1)))) as (H1 & _ & _ & H4 & H5 & _).
  unfold chatTail. rewrite !bind_snd.
  match goal with |- context [persistAsync msg ?q] => set (p' := q) end.
  assert (HI : I p').
  { unfold p'. apply preserves_snd.
    - destruct (NeedAck msg); [|apply preserves_ret].
      apply preserves_bind; [by apply sendAck_stable|intros _].
      apply preserves_bind; [apply H1|intros now; apply H1, label_duration].
    - apply preserves_snd; [by apply countUnread_stable|done]. }
  rewrite persistAsync_queued; [by destruct HI as [-> _]|].
  apply (has_persistence_is _ _ _ _ HI). by apply (has_persistence_is (persistTasks p.1) (kafka p.1)
    (bool_decide (is_Some (msgStore p.1)))) in Hp.
Qed.

(** Marking records the id and touches nothing else. *)
Lemma markIfSeq_spec sender m p :
  let p' := (markIfSeq sender m p).2 in
  clients p'.1 = clients p.1 /\ offline p'.1 = offline p.1 /\
  (0 < Seq m -> exists e,
     seen (dedup p'.1) !! dedupKey (h_uid sender) (Seq m) = Some e /\ de_msgID e = MsgId m).
Proof.
  destruct p as [r s]. unfold markIfSeq. destruct (Z.ltb_spec 0 (Seq m)); [|simpl; split_and!; [done|done|lia]].
  unfold onDedup, zoom. destruct (Mark_entry (h_uid sender) (Seq m) (MsgId m) (dedup r) s) as (H1 & _).
  destruct (Mark (h_uid sender) (Seq m) (MsgId m) (dedup r, s)) as [[] [d' s']]. simpl in *.
  split_and!; [done..|]. intros _. rewrite H1. eauto.
Qed.

Lemma chatDeliver_persist sender m p :
  persistTasks (chatDeliver sender m p).2.1 = persistTasks p.1 /\
  (has_persistence p.1 -> has_persistence (chatDeliver sender m p).2.1).
Proof.
  destruct (persist_is_stable (persistTasks p.1) (kafka p.1)
    (bool_decide (is_Some (msgStore p.1)))) as (H1 & H2 & H3 & H4 & _).
  assert (HI : persist_is (persistTasks p.1) (kafka p.1) (bool_decide (is_Some (msgStore p.1)))
    (chatDeliver sender m p).2)
    by (apply preserves_snd; [by apply chatDeliver_stable|done]).
  split; [by destruct HI as [-> _]|]. intros Hp. apply (has_persistence_is _ _ _ _ HI).
  by apply (has_persistence_is (persistTasks p.1) (kafka p.1)
    (bool_decide (is_Some (msgStore p.1)))) in Hp.
Qed.

Lemma conn_since_push cn i c d c0 p :
  heap cn !! i = Some c0 -> conn_since (push_frame i c d cn) p ->
  exists c', heap (clients p.1) !! i = Some c' /\ (sendBuf c ++ [d]) `prefix_of` sendBuf c'.
Proof.
  intros _ [_ _ H]. destruct (H i _ (lookup_insert_eq _ _ _)) as (c' & Hc' & He).
  exists c'. split; [done|]. apply (ext_buf _ _ He).
Qed.

(** ** Properties *)

(** C3. An accepted single-chat message, by what its recipient's connection
    is.  Connected with room: the frame of the numbered message is appended to
    the connection's buffer, nothing goes offline, and a sequence number is
    marked with the new id.  Connected with a full buffer: the message is kept
    offline and the sequence number is not marked, so a retry is delivered
    again.  Not connected, on a gateway of its own: kept offline and marked.
    In every case it is queued for persistence when there is room. *)
Theorem chat_single_delivery sender msg r s :
  router_inv r s -> Validate msg = None -> not_duplicate r sender msg ->
  within_rate r s sender -> (ChatType msg <> ChatTypeGroup \/ groupStore r = None) ->
  let p := (handleChat sender msg (r, s)).2 in
  exists id ts, let m := setTimestamp ts (setMsgId id msg) in
  let marked := 0 < Seq msg -> exists e,
    seen (dedup p.1) !! dedupKey (h_uid sender) (Seq msg) = Some e /\ de_msgID e = id in
  let kept := off_queue (offline p.1) (To msg) =
    lastn (off_limit (offline r)) (off_queue (offline r) (To msg) ++ [m]) in
  (has_persistence r -> persistTasks p.1 = queued (persistTasks r) m) /\
  match Hub.clients (clients r) !! To msg with
  | Some h => forall c d, heap (clients r) !! h_id h = Some c -> closed c = false ->
      marshal m = Some d ->
      if decide (length (sendBuf c) < sendCap c)%nat then
        (exists c', heap (clients p.1) !! h_id h = Some c' /\
           (sendBuf c ++ [d]) `prefix_of` sendBuf c') /\
        offline p.1 = offline r /\ marked
      else kept /\ dedup p.1 = dedup r
  | None => hashRing r = None -> kept /\ marked
  end.
Proof.
  intros Hi Hv Hd Hw Hg p.
  destruct (handleChat_accepted sender msg r s Hv Hd Hw (inv_sys _ _ Hi))
    as (mts & rl & start & id & ts & s1 & Hs1 & Hp). fold p in Hp.
  set (r1 := set_rateLimit rl (set_metrics mts r)) in Hp.
  exists id, ts. cbv zeta in Hp |- *. set (m := setTimestamp ts (setMsgId id msg)) in *.
  assert (Hdel : chatDeliver sender m (r1, s1) = chatSingle sender m (r1, s1)).
  { unfold chatDeliver, bind, getX, gets. simpl.
    destruct (Z.eqb_spec (ChatType msg) ChatTypeGroup); [|done].
    destruct Hg as [|Hg]; [done|]. by rewrite Hg. }
  split.
  - intros Hpers. destruct (chatDeliver_persist sender m (r1, s1)) as [H1 H2].
    rewrite Hp, chatTail_persist by (by apply H2). by rewrite H1.
  - rewrite Hdel in Hp. unfold chatSingle in Hp. rewrite bind_run, getClient_run in Hp.
    cbn [fst snd] in Hp. change (To m) with (To msg) in Hp.
    change (Hub.clients (clients r1) !! To msg) with (Hub.clients (clients r) !! To msg) in Hp.
    destruct (Hub.clients (clients r) !! To msg) as [h|].
    + intros c d Hc Hopen Hmar. rewrite bind_run in Hp. case_decide as Hroom.
      * rewrite (sendTo_open h m r1 s1 c d) in Hp by done. cbn [fst snd] in Hp.
        rewrite bind_snd in Hp. set (q := (record _ _).2) in Hp.
        destruct (markIfSeq_spec sender m q) as (H1 & H2 & H3).
        split_and!.
        -- rewrite Hp. apply (conn_since_push (clients r) (h_id h) c d c); [done|].
           apply chatTail_conn. unfold conn_since. rewrite H1. apply conn_ext_refl.
        -- by rewrite Hp, chatTail_offline, H2.
        -- rewrite Hp, chatTail_dedup. exact H3.
      * rewrite (sendTo_full h m r1 s1 c d) in Hp by (done || lia). cbn [fst snd] in Hp.
        rewrite bind_snd in Hp. unfold record, update, modify in Hp. cbn [fst snd] in Hp.
        rewrite storeOffline_run in Hp. cbn [snd] in Hp. rewrite Hp, chatTail_offline, chatTail_dedup. split; [|done]. simpl.
        by apply store_law, Hi.
    + intros Hring. rewrite bind_snd in Hp.
      rewrite (route_single (To msg) m r1 s1 Hring), storeOffline_run in Hp. cbn [snd] in Hp.
      set (q := (set_offline _ _, _)) in Hp.
      destruct (markIfSeq_spec sender m q) as (H1 & H2 & H3). split.
      * rewrite Hp, chatTail_offline, H2. simpl. by apply store_law, Hi.
      * rewrite Hp, chatTail_dedup. exact H3.
Qed.

(** C21. A retry of a recognised message is not delivered, numbered, counted,
    rate limited or persisted again: the only effects are the metrics and, when
    the client asked for one, an acknowledgement that carries the id assigned the
    first time. *)
Theorem chat_duplicate_replayed sender msg r s e :
  0 < Seq msg -> seen (dedup r) !! dedupKey (h_uid sender) (Seq msg) = Some e ->
  let p := (handleChat sender msg (r, s)).2 in
  let ack := ackOf (de_msgID e) (Seq msg) (h_uid sender) (UnixMilli (readings E (S (sys_tick s)))) in
  p.1 = set_metrics
    (metrics r ++ [RecordMessagesReceived (ChatTypeStr msg); RecordDuplicateDropped])
    (if NeedAck msg
     then set_clients (SendTo sender ack (clients r, tick1 (tick1 s))).2.1 r else r).
Proof.
  intros Hseq He. cbv zeta. unfold handleChat. rewrite !bind_run.
  set (r1 := set_metrics (metrics r ++ [RecordMessagesReceived (ChatTypeStr msg)]) r).
  change ((Now _).2) with (r1, tick1 s). replace (0 <? Seq msg) with true by lia.
  assert (Hdup : onDedup (IsDuplicate (h_uid sender) (Seq msg)) (r1, tick1 s)
    = ((true, de_msgID e), (r1, tick1 s))).
  { unfold onDedup, zoom, IsDuplicate, bind, getX, gets. simpl. by rewrite He. }
  rewrite Hdup. cbn [fst snd]. rewrite bind_snd. destruct (NeedAck msg).
  - rewrite bind_snd. unfold send_. rewrite bind_ret_state. unfold sendTo, onClients, zoom.
    change ((NowMilli (r1, tick1 s)).1) with (UnixMilli (readings E (S (sys_tick s)))).
    change ((NowMilli (r1, tick1 s)).2) with (r1, tick1 (tick1 s)). cbv beta iota.
    change (clients r1) with (clients r).
    destruct (SendTo sender _ (clients r, tick1 (tick1 s))) as [x [cn s']]. simpl.
    by rewrite <- app_assoc.
  - simpl. by rewrite <- app_assoc.
Qed.

End Tail.

Lemma demo_not_duplicate : not_duplicate demoRouter alice (demoChat "bob").
Proof. right. split; [done|]. apply lookup_empty. Qed.

Lemma demo_single to : ChatType (demoChat to) <> ChatTypeGroup.
Proof. done. Qed.

Lemma chat_single_delivery_witness :
  let p := (handleChat alice (demoChat "bob") (demoRouter, demoStart)).2 in
  exists c', heap (clients p.1) !! 1%nat = Some c' /\ sendBuf c' <> [].
Proof.
  destruct (chat_single_delivery alice (demoChat "bob") demoRouter demoStart demo_inv eq_refl
    demo_not_duplicate I (or_introl (demo_single "bob")))
    as (id & ts & _ & H).
  specialize (H (NewClient "bob" "Bob" 3 0)
    (bytes_of_pos (encode (setTimestamp ts (setMsgId id (demoChat "bob")))))
    eq_refl eq_refl eq_refl).
  destruct (decide (length (sendBuf (NewClient "bob" "Bob" 3 0)) <
    sendCap (NewClient "bob" "Bob" 3 0))%nat) as [_|Hn]; [|exfalso; apply Hn; simpl; lia].
  destruct H as ((c' & Hc' & Hp) & _). exists c'. split; [exact Hc'|].
  intros He. rewrite He in Hp. destruct Hp as [k Hk]. by destruct k.
Defined.

(** The retry of a marked message. *)
Definition markedRouter : Router (B := demoBackends) :=
  set_dedup (set_seen {[ "alice:7" := mkDedupEntry 42 0 ]} (dedup demoRouter)) demoRouter.

Lemma chat_duplicate_replayed_witness :
  metrics (handleChat alice (demoChat "bob") (markedRouter, demoStart)).2.1 =
  [RecordMessagesReceived "single"; RecordDuplicateDropped].
Proof.
  rewrite (chat_duplicate_replayed alice (demoChat "bob") markedRouter demoStart
    (mkDedupEntry 42 0)); [done|simpl; lia|by vm_compute].
Defined.
