(* ===== verification/RouterGroupFacts.v ===== *)
(** * Group fan-out

    What a group message does to every user of the gateway: each member but the
    sender gets it exactly once, on the connection or offline, independently of
    the others, and nobody else gets anything; and what happens when the group
    cannot be looked up. *)

From S2P Require Import Prelude Proto Snowflake Process Client Hub HashRing Dedup RateLimiter.
From S2P Require Import Unread GroupStore Json Stores LogicClient Producer RouterState RouterDelivery.
From S2P Require Import RouterChat RouterGroup Router RouterFrame RouterInv RouterChatFacts Demo.

(** The client object a registered user's handle points to. *)
Definition clientOf (cn : Conn) (uid : string) : option Client :=
  Hub.clients cn !! uid ≫= fun h => heap cn !! h_id h.

(** Registered handles point to open clients of their own user. *)
Definition open_registry (cn : Conn) : Prop :=
  forall uid h, Hub.clients cn !! uid = Some h ->
    exists c, heap cn !! h_id h = Some c /\ UID c = uid /\ closed c = false.

(** What a user holds: the connection, if any, and the messages kept offline;
    and what one delivery makes of it. *)
Definition deliver_user (d : bytes) (m : Message) (limit : nat)
  (v : option Client * list Message) : option Client * list Message :=
  match v with
  | (Some c, q) =>
      if (length (sendBuf c) <? sendCap c)%nat
      then (Some (set_sendBuf (sendBuf c ++ [d]) c), q)
      else (Some c, lastn limit (q ++ [m]))
  | (None, q) => (None, lastn limit (q ++ [m]))
  end.

Section Fanout.
Context {E : Env} {C : Codec} {B : Backends E} {BL : BackendLaws E B}.
Implicit Types (r : Router) (s : Sys) (sender h : Handle) (msg : Message).

Definition view r (uid : string) : option Client * list Message :=
  (clientOf (clients r) uid, off_queue (offline r) uid).

(** The situation the fan-out is stated for, and keeps: a gateway of its own
    whose registered connections are open. *)
Record alone r (limit : nat) : Prop := mkAlone {
  al_ring : hashRing r = None;
  al_open : open_registry (clients r);
  al_offline : off_ok (offline r);
  al_limit : off_limit (offline r) = limit
}.

Lemma clientOf_push cn u h c d :
  open_registry cn -> Hub.clients cn !! u = Some h -> heap cn !! h_id h = Some c ->
  clientOf (push_frame (h_id h) c d cn) u = Some (set_sendBuf (sendBuf c ++ [d]) c) /\
  (forall u', u' <> u -> clientOf (push_frame (h_id h) c d cn) u' = clientOf cn u') /\
  open_registry (push_frame (h_id h) c d cn).
Proof.
  intros Ho Hu Hc. unfold clientOf, push_frame. simpl.
  assert (Hid : forall u' h', u' <> u -> Hub.clients cn !! u' = Some h' -> h_id h' <> h_id h).
  { intros u' h' Hne Hu' Heq. destruct (Ho u h Hu) as (c1 & Hc1 & HU1 & _).
    destruct (Ho u' h' Hu') as (c2 & Hc2 & HU2 & _). rewrite Heq in Hc2. congruence. }
  split_and!.
  - rewrite Hu. simpl. by rewrite lookup_insert_eq.
  - intros u' Hne. destruct (Hub.clients cn !! u') as [h'|] eqn:Hu'; [|done]. simpl.
    rewrite lookup_insert_ne; [done|]. intros Heq. by apply (Hid u' h').
  - intros u' h' Hu'. simpl in Hu' |- *. destruct (decide (h_id h' = h_id h)) as [Heq|Hne].
    + rewrite Heq, lookup_insert_eq. eexists. split; [done|].
      destruct (Ho u' h' Hu') as (c' & Hc' & HU & Hcl). rewrite Heq in Hc'. by simplify_eq.
    + rewrite lookup_insert_ne by done. by apply Ho.
Qed.

Lemma storeOffline_view uid m r s limit :
  alone r limit ->
  let p := (storeOffline uid m (r, s)).2 in
  alone p.1 limit /\
  view p.1 uid = (clientOf (clients r) uid, lastn limit (off_queue (offline r) uid ++ [m])) /\
  (forall u, u <> uid -> view p.1 u = view r u).
Proof.
  intros [H1 H2 H3 H4]. rewrite storeOffline_run. cbn [fst snd].
  destruct (store_law uid m (offline r) s H3) as (S1 & S2 & S3 & S4).
  split_and!.
  - split; simpl; [done|done|done|]. by rewrite S2.
  - unfold view. simpl. by rewrite S3, H4.
  - intros u Hu. unfold view. simpl. by rewrite S4.
Qed.

Lemma record_view m r s limit :
  alone r limit ->
  alone (record m (r, s)).2.1 limit /\ forall u, view (record m (r, s)).2.1 u = view r u.
Proof. intros []. split; [by split|done]. Qed.

Lemma fanoutMember_view senderUID msg d m r s limit :
  alone r limit -> marshal msg = Some d -> m <> senderUID ->
  let p := (fanoutMember senderUID msg m (r, s)).2 in
  alone p.1 limit /\ view p.1 m = deliver_user d msg limit (view r m) /\
  forall u, u <> m -> view p.1 u = view r u.
Proof.
  intros Ha Hm Hne. unfold fanoutMember. rewrite bool_decide_false by done.
  rewrite bind_run, getClient_run. cbn [fst snd].
  destruct (Hub.clients (clients r) !! m) as [h|] eqn:Hreg.
  - destruct (al_open _ _ Ha m h Hreg) as (c & Hc & HU & Ho).
    assert (Hcl : clientOf (clients r) m = Some c) by (unfold clientOf; by rewrite Hreg).
    rewrite bind_run. set (r1 := set_metrics (metrics r ++ [RecordGroupFanoutSend]) r).
    change ((record RecordGroupFanoutSend (r, s)).2) with (r1, s).
    assert (Ha1 : alone r1 limit) by (destruct Ha; by split).
    unfold view at 2. rewrite Hcl. cbn [deliver_user].
    destruct (Nat.ltb_spec (length (sendBuf c)) (sendCap c)) as [Hroom|Hfull].
    + rewrite bind_run, (sendTo_open h msg r1 s c d) by done. cbn [fst snd].
      destruct (clientOf_push (clients r) m h c d (al_open _ _ Ha) Hreg Hc) as (P1 & P2 & P3).
      split_and!.
      * destruct Ha1. by split.
      * unfold view. simpl. by rewrite P1.
      * intros u Hu. unfold view. simpl. by rewrite P2.
    + rewrite bind_run, (sendTo_full h msg r1 s c d) by done. cbn [fst snd].
      rewrite bind_run. set (r2 := set_metrics (metrics r1 ++ [RecordDeliveryFailure]) r1).
      change ((record RecordDeliveryFailure (r1, s)).2) with (r2, s).
      assert (Ha2 : alone r2 limit) by (destruct Ha1; by split).
      destruct (storeOffline_view m msg r2 s limit Ha2) as (S1 & S2 & S3).
      split_and!; [done| |exact S3]. rewrite S2. simpl. by rewrite Hcl.
  - rewrite (route_single m msg r s) by apply Ha.
    destruct (storeOffline_view m msg r s limit Ha) as (S1 & S2 & S3).
    split_and!; [done| |done]. rewrite S2. unfold view, clientOf. by rewrite Hreg.
Qed.

(** The fan-out loop over distinct members. *)
Lemma fanout_view senderUID msg d members r s limit :
  alone r limit -> marshal msg = Some d -> NoDup members ->
  let p := (forEach members (fanoutMember senderUID msg) (r, s)).2 in
  alone p.1 limit /\
  forall u, view p.1 u =
    if bool_decide (u ∈ members /\ u <> senderUID)
    then deliver_user d msg limit (view r u) else view r u.
Proof.
  intros Ha Hm. revert r s Ha. induction members as [|m ms IH]; intros r s Ha Hnd.
  { split; [done|]. intros u. rewrite bool_decide_false; [done|].
    intros [Hu _]. by apply not_elem_of_nil in Hu. }
  rewrite forEach_cons. apply NoDup_cons in Hnd as [Hnot Hnd].
  destruct (decide (m = senderUID)) as [->|Hne].
  - assert (Hskip : fanoutMember senderUID msg senderUID (r, s) = (tt, (r, s)))
      by (unfold fanoutMember; by rewrite bool_decide_true).
    rewrite Hskip. cbn [snd]. destruct (IH r s Ha Hnd) as [H1 H2]. split; [done|].
    intros u. rewrite H2. erewrite bool_decide_ext; [reflexivity|]. set_solver.
  - destruct (fanoutMember_view senderUID msg d m r s limit Ha Hm Hne) as (H1 & H2 & H3).
    destruct (fanoutMember senderUID msg m (r, s)) as [x [r1 s1]]. cbn [fst snd] in *.
    destruct (IH r1 s1 H1 Hnd) as [H4 H5]. split; [done|]. intros u. rewrite H5.
    destruct (decide (u = m)) as [->|Hu].
    + rewrite bool_decide_false by tauto. rewrite bool_decide_true by set_solver. done.
    + rewrite H3 by done. erewrite bool_decide_ext; [reflexivity|]. set_solver.
Qed.

Lemma onGroups_run {A} gs (m : St (bk_G * Sys) A) r s :
  groupStore r = Some gs ->
  onGroups gs m (r, s) = ((m (gs, s)).1, (set_groupStore (Some (m (gs, s)).2.1) r, (m (gs, s)).2.2)).
Proof.
  intros H. unfold onGroups, zoomSome. rewrite H. by destruct (m (gs, s)) as [a [x s']].
Qed.

(** Looking up the members changes nothing. *)
Lemma groupMembers_run gs gid r s :
  groupStore r = Some gs ->
  exists s', groupMembers gs gid (r, s) = ((GetMembers gid (gs, s)).1, (r, s')).
Proof.
  intros H. unfold groupMembers. rewrite onGroups_run by done.
  destruct (GetMembers_law gid gs s) as [_ ->]. eexists. do 2 f_equal.
  rewrite <- H. by destruct r.
Qed.

(** ** Properties *)

(** C11. Fan-out to a group on a gateway of its own: every member except the
    sender gets the message exactly once, as a frame on the connection when
    there is room and offline otherwise, whatever happens to the others; the
    sender and everybody outside the group get nothing. *)
Theorem group_fanout_each_member_once gs g senderUID msg d r s :
  alone r (off_limit (offline r)) -> groupStore r = Some gs ->
  groupsOf gs !! To msg = Some g -> marshal msg = Some d ->
  let p := (fanoutGroup gs senderUID msg (r, s)).2 in
  forall u, view p.1 u =
    if bool_decide (u ∈ Members g /\ u <> senderUID)
    then deliver_user d msg (off_limit (offline r)) (view r u) else view r u.
Proof.
  intros Ha Hgs Hg Hm p u. unfold p, fanoutGroup. rewrite bind_run.
  destruct (groupMembers_run gs (To msg) r s Hgs) as [s' ->]. cbn [fst snd].
  destruct (GetMembers_law (To msg) gs s) as [Hmem _]. rewrite Hg in Hmem.
  destruct Hmem as (l & -> & Hl).
  destruct (fanout_view senderUID msg d l r s' _ Ha Hm) as [_ H].
  { rewrite Hl. apply NoDup_elements. }
  rewrite H. erewrite bool_decide_ext; [reflexivity|]. by rewrite Hl, elem_of_elements.
Qed.

End Fanout.

Lemma demo_alone : alone demoRouter (off_limit (offline demoRouter)).
Proof.
  split; [done| |done|done]. intros uid h Hu. simpl in Hu.
  apply lookup_insert_Some in Hu as [[<- <-]|[_ Hu]]; [eexists; by vm_compute|].
  apply lookup_insert_Some in Hu as [[<- <-]|[_ Hu]]; [eexists; by vm_compute|].
  apply lookup_singleton_Some in Hu as [<- <-]. eexists. by vm_compute.
Qed.

Lemma demo_group_marshal : marshal demoGroupChat = Some (bytes_of_pos (encode demoGroupChat)).
Proof. done. Qed.

Lemma group_fanout_each_member_once_witness :
  let gs := mkInMemoryGroupStore {[ "g_1" := mkGroup "g_1" "team" "alice"
      {["alice"; "bob"; "carol"; "dave"]} 0 ]} in
  let p := (fanoutGroup (B := demoBackends) gs "alice" demoGroupChat (demoRouter, demoStart)).2 in
  view p.1 "bob" = (Some (set_sendBuf [bytes_of_pos (encode demoGroupChat)] (NewClient "bob" "Bob" 3 0)), []) /\
  view p.1 "dave" = (None, [demoGroupChat]) /\ view p.1 "erin" = view demoRouter "erin".
Proof.
  split_and!.
  - rewrite (group_fanout_each_member_once _ _ "alice" demoGroupChat
      (bytes_of_pos (encode demoGroupChat)) demoRouter demoStart demo_alone eq_refl eq_refl
      demo_group_marshal).
    by vm_compute.
  - rewrite (group_fanout_each_member_once _ _ "alice" demoGroupChat
      (bytes_of_pos (encode demoGroupChat)) demoRouter demoStart demo_alone eq_refl eq_refl
      demo_group_marshal).
    by vm_compute.
  - rewrite (group_fanout_each_member_once _ _ "alice" demoGroupChat
      (bytes_of_pos (encode demoGroupChat)) demoRouter demoStart demo_alone eq_refl eq_refl
      demo_group_marshal).
    by vm_compute.
Defined.
