(* ===== verification/RouterSafety.v ===== *)
(** * Safety of the dispatcher, and the persistence queue

    The invariant over any sequence of commands; what the queue, the workers,
    Kafka and the message store hold under any interleaving of handlers, workers
    and the stop. *)

From S2P Require Import Prelude Proto Snowflake Process Client Hub HashRing Dedup RateLimiter Unread.
From S2P Require Import GroupStore Json Stores LogicClient Producer RouterState RouterDelivery.
From S2P Require Import RouterChat RouterGroup Router RouterFrame RouterInv Demo RouterChatFacts.
From S2P Require Import RouterGroupFacts.

Section Dispatch.
Context {E : Env} {C : Codec} {B : Backends E} {BS : BackendSafe E B}.
Implicit Types (r : Router) (s : Sys) (sender h : Handle) (msg : Message).

Definition serve (err : string -> string) (cmds : list (Handle * Message)) : M unit :=
  forEach cmds (fun c => Route err c.1 c.2).

Lemma serve_safe err cmds r s : router_inv r s -> safe r (serve err cmds (r, s)).2.
Proof.
  intros Hi. apply preserves_snd; [|split; [done|apply router_frame_refl]].
  apply preserves_forEach. intros c. apply Route_stable; [apply safe_stable|intros; apply safe_record].
Qed.

(** C1. Whatever commands clients send, in any order, and however the stores
    behind the gateway fail: ids stay well formed,
    the deduplication and persistence queues stay within their capacity, the
    offline store keeps its invariant; no command registers, unregisters or
    closes a connection, or takes back a frame or overruns a buffer; the
    configuration does not change; and a command that fails validation changes
    nothing at all. *)
Theorem route_invariant err cmds r s :
  router_inv r s ->
  let p := (serve err cmds (r, s)).2 in
  router_inv p.1 p.2 /\ router_frame r p.1 /\
  forall sender msg e, Validate msg = Some e -> (Route err sender msg p).2 = p.
Proof.
  intros Hi p. pose proof (serve_safe err cmds r s Hi) as Hp. fold p in Hp.
  split; [apply Hp|]. split; [apply Hp|]. intros sender msg e He. unfold Route. by rewrite He.
Qed.

End Dispatch.

Section Safety.
Context {E : Env} {C : Codec} {B : Backends E} {BL : BackendLaws E B}.
Implicit Types (r : Router) (s : Sys) (sender h : Handle) (msg : Message).

(** ** Routing *)

(** A message for a user whom a peer owns goes to the forwarder. *)
Lemma route_remote uid msg r s hr o f :
  hashRing r = Some hr -> HashRing.Get hr uid = o -> o <> "" -> o <> thisNodeID r ->
  thisNodeID r <> "" -> forwarder r = Some f ->
  routeOrStoreOffline uid msg (r, s) =
  let v := Forward uid msg (f, s) in
  let p := (set_forwarder (Some v.2.1) r, v.2.2) in
  match v.1 with
  | inl _ => storeOffline uid msg p
  | inr _ => (tt, p)
  end.
Proof.
  intros Hr <- H1 H2 H3 Hf. unfold routeOrStoreOffline. rewrite bind_run.
  cbn [fst snd getX gets]. rewrite Hr, (bool_decide_false (thisNodeID r = "")) by done.
  rewrite (bool_decide_false (_ \/ _)) by tauto. rewrite Hf, bind_run.
  unfold onForwarder, zoomSome. rewrite Hf.
  by destruct (Forward uid msg (f, s)) as [[e|b] [f' s']].
Qed.

End Safety.

(** * The persistence queue

    Messages are offered by the handlers; each worker takes one, publishes it and
    saves it, the workers' turns interleaving with each other, with the offers and
    with the stop in any way. *)

Section Persistence.
Context {E : Env} {C : Codec} {B : Backends E}.
Implicit Types (r : Router) (s : Sys) (m : Message) (w : WorkerPc).

(** The workers and the router, with what has been accepted into the queue, handed
    to [Publish] and handed to [Save]. *)
Record Pool := mkPool {
  pl_workers : list WorkerPc;
  pl_router : Router * Sys;
  pl_accepted : list Message;
  pl_published : list Message;
  pl_saved : list Message
}.

Definition startPool (n : nat) (x : Router * Sys) : Pool := mkPool (replicate n WorkerSelect) x [] [] [].

Definition acceptedBy r m : list Message :=
  if (length (persistTasks r) <? persistQueueCap)%nat then [m] else [].
Definition toPublish w : list Message := match w with WorkerPublish m => [m] | _ => [] end.
Definition toSave w : list Message := match w with WorkerSave m => [m] | _ => [] end.

(** A turn of one worker. *)
Inductive pool_turn : Pool -> Pool -> Prop :=
| Turn i w w' ws x y acc pub sav : ws !! i = Some w -> worker_turn w x = (Some w', y) ->
    pool_turn (mkPool ws x acc pub sav) (mkPool (<[i := w']> ws) y acc (pub ++ toPublish w) (sav ++ toSave w)).

Inductive pool_step : Pool -> Pool -> Prop :=
| Offers m ws x acc pub sav :
    pool_step (mkPool ws x acc pub sav) (mkPool ws (persistAsync m x).2 (acc ++ acceptedBy x.1 m) pub sav)
| Stops ws r s acc pub sav :
    pool_step (mkPool ws (r, s) acc pub sav) (mkPool ws (set_persistStopped true r, s) acc pub sav)
| Turns p q : pool_turn p q -> pool_step p q.

(** What the workers hold. *)
Definition holdPublish (ws : list WorkerPc) : list Message := ws ≫= toPublish.
Definition holdSave (ws : list WorkerPc) : list Message := ws ≫= toSave.

Definition publishAll (l : list Message) (k : bk_K) : bk_K := foldl (fun k m => Publish m k) k l.

(** The stores that saving the messages one after the other leads to, each in some
    state of the process. *)
Inductive saves (ms : bk_MS) : list Message -> bk_MS -> Prop :=
| saves_nil : saves ms [] ms
| saves_snoc l m ms1 s : saves ms l ms1 -> saves ms (l ++ [m]) (Save m (ms1, s)).2.1.

Definition savesOpt (l : list Message) (o o' : option bk_MS) : Prop :=
  match o, o' with Some ms, Some ms' => saves ms l ms' | None, None => True | _, _ => False end.

Record pool_inv (n : nat) (r0 : Router) (p : Pool) : Prop := mkPoolInv {
  po_backend : has_persistence (pl_router p).1;
  po_accepted : pl_accepted p ≡ₚ
    pl_saved p ++ holdSave (pl_workers p) ++ holdPublish (pl_workers p) ++ persistTasks (pl_router p).1;
  po_published : pl_published p ≡ₚ pl_saved p ++ holdSave (pl_workers p);
  po_kafka : kafka (pl_router p).1 = publishAll (pl_published p) <$> kafka r0;
  po_store : savesOpt (pl_saved p) (msgStore r0) (msgStore (pl_router p).1);
  po_cap : (length (persistTasks (pl_router p).1) <= persistQueueCap)%nat;
  po_workers : length (pl_workers p) = n;
  po_running : persistStopped (pl_router p).1 = false -> WorkerEnded ∉ pl_workers p
}.

(** ** What a turn does *)

Lemma savesOpt_nil o : savesOpt [] o o.
Proof. destruct o; [apply saves_nil|done]. Qed.

Lemma saves_trans ms l ms' l' ms'' : saves ms l ms' -> saves ms' l' ms'' -> saves ms (l ++ l') ms''.
Proof.
  intros H. induction 1 as [|l' m ms1 s _ IH]; [by rewrite app_nil_r|]. rewrite app_assoc. by apply saves_snoc.
Qed.

Lemma savesOpt_trans l l' o o' o'' : savesOpt l o o' -> savesOpt l' o' o'' -> savesOpt (l ++ l') o o''.
Proof. destruct o, o', o''; try done. apply saves_trans. Qed.

Lemma publishAll_snoc l l' (o o' : option bk_K) k :
  o' = publishAll l <$> o -> k = publishAll l' <$> o' -> k = publishAll (l ++ l') <$> o.
Proof. intros -> ->. destruct o; [|done]. cbn. unfold publishAll. by rewrite foldl_app. Qed.

(** What a turn of a worker does to the router. *)
Record turn_done w w' r r' : Prop := mkTurnDone {
  td_kafka : kafka r' = publishAll (toPublish w) <$> kafka r;
  td_store : savesOpt (toSave w) (msgStore r) (msgStore r');
  td_stopped : persistStopped r' = persistStopped r;
  td_queue : persistTasks r = toPublish w' ++ persistTasks r';
  td_hands : toSave w' = toPublish w;
  td_ended : w' = WorkerEnded -> persistStopped r = true
}.

Lemma publishAll_none (o : option bk_K) : o = publishAll [] <$> o.
Proof. by destruct o. Qed.

Lemma select_turn_done r s w' y : worker_turn WorkerSelect (r, s) = (Some w', y) -> turn_done WorkerSelect w' r y.1.
Proof.
  cbn [worker_turn]. rewrite bind_run. cbn [getX gets fst snd].
  destruct (persistTasks r) as [|m q] eqn:Hq.
  - destruct (persistStopped r) eqn:Hs; [|done]. intros [= <- <-]. split; cbn; try done; [apply publishAll_none|apply savesOpt_nil].
  - rewrite bind_run. destruct (persistStopped r) eqn:Hs; cbn [Pick ret fst snd].
    + destruct (choose E (sys_tick s)); [rewrite bind_run|]; intros [= <- <-]; split; cbn; try done;
        first [apply publishAll_none|apply savesOpt_nil].
    + rewrite bind_run. intros [= <- <-]; split; cbn; try done; first [apply publishAll_none|apply savesOpt_nil].
Qed.

Lemma publish_turn_done m r s w' y :
  worker_turn (WorkerPublish m) (r, s) = (Some w', y) -> w' = WorkerSave m /\ turn_done (WorkerPublish m) w' r y.1.
Proof.
  cbn [worker_turn]. rewrite bind_run. unfold persistPublish. rewrite bind_run. cbn [getX gets fst snd].
  destruct (kafka r) as [k|] eqn:Hk.
  - unfold onKafka, zoomSome. rewrite Hk. intros [= <- <-]. split; [done|]. split; cbn; rewrite ?Hk; try done. apply savesOpt_nil.
  - intros [= <- <-]. split; [done|]. split; cbn; rewrite ?Hk; try done. apply savesOpt_nil.
Qed.

Lemma save_turn_done m r s w' y :
  worker_turn (WorkerSave m) (r, s) = (Some w', y) -> w' = WorkerSelect /\ turn_done (WorkerSave m) w' r y.1.
Proof.
  cbn [worker_turn]. rewrite bind_run. unfold persistSave. rewrite bind_run. cbn [getX gets fst snd].
  destruct (msgStore r) as [ms|] eqn:Hm.
  - rewrite bind_run. unfold onMsgs, zoomSome. rewrite Hm. pose proof (saves_snoc ms [] m ms s (saves_nil ms)) as Hsv.
    destruct (Save m (ms, s)) as [[e|] [ms' s']]; intros [= <- <-]; (split; [done|]); split; cbn; rewrite ?Hm; try done;
      apply publishAll_none.
  - intros [= <- <-]. split; [done|]. split; cbn; rewrite ?Hm; try done. apply publishAll_none.
Qed.

Lemma worker_turn_done w w' x y : worker_turn w x = (Some w', y) -> turn_done w w' x.1 y.1.
Proof.
  destruct x as [r s], w as [|m|m|].
  - apply select_turn_done.
  - intros H. by apply publish_turn_done in H as [_ H].
  - intros H. by apply save_turn_done in H as [_ H].
  - done.
Qed.

Lemma worker_split ws i w : ws !! i = Some w ->
  exists a b, ws = a ++ w :: b /\ forall w', <[i := w']> ws = a ++ w' :: b.
Proof.
  intros Hi. exists (take i ws), (drop (S i) ws). split; [by rewrite take_drop_middle|].
  intros w'. rewrite insert_take_drop; [done|]. by eapply lookup_lt_Some.
Qed.

Lemma has_persistence_done w w' r r' : turn_done w w' r r' -> has_persistence r -> has_persistence r'.
Proof.
  intros [Hk Hs _ _ _ _] [[k H]|[ms H]]; [left; rewrite Hk, H; by eexists|right].
  rewrite H in Hs. destruct (msgStore r') as [ms'|]; [by eexists|done].
Qed.

Lemma pool_turn_inv n r0 p q : pool_turn p q -> pool_inv n r0 p -> pool_inv n r0 q.
Proof.
  intros [i w w' ws x y acc pub sav Hi Ht] [Hb Ha Hp Hk Hst Hc Hw Hr].
  cbn [pl_workers pl_router pl_accepted pl_published pl_saved] in *.
  pose proof (worker_turn_done _ _ _ _ Ht) as Hd. pose proof (has_persistence_done _ _ _ _ Hd Hb) as Hb'.
  destruct Hd as [D1 D2 D3 D4 D5 D6]. destruct (worker_split ws i w Hi) as (a & b & -> & Hins). rewrite Hins.
  unfold holdSave, holdPublish in *. rewrite !bind_app, !bind_cons in *.
  split; cbn [pl_workers pl_router pl_accepted pl_published pl_saved]; unfold holdSave, holdPublish;
    rewrite ?bind_app, ?bind_cons, ?D5.
  - done.
  - rewrite Ha, D4. solve_Permutation.
  - rewrite Hp. solve_Permutation.
  - by eapply publishAll_snoc.
  - by eapply savesOpt_trans.
  - rewrite D4, length_app in Hc. lia.
  - by rewrite length_app in *.
  - rewrite D3. intros Hns Hin. apply (Hr Hns). apply elem_of_app in Hin as [Hin|Hin]; [set_solver|].
    apply elem_of_cons in Hin as [He|Hin]; [|set_solver]. symmetry in He. apply D6 in He. congruence.
Qed.

Lemma persistAsync_keeps m x :
  kafka (persistAsync m x).2.1 = kafka x.1 /\ msgStore (persistAsync m x).2.1 = msgStore x.1 /\
  persistStopped (persistAsync m x).2.1 = persistStopped x.1.
Proof.
  destruct x as [r s]. unfold persistAsync. rewrite bind_run. cbn [getX gets fst snd].
  destruct (kafka r) as [k|] eqn:Hk, (msgStore r) as [ms|] eqn:Hm; cbn [fst snd ret];
    rewrite ?Hk, ?Hm; try done; rewrite bind_run; unfold enqueuePersist;
    destruct (_ <? _)%nat; cbn; by rewrite ?Hk, ?Hm.
Qed.

Lemma queued_accepted r m : queued (persistTasks r) m = persistTasks r ++ acceptedBy r m.
Proof. unfold queued, acceptedBy. destruct (_ <? _)%nat; [done|by rewrite app_nil_r]. Qed.

Lemma pool_step_inv n r0 p q : pool_step p q -> pool_inv n r0 p -> pool_inv n r0 q.
Proof.
  intros [m ws x acc pub sav|ws r s acc pub sav|p' q' Ht] Hi; [| |by eapply pool_turn_inv];
    destruct Hi as [Hb Ha Hp Hk Hst Hc Hw Hr]; cbn [pl_workers pl_router pl_accepted pl_published pl_saved] in *.
  - destruct (persistAsync_keeps m x) as (H1 & H2 & H3). pose proof (persistAsync_queued m x Hb) as Hq.
    rewrite queued_accepted in Hq.
    split; cbn [pl_workers pl_router pl_accepted pl_published pl_saved]; rewrite ?H1, ?H2, ?H3, ?Hq; try done.
    + unfold has_persistence in *. by rewrite H1, H2.
    + rewrite Ha. solve_Permutation.
    + unfold acceptedBy. destruct (Nat.ltb_spec (length (persistTasks x.1)) persistQueueCap);
        rewrite length_app; cbn; lia.
  - by split.
Qed.

Lemma start_pool_inv n r s : has_persistence r -> persistTasks r = [] -> pool_inv n r (startPool n (r, s)).
Proof.
  intros Hb Hq. assert (He : forall f : WorkerPc -> list Message, f WorkerSelect = [] -> replicate n WorkerSelect ≫= f = []).
  { intros f Hf. induction n as [|n IH]; [done|]. cbn. by rewrite Hf, IH. }
  split; cbn; unfold holdSave, holdPublish; rewrite ?He, ?Hq; try done.
  - apply publishAll_none.
  - apply savesOpt_nil.
  - cbn. lia.
  - by rewrite length_replicate.
  - intros _ Hin. apply elem_of_replicate in Hin as [? _]. done.
Qed.

(** ** The workers get through *)

Definition weight (b : bool) w : nat :=
  match w with WorkerSelect => if b then 1 else 0 | WorkerPublish _ => 2 + (if b then 1 else 0)
  | WorkerSave _ => 1 + (if b then 1 else 0) | WorkerEnded => 0 end.

(** How many turns the workers have before them when nothing is offered any more. *)
Definition turnsLeft p : nat :=
  3 * length (persistTasks (pl_router p).1) +
  sum_list_with (weight (persistStopped (pl_router p).1)) (pl_workers p).

Lemma turn_weight w w' x y : worker_turn w x = (Some w', y) ->
  (3 * length (persistTasks y.1) + weight (persistStopped x.1) w' + 1 =
   3 * length (persistTasks x.1) + weight (persistStopped x.1) w)%nat.
Proof.
  intros H. destruct x as [r s], w as [|m|m|]; [| | |done].
  - revert H. cbn [worker_turn]. rewrite bind_run. cbn [getX gets fst snd].
    destruct (persistTasks r) as [|m q] eqn:Hq.
    + destruct (persistStopped r) eqn:Hs; [|done]. intros [= <- <-]. cbn. by rewrite Hq.
    + rewrite bind_run. destruct (persistStopped r) eqn:Hs; cbn [Pick ret fst snd].
      * destruct (choose E (sys_tick s)); [rewrite bind_run|]; intros [= <- <-]; cbn; rewrite ?Hq; cbn; lia.
      * rewrite bind_run. intros [= <- <-]. cbn. lia.
  - apply publish_turn_done in H as [-> [_ _ _ H _ _]]. cbn in H. cbn [fst snd] in *. rewrite H. cbn. lia.
  - apply save_turn_done in H as [-> [_ _ _ H _ _]]. cbn in H. cbn [fst snd] in *. rewrite H. cbn. lia.
Qed.

Lemma pool_turn_left p q : pool_turn p q -> turnsLeft p = S (turnsLeft q).
Proof.
  intros [i w w' ws x y acc pub sav Hi Ht]. pose proof (turn_weight _ _ _ _ Ht) as Hw.
  destruct (worker_turn_done _ _ _ _ Ht) as [_ _ Hs _ _ _]. destruct (worker_split ws i w Hi) as (a & b & -> & Hins).
  unfold turnsLeft. cbn [pl_router pl_workers]. rewrite Hins, Hs, !sum_list_with_app. cbn [sum_list_with]. lia.
Qed.

Lemma pool_turns_left k p q : nsteps pool_turn k p q -> turnsLeft p = (k + turnsLeft q)%nat.
Proof. induction 1 as [p|k p p' q Ht _ IH]; [done|]. apply pool_turn_left in Ht. lia. Qed.

(** A worker with something before it has a turn, unless it waits for a task. *)
Lemma worker_ready w r s : (0 < weight (persistStopped r) w)%nat \/ (w = WorkerSelect /\ persistTasks r <> []) ->
  exists w' y, worker_turn w (r, s) = (Some w', y).
Proof.
  intros H. destruct (worker_turn w (r, s)) as [[w'|] y] eqn:Ht; [by eexists _, _|]. exfalso. revert Ht.
  destruct w as [|m|m|]; cbn [worker_turn].
  - rewrite bind_run. cbn [getX gets fst snd]. destruct (persistTasks r) as [|m q] eqn:Hq.
    + destruct (persistStopped r); [done|]. cbn in H. destruct H as [H|[_ H]]; [lia|done].
    + rewrite bind_run. destruct (if persistStopped r then Pick else ret true) as [[] ?] eqn:Hg;
        cbn [fst snd]; [by rewrite bind_run|done].
  - by rewrite bind_run.
  - by rewrite bind_run.
  - cbn in H. destruct H as [H|[H _]]; [lia|done].
Qed.

(** Where no worker has a turn they have all ended, or, not stopped, wait at an
    empty queue. *)
Lemma pool_stuck n r0 p : pool_inv n r0 p -> (0 < n)%nat -> (forall q, ~ pool_turn p q) ->
  if persistStopped (pl_router p).1 then Forall (eq WorkerEnded) (pl_workers p)
  else persistTasks (pl_router p).1 = [] /\ Forall (eq WorkerSelect) (pl_workers p).
Proof.
  intros Hi Hn Hno. destruct p as [ws [r s] acc pub sav].
  assert (Hw : forall w, w ∈ ws -> weight (persistStopped r) w = O /\ (w = WorkerSelect -> persistTasks r = [])).
  { intros w Hin. apply list_elem_of_lookup in Hin as [i Hl].
    assert (Hnr : ~ ((0 < weight (persistStopped r) w)%nat \/ (w = WorkerSelect /\ persistTasks r <> []))).
    { intros Hr. destruct (worker_ready w r s Hr) as (w' & y & Ht). by eapply Hno, (Turn i). }
    split; [lia|]. intros ->. destruct (persistTasks r); [done|]. exfalso. apply Hnr. by right. }
  pose proof (po_running _ _ _ Hi) as Hrun. pose proof (po_workers _ _ _ Hi) as Hlen. cbn [pl_router pl_workers fst] in *.
  destruct (persistStopped r).
  - apply Forall_forall. intros w Hin. destruct (Hw w Hin) as [H0 _]. by destruct w; cbn in H0; try lia.
  - assert (Hsel : Forall (eq WorkerSelect) ws).
    { apply Forall_forall. intros w Hin. destruct (Hw w Hin) as [H0 _]. destruct w; cbn in H0; try lia; [done|].
      by destruct (Hrun eq_refl). }
    split; [|done]. destruct ws as [|w ws]; [cbn in Hlen; lia|]. apply (Hw w); [left|]. by apply Forall_cons in Hsel as [<- _].
Qed.

Lemma all_select (f : WorkerPc -> list Message) ws : f WorkerSelect = [] -> Forall (eq WorkerSelect) ws -> ws ≫= f = [].
Proof. intros Hf. induction 1 as [|w ws <- _ IH]; [done|]. rewrite bind_cons. by rewrite Hf, IH. Qed.

Lemma pool_turns_fixed p q : rtc pool_turn p q ->
  pl_accepted q = pl_accepted p /\ persistStopped (pl_router q).1 = persistStopped (pl_router p).1.
Proof.
  induction 1 as [p|p p' q [i w w' ws x y acc pub sav _ Ht] _ [IH1 IH2]]; [done|].
  destruct (worker_turn_done _ _ _ _ Ht) as [_ _ Hs _ _ _]. by rewrite IH1, IH2.
Qed.

Lemma turnsLeft_bound n r0 p : pool_inv n r0 p -> (turnsLeft p <= 3 * persistQueueCap + 3 * n)%nat.
Proof.
  intros Hi. pose proof (po_cap _ _ _ Hi) as Hc. pose proof (po_workers _ _ _ Hi) as Hn. unfold turnsLeft.
  enough (sum_list_with (weight (persistStopped (pl_router p).1)) (pl_workers p) <= 3 * n)%nat by lia.
  rewrite <-Hn. clear. induction (pl_workers p) as [|w ws IH]; cbn [sum_list_with length]; [lia|].
  destruct w; cbn [weight]; destruct (persistStopped _); lia.
Qed.

(** C24. However the handlers' offers, the turns of the workers and a stop
    interleave: every message accepted into the queue is in the queue, in the hands
    of one worker or handed to the message store, each as often as it was accepted,
    and those published to Kafka are those handed to the store and those between
    the two, the order being the workers'.  From then on the workers come to a halt
    after at most 3 * 1024 + 3 * n turns, whichever of them moves; halted, they have
    all ended if there was a stop, and if not, what was published and what was
    handed to the store are exactly the messages accepted. *)
Theorem persistence_delivers n r s p :
  has_persistence r -> persistTasks r = [] -> (0 < n)%nat -> rtc pool_step (startPool n (r, s)) p ->
  (pl_accepted p ≡ₚ
     pl_saved p ++ holdSave (pl_workers p) ++ holdPublish (pl_workers p) ++ persistTasks (pl_router p).1 /\
   pl_published p ≡ₚ pl_saved p ++ holdSave (pl_workers p) /\
   kafka (pl_router p).1 = publishAll (pl_published p) <$> kafka r /\
   savesOpt (pl_saved p) (msgStore r) (msgStore (pl_router p).1)) /\
  (forall k q, nsteps pool_turn k p q -> (k <= 3 * persistQueueCap + 3 * n)%nat) /\
  (forall q, rtc pool_turn p q -> (forall q', ~ pool_turn q q') ->
     if persistStopped (pl_router p).1 then Forall (eq WorkerEnded) (pl_workers q)
     else pl_published q ≡ₚ pl_accepted p /\ kafka (pl_router q).1 = publishAll (pl_published q) <$> kafka r /\
       pl_saved q ≡ₚ pl_accepted p /\ savesOpt (pl_saved q) (msgStore r) (msgStore (pl_router q).1)).
Proof.
  intros Hp Hq Hn Hrtc. assert (Hi : pool_inv n r p).
  { revert p Hrtc. apply rtc_ind_r; [by apply start_pool_inv|]. intros y z _ Hyz. by apply pool_step_inv. }
  split; [by destruct Hi|]. split.
  - intros k q Hk. apply pool_turns_left in Hk. pose proof (turnsLeft_bound n r p Hi). lia.
  - intros q Hpq Hno. destruct (pool_turns_fixed p q Hpq) as [<- <-].
    assert (Hiq : pool_inv n r q) by (clear Hno Hrtc; induction Hpq; [done|]; apply IHHpq; by eapply pool_turn_inv).
    pose proof (pool_stuck n r q Hiq Hn Hno) as Hst. destruct (persistStopped (pl_router q).1); [done|]. destruct Hst as [Hempty Hsel].
    destruct Hiq as [_ Ha Hpb Hk Hs _ _ _]. unfold holdSave, holdPublish in *.
    rewrite Hempty, (all_select toSave _ eq_refl Hsel), (all_select toPublish _ eq_refl Hsel), !app_nil_r in *.
    split_and!; [by rewrite Hpb, Ha|done|by rewrite Ha|done].
Qed.

(** The rest of [doPersist] of a worker that is not interrupted. *)
Lemma uninterrupted_turns m p :
  (worker_turn (WorkerSave m) (worker_turn (WorkerPublish m) p).2).2 = (doPersist m p).2.
Proof. cbn [worker_turn]. unfold doPersist. rewrite !bind_snd. done. Qed.

(** Once stopped, a worker may end with messages in the queue, accepted and
    acknowledged, that nobody takes any more. *)
Lemma stop_leaves_queued r s m q :
  choose E (sys_tick s) = false -> persistTasks r = m :: q ->
  worker_turn WorkerSelect (set_persistStopped true r, s) = (Some WorkerEnded, (set_persistStopped true r, tick1 s)).
Proof.
  intros Hc Hq. cbn [worker_turn]. rewrite bind_run. cbn [getX gets fst snd set_persistStopped persistTasks persistStopped].
  rewrite Hq, bind_run. cbn [Pick fst snd]. by rewrite Hc.
Qed.

End Persistence.
