(* ===== verification/RouterAuth.v ===== *)
(** * Who may change a group

    On a gateway that keeps groups itself (no Logic service), a command changes
    the membership of a group only as its sender is entitled to: users join and
    leave for themselves, owners invite, creators start new groups. *)

From S2P Require Import Prelude Proto Snowflake Process Client Hub HashRing Dedup RateLimiter.
From S2P Require Import Unread GroupStore Json Stores LogicClient Producer RouterState RouterDelivery.
From S2P Require Import RouterChat RouterGroup Router RouterFrame RouterInv Demo RouterChatFacts.
From S2P Require Import RouterGroupFacts.

Definition member (M : gmap string Group) (gid uid : string) : Prop :=
  exists g, M !! gid = Some g /\ uid ∈ Members g.

Section Auth.
Context {E : Env} {C : Codec} {B : Backends E} {BL : BackendLaws E B}.
Implicit Types (r : Router) (s : Sys) (sender h : Handle) (msg : Message).
Implicit Types (G : gmap string Group).

Definition groups_are G (p : Router * Sys) : Prop :=
  groupsOf <$> groupStore p.1 = Some G /\ logicClient p.1 = None.

Lemma groups_are_some G r s :
  groups_are G (r, s) -> exists gs, groupStore r = Some gs /\ groupsOf gs = G /\ logicClient r = None.
Proof.
  intros [H1 H2]. simpl in *. destruct (groupStore r) as [gs|]; [|done]. simpl in H1.
  injection H1 as <-. eauto.
Qed.

Ltac elsewhere := split; intros;
  first
  [ apply preserves_zoom; intros ? ? Hkeep; exact Hkeep
  | apply preserves_zoomSome; [intros ? ? ? Hkeep _; exact Hkeep|intros ? ? Hkeep _; exact Hkeep]
  | apply preserves_update; intros ? ? Hkeep; exact Hkeep
  | intros [r s] Hkeep; unfold NextID; destruct (Next E (sys_snow s) (sys_tick s)) as [[? ?] ?]; exact Hkeep
  | intros [r s] Hkeep; exact Hkeep
  | intros [r s] Hkeep; unfold enqueuePersist; case_match; exact Hkeep ].

Lemma groups_are_read {A} G gs (m : St (bk_G * Sys) A) :
  (forall g s, (m (g, s)).2.1 = g) -> preserves (groups_are G) (onGroups gs m).
Proof.
  intros Hm. apply preserves_zoomSome; [|done].
  intros r s y [H1 H2] Hy. simpl in *. rewrite Hm. rewrite Hy in H1. done.
Qed.

Lemma groups_are_reads G : stable_group_reads (groups_are G).
Proof.
  split; intros; try (apply groups_are_read; intros).
  - apply GetMembers_law.
  - apply Get_law.
  - apply GetUserGroups_law.
  - by apply preserves_update.
Qed.

Lemma groups_are_queries G : stable_queries (groups_are G).
Proof.
  split; intros; first
  [ apply preserves_zoomSome; [intros ? ? ? H _; exact H|intros ? ? H _; exact H]
  | apply preserves_zoom; intros ? ? H; try exact H ].
  destruct H as [H1 H2]. simpl in *. rewrite H2. done.
Qed.

Lemma groups_are_stable G :
  stable_send (groups_are G) /\ stable_store (groups_are G) /\ stable_persist (groups_are G) /\
  stable_accept (groups_are G) /\ stable_unread_writes (groups_are G) /\
  stable_edits (groups_are G) /\ stable_friends (groups_are G).
Proof. split_and!; elsewhere. Qed.

(** A reply, or a reply and a notification, changes no group. *)
Lemma reply_groups G h c a b d n p : groups_are G p -> groups_are G (reply h c a b d n p).2.
Proof. apply preserves_snd, reply_stable, groups_are_stable. Qed.

Lemma error_groups G h c e p : groups_are G p -> groups_are G (sendGroupError h c e p).2.
Proof. apply preserves_snd, sendGroupError_stable, groups_are_stable. Qed.

Lemma notify_groups G a b c l p :
  groups_are G p -> groups_are G (sendGroupNotificationWithMembers a b c l p).2.
Proof.
  apply preserves_snd, notification_stable; try apply groups_are_stable. apply groups_are_reads.
Qed.

Lemma members_groups G gs g p : groups_are G p -> groups_are G (groupMembersOrNil gs g p).2.
Proof. apply preserves_snd, groupMembersOrNil_stable, groups_are_reads. Qed.

Lemma get_groups G gs g p : groups_are G p -> groups_are G (onGroups gs (GroupStore.Get g) p).2.
Proof. apply preserves_snd, groups_are_read. intros. apply Get_law. Qed.

Lemma withGroupStore_groups G (k : bk_G -> M unit) p :
  groups_are G p -> (forall gs, groups_are G (k gs p).2) -> groups_are G (withGroupStore k p).2.
Proof.
  intros Hp Hk. destruct p as [r s]. destruct (groups_are_some G r s Hp) as (gs & Hgs & _).
  unfold withGroupStore. rewrite bind_run. cbn [fst snd getX gets]. by rewrite Hgs.
Qed.

(** A write through the group store. *)
Lemma onGroups_write {A} G G' gs (m : St (bk_G * Sys) A) r s :
  groups_are G (r, s) -> groupStore r = Some gs -> groupsOf (m (gs, s)).2.1 = G' ->
  (onGroups gs m (r, s)).1 = (m (gs, s)).1 /\ groups_are G' (onGroups gs m (r, s)).2.
Proof.
  intros [H1 H2] Hgs Hm. rewrite onGroups_run by done. split; [done|]. split; [|done].
  simpl. by rewrite Hm.
Qed.

(** ** The four commands *)

Lemma joinLocal_groups sender gid r s G :
  groups_are G (r, s) ->
  groups_are (add_spec gid (h_uid sender) G).2 (joinLocal sender gid (r, s)).2.
Proof.
  intros Hg. destruct (groups_are_some G r s Hg) as (gs & Hgs & HG & _).
  unfold joinLocal. rewrite bind_run. cbn [fst snd getX gets]. rewrite Hgs, bind_run.
  pose proof (AddMember_law gid (h_uid sender) gs s) as Hlaw. rewrite HG in Hlaw.
  destruct (onGroups_write G _ gs (AddMember gid (h_uid sender)) r s Hg Hgs
    (f_equal snd Hlaw)) as [_ Hw].
  destruct (onGroups gs (AddMember gid (h_uid sender)) (r, s)) as [[e|] p]; cbn [fst snd] in *.
  - by apply error_groups.
  - apply withGroupStore_groups; [exact Hw|]. intros gs'. rewrite !bind_run.
    apply notify_groups, reply_groups, members_groups, Hw.
Qed.

Lemma inviteLocal_groups sender gid target r s G :
  groups_are G (r, s) ->
  groups_are
    (match G !! gid with
     | Some g => if bool_decide (OwnerUID g = h_uid sender) then (add_spec gid target G).2 else G
     | None => G end)
    (inviteLocal sender gid target (r, s)).2.
Proof.
  intros Hg. destruct (groups_are_some G r s Hg) as (gs & Hgs & HG & _).
  unfold inviteLocal. rewrite bind_run. cbn [fst snd getX gets]. rewrite Hgs, bind_run.
  destruct (Get_law gid gs s) as [Hget Hkeep]. rewrite HG in Hget.
  destruct (onGroups_write G G gs (GroupStore.Get gid) r s Hg Hgs) as [H1 H2];
    [by rewrite Hkeep|].
  destruct (onGroups gs (GroupStore.Get gid) (r, s)) as [res p]. cbn [fst snd] in *.
  subst res. rewrite Hget. destruct (G !! gid) as [g|] eqn:HGg; [|by apply error_groups].
  destruct (decide (OwnerUID g = h_uid sender)) as [Ho|Ho].
  2:{ rewrite (bool_decide_true (OwnerUID g <> _)) by done.
      rewrite (bool_decide_false (OwnerUID g = _)) by done. by apply error_groups. }
  rewrite (bool_decide_false (OwnerUID g <> _)) by tauto.
  rewrite (bool_decide_true (OwnerUID g = _)) by done.
  destruct p as [r1 s1]. destruct (groups_are_some G r1 s1 H2) as (gs1 & Hgs1 & HG1 & _).
  unfold withGroupStore at 1. rewrite bind_run. cbn [fst snd getX gets]. rewrite Hgs1, bind_run.
  pose proof (AddMember_law gid target gs1 s1) as Hlaw. rewrite HG1 in Hlaw.
  destruct (onGroups_write G _ gs1 (AddMember gid target) r1 s1 H2 Hgs1
    (f_equal snd Hlaw)) as [_ Hw].
  destruct (onGroups gs1 (AddMember gid target) (r1, s1)) as [[e|] p2]; cbn [fst snd] in *.
  - by apply error_groups.
  - apply withGroupStore_groups; [exact Hw|]. intros gs'. rewrite !bind_run.
    apply notify_groups, reply_groups, members_groups, Hw.
Qed.

Lemma leaveLocal_groups sender gid r s G :
  groups_are G (r, s) ->
  groups_are (remove_spec gid (h_uid sender) G).2 (leaveLocal sender gid (r, s)).2.
Proof.
  intros Hg. destruct (groups_are_some G r s Hg) as (gs & Hgs & HG & _).
  unfold leaveLocal. rewrite bind_run. cbn [fst snd getX gets]. rewrite Hgs, bind_run.
  pose proof (RemoveMember_law gid (h_uid sender) gs s) as Hlaw. rewrite HG in Hlaw.
  destruct (onGroups_write G _ gs (RemoveMember gid (h_uid sender)) r s Hg Hgs
    (f_equal snd Hlaw)) as [_ Hw].
  destruct (onGroups gs (RemoveMember gid (h_uid sender)) (r, s)) as [[e|] p]; cbn [fst snd] in *.
  { by apply error_groups. }
  apply withGroupStore_groups; [exact Hw|]. intros gs'. rewrite !bind_run. cbv zeta.
  assert (Hp2 : groups_are (remove_spec gid (h_uid sender) G).2
    (onGroups gs' (GroupStore.Get gid) p).2).
  { by apply get_groups. }
  destruct ((onGroups gs' (GroupStore.Get gid) p).1); simpl;
    [by apply reply_groups|]. by apply notify_groups, reply_groups.
Qed.

Lemma createLocal_groups sender name members r s G :
  groups_are G (r, s) ->
  exists G', groups_are G' (createLocal sender name members (r, s)).2 /\
    (G' = G \/ exists g, G !! ID g = None /\ OwnerUID g = h_uid sender /\ G' = <[ID g := g]> G).
Proof.
  intros Hg. destruct (groups_are_some G r s Hg) as (gs & Hgs & HG & _).
  unfold createLocal. rewrite bind_run. cbn [fst snd getX gets]. rewrite Hgs, bind_run.
  pose proof (Create_law name (h_uid sender) members gs s) as Hlaw. rewrite HG in Hlaw.
  destruct (onGroups_write G _ gs (GroupStore.Create name (h_uid sender) members) r s Hg Hgs
    eq_refl) as [H1 Hw].
  destruct (onGroups gs (GroupStore.Create name (h_uid sender) members) (r, s)) as [res p].
  cbn [fst snd] in *. subst res.
  destruct (GroupStore.Create name (h_uid sender) members (gs, s)) as [[e|g] [gs' s']].
  - simpl in *. rewrite Hlaw in Hw. exists G. split; [by apply error_groups|by left].
  - simpl in *. destruct Hlaw as (Hn & Ho & _ & Heq). rewrite Heq in Hw.
    exists (<[ID g := g]> G). split; [|right; by exists g].
    apply withGroupStore_groups; [exact Hw|]. intros gs1. rewrite !bind_run.
    destruct (bool_decide (members <> [])).
    + by apply notify_groups, reply_groups, members_groups.
    + by apply reply_groups, members_groups.
Qed.

(** ** The property *)

(** What a command may do to the groups. *)
Definition entitled sender msg G G' : Prop :=
  forall gid uid,
  (member G' gid uid -> member G gid uid \/
     (Cmd msg = CmdGroupJoin /\ gid = To msg /\ uid = h_uid sender) \/
     (Cmd msg = CmdGroupInviteMember /\ gid = To msg /\
        exists g, G !! gid = Some g /\ OwnerUID g = h_uid sender) \/
     (Cmd msg = CmdGroupCreate /\ G !! gid = None /\
        exists g, G' !! gid = Some g /\ OwnerUID g = h_uid sender)) /\
  (member G gid uid -> member G' gid uid \/
     (Cmd msg = CmdGroupLeave /\ gid = To msg /\ uid = h_uid sender)).

Lemma entitled_refl sender msg G : entitled sender msg G G.
Proof. intros gid uid. split; auto. Qed.

Lemma member_add gid0 uid0 G gid uid :
  (member (add_spec gid0 uid0 G).2 gid uid -> member G gid uid \/ (gid = gid0 /\ uid = uid0)) /\
  (member G gid uid -> member (add_spec gid0 uid0 G).2 gid uid).
Proof.
  unfold member, add_spec. destruct (G !! gid0) as [g|] eqn:Hg; [|naive_solver].
  case_bool_decide; [naive_solver|]. simpl. destruct (decide (gid = gid0)) as [->|Hne].
  - rewrite lookup_insert_eq, Hg. split.
    + intros (g' & [= <-] & Hu). simpl in Hu. apply elem_of_union in Hu as [->%elem_of_singleton|Hu];
        [by right|left; eauto].
    + intros (g' & [= <-] & Hu). eexists. split; [done|]. simpl. set_solver.
  - rewrite lookup_insert_ne by done. naive_solver.
Qed.

Lemma member_remove gid0 uid0 G gid uid :
  (member (remove_spec gid0 uid0 G).2 gid uid -> member G gid uid) /\
  (member G gid uid -> member (remove_spec gid0 uid0 G).2 gid uid \/ (gid = gid0 /\ uid = uid0)).
Proof.
  unfold member, remove_spec. destruct (G !! gid0) as [g|] eqn:Hg; [|naive_solver].
  case_bool_decide; [|naive_solver]. destruct (decide (gid = gid0)) as [->|Hne].
  - case_bool_decide as He; simpl; rewrite ?lookup_delete_eq, ?lookup_insert_eq, ?Hg.
    + split; [naive_solver|]. intros (g' & [= <-] & Hu). right. split; [done|].
      destruct (decide (uid = uid0)); [done|]. set_solver.
    + split.
      * intros (g' & [= <-] & Hu). simpl in Hu. exists g. set_solver.
      * intros (g' & [= <-] & Hu). destruct (decide (uid = uid0)) as [->|]; [by right|left].
        eexists. split; [done|]. simpl. set_solver.
  - case_bool_decide; simpl; rewrite ?lookup_delete_ne, ?lookup_insert_ne by done; naive_solver.
Qed.

Lemma join_entitled err sender msg r s G :
  groups_are G (r, s) -> Cmd msg = CmdGroupJoin ->
  exists G', groups_are G' (dispatch err sender msg (r, s)).2 /\ entitled sender msg G G'.
Proof.
  intros Hg Hc. unfold dispatch. rewrite Hc. simpl. unfold handleGroupJoin.
  case_bool_decide; [exists G; split; [by apply error_groups|apply entitled_refl]|].
  rewrite bind_run. cbn [fst snd getX gets].
  destruct (groups_are_some G r s Hg) as (gs & _ & _ & ->).
  eexists. split; [by apply joinLocal_groups|]. intros gid uid.
  destruct (member_add (To msg) (h_uid sender) G gid uid) as [Ha Hb]. naive_solver.
Qed.

Lemma invite_entitled err sender msg r s G :
  groups_are G (r, s) -> Cmd msg = CmdGroupInviteMember ->
  exists G', groups_are G' (dispatch err sender msg (r, s)).2 /\ entitled sender msg G G'.
Proof.
  intros Hg Hc. unfold dispatch. rewrite Hc. simpl. unfold handleGroupInviteMember.
  case_bool_decide; [exists G; split; [by apply error_groups|apply entitled_refl]|].
  case_bool_decide; [exists G; split; [by apply error_groups|apply entitled_refl]|].
  case_bool_decide; [exists G; split; [by apply error_groups|apply entitled_refl]|].
  rewrite bind_run. cbn [fst snd getX gets].
  destruct (groups_are_some G r s Hg) as (gs & _ & _ & ->).
  eexists. split; [by apply inviteLocal_groups|].
  destruct (G !! To msg) as [g|] eqn:HGg; [|apply entitled_refl].
  case_bool_decide as Ho; [|apply entitled_refl]. intros gid uid.
  destruct (member_add (To msg) (default "" (decodeInvite (Content msg))) G gid uid) as [Ha Hb].
  naive_solver.
Qed.

Lemma leave_entitled err sender msg r s G :
  groups_are G (r, s) -> Cmd msg = CmdGroupLeave ->
  exists G', groups_are G' (dispatch err sender msg (r, s)).2 /\ entitled sender msg G G'.
Proof.
  intros Hg Hc. unfold dispatch. rewrite Hc. simpl. unfold handleGroupLeave.
  case_bool_decide; [exists G; split; [by apply error_groups|apply entitled_refl]|].
  rewrite bind_run. cbn [fst snd getX gets].
  destruct (groups_are_some G r s Hg) as (gs & _ & _ & ->).
  eexists. split; [by apply leaveLocal_groups|]. intros gid uid.
  destruct (member_remove (To msg) (h_uid sender) G gid uid) as [Ha Hb]. naive_solver.
Qed.

Lemma create_entitled err sender msg r s G :
  groups_are G (r, s) -> Cmd msg = CmdGroupCreate ->
  exists G', groups_are G' (dispatch err sender msg (r, s)).2 /\ entitled sender msg G G'.
Proof.
  intros Hg Hc. unfold dispatch. rewrite Hc. simpl. unfold handleGroupCreate.
  destruct (if bool_decide (Content msg = "") then Some ("", []) else decodeCreate (Content msg))
    as [[name members]|]; [|exists G; split; [by apply error_groups|apply entitled_refl]].
  case_bool_decide; [exists G; split; [by apply error_groups|apply entitled_refl]|].
  rewrite bind_run. cbn [fst snd getX gets].
  destruct (groups_are_some G r s Hg) as (gs & _ & _ & ->).
  destruct (createLocal_groups sender name members r s G Hg) as (G' & Ha & Hb).
  exists G'. split; [done|]. destruct Hb as [->|(g & Hn & Ho & ->)]; [apply entitled_refl|].
  intros gid uid. unfold member. destruct (decide (gid = ID g)) as [->|Hne].
  - rewrite lookup_insert_eq, Hn. naive_solver.
  - rewrite lookup_insert_ne by done. naive_solver.
Qed.

(** C5. On a gateway that keeps groups itself, whatever command a client sends:
    a user becomes a member only by joining, by an invitation from the group's
    owner, or in a new group of the sender's; and stops being one only by
    leaving. *)
Theorem group_changes_entitled err sender msg r s G :
  groups_are G (r, s) ->
  exists G', groups_are G' (Route err sender msg (r, s)).2 /\ entitled sender msg G G'.
Proof.
  intros Hg. unfold Route. destruct (Validate msg); [eauto using entitled_refl|].
  rewrite bind_run. set (p := (record _ _).2). assert (Hp : groups_are G p) by exact Hg.
  clearbody p. destruct p as [r1 s1].
  destruct (groups_are_some G r1 s1 Hp) as (gs & Hgs & HG & Hlogic).
  destruct (changes_groups (Cmd msg)) eqn:Hc.
  2:{ exists G. split; [|apply entitled_refl]. apply preserves_snd; [|done].
      apply dispatch_reads_stable; try done; try apply groups_are_stable.
      - apply groups_are_reads.
      - apply groups_are_queries. }
  unfold changes_groups in Hc. rewrite !orb_true_iff, !Z.eqb_eq in Hc.
  destruct Hc as [[[Hc|Hc]|Hc]|Hc].
  - by apply create_entitled.
  - by apply join_entitled.
  - by apply invite_entitled.
  - by apply leave_entitled.
Qed.

End Auth.
