(* ===== verification/Peering.v ===== *)
(** * Two gateways

    The router of one gateway with the gRPC forwarder, and the gRPC service of
    the peer that owns a user, joined by a network that may lose a request or
    a reply: where a message the router cannot deliver locally ends up; and a
    concrete pair of gateways. *)

From S2P Require Import Prelude Proto Snowflake Process Client Hub HashRing Dedup RateLimiter Unread.
From S2P Require Import GroupStore Json Stores LogicClient Producer GrpcServer GrpcForwarder.
From S2P Require Import RouterState RouterDelivery RouterFrame RouterInv Demo RouterChatFacts.
From S2P Require Import RouterSafety.

(** A router wired to a given forwarder. *)
Definition withForwarder {E : Env} (B : Backends E) (F : Type) (FI : Forwarder F) : Backends E :=
  mkBackends E bk_O bk_offline bk_R bk_redis bk_MS bk_msgs bk_K bk_kafka bk_L bk_logic
    F FI bk_G bk_groups bk_U bk_unread bk_FS bk_friends.

(** What can happen to one call. *)
Inductive Fault := Fine | LostRequest | LostReply.

(** The peer at [pn_addr], with its own process state; the faults of the calls
    to come. *)
Record Peer (O : Type) := mkPeer {
  pn_addr : string;
  pn_server : GrpcGatewayServer O;
  pn_sys : Sys;
  pn_faults : list Fault
}.
Arguments mkPeer {O}.
Arguments pn_addr {O}.
Arguments pn_server {O}.
Arguments pn_sys {O}.
Arguments pn_faults {O}.

Section Peering.
Context {E : Env} {C : Codec} {O : Type} {OS : OfflineStore O} {OL : OfflineLaws E O}.
Context (marshalErrText errNoPeer unreachable : string).

Definition fault (p : Peer O) : Fault := default Fine (head (pn_faults p)).

Definition setServer (g : GrpcGatewayServer O) (s : Sys) (p : Peer O) : Peer O :=
  mkPeer (pn_addr p) g s (tail (pn_faults p)).

(** The peer serves one request. *)
Definition served (req : ForwardRequest) (p : Peer O) : ForwardResponse * Peer O :=
  let '(resp, (g, s)) := ForwardMessage marshalErrText req (pn_server p, pn_sys p) in
  (resp, setServer g s p).

#[export] Instance Peer_PeerNet : PeerNet (Peer O) :=
  mkPeerNet _
    (fun addr p => (if bool_decide (addr = pn_addr p) then None else Some unreachable, p))
    (fun addr req p =>
       if bool_decide (addr = pn_addr p) then
         match fault p with
         | Fine => let (resp, p') := served req p in (inr resp, p')
         | LostRequest => (inl unreachable, setServer (pn_server p) (pn_sys p) p)
         | LostReply => (inl unreachable, (served req p).2)
         end
       else (inl unreachable, p)).

Context (B0 : Backends E).

#[local] Instance B : Backends E := withForwarder B0 (GrpcForwarder * Peer O)
  (GrpcForwarder_Forwarder (P := Peer O) errNoPeer).

Context {BL0 : BackendLaws E B0}.

#[local] Instance BL : BackendLaws E B.
Proof.
  refine (mkBackendLaws E B (@bl_offline E B0 BL0) (@bl_groups E B0 BL0) (@bl_unread E B0 BL0)
    (@bl_msgs E B0 BL0) (@bl_friends E B0 BL0) _).
  intros u m [f p] s Hs. change (Forward u m) with
    (Forward (Forwarder := GrpcForwarder_Forwarder (P := Peer O) errNoPeer) u m).
  unfold Forward, GrpcForwarder_Forwarder. by destruct (GrpcForward errNoPeer u m (f, p)).
Defined.

(** The peer took the message: on the user's connection or in the user's
    offline queue. *)
Definition peer_took (p p' : Peer O) (uid : string) (m : Message) : Prop :=
  taken_live (pn_server p) (pn_server p') uid m \/ taken_offline (pn_server p) (pn_server p') uid m.

(** The router kept the message in its own offline store. *)
Definition kept_here (r r' : Router) (uid : string) (m : Message) : Prop :=
  off_queue (offline r') uid = lastn (off_limit (offline r)) (off_queue (offline r) uid ++ [m]).

Lemma served_took uid m p :
  uid <> "" -> off_ok (gs_offline (pn_server p)) -> registered (gs_clients (pn_server p)) ->
  peer_took p (served (mkForwardRequest (Some m) uid) p).2 uid m.
Proof.
  intros Hu Ho Hreg. unfold served.
  destruct (ForwardMessage_spec marshalErrText uid m (pn_server p) (pn_sys p) Hu Ho Hreg) as [H _].
  destruct (ForwardMessage _ _ _) as [resp [g s]]. simpl in *.
  unfold peer_took. simpl. destruct (fw_Delivered resp); auto.
Qed.

Lemma reach_peer f p o :
  target f o = Some (pn_addr p) ->
  exists f', getOrDial errNoPeer o (f, p) = (inr (pn_addr p), (f', p)).
Proof.
  intros Ht. pose proof (getOrDial_run (P := Peer O) errNoPeer o f p) as Hd. rewrite Ht in Hd.
  destruct Hd as [(f' & p' & Hd & _)|(e & p' & _ & _ & Hd)].
  - exists f'. destruct (getOrDial_net (P := Peer O) errNoPeer o f p _ _ _ Hd) as [->| ->]; done.
  - simpl in Hd. by rewrite bool_decide_true in Hd.
Qed.

Lemma GrpcForward_peer uid msg f p o :
  forwardable f uid o -> target f o = Some (pn_addr p) ->
  exists f', GrpcForward errNoPeer uid msg (f, p) =
    let v := served (mkForwardRequest (Some msg) uid) p in
    match fault p with
    | Fine => (inr (fw_Delivered v.1), (f', v.2))
    | LostRequest => (inl unreachable, (f', setServer (pn_server p) (pn_sys p) p))
    | LostReply => (inl unreachable, (f', v.2))
    end.
Proof.
  intros Hfw Ht. rewrite (GrpcForward_run (P := Peer O) errNoPeer f p uid msg o Hfw).
  destruct (reach_peer f p o Ht) as [f1 ->]. cbn [fst snd]. unfold callPeer.
  cbn [CallForwardMessage Peer_PeerNet]. rewrite bool_decide_true by done. cbv zeta.
  destruct (fault p); [|by eexists|by eexists].
  destruct (served (mkForwardRequest (Some msg) uid) p) as [resp p1]. by eexists.
Qed.

(** C19. A message for a user whom a reachable peer owns, sent over a network
    that may lose the request or the reply.  Nothing lost: exactly the peer has
    it, live or offline.  Request lost: exactly this gateway has it, offline.
    Reply lost: both have it.  It is never lost, and duplicated only when the
    reply of a served call is. *)
Theorem peer_delivery uid msg (r : Router) s hr o f p :
  hashRing r = Some hr -> f_hashRing f = hr -> thisNodeID r <> "" ->
  f_thisNodeID f = thisNodeID r -> forwardable f uid o -> forwarder r = Some (f, p) ->
  target f o = Some (pn_addr p) -> uid <> "" -> off_ok (offline r) ->
  off_ok (gs_offline (pn_server p)) -> registered (gs_clients (pn_server p)) ->
  let q := (routeOrStoreOffline uid msg (r, s)).2.1 in
  exists f' p', forwarder q = Some (f', p') /\
  match fault p with
  | Fine => peer_took p p' uid msg /\ offline q = offline r
  | LostRequest => pn_server p' = pn_server p /\ kept_here r q uid msg
  | LostReply => peer_took p p' uid msg /\ kept_here r q uid msg
  end.
Proof.
  intros Hring Hfr Hthis Hfthis Hfw Hf Ht Hu Ho Hpo Hreg q.
  assert (Howner : HashRing.Get hr uid = o) by (rewrite <- Hfr; apply Hfw).
  assert (Ho2 : o <> "" /\ o <> thisNodeID r) by (rewrite <- Hfthis; apply Hfw).
  destruct Ho2 as [Ho1 Ho2].
  destruct (GrpcForward_peer uid msg f p o Hfw Ht) as [f1 Hrun].
  unfold q. rewrite (route_remote uid msg r s hr o (f, p)) by done.
  change (Forward uid msg (f, p, s)) with
    (let (v, x') := GrpcForward errNoPeer uid msg (f, p) in (v, (x', s))).
  rewrite Hrun. pose proof (served_took uid msg p Hu Hpo Hreg) as Hs.
  destruct (fault p); cbn [fst snd]; rewrite ?storeOffline_run; cbn [fst snd].
  - exists f1. eexists. split; [reflexivity|]. by split.
  - eexists _, _. split; [reflexivity|]. split; [done|]. unfold kept_here. simpl. by apply store_law.
  - eexists _, _. split; [reflexivity|]. split; [done|]. unfold kept_here. simpl. by apply store_law.
Qed.

(** The forwarder looks the owner up again.  When the ring has changed
    since the router looked, so that this gateway now owns the user (or nobody
    does), the forwarder answers that the caller should deliver locally; the
    router takes the answer for a delivery, and the message is in no queue and
    on no connection, here or at the peer. *)
Theorem forward_race_loses uid msg (r : Router) s hr o f p :
  hashRing r = Some hr -> HashRing.Get hr uid = o -> o <> "" -> o <> thisNodeID r ->
  thisNodeID r <> "" -> forwarder r = Some (f, p) -> f_thisNodeID f = thisNodeID r ->
  HashRing.Get (f_hashRing f) uid = "" \/ HashRing.Get (f_hashRing f) uid = thisNodeID r ->
  (routeOrStoreOffline uid msg (r, s)).2 = (r, s).
Proof.
  intros Hring Hget H1 H2 H3 Hf Hthis Hnow.
  rewrite (route_remote uid msg r s hr o (f, p)) by done.
  assert (Hfw : GrpcForward errNoPeer uid msg (f, p) = (inr false, (f, p))).
  { unfold GrpcForward. case_bool_decide as Hn; [done|]. rewrite bool_decide_true; [done|].
    rewrite Hthis. by destruct Hnow. }
  change (Forward uid msg (f, p, s)) with
    (let (v, x') := GrpcForward errNoPeer uid msg (f, p) in (v, (x', s))).
  rewrite Hfw. cbn [fst snd].
  assert (set_forwarder (forwarder r) r = r) as Hid by by destruct r.
  rewrite Hf in Hid. exact (f_equal (fun x => (x, s)) Hid).
Qed.

End Peering.

(** * Two concrete gateways

    The theorems of [GrpcForwarder] and [Peering] applied to a gateway "gw-1"
    and a peer "gw-2" at "10.0.0.2:9090" that holds every user of its ring. *)

Definition peerRing : HashRing := HashRing.Add "gw-2" (NewHashRing 3).

Definition demoPeer (fs : list Fault) : Peer Offline :=
  mkPeer "10.0.0.2:9090" (NewGrpcGatewayServer NewConn (NewOffline 100) "gw-2") demoStart fs.

Definition peerForwarder : GrpcForwarder :=
  NewGrpcForwarder peerRing "gw-1" {[ "gw-2" := "10.0.0.2:9090" ]} 0 0.

Lemma peer_agree : caches_agree peerForwarder.
Proof. done. Qed.

Lemma peer_forwardable : forwardable peerForwarder "erin" "gw-2".
Proof. split; [by vm_compute|done]. Qed.

(** A forwarder that was given a new address keeps its connection. *)
Definition movedForwarder : GrpcForwarder :=
  set_conns {[ "gw-2" := "10.0.0.2:9090" ]} {[ "gw-2" := "10.0.0.2:9090" ]} peerForwarder.

Lemma moved_agree : caches_agree movedForwarder.
Proof. done. Qed.

Lemma moved_forwardable : forwardable movedForwarder "erin" "gw-2".
Proof. split; [by vm_compute|done]. Qed.

Lemma forwarder_connection_policy_witness :
  target (AddPeer "gw-2" "10.0.0.3:9090" movedForwarder) "gw-2" = Some "10.0.0.2:9090".
Proof.
  pose proof (forwarder_connection_policy (P := Peer Offline) (PN := Peer_PeerNet "" "unreachable")
    "no peer" movedForwarder (demoPeer []) "erin" zeroMessage "gw-2" moved_agree moved_forwardable)
    as H.
  destruct (GrpcForward _ _ _ _) as [v [f' p']]. destruct H as (_ & H & _).
  destruct (H "gw-2" "10.0.0.3:9090") as [_ H1]. exact H1.
Defined.

#[local] Instance twoBackends : Backends steadyEnv :=
  withForwarder demoBackends (GrpcForwarder * Peer Offline)
    (GrpcForwarder_Forwarder (PN := Peer_PeerNet "" "unreachable") "no peer").

Definition firstGateway (fs : list Fault) : Router (B := twoBackends) :=
  set_forwarder (Some ((peerForwarder, demoPeer fs) : bk_F (Backends := twoBackends)))
    (set_hashRing (Some peerRing) (set_thisNodeID "gw-1"
      (NewRouter (B := twoBackends) demoConn (NewOffline 100) None DefaultRouterConfig))).

Lemma peer_target fs : target peerForwarder "gw-2" = Some (pn_addr (demoPeer fs)).
Proof. by vm_compute. Qed.

Lemma first_off fs : @off_ok steadyEnv _ _ (@bl_offline _ _ demoLaws) (offline (firstGateway fs)).
Proof. done. Qed.

Lemma peer_off fs : off_ok (gs_offline (pn_server (demoPeer fs))).
Proof. done. Qed.

Lemma peer_registered fs : registered (gs_clients (pn_server (demoPeer fs))).
Proof.
  intros uid h H. change ((∅ : gmap string Handle) !! uid = Some h) in H.
  by rewrite lookup_empty in H.
Qed.

Lemma erin_nonempty : "erin" <> "".
Proof. done. Qed.
Lemma gw_nonempty : "gw-1" <> "".
Proof. done. Qed.
Lemma gw2_nonempty : "gw-2" <> "".
Proof. done. Qed.
Lemma gw2_remote : "gw-2" <> "gw-1".
Proof. done. Qed.

Lemma peer_delivery_witness :
  exists f' p', forwarder (routeOrStoreOffline (B := twoBackends) "erin" zeroMessage
      (firstGateway [LostReply], demoStart)).2.1 = Some (f', p') /\
    peer_took (E := steadyEnv) (demoPeer [LostReply]) p' "erin" zeroMessage.
Proof.
  destruct (peer_delivery (E := steadyEnv) "" "no peer" "unreachable" demoBackends "erin"
    zeroMessage (firstGateway [LostReply]) demoStart peerRing "gw-2" peerForwarder
    (demoPeer [LostReply]) eq_refl eq_refl gw_nonempty eq_refl peer_forwardable eq_refl
    (peer_target _) erin_nonempty (first_off _) (peer_off _) (peer_registered _))
    as (f' & p' & H1 & H2 & _).
  exists f', p'. split; [exact H1|exact H2].
Defined.

(** The ring as the cluster manager leaves it when it removes "gw-2". *)
Definition emptiedForwarder : GrpcForwarder := set_ring (HashRing.Remove "gw-2" peerRing) peerForwarder.

Definition racingGateway : Router (B := twoBackends) :=
  set_forwarder (Some ((emptiedForwarder, demoPeer []) : bk_F (Backends := twoBackends)))
    (firstGateway []).

Lemma peer_owner : HashRing.Get peerRing "erin" = "gw-2".
Proof. by vm_compute. Qed.

Lemma emptied_owner : HashRing.Get (f_hashRing emptiedForwarder) "erin" = "" \/
  HashRing.Get (f_hashRing emptiedForwarder) "erin" = "gw-1".
Proof. left. by vm_compute. Qed.

Lemma forward_race_loses_witness :
  (routeOrStoreOffline (B := twoBackends) "erin" zeroMessage (racingGateway, demoStart)).2 =
  (racingGateway, demoStart).
Proof.
  exact (forward_race_loses (E := steadyEnv) "" "no peer" "unreachable" demoBackends "erin"
    zeroMessage racingGateway demoStart peerRing "gw-2" emptiedForwarder (demoPeer []) eq_refl
    peer_owner gw2_nonempty gw2_remote gw_nonempty eq_refl eq_refl emptied_owner).
Defined.
