(* ===== verification/RouterMessageFacts.v ===== *)
(** * What the other handlers guarantee, and what they do not

    Offline drain, edits and messages to a group that cannot be looked up; then
    recall, edit, history, read receipts, typing and friend requests. *)

From S2P Require Import Prelude Proto Snowflake Process Client Hub HashRing Dedup RateLimiter Unread.
From S2P Require Import GroupStore Json Stores LogicClient Producer RouterState RouterDelivery.
From S2P Require Import RouterChat RouterGroup Router RouterFrame RouterInv Demo RouterChatFacts.
From S2P Require Import RouterGroupFacts.

Section Facts.
Context {E : Env} {C : Codec} {B : Backends E} {BL : BackendLaws E B}.
Implicit Types (r : Router) (s : Sys) (sender h : Handle) (msg : Message).

(** ** Offline messages *)

Lemma storeAll_queue uid l acc r s :
  off_ok (offline r) -> off_queue (offline r) uid = lastn (off_limit (offline r)) acc ->
  let p := (forEach l (storeOffline uid) (r, s)).2 in
  clients p.1 = clients r /\
  off_queue (offline p.1) uid = lastn (off_limit (offline r)) (acc ++ l) /\
  (forall u, u <> uid -> off_queue (offline p.1) u = off_queue (offline r) u).
Proof.
  revert acc r s. induction l as [|m l IH]; intros acc r s Ho Hq.
  { simpl. by rewrite app_nil_r. }
  rewrite forEach_cons, storeOffline_run. cbn [snd].
  destruct (store_law uid m (offline r) s Ho) as (H1 & H2 & H3 & H4).
  destruct (StoreOffline uid m (offline r, s)) as [[] [o s1]]. cbn [fst snd] in *.
  destruct (IH (acc ++ [m]) (set_offline o r) s1 H1) as (I1 & I2 & I3).
  { simpl. by rewrite H3, Hq, H2, lastn_lastn_app. }
  simpl in I1, I2, I3. rewrite H2, <-app_assoc in I2. split_and!; [done|exact I2|].
  intros u Hu. by rewrite I3, H4.
Qed.

Lemma set_set_sendBuf b b' c : set_sendBuf b' (set_sendBuf b c) = set_sendBuf b' c.
Proof. done. Qed.

(** How many of the messages an open connection has room for. *)
Definition fits (c : Client) (msgs : list Message) : nat :=
  ((sendCap c - length (sendBuf c)) `min` length msgs)%nat.

(** Why a connection does not take a message. *)
Definition refuses (c : Client) (m : Message) : Prop :=
  marshal m = None \/ closed c = true \/ (sendCap c <= length (sendBuf c))%nat.

(** A send appends the frame, or the connection refuses. *)
Lemma sendTo_cases h m r s c :
  heap (clients r) !! h_id h = Some c ->
  let q := sendTo h m (r, s) in
  offline q.2.1 = offline r /\
  match q.1 with
  | None => exists d, marshal m = Some d /\
      heap (clients q.2.1) !! h_id h = Some (set_sendBuf (sendBuf c ++ [d]) c)
  | Some _ => refuses c m /\ heap (clients q.2.1) !! h_id h = Some c
  end.
Proof.
  intros Hc. unfold sendTo, onClients, zoom, SendTo, onClient. rewrite Hc.
  pose proof (Send_spec m c s) as Hs. destruct (Send m (c, s)) as [e [c' s']]. destruct Hs as [Hs _].
  cbn. rewrite lookup_insert_eq. split; [done|]. unfold refuses. destruct Hs; eauto.
Qed.

(** What the delivery of stored messages comes to: a part of them is appended to
    the buffer, the rest, whose first the connection refuses, is stored. *)
Definition drained (c c' : Client) (msgs rest : list Message) : Prop :=
  exists sent frames, msgs = sent ++ rest /\ Forall2 (fun m d => marshal m = Some d) sent frames /\
    c' = set_sendBuf (sendBuf c ++ frames) c /\
    match rest with [] => True | m :: _ => refuses c' m end.

Lemma drained_sent c c' m d msgs rest : marshal m = Some d ->
  drained (set_sendBuf (sendBuf c ++ [d]) c) c' msgs rest -> drained c c' (m :: msgs) rest.
Proof.
  intros Hm (sent & frames & -> & Hf & -> & Hr). exists (m :: sent), (d :: frames).
  split; [done|]. split; [by constructor|]. rewrite set_set_sendBuf in *. cbn [sendBuf set_sendBuf] in *.
  by rewrite <-app_assoc in *.
Qed.

Lemma drained_none c msgs : match msgs with [] => True | m :: _ => refuses c m end -> drained c c msgs msgs.
Proof. intros H. exists [], []. split_and!; [done|constructor| |done]. rewrite app_nil_r. by destruct c. Qed.

Lemma deliverOffline_spec sender msgs r s c :
  off_ok (offline r) -> off_queue (offline r) (h_uid sender) = [] ->
  heap (clients r) !! h_id sender = Some c ->
  let p := (deliverOffline sender msgs (r, s)).2 in
  exists c' rest, drained c c' msgs rest /\ heap (clients p.1) !! h_id sender = Some c' /\
    off_queue (offline p.1) (h_uid sender) = lastn (off_limit (offline r)) rest /\
    (forall u, u <> h_uid sender -> off_queue (offline p.1) u = off_queue (offline r) u).
Proof.
  revert r s c. induction msgs as [|m msgs IH]; intros r s c Ho Hq Hc.
  { exists c, []. split; [by apply drained_none|]. by rewrite lastn_all by (cbn; lia). }
  cbn [deliverOffline]. rewrite bind_run. destruct (sendTo_cases sender m r s c Hc) as [Hoff Hcase].
  destruct (sendTo sender m (r, s)) as [[e|] [r1 s1]]; cbn [fst snd] in *.
  - destruct Hcase as [Href Hc1]. destruct (storeAll_queue (h_uid sender) (m :: msgs) [] r1 s1) as (H1 & H2 & H3);
      [by rewrite Hoff|by rewrite Hoff, Hq|]. rewrite Hoff in H2, H3. exists c, (m :: msgs).
    split; [by apply drained_none|]. rewrite H1. auto.
  - destruct Hcase as (d & Hm & Hc1).
    destruct (IH r1 s1 _ ltac:(by rewrite Hoff) ltac:(by rewrite Hoff) Hc1) as (c' & rest & Hd & H1 & H2 & H3).
    rewrite Hoff in H2, H3. exists c', rest. split; [by eapply drained_sent|]. auto.
Qed.

(** C25. Draining loses nothing, on any connection and whatever the codec refuses:
    the stored messages split into those whose frames are appended to the sender's
    buffer, in order, and the rest, which is stored again in its order (all of it
    when it fits the store's limit); if there is a rest, the connection refuses its
    first message, because it cannot be marshalled, the connection is closed or its
    buffer is full.  No other user's queue changes. *)
Theorem offline_drain_keeps_messages sender r s c :
  off_ok (offline r) -> heap (clients r) !! h_id sender = Some c ->
  off_queue (offline r) (h_uid sender) <> [] ->
  let p := (handleOffline sender (r, s)).2 in
  exists c' rest, drained c c' (off_queue (offline r) (h_uid sender)) rest /\
    heap (clients p.1) !! h_id sender = Some c' /\
    off_queue (offline p.1) (h_uid sender) = lastn (off_limit (offline r)) rest /\
    (forall u, u <> h_uid sender -> off_queue (offline p.1) u = off_queue (offline r) u).
Proof.
  intros Ho Hc Hne p. unfold p, handleOffline. rewrite bind_run.
  destruct (drain_law (h_uid sender) (offline r) s Ho) as (D1 & D2 & D3 & D4 & D5).
  unfold onOffline, zoom.
  destruct (DrainOffline (h_uid sender) (offline r, s)) as [l [o s']]. cbn [fst snd] in *.
  subst l. destruct (deliverOffline_spec sender (off_queue (offline r) (h_uid sender)) (set_offline o r) s' c D1 D4 Hc)
    as (c' & rest & H1 & H2 & H3 & H4). simpl in H3, H4. rewrite D2 in H3.
  destruct (off_queue (offline r) (h_uid sender)) as [|m ms]; [done|]. exists c', rest.
  split; [done|]. split; [done|]. split; [done|]. intros u Hu. by rewrite H4, D5.
Qed.

(** ** Effects limited to the sender's connection *)

(** [quiet i r p]: of everything a handler could touch, only the client object
    [i], the metrics and the stores named elsewhere may have changed. *)
Record quiet (i : nat) r (p : Router * Sys) : Prop := mkQuiet {
  q_offline : offline p.1 = offline r;
  q_forwarder : forwarder p.1 = forwarder r;
  q_registry : Hub.clients (clients p.1) = Hub.clients (clients r);
  q_heap : forall j, j <> i -> heap (clients p.1) !! j = heap (clients r) !! j
}.

Lemma SendTo_heap h m cn s j :
  j <> h_id h -> heap (SendTo h m (cn, s)).2.1 !! j = heap cn !! j /\
  Hub.clients (SendTo h m (cn, s)).2.1 = Hub.clients cn.
Proof.
  intros Hj. unfold SendTo, onClient. destruct (heap cn !! h_id h) as [c|]; [|done].
  destruct (Send m (c, s)) as [e [c' s']]. simpl. by rewrite lookup_insert_ne.
Qed.

Lemma SendTo_registry h m cn s :
  Hub.clients (SendTo h m (cn, s)).2.1 = Hub.clients cn.
Proof.
  unfold SendTo, onClient. destruct (heap cn !! h_id h) as [c|]; [|done].
  by destruct (Send m (c, s)) as [e [c' s']].
Qed.

Lemma send__quiet h m r p : quiet (h_id h) r p -> quiet (h_id h) r (send_ h m p).2.
Proof.
  intros [H1 H2 H3 H4]. destruct p as [r1 s1]. unfold send_. rewrite bind_ret_state.
  unfold sendTo, onClients, zoom.
  pose proof (SendTo_registry h m (clients r1) s1) as Hreg.
  pose proof (SendTo_heap h m (clients r1) s1) as Hh.
  destruct (SendTo h m (clients r1, s1)) as [e [cn s2]]. simpl in *.
  split; simpl; [done|done|congruence|].
  intros j Hj. destruct (Hh j Hj) as [-> _]. by apply H4.
Qed.

Lemma reply_quiet h a b c d n r p : quiet (h_id h) r p -> quiet (h_id h) r (reply h a b c d n p).2.
Proof.
  intros H. unfold reply, stamped. rewrite !bind_run. apply send__quiet.
  destruct p as [r1 s1]. rewrite NextID_router. destruct H. by split.
Qed.

Lemma Now_quiet i r p : quiet i r p -> quiet i r (Now p).2.
Proof. destruct p. by intros []. Qed.

Lemma record_quiet i r m p : quiet i r p -> quiet i r (record m p).2.
Proof. destruct p. by intros []. Qed.

(** Queueing for persistence touches the queue and the metrics. *)
Lemma persistAsync_leaves m p :
  clients (persistAsync m p).2.1 = clients p.1 /\ offline (persistAsync m p).2.1 = offline p.1 /\
  forwarder (persistAsync m p).2.1 = forwarder p.1.
Proof.
  destruct p as [r s]. unfold persistAsync, bind, getX, gets, enqueuePersist. cbn [fst snd].
  destruct (kafka r), (msgStore r), (length (persistTasks r) <? persistQueueCap)%nat;
    by split_and!.
Qed.

Lemma persistAsync_quiet i r m p : quiet i r p -> quiet i r (persistAsync m p).2.
Proof.
  intros []. destruct (persistAsync_leaves m p) as (H1 & H2 & H3).
  split; rewrite ?H1, ?H2, ?H3; auto.
Qed.

Lemma quiet_refl i r s : quiet i r (r, s).
Proof. by split. Qed.

(** ** Groups that cannot be looked up *)

Lemma countUnread_unknown u m gs r s :
  groupStore r = Some gs -> ChatType m = ChatTypeGroup -> groupsOf gs !! To m = None ->
  exists s', (countUnread u m (r, s)).2 = (r, s').
Proof.
  intros Hgs Hct Hno. unfold countUnread. rewrite bind_run. cbn [fst snd getX gets].
  destruct (unreadTracker r); [|by exists s]. rewrite Hct. simpl. rewrite Hgs, bind_run.
  destruct (groupMembers_run gs (To m) r s Hgs) as [s' ->]. cbn [fst snd].
  destruct (GetMembers_law (To m) gs s) as [Hl _]. rewrite Hno in Hl. rewrite Hl. by exists s'.
Qed.

(** A message to a group the store does not know reaches nobody: nothing
    is stored offline or forwarded and no connection but the sender's changes.
    Nevertheless its sequence number is marked, so that the retry is dropped as
    a duplicate, the sender's acknowledgement is the only effect on
    connections, and the message is queued for persistence. *)
Theorem chat_unknown_group_lost sender msg gs r s :
  router_inv r s -> Validate msg = None -> not_duplicate r sender msg ->
  within_rate r s sender -> ChatType msg = ChatTypeGroup -> groupStore r = Some gs ->
  groupsOf gs !! To msg = None ->
  let p := (handleChat sender msg (r, s)).2 in
  quiet (h_id sender) r p /\ (NeedAck msg = false -> clients p.1 = clients r) /\
  exists id ts, let m := setTimestamp ts (setMsgId id msg) in
  (has_persistence r -> persistTasks p.1 = queued (persistTasks r) m) /\
  (0 < Seq msg -> exists e,
     seen (dedup p.1) !! dedupKey (h_uid sender) (Seq msg) = Some e /\ de_msgID e = id).
Proof.
  intros Hi Hv Hd Hw Hct Hgs Hno p.
  destruct (handleChat_accepted sender msg r s Hv Hd Hw (inv_sys _ _ Hi))
    as (mts & rl & start & id & ts & s1 & Hs1 & Hp). fold p in Hp. cbv zeta in Hp.
  set (r1 := set_rateLimit rl (set_metrics mts r)) in Hp.
  set (m := setTimestamp ts (setMsgId id msg)) in Hp.
  assert (Hdel : exists s2, chatDeliver sender m (r1, s1) = markIfSeq sender m (r1, s2)).
  { unfold chatDeliver. rewrite bind_run. cbn [fst snd getX gets].
    change (ChatType m) with (ChatType msg). rewrite Hct. simpl. rewrite Hgs, bind_run.
    unfold fanoutGroup. rewrite bind_snd.
    destruct (groupMembers_run gs (To m) r1 s1 Hgs) as [s2 ->]. cbn [fst snd].
    destruct (GetMembers_law (To m) gs s1) as [Hl _]. change (To m) with (To msg) in *.
    rewrite Hno in Hl. rewrite Hl. by exists s2. }
  destruct Hdel as [s2 Hdel].
  assert (Hq : exists d s3, (markIfSeq sender m (r1, s2)).2 = (set_dedup d r1, s3) /\
    (0 < Seq msg -> exists e, seen d !! dedupKey (h_uid sender) (Seq msg) = Some e /\
       de_msgID e = id)).
  { destruct (markIfSeq_spec sender m (r1, s2)) as (_ & _ & Hmark). revert Hmark.
    unfold markIfSeq. change (Seq m) with (Seq msg).
    destruct (0 <? Seq msg) eqn:Hs.
    - unfold onDedup, zoom. destruct (Mark _ _ _ _) as [[] [d s3]]. simpl. eauto.
    - intros _. exists (dedup r1), s2. split; [by destruct r1|lia]. }
  destruct Hq as (d & s3 & Hq & Hmark).
  rewrite Hdel, Hq in Hp. set (r2 := set_dedup d r1) in *.
  split_and!.
  - rewrite Hp. unfold chatTail. rewrite !bind_snd.
    destruct (countUnread_unknown (h_uid sender) m gs r2 s3 Hgs Hct Hno) as [s4 ->].
    set (q := (_ (r2, s4)).2).
    assert (Hqq : quiet (h_id sender) r q).
    { unfold q. destruct (NeedAck m); [|by split].
      rewrite !bind_snd. unfold sendAck. rewrite bind_snd.
      apply record_quiet, Now_quiet, send__quiet. by split. }
    by apply persistAsync_quiet.
  - intros Hna. rewrite Hp. unfold chatTail. rewrite !bind_snd. change (NeedAck m) with (NeedAck msg).
    rewrite Hna. destruct (countUnread_unknown (h_uid sender) m gs r2 s3 Hgs Hct Hno) as [s4 ->].
    etrans; [apply persistAsync_leaves|done].
  - exists id, ts. cbv zeta. fold m. split.
    + intros Hpers. rewrite Hp, chatTail_persist by exact Hpers. done.
    + rewrite Hp, chatTail_dedup. exact Hmark.
Qed.

End Facts.

(** * Recall, edit, history, read receipts, typing and friend requests

    What each of these commands does to its recipient, to the stores and to the
    requester, on the branches that a client can observe. *)

Section Facts.
Context {E : Env} {C : Codec} {B : Backends E} {BL : BackendLaws E B}.
Implicit Types (r : Router) (s : Sys) (sender h : Handle) (msg : Message).

(** ** Shared steps *)

(** Taking an id and a time leaves the router as it is. *)
Lemma stamped_run {A} (k : Z -> Z -> M A) r s :
  exists id ts s', stamped k (r, s) = k id ts (r, s').
Proof.
  unfold stamped. rewrite bind_run, NextID_router.
  exists (NextID (r, s)).1. eexists _, _. reflexivity.
Qed.

(** A connection that takes the next frame. *)
Definition accepts r h c : Prop :=
  heap (clients r) !! h_id h = Some c /\ closed c = false /\
  (length (sendBuf c) < sendCap c)%nat.

Lemma sendTo_accepts h m r s c d :
  accepts r h c -> marshal m = Some d ->
  sendTo h m (r, s) = (None, (set_clients (push_frame (h_id h) c d (clients r)) r, s)).
Proof. intros (H1 & H2 & H3) Hm. by apply sendTo_open. Qed.

Lemma send__accepts h m r s c d :
  accepts r h c -> marshal m = Some d ->
  (send_ h m (r, s)).2 = (set_clients (push_frame (h_id h) c d (clients r)) r, s).
Proof. intros H Hm. unfold send_. rewrite bind_snd. by rewrite (sendTo_accepts h m r s c d). Qed.

Definition is_single r msg : Prop := ChatType msg <> ChatTypeGroup \/ groupStore r = None.

Lemma single_store r msg :
  is_single r msg -> (if ChatType msg =? ChatTypeGroup then groupStore r else None) = None.
Proof. intros [H|H]; case_match; by try apply Z.eqb_eq in H0. Qed.

(** ** Edit *)

Definition editedMessage sender msg (id ts : Z) : Message :=
  setContent (editContent (Seq msg) (Content msg))
    (setTimestamp ts (setMsgId id (setFrom (h_uid sender) msg))).

(** An edit is delivered to the connected recipient whoever wrote the
    original message and whatever the store answers: the update, with its
    ownership check, comes only after the delivery and its outcome is ignored.
    What the store is given as the new content is the JSON notification, not
    the new text. *)
Theorem edit_delivered_unverified sender msg (frame : Message -> bytes) r s h c ms :
  Validate msg = None -> To msg <> h_uid sender -> Seq msg <> 0 -> Content msg <> "" ->
  is_single r msg -> Hub.clients (clients r) !! To msg = Some h -> accepts r h c ->
  msgStore r = Some ms -> (forall m, marshal m = Some (frame m)) ->
  let p := (handleEdit sender msg (r, s)).2 in
  exists id ts s1,
    clients p.1 = push_frame (h_id h) c (frame (editedMessage sender msg id ts)) (clients r) /\
    msgStore p.1 = Some (UpdateMessageContent (Seq msg) (h_uid sender)
      (editContent (Seq msg) (Content msg)) (ms, s1)).2.1.
Proof.
  intros Hv Hto Hseq Hct Hs Hh Hacc Hms Hm p. unfold p, handleEdit. rewrite Hv.
  rewrite (bool_decide_false (To msg = h_uid sender)) by done.
  replace (Seq msg =? 0) with false by lia.
  rewrite (bool_decide_false (Content msg = "")) by done. cbv zeta.
  match goal with |- context [stamped ?k (r, s)] =>
    destruct (stamped_run k r s) as (id & ts & s1 & ->) end.
  exists id, ts, s1. change (setContent _ _) with (editedMessage sender msg id ts).
  unfold plainDeliver. rewrite !bind_run. cbn [fst snd getX gets].
  change (ChatType (editedMessage sender msg id ts)) with (ChatType msg).
  rewrite (single_store r msg Hs). unfold plainSingle. rewrite !bind_run, getClient_run.
  cbn [fst snd]. change (To (editedMessage sender msg id ts)) with (To msg). rewrite Hh.
  rewrite bind_run, (sendTo_accepts h _ r s1 c _ Hacc (Hm _)). cbn [fst snd ret msgStore set_clients].
  rewrite Hms, bind_snd. unfold onMsgs, zoomSome. cbn [msgStore set_clients]. rewrite Hms.
  change (Content (editedMessage sender msg id ts)) with (editContent (Seq msg) (Content msg)).
  by destruct (UpdateMessageContent _ _ _ (ms, s1)) as [e [x s2]].
Qed.

(** ** Recall *)

Definition recallNotice sender msg (id ts : Z) : Message :=
  setContent (recallContent (Seq msg))
    (setTimestamp ts (setMsgId id (setFrom (h_uid sender) msg))).

Lemma sendRecallError_quiet h reason r p :
  quiet (h_id h) r p -> quiet (h_id h) r (sendRecallError h reason p).2.
Proof. apply reply_quiet. Qed.

Lemma sendRecallError_msgs h reason r s :
  msgStore (sendRecallError h reason (r, s)).2.1 = msgStore r.
Proof.
  destruct (msgs_is_stable (msgStore r)) as (H1 & _).
  apply (preserves_snd (msgs_is (msgStore r))); [by apply reply_stable|done].
Qed.

Lemma recallDeliver_msgs m r s : msgStore (recallDeliver m (r, s)).2.1 = msgStore r.
Proof.
  destruct (msgs_is_stable (msgStore r)) as (H1 & H2 & _).
  apply (preserves_snd (msgs_is (msgStore r))); [by apply recallDeliver_stable|done].
Qed.

Lemma recallDeliver_run m (frame : Message -> bytes) r s :
  off_ok (offline r) -> (forall m, marshal m = Some (frame m)) ->
  let p := (recallDeliver m (r, s)).2 in
  match Hub.clients (clients r) !! To m with
  | Some h => forall c, accepts r h c ->
      clients p.1 = push_frame (h_id h) c (frame m) (clients r) /\ offline p.1 = offline r
  | None => hashRing r = None -> clients p.1 = clients r /\
      off_queue (offline p.1) (To m) =
        lastn (off_limit (offline r)) (off_queue (offline r) (To m) ++ [m])
  end.
Proof.
  intros Ho Hm p. unfold p, recallDeliver. rewrite bind_run, getClient_run. cbn [fst snd].
  destruct (Hub.clients (clients r) !! To m) as [h|].
  - intros c Hacc. by rewrite bind_run, (sendTo_accepts h m r s c (frame m)).
  - intros Hring. rewrite (route_single (To m) m r s Hring), storeOffline_run.
    split; [done|]. simpl. by apply store_law.
Qed.

(** The store decides a recall, on the original id, the requester's own
    uid and the configured window.  Refused: the requester is told, and no other
    connection, offline queue or peer hears of it.  Accepted: the recipient gets
    a notice in the requester's name, whatever sender and content the request
    claimed: on its connection when it takes it, else offline. *)
Theorem recall_decided_by_store sender msg (frame : Message -> bytes) r s ms :
  Validate msg = None -> To msg <> h_uid sender -> Seq msg <> 0 -> msgStore r = Some ms ->
  off_ok (offline r) -> (forall m, marshal m = Some (frame m)) ->
  let p := (handleRecall sender msg (r, s)).2 in
  let verdict := RecallMessage (Seq msg) (h_uid sender) (recallWindow r) (ms, s) in
  msgStore p.1 = Some verdict.2.1 /\
  match verdict.1 with
  | Some _ => quiet (h_id sender) r p
  | None => exists id ts, let m := recallNotice sender msg id ts in
      match Hub.clients (clients r) !! To msg with
      | Some h => forall c, accepts r h c ->
          clients p.1 = push_frame (h_id h) c (frame m) (clients r) /\ offline p.1 = offline r
      | None => hashRing r = None -> clients p.1 = clients r /\
          off_queue (offline p.1) (To msg) =
            lastn (off_limit (offline r)) (off_queue (offline r) (To msg) ++ [m])
      end
  end.
Proof.
  intros Hv Hto Hseq Hms Ho Hm p verdict.
  assert (Hp : p = (match verdict.1 with
    | Some reason => sendRecallError sender reason
    | None => stamped (fun id ts => recallDeliver (recallNotice sender msg id ts))
    end (set_msgStore (Some verdict.2.1) r, verdict.2.2)).2).
  { unfold p, handleRecall, verdict. rewrite Hv, (bool_decide_false (To msg = h_uid sender)) by done.
    replace (Seq msg =? 0) with false by lia. cbv zeta. rewrite bind_run.
    cbn [fst snd getX gets]. rewrite Hms, bind_run. unfold onMsgs, zoomSome. rewrite Hms.
    by destruct (RecallMessage _ _ _ _) as [[reason|] [x s']]. }
  clearbody verdict. destruct verdict as [[reason|] [x s']]; cbn [fst snd] in *; rewrite Hp.
  - split; [apply sendRecallError_msgs|by apply sendRecallError_quiet].
  - match goal with |- context [stamped ?k (?a, ?b)] =>
      destruct (stamped_run k a b) as (id & ts & s1 & ->) end.
    split; [apply recallDeliver_msgs|]. exists id, ts. cbv zeta.
    exact (recallDeliver_run (recallNotice sender msg id ts) frame
      (set_msgStore (Some x) r) s1 Ho Hm).
Qed.

(** ** History *)

(** [sendUntilError] sends the messages that fit, in order, and counts them. *)
Lemma sendUntilError_run sender (frame : Message -> bytes) msgs r s c :
  heap (clients r) !! h_id sender = Some c -> closed c = false ->
  (forall m, marshal m = Some (frame m)) -> (length (sendBuf c) <= sendCap c)%nat ->
  let k := fits c msgs in
  exists r', sendUntilError sender msgs (r, s) = (Z.of_nat k, (r', s)) /\
    heap (clients r') !! h_id sender =
      Some (set_sendBuf (sendBuf c ++ map frame (take k msgs)) c).
Proof.
  revert r c. induction msgs as [|m msgs IH]; intros r c Hc Hop Hm Hl.
  { exists r. unfold fits. rewrite Nat.min_0_r. simpl. rewrite app_nil_r, Hc. by destruct c. }
  cbn [sendUntilError]. rewrite bind_run.
  destruct (decide (length (sendBuf c) < sendCap c)%nat) as [Hroom|Hfull].
  - rewrite (sendTo_open sender m r s c (frame m)) by auto. cbn [fst snd].
    set (c1 := set_sendBuf (sendBuf c ++ [frame m]) c).
    destruct (IH (set_clients (push_frame (h_id sender) c (frame m) (clients r)) r) c1)
      as (r' & Hrun & Hr'); [simpl; by rewrite lookup_insert_eq|done|done| |].
    { simpl. rewrite length_app. simpl. lia. }
    assert (Hk : fits c (m :: msgs) = S (fits c1 msgs)).
    { unfold fits. simpl. rewrite length_app. simpl. lia. }
    rewrite Hk. exists r'. split.
    + rewrite bind_run, Hrun. unfold ret. cbn [fst snd]. by rewrite Nat2Z.inj_succ, Z.add_1_l.
    + rewrite Hr'. unfold c1. simpl. by rewrite <- app_assoc.
  - assert (Hk : fits c (m :: msgs) = O) by (unfold fits; lia). rewrite Hk. exists r.
    rewrite (sendTo_full sender m r s c (frame m)) by (auto; lia). cbn [fst snd].
    split; [done|]. simpl. rewrite app_nil_r, Hc. by destruct c.
Qed.

Lemma clampLimit_bounds n dflt max :
  1 <= dflt -> 1 <= max -> 1 <= clampLimit n dflt max <= max.
Proof.
  intros. unfold clampLimit. destruct (Z.leb_spec n 0);
    match goal with |- context [max <? ?y] => destruct (Z.ltb_spec max y) end; lia.
Qed.

(** A history request of a conversation is answered from the store, asked
    for at most 100 messages: the requester's connection receives the leading
    messages it has room for, in order, and then, when there is still room, a
    completion that carries exactly how many were sent. *)
Theorem history_reports_sent sender msg (frame : Message -> bytes) r s c ms :
  Validate msg = None -> ChatType msg <> ChatTypeGroup -> logicClient r = None ->
  msgStore r = Some ms -> 1 <= historyLimit r -> 0 < Timestamp msg ->
  heap (clients r) !! h_id sender = Some c -> closed c = false ->
  (forall m, marshal m = Some (frame m)) -> (length (sendBuf c) <= sendCap c)%nat ->
  exists limit, 1 <= limit <= 100 /\ (1 <= Seq msg <= 100 -> limit = Seq msg) /\
  forall msgs,
    (Stores.QueryHistory (h_uid sender) (To msg) (Timestamp msg) limit (ms, s)).1 = inr msgs ->
    let p := (handleHistory sender msg (r, s)).2 in
    let k := fits c msgs in
    exists id ts,
    heap (clients p.1) !! h_id sender =
      Some (set_sendBuf (sendBuf c ++ map frame (take k msgs) ++
        (if (length (sendBuf c) + k <? sendCap c)%nat
         then [frame (newMessage CmdHistory id "" "" "" (Z.of_nat k) ts)] else [])) c).
Proof.
  intros Hv Hct Hl Hms Hh Hts Hc Hop Hm Hlen.
  pose proof (clampLimit_bounds (Seq msg) (historyLimit r) 100 Hh ltac:(lia)) as Hb.
  exists (clampLimit (Seq msg) (historyLimit r) 100). split; [done|]. split.
  { intros Hs. unfold clampLimit. replace (Seq msg <=? 0) with false by lia.
    by replace (100 <? Seq msg) with false by lia. }
  set (limit := clampLimit (Seq msg) (historyLimit r) 100) in *. intros msgs Hq p k.
  assert (Hp : exists r1 s1, clients r1 = clients r /\
    p = ((let! delivered := sendUntilError sender msgs in
          reply sender CmdHistory "" "" "" delivered) (r1, s1)).2).
  { unfold p, handleHistory. rewrite Hv, !bind_run. cbn [fst snd getX gets].
    replace (Timestamp msg <=? 0) with false by lia. cbn [fst snd ret]. fold limit.
    unfold historyQuery. rewrite bind_run. cbn [fst snd getX gets].
    replace (ChatType msg =? ChatTypeGroup) with false by lia. rewrite Hl, Hms.
    unfold onMsgs, zoomSome. rewrite Hms.
    destruct (Stores.QueryHistory _ _ _ _ _) as [res [x s']]. cbn [fst snd] in *. subst res.
    eexists _, s'. split; [|reflexivity]. done. }
  destruct Hp as (r1 & s1 & H1 & ->). rewrite bind_run.
  destruct (sendUntilError_run sender frame msgs r1 s1 c) as (r2 & -> & Hr2);
    [by rewrite H1|done..|]. cbn [fst snd]. fold k in Hr2 |- *.
  unfold reply. match goal with |- context [stamped ?f (r2, s1)] =>
    destruct (stamped_run f r2 s1) as (id & ts & s2 & ->) end.
  exists id, ts. set (m := newMessage CmdHistory id "" "" "" (Z.of_nat k) ts).
  set (c2 := set_sendBuf (sendBuf c ++ map frame (take k msgs)) c) in *.
  assert (Hk : length (sendBuf c2) = (length (sendBuf c) + k)%nat).
  { simpl. rewrite length_app, length_map, length_take. unfold k, fits. lia. }
  destruct (Nat.ltb_spec (length (sendBuf c) + k) (sendCap c)).
  - assert (Hacc : accepts r2 sender c2) by (split; [done|split; [done|simpl in *; lia]]).
    rewrite (send__accepts sender m r2 s2 c2 (frame m) Hacc (Hm m)).
    simpl. rewrite lookup_insert_eq. by rewrite app_assoc.
  - unfold send_. rewrite bind_snd, (sendTo_full sender m r2 s2 c2 (frame m));
      [|done..|simpl in *; lia]. simpl. by rewrite app_nil_r.
Qed.

(** ** Read receipts *)

Definition receiptOf sender msg (id ts : Z) : Message :=
  newMessage CmdReadReceipt id (h_uid sender) (To msg) "" (MsgId msg) ts.

(** Whether the Logic service took the read mark upon itself. *)
Definition logicMarked r s (reader peer : string) : bool :=
  match logicClient r with
  | None => false
  | Some _ => match (MarkReadClient reader peer (logicClient r, s)).1 with
              | None => true | Some _ => false end
  end.

Lemma markReadLocal_run reader peer r s ut :
  unreadTracker r = Some ut ->
  exists ut' s', markReadLocal reader peer (r, s) = (tt, (set_unreadTracker (Some ut') r, s')) /\
    forall a b, count ut' a b = if bool_decide (a = reader /\ b = peer) then 0 else count ut a b.
Proof.
  intros Hut. unfold markReadLocal. rewrite bind_run. cbn [fst snd getX gets]. rewrite Hut.
  unfold onUnread, zoomSome. rewrite Hut.
  pose proof (count_MarkRead reader peer ut s) as H.
  destruct (MarkRead reader peer (ut, s)) as [[] [ut' s']]. eauto.
Qed.

Lemma clearUnread_run reader peer r s ut :
  unreadTracker r = Some ut ->
  let r' := (clearUnread reader peer (r, s)).2.1 in
  clients r' = clients r /\ offline r' = offline r /\ hashRing r' = hashRing r /\
  exists ut', unreadTracker r' = Some ut' /\
  if logicMarked r s reader peer then ut' = ut
  else forall a b, count ut' a b = if bool_decide (a = reader /\ b = peer) then 0 else count ut a b.
Proof.
  intros Hut r'. unfold r', clearUnread, logicMarked. rewrite bind_run. cbn [fst snd getX gets].
  destruct (logicClient r) as [l|] eqn:Hl.
  - rewrite bind_run. unfold onLogic, zoom. rewrite Hl.
    destruct (MarkReadClient reader peer (Some l, s)) as [[e|] [l' s']]; cbn [fst snd].
    + destruct (markReadLocal_run reader peer (set_logicClient l' r) s' ut Hut)
        as (ut' & s2 & -> & Hc). simpl. eauto 8.
    + simpl. eauto 8.
  - destruct (markReadLocal_run reader peer r s ut Hut) as (ut' & s2 & -> & Hc). simpl. eauto 8.
Qed.

(** A read receipt clears the reader's counter for that peer and no other,
    unless a Logic service accepts the mark: then the tracker in which this
    gateway counts arriving messages keeps the old count.  The peer's
    connection gets a receipt in the reader's name that carries the id read, and a
    receipt is never kept offline. *)
Theorem read_receipt_effect sender msg (frame : Message -> bytes) r s ut :
  To msg <> "" -> To msg <> h_uid sender -> unreadTracker r = Some ut ->
  (forall m, marshal m = Some (frame m)) ->
  let p := (handleReadReceipt sender msg (r, s)).2 in
  offline p.1 = offline r /\
  (exists ut', unreadTracker p.1 = Some ut' /\
   if logicMarked r s (h_uid sender) (To msg) then ut' = ut
   else forall a b, count ut' a b =
     if bool_decide (a = h_uid sender /\ b = To msg) then 0 else count ut a b) /\
  exists id ts,
  match Hub.clients (clients r) !! To msg with
  | Some h => forall c, accepts r h c ->
      clients p.1 = push_frame (h_id h) c (frame (receiptOf sender msg id ts)) (clients r)
  | None => clients p.1 = clients r
  end.
Proof.
  intros Hne Hto Hut Hm p. unfold p, handleReadReceipt. cbv zeta.
  rewrite bool_decide_false by tauto. rewrite bind_run.
  pose proof (clearUnread_run (h_uid sender) (To msg) r s ut Hut) as (H1 & H2 & _ & H3).
  destruct (clearUnread (h_uid sender) (To msg) (r, s)) as [[] [r1 s1]]. cbn [fst snd] in *.
  match goal with |- context [stamped ?k (r1, s1)] =>
    destruct (stamped_run k r1 s1) as (id & ts & s2 & ->) end.
  fold (receiptOf sender msg id ts). set (m := receiptOf sender msg id ts).
  rewrite bind_run, getClient_run. cbn [fst snd]. rewrite H1.
  destruct (Hub.clients (clients r) !! To msg) as [h|].
  - split_and!.
    + unfold send_. rewrite bind_snd. unfold sendTo, onClients, zoom.
      by destruct (SendTo _ _ _) as [e [cn s3]].
    + destruct H3 as (ut' & Hut' & Hc). exists ut'. split; [|done].
      unfold send_. rewrite bind_snd. unfold sendTo, onClients, zoom.
      by destruct (SendTo _ _ _) as [e [cn s3]].
    + exists id, ts. intros c Hacc. rewrite <- H1.
      rewrite (send__accepts h m r1 s2 c (frame m)); [done| |done].
      unfold accepts. by rewrite H1.
  - assert (Hf : let q := (forwardReceipt (To msg) m (r1, s2)).2.1 in
      clients q = clients r1 /\ offline q = offline r1 /\ unreadTracker q = unreadTracker r1).
    { unfold forwardReceipt. rewrite bind_run. cbn [fst snd getX gets].
      destruct (hashRing r1) as [hr|]; [|done]. destruct (bool_decide _); [|done].
      destruct (forwarder r1) as [f0|] eqn:Hf0; [|done].
      rewrite bind_snd. unfold onForwarder, zoomSome. rewrite Hf0.
      by destruct (Forward _ _ _) as [v [f s3]]. }
    destruct Hf as (-> & -> & ->). split_and!; [done|done|]. exists id, ts. done.
Qed.

(** ** Typing *)

(** Everything but connections, groups and metrics is as it was. *)
Record ephemeral r (p : Router * Sys) : Prop := mkEphemeral {
  ep_offline : offline p.1 = offline r;
  ep_dedup : dedup p.1 = dedup r;
  ep_msgs : msgStore p.1 = msgStore r;
  ep_unread : unreadTracker p.1 = unreadTracker r;
  ep_persist : persistTasks p.1 = persistTasks r;
  ep_forwarder : forwarder p.1 = forwarder r
}.

Lemma ephemeral_stable r : stable_send (ephemeral r) /\ stable_group_reads (ephemeral r).
Proof.
  split; split; intros;
    first
    [ apply preserves_zoom; intros ? ? []; by split
    | apply preserves_zoomSome; [intros ? ? ? [] _; by split|intros ? ? [] _; by split]
    | apply preserves_update; intros ? ? []; by split
    | intros [r1 s1] []; rewrite NextID_router; by split
    | intros [r1 s1] []; by split ].
Qed.

(** A typing indicator is never stored, counted, deduplicated, persisted or
    sent to another gateway, whoever is offline or slow; a connected peer gets
    it in the sender's name, whatever sender it claimed. *)
Theorem typing_is_ephemeral sender msg (frame : Message -> bytes) r s :
  (forall m, marshal m = Some (frame m)) ->
  let p := (handleTyping sender msg (r, s)).2 in
  ephemeral r p /\
  (To msg <> "" -> To msg <> h_uid sender -> is_single r msg ->
   match Hub.clients (clients r) !! To msg with
   | Some h => forall c, accepts r h c -> clients p.1 =
       push_frame (h_id h) c (frame (setFrom (h_uid sender) msg)) (clients r)
   | None => clients p.1 = clients r
   end).
Proof.
  intros Hm p. split.
  { destruct (ephemeral_stable r). apply preserves_snd; [by apply handleTyping_stable|by split]. }
  intros Hne Hto Hs. unfold p, handleTyping. rewrite bool_decide_false by tauto. cbv zeta.
  rewrite bind_run. cbn [fst snd getX gets].
  change (ChatType (setFrom (h_uid sender) msg)) with (ChatType msg).
  rewrite (single_store r msg Hs). unfold typingTo. rewrite bind_run, getClient_run. cbn [fst snd].
  change (To (setFrom (h_uid sender) msg)) with (To msg).
  destruct (Hub.clients (clients r) !! To msg) as [h|]; [|done].
  intros c Hacc. by rewrite (send__accepts h _ r s c _ Hacc (Hm _)).
Qed.

(** ** Friend requests *)

Definition friendNotice sender msg (id ts : Z) : Message :=
  newMessage CmdFriendRequest id (h_uid sender) (To msg) (friendRequestContent (h_uid sender)) 0 ts.

(** A friend request the store accepts is put into the target's offline
    queue even when the target is connected here, and the target's connection
    receives nothing: it learns of the request at its next drain. *)
Theorem friend_request_not_live sender msg r s fs h :
  friendStore r = Some fs -> To msg <> "" -> To msg <> h_uid sender ->
  (SendRequest (h_uid sender) (To msg) (fs, s)).1 = None -> off_ok (offline r) ->
  hashRing r = None -> Hub.clients (clients r) !! To msg = Some h -> h_id h <> h_id sender ->
  let p := (handleFriendRequest sender msg (r, s)).2 in
  heap (clients p.1) !! h_id h = heap (clients r) !! h_id h /\
  exists id ts, off_queue (offline p.1) (To msg) =
    lastn (off_limit (offline r)) (off_queue (offline r) (To msg) ++ [friendNotice sender msg id ts]).
Proof.
  intros Hfs Hne Hto Hreq Ho Hring Hh Hid p. unfold p, handleFriendRequest.
  rewrite bind_run. cbn [fst snd getX gets]. rewrite Hfs, bool_decide_false by tauto.
  rewrite bind_run. unfold onFriends, zoomSome. rewrite Hfs.
  destruct (SendRequest _ _ _) as [e [fs' s1]]. cbn [fst snd] in *. subst e.
  set (r1 := set_friendStore (Some fs') r). rewrite bind_run.
  match goal with |- context [stamped ?k (r1, s1)] =>
    destruct (stamped_run k r1 s1) as (id & ts & s2 & ->) end.
  fold (friendNotice sender msg id ts). set (m := friendNotice sender msg id ts).
  rewrite (route_single (To msg) m r1 s2 Hring), storeOffline_run. cbn [fst snd].
  match goal with |- context [reply sender ?a ?b ?d ?e ?n (?r2, ?s3)] =>
    pose proof (reply_quiet sender a b d e n r2 (r2, s3) (quiet_refl _ r2 s3)) as [Hq _ _ Hheap] end.
  split; [by rewrite Hheap|]. exists id, ts. rewrite Hq. simpl. by apply store_law.
Qed.

End Facts.
