(* ===== verification/RouterWitnesses.v ===== *)
(** * The router's theorems at concrete inputs

    Each theorem of the other router files that has hypotheses is applied on
    the gateway of [Demo], where its hypotheses hold. *)

From S2P Require Import Prelude Proto Snowflake Process Client Hub HashRing Dedup RateLimiter.
From S2P Require Import Unread GroupStore Json Stores LogicClient Producer RouterState RouterDelivery.
From S2P Require Import RouterChat RouterGroup Router RouterFrame RouterInv Demo RouterChatFacts.
From S2P Require Import RouterGroupFacts RouterSafety RouterAuth RouterMessageFacts.

Definition demoFrame (m : Message) : bytes := bytes_of_pos (encode m).

Lemma demo_frames (m : Message) : marshal m = Some (demoFrame m).
Proof. done. Qed.

(** Clients as they are at the start. *)
Definition aliceClient : Client := NewClient "alice" "Alice" 3 0.
Definition bobClient : Client := NewClient "bob" "Bob" 3 0.

Lemma alice_room : (length (sendBuf aliceClient) <= sendCap aliceClient)%nat.
Proof. simpl. lia. Qed.

Lemma bob_accepts : accepts demoRouter bob bobClient.
Proof. split; [done|]. split; [done|]. simpl. lia. Qed.

Lemma demo_off_ok : off_ok (offline demoRouter).
Proof. apply demo_inv. Qed.

Definition demoMsg (cmd seq : Z) (to content : string) : Message :=
  mkMessage seq 0 cmd "mallory" to ChatTypeSingle MsgTypeText content 0 false.

Definition demoStoreState : DemoMessages := mkDemoMessages [] [].

(** ** Invariant, routing, persistence, authorisation *)

Lemma route_invariant_witness :
  let p := (serve (fun _ => "") [(alice, demoChat "bob"); (bob, demoMsg CmdOffline 0 "" "")]
    (demoRouter, demoStart)).2 in
  router_inv p.1 p.2.
Proof.
  exact (proj1 (route_invariant (fun _ => "") [(alice, demoChat "bob"); (bob, demoMsg CmdOffline 0 "" "")]
    demoRouter demoStart demo_inv)).
Defined.

Lemma demo_persists : has_persistence demoRouter.
Proof. right. by eexists. Qed.

(** Two messages and two workers: the second worker overtakes the first, and both
    messages are saved, in the other order. *)
Definition demoPool := startPool (E := steadyEnv) (B := demoBackends) 2 (demoRouter, demoStart).

Lemma demo_overtaken : exists p, rtc (pool_step (B := demoBackends)) demoPool p /\
  pl_accepted p = [demoChat "bob"; demoGroupChat] /\ pl_saved p = [demoGroupChat; demoChat "bob"].
Proof.
  eexists. split; [|split].
  - eapply rtc_l; [apply (Offers (demoChat "bob"))|]. eapply rtc_l; [apply (Offers demoGroupChat)|].
    eapply rtc_l; [by eapply Turns, (Turn 0)|]. eapply rtc_l; [by eapply Turns, (Turn 1)|].
    eapply rtc_l; [by eapply Turns, (Turn 1)|]. eapply rtc_l; [by eapply Turns, (Turn 1)|].
    eapply rtc_l; [by eapply Turns, (Turn 0)|]. eapply rtc_l; [by eapply Turns, (Turn 0)|]. apply rtc_refl.
  - reflexivity.
  - reflexivity.
Qed.

Lemma demo_queue_empty : persistTasks demoRouter = [].
Proof. done. Qed.

Lemma persistence_delivers_witness : exists p : Pool (B := demoBackends),
  pl_accepted p = [demoChat "bob"; demoGroupChat] /\ pl_saved p = [demoGroupChat; demoChat "bob"] /\
  pl_accepted p ≡ₚ pl_saved p ++ holdSave (pl_workers p) ++ holdPublish (pl_workers p) ++ persistTasks (pl_router p).1 /\
  (forall k q, nsteps pool_turn k p q -> (k <= 3 * persistQueueCap + 3 * 2)%nat).
Proof.
  destruct demo_overtaken as (p & Hp & Ha & Hs). exists p. split; [done|]. split; [done|].
  destruct (persistence_delivers 2 demoRouter demoStart p demo_persists demo_queue_empty
    ltac:(lia) Hp) as ((H1 & _) & H2 & _). split; [exact H1|exact H2].
Defined.

Definition demoGroups : gmap string Group :=
  {[ "g_1" := mkGroup "g_1" "team" "alice" {["alice"; "bob"; "carol"; "dave"]} 0 ]}.

Lemma demo_groups : groups_are demoGroups (demoRouter, demoStart).
Proof. split; reflexivity. Qed.

Lemma group_changes_entitled_witness :
  exists G', groups_are G' (Route (fun _ => "") bob (demoMsg CmdGroupLeave 0 "g_1" "")
    (demoRouter, demoStart)).2 /\
  entitled bob (demoMsg CmdGroupLeave 0 "g_1" "") demoGroups G'.
Proof.
  exact (group_changes_entitled (fun _ => "") bob (demoMsg CmdGroupLeave 0 "g_1" "") demoRouter
    demoStart demoGroups demo_groups).
Defined.

(** ** Offline drain and unknown groups *)

(** A gateway that holds four messages for alice, who has room for three. *)
Definition stored : list Message :=
  [demoMsg CmdChat 1 "alice" "a"; demoMsg CmdChat 2 "alice" "b"; demoMsg CmdChat 3 "alice" "c";
   demoMsg CmdChat 4 "alice" "d"].
Definition storedRouter : Router (B := demoBackends) :=
  set_offline (Hub.mkOffline {[ "alice" := stored ]} 100 : bk_O (Backends := demoBackends)) demoRouter.

Lemma stored_queue : off_queue (offline storedRouter) "alice" = stored.
Proof. by vm_compute. Qed.

Lemma stored_nonempty : off_queue (offline storedRouter) (h_uid alice) <> [].
Proof. by vm_compute. Qed.

Lemma stored_ok : off_ok (offline storedRouter).
Proof. apply demo_off_ok. Qed.

Lemma offline_drain_keeps_messages_witness :
  exists c' rest, drained aliceClient c' stored rest /\
    off_queue (offline (handleOffline alice (storedRouter, demoStart)).2.1) "alice" = rest /\ length rest = 1%nat.
Proof.
  destruct (offline_drain_keeps_messages (BL := demoLaws) alice storedRouter demoStart aliceClient stored_ok eq_refl stored_nonempty)
    as (c' & rest & H1 & _ & H2 & _).
  assert (Hl : length (off_queue (offline (handleOffline alice (storedRouter, demoStart)).2.1) "alice") = 1%nat)
    by (vm_compute; reflexivity).
  change (off_queue (offline storedRouter) (h_uid alice)) with stored in H1.
  assert (Hr : lastn (off_limit (offline storedRouter)) rest = rest).
  { apply lastn_all. destruct H1 as (sent & frames & Hs & _). apply (f_equal length) in Hs.
    rewrite length_app in Hs. change (length stored) with 4%nat in Hs.
    change (off_limit (offline storedRouter)) with 100%nat. lia. }
  change (off_queue (offline (handleOffline alice (storedRouter, demoStart)).2.1) "alice" =
    lastn (off_limit (offline storedRouter)) rest) in H2. rewrite Hr in H2. exists c', rest. split; [exact H1|]. split; [exact H2|].
  rewrite <-H2. exact Hl.
Defined.

Definition lostChat : Message :=
  mkMessage 9 0 CmdChat "alice" "g_2" ChatTypeGroup MsgTypeText "hello?" 0 false.

Lemma lost_new : not_duplicate demoRouter alice lostChat.
Proof. right. split; [done|]. apply lookup_empty. Qed.

Lemma lost_unknown : demoGroups !! To lostChat = None.
Proof. by vm_compute. Qed.

Lemma chat_unknown_group_lost_witness :
  clients (handleChat alice lostChat (demoRouter, demoStart)).2.1 = clients demoRouter.
Proof.
  exact (proj1 (proj2 (chat_unknown_group_lost alice lostChat
    (mkInMemoryGroupStore demoGroups : bk_G (Backends := demoBackends))
    demoRouter demoStart demo_inv eq_refl lost_new I eq_refl eq_refl lost_unknown)) eq_refl).
Defined.

(** ** Edit, recall, history, receipts, typing, friends *)

Lemma bob_is_not_alice : "bob" <> h_uid alice.
Proof. done. Qed.
Lemma bob_nonempty : "bob" <> "".
Proof. done. Qed.
Lemma hi_nonempty : "hi" <> "".
Proof. done. Qed.
Lemma seven_nonzero : 7 <> 0.
Proof. done. Qed.
Lemma demo_is_single cmd seq to content : is_single demoRouter (demoMsg cmd seq to content).
Proof. by left. Qed.

(** Mallory's claim aside, alice edits message 7, which nobody saved. *)
Lemma edit_delivered_unverified_witness :
  exists id ts s1,
    clients (handleEdit alice (demoMsg CmdEdit 7 "bob" "hi") (demoRouter, demoStart)).2.1 =
      push_frame 1 bobClient (demoFrame (editedMessage alice (demoMsg CmdEdit 7 "bob" "hi") id ts))
        (clients demoRouter) /\
    msgStore (handleEdit alice (demoMsg CmdEdit 7 "bob" "hi") (demoRouter, demoStart)).2.1 =
      Some (demoUpdate 7 "alice" (editContent 7 "hi") (demoStoreState, s1)).2.1.
Proof.
  exact (edit_delivered_unverified alice (demoMsg CmdEdit 7 "bob" "hi") demoFrame demoRouter
    demoStart bob bobClient demoStoreState eq_refl bob_is_not_alice seven_nonzero hi_nonempty
    (demo_is_single CmdEdit 7 "bob" "hi") eq_refl bob_accepts eq_refl demo_frames).
Defined.

Lemma recall_decided_by_store_witness :
  quiet 0 demoRouter (handleRecall alice (demoMsg CmdRecall 7 "bob" "") (demoRouter, demoStart)).2.
Proof.
  exact (proj2 (recall_decided_by_store alice (demoMsg CmdRecall 7 "bob" "") demoFrame demoRouter
    demoStart demoStoreState eq_refl bob_is_not_alice seven_nonzero eq_refl demo_off_ok demo_frames)).
Defined.

Definition historyRequest : Message :=
  mkMessage 20 0 CmdHistory "alice" "bob" ChatTypeSingle MsgTypeText "" 5 false.

Lemma history_single : ChatType historyRequest <> ChatTypeGroup.
Proof. done. Qed.

Lemma history_reports_sent_witness :
  exists limit, 1 <= limit <= 100 /\ (1 <= 20 <= 100 -> limit = 20).
Proof.
  destruct (history_reports_sent alice historyRequest demoFrame demoRouter demoStart aliceClient
    demoStoreState eq_refl history_single eq_refl eq_refl ltac:(by vm_compute) ltac:(by vm_compute)
    eq_refl eq_refl demo_frames alice_room) as (limit & H1 & H2 & _).
  exists limit. split; [exact H1|exact H2].
Defined.

Lemma read_receipt_effect_witness :
  offline (handleReadReceipt alice (demoMsg CmdReadReceipt 0 "bob" "") (demoRouter, demoStart)).2.1 =
  offline demoRouter.
Proof.
  exact (proj1 (read_receipt_effect alice (demoMsg CmdReadReceipt 0 "bob" "") demoFrame demoRouter
    demoStart (NewInMemoryUnreadTracker : bk_U (Backends := demoBackends)) bob_nonempty
    bob_is_not_alice eq_refl demo_frames)).
Defined.

Lemma typing_is_ephemeral_witness :
  clients (handleTyping alice (demoMsg CmdTyping 0 "bob" "") (demoRouter, demoStart)).2.1 =
  push_frame 1 bobClient (demoFrame (setFrom "alice" (demoMsg CmdTyping 0 "bob" "")))
    (clients demoRouter).
Proof.
  exact (proj2 (typing_is_ephemeral alice (demoMsg CmdTyping 0 "bob" "") demoFrame demoRouter
    demoStart demo_frames) bob_nonempty bob_is_not_alice (demo_is_single CmdTyping 0 "bob" "")
    bobClient bob_accepts).
Defined.

Lemma bob_other_object : h_id bob <> h_id alice.
Proof. done. Qed.

Lemma friend_request_not_live_witness :
  heap (clients (handleFriendRequest alice (demoMsg CmdFriendRequest 0 "bob" "")
    (demoRouter, demoStart)).2.1) !! 1%nat = Some bobClient.
Proof.
  exact (proj1 (friend_request_not_live alice (demoMsg CmdFriendRequest 0 "bob" "") demoRouter
    demoStart ([] : bk_FS (Backends := demoBackends)) bob eq_refl bob_nonempty bob_is_not_alice
    eq_refl demo_off_ok eq_refl eq_refl bob_other_object)).
Defined.
