(* ===== verification/Session.v ===== *)
(** * Sessions (src/internal/gateway/gnet_handler.go, server_ws.go)

    How a connection becomes a user: the gnet event handlers with their worker
    pool and heartbeat checker, and the WebSocket endpoint with its read pump.
    Both overwrite the sender of every message with the authenticated user.

    Connections are known by their file descriptor; [c.Close()] is recorded, and
    gnet answers it with an [OnClose] event. *)

From S2P Require Import Prelude Proto Snowflake Process Client Hub HashRing Dedup RateLimiter.
From S2P Require Import Unread GroupStore Json Stores LogicClient Producer RouterState RouterDelivery.
From S2P Require Import RouterChat RouterGroup Jwt Router Framing.

(** ** The worker pool *)

Definition Task : Type := Handle * Message.

Record WorkerPool := mkWorkerPool {
  wp_cap : nat;
  wp_tasks : list Task;
  wp_closed : bool;
  wp_drops : Z
}.

(** [make(chan func(), size*256)]. *)
Definition NewWorkerPool (size : Z) : WorkerPool :=
  let size := if size <=? 0 then 4 else size in mkWorkerPool (Z.to_nat (size * 256)) [] false 0.

Definition Submit (t : Task) (wp : WorkerPool) : WorkerPool :=
  if wp_closed wp then wp
  else if (length (wp_tasks wp) <? wp_cap wp)%nat
  then mkWorkerPool (wp_cap wp) (wp_tasks wp ++ [t]) false (wp_drops wp)
  else mkWorkerPool (wp_cap wp) (wp_tasks wp) false (wrap64 (wp_drops wp + 1)).

Definition ClosePool (wp : WorkerPool) : WorkerPool :=
  mkWorkerPool (wp_cap wp) (wp_tasks wp) true (wp_drops wp).

(** ** The handler's world *)

(** The context value of a connection. *)
Inductive ConnCtx := CtxPending | CtxClient (h : Handle).

Section Session.
Context {E : Env} {C : Codec} {B : Backends E} {J : JwtLib}.
Context (unmarshalError : string -> string).

Record GnetHandler := mkGnetHandler {
  router : Router;
  jwtMgr : Manager;
  sendBufSize : Z;
  heartbeatTimeout : Z;
  workerPool : WorkerPool;
  connMap : gmap Z Handle;
  contexts : gmap Z ConnCtx;
  closing : list Z
}.

Definition set_router (r : Router) (h : GnetHandler) : GnetHandler :=
  mkGnetHandler r (jwtMgr h) (sendBufSize h) (heartbeatTimeout h) (workerPool h) (connMap h)
    (contexts h) (closing h).
Definition set_pool (wp : WorkerPool) (h : GnetHandler) : GnetHandler :=
  mkGnetHandler (router h) (jwtMgr h) (sendBufSize h) (heartbeatTimeout h) wp (connMap h)
    (contexts h) (closing h).
Definition set_connMap (m : gmap Z Handle) (h : GnetHandler) : GnetHandler :=
  mkGnetHandler (router h) (jwtMgr h) (sendBufSize h) (heartbeatTimeout h) (workerPool h) m
    (contexts h) (closing h).
Definition set_contexts (m : gmap Z ConnCtx) (h : GnetHandler) : GnetHandler :=
  mkGnetHandler (router h) (jwtMgr h) (sendBufSize h) (heartbeatTimeout h) (workerPool h)
    (connMap h) m (closing h).
Definition set_closing (l : list Z) (h : GnetHandler) : GnetHandler :=
  mkGnetHandler (router h) (jwtMgr h) (sendBufSize h) (heartbeatTimeout h) (workerPool h)
    (connMap h) (contexts h) l.

Definition G := St (GnetHandler * Sys).

Definition onRouter {A} (m : M A) : G A :=
  fun '(g, s) => let '(a, (r, s')) := m (router g, s) in (a, (set_router r g, s')).

Definition change (f : GnetHandler -> GnetHandler) : G unit := modify (fun p => (f p.1, p.2)).

Definition closeConn (fd : Z) : G unit := change (fun g => set_closing (fd :: closing g) g).
Definition setContext (fd : Z) (x : ConnCtx) : G unit :=
  change (fun g => set_contexts (<[fd := x]> (contexts g)) g).

(** [NewClient]: a new object at a fresh address. *)
Definition newClient (uid username : string) (bufSize : Z) : M Handle :=
  let! now := Now in
  fun '(r, s) =>
    let i := fresh (dom (heap (clients r))) in
    (mkHandle i uid,
     (set_clients (Hub.set_heap (<[i := NewClient uid username (Z.to_nat bufSize) now]>
        (heap (clients r))) (clients r)) r, s)).

Definition setHeartbeat (h : Handle) (t : Z) : M unit :=
  onClients (onClient h tt (modify (fun '(c, s) => (SetHeartbeat t c, s)))).

Definition loginResp (uid username : string) (ts : Z) : Message :=
  newMessage CmdLoginResp 0 "" uid username 0 ts.

(** What both endpoints do with a message they have read. *)
Definition stampIncoming (h : Handle) (msg : Message) : M Message :=
  let msg := setFrom (h_uid h) msg in
  if Timestamp msg =? 0 then let! ts := NowMilli in ret (setTimestamp ts msg) else ret msg.

(** ** gnet events *)

Definition OnOpen (fd : Z) : G unit := setContext fd CtxPending.

Definition disconnect (h : Handle) : M unit := onClients (Unregister h ;;! CloseClient h).

Definition OnClose (fd : Z) : G unit :=
  let! g := getX in
  match contexts g !! fd with
  | Some (CtxClient h) =>
      onRouter (disconnect h) ;;! change (fun g => set_connMap (delete fd (connMap g)) g)
  | _ => ret tt
  end.

(** The error texts of a refused login are only logged. *)
Definition handleLogin (fd : Z) (frame : bytes) : G (option Handle) :=
  match unmarshal frame with
  | None => ret None
  | Some msg =>
      if negb (Cmd msg =? CmdLogin) then ret None
      else
        let! g := getX in
        let! res := onRouter (ValidateToken (jwtMgr g) (Content msg)) in
        match res with
        | inl _ => ret None
        | inr claims =>
            let! h := onRouter (newClient (c_UID claims) (c_Username claims) (sendBufSize g)) in
            let! now := onRouter Now in
            onRouter (setHeartbeat h now) ;;!
            onRouter (onClients (Register h)) ;;!
            change (fun g => set_connMap (<[fd := h]> (connMap g)) g) ;;!
            onRouter (let! ts := NowMilli in
              send_ h (loginResp (c_UID claims) (c_Username claims) ts)) ;;!
            ret (Some h)
        end
  end.

Definition processFrame (fd : Z) (frame : bytes) : G unit :=
  let! g := getX in
  match contexts g !! fd with
  | None => closeConn fd
  | Some CtxPending =>
      let! res := handleLogin fd frame in
      match res with
      | None => closeConn fd
      | Some h => setContext fd (CtxClient h)
      end
  | Some (CtxClient h) =>
      match unmarshal frame with
      | None => ret tt
      | Some msg =>
          let! now := onRouter Now in
          onRouter (setHeartbeat h now) ;;!
          let! msg := onRouter (stampIncoming h msg) in
          change (fun g => set_pool (Submit (h, msg) (workerPool g)) g)
      end
  end.

(** A worker takes the oldest task and routes it. *)
Definition worker_step : G unit :=
  let! g := getX in
  match wp_tasks (workerPool g) with
  | [] => ret tt
  | (h, msg) :: rest =>
      change (fun g => set_pool (mkWorkerPool (wp_cap (workerPool g)) rest
        (wp_closed (workerPool g)) (wp_drops (workerPool g))) g) ;;!
      onRouter (Route unmarshalError h msg)
  end.

(** One entry of [connMap], as the heartbeat checker visits it. *)
Definition checkHeartbeat (now fd : Z) : G unit :=
  let! g := getX in
  match connMap g !! fd with
  | None => ret tt
  | Some h =>
      match heap (clients (router g)) !! h_id h with
      | Some c =>
          if heartbeatTimeout g <? now - lastHeartbeat c then
            onRouter (disconnect h) ;;! change (fun g => set_connMap (delete fd (connMap g)) g)
          else ret tt
      | None => ret tt
      end
  end.

(** One tick of the checker; [fds] is the order in which it visits the map. *)
Definition heartbeatTick (fds : list Z) : G unit :=
  let! now := onRouter Now in forEach fds (checkHeartbeat now).

(** [OnTraffic] of this handler. *)
Definition gnetTraffic {I : Type} {GR : GnetReader I} (maxMsgSize fd : Z) (fuel : nat)
  : St (I * (GnetHandler * Sys)) (option Action) :=
  OnTraffic (wrapu32 maxMsgSize) (processFrame fd) fuel.

Definition Shutdown : G unit := change (fun g => set_pool (ClosePool (workerPool g)) g).

(** ** WebSocket: one read and the cleanup *)

(** One message read by [wsReadPump]. *)
Definition wsRead (h : Handle) (raw : bytes) : M unit :=
  let! now := Now in
  setHeartbeat h now ;;!
  match unmarshal raw with
  | None => ret tt
  | Some msg => let! msg := stampIncoming h msg in Route unmarshalError h msg
  end.

(** Its deferred cleanup. *)
Definition wsClose (h : Handle) : M unit := disconnect h.

(** ** Construction *)

Definition NewGnetHandler (r : Router) (mgr : Manager) (sendBufSize heartbeatTimeout workerPoolSize : Z)
  : GnetHandler :=
  mkGnetHandler r mgr sendBufSize heartbeatTimeout (NewWorkerPool workerPoolSize) ∅ ∅ [].

(** How often the heartbeat checker ticks: [startHeartbeatChecker] is given half of
    the timeout. *)
Definition checkInterval (heartbeatTimeout : Z) : Z :=
  let i := Z.quot heartbeatTimeout 2 in if i <=? 0 then 45 * Second else i.

(** ** Histories *)

Inductive GnetEvent :=
| EvOpen (fd : Z)
| EvFrame (fd : Z) (frame : bytes)
| EvClose (fd : Z)
| EvWorker
| EvHeartbeat (fds : list Z)
| EvShutdown.

Definition onEvent (e : GnetEvent) : G unit :=
  match e with
  | EvOpen fd => OnOpen fd
  | EvFrame fd frame => processFrame fd frame
  | EvClose fd => OnClose fd
  | EvWorker => worker_step
  | EvHeartbeat fds => heartbeatTick fds
  | EvShutdown => Shutdown
  end.

End Session.
