(* ===== verification/KitTcp.v ===== *)
(** * The kit's TCP client and the gnet server speak the same frames

    Over a connection whose bytes arrive in order, cut anywhere, [ReadFrame]
    reads back what [gnetTransport.Write] framed; and over a network of one
    connection to the gnet server, where the server handles what arrives and its
    write loop sends what is queued, a login with a valid token is answered with
    the login response and the user is registered. *)

From S2P Require Import Prelude Proto Snowflake Process Client Hub HashRing Dedup RateLimiter.
From S2P Require Import Unread GroupStore Json Stores LogicClient Producer RouterState RouterDelivery.
From S2P Require Import RouterChat RouterGroup Jwt Router Framing Kit Session.

(** ** Bytes in order *)

(** What has been sent to a connection and not read: a read of a positive size
    takes some of it off the front, if there is any. *)
Class TcpStream (W : Type) {TN : TcpNet W} := mkTcpStream {
  incoming : TConn -> W -> bytes;
  incoming_read : forall c n w s, (0 < n)%nat -> incoming c w <> [] ->
    let res := net_Read c n (w, s) in
    res.1.1 <> [] /\ res.1.2 = None /\ incoming c w = res.1.1 ++ incoming c res.2.1;
  incoming_deadline : forall c t w s,
    incoming c (net_SetReadDeadline c t (w, s)).2.1 = incoming c w
}.

Section Stream.
Context {E : Env} {C : Codec} {T : ErrorTexts} {W : Type} {TN : TcpNet W} {TS : TcpStream W}.

Lemma readLoop_incoming fuel c n w s :
  (n <= fuel)%nat -> (n <= length (incoming c w))%nat ->
  let res := readLoop fuel c n (w, s) in
  res.1 = (take n (incoming c w), None) /\ incoming c res.2.1 = drop n (incoming c w).
Proof.
  revert n w s. induction fuel as [|fuel IH]; intros n w s Hf Hn.
  - assert (n = 0)%nat as -> by lia. by rewrite take_0, drop_0.
  - cbv zeta. cbn [readLoop]. destruct (Nat.eqb_spec n 0) as [->|H0]; [by rewrite take_0, drop_0|].
    rewrite bind_run. destruct (incoming_read c n w s) as (H1 & H2 & H3);
      [lia|by intros Hi; rewrite Hi in Hn; simpl in Hn; lia|].
    destruct (read_progress c n (w, s)) as [Hp _]; [lia|].
    destruct (net_Read c n (w, s)) as [[b e] [w' s']]. cbn [fst snd] in *. subst e.
    assert (Hb : (0 < length b)%nat) by (destruct b; [done|simpl; lia]).
    rewrite H3, length_app in Hn. rewrite H3.
    destruct (IH (n - length b)%nat w' s') as [H4 H5]; [lia|lia|].
    rewrite bind_run. destruct (readLoop fuel c (n - length b) (w', s')) as [[b' e] p]. cbn [fst snd ret] in *.
    injection H4 as -> ->. by rewrite take_app_ge, drop_app_ge by lia.
Qed.

Lemma ReadFull_incoming c n w s :
  (n <= length (incoming c w))%nat ->
  let res := ReadFull c n (w, s) in
  res.1 = inr (take n (incoming c w)) /\ incoming c res.2.1 = drop n (incoming c w).
Proof.
  intros Hn. cbv zeta. unfold ReadFull. rewrite bind_run.
  destruct (readLoop_incoming n c n w s) as [H1 H2]; [done|done|].
  destruct (readLoop n c n (w, s)) as [[b e] p]. cbn [fst snd ret] in *. injection H1 as -> ->.
  rewrite length_take, Nat.min_l by done. by rewrite Nat.leb_refl.
Qed.

(** A turn of [ReadFrame] up to the length. *)
Lemma ReadFrame_length c timeout w s p rest :
  Z.of_nat (length p) < 2 ^ 32 -> incoming c w = frameOf p ++ rest ->
  exists w' s', incoming c w' = p ++ rest /\
    ReadFrame c timeout (w, s) =
    (if 65536 <? Z.of_nat (length p)
     then ret (inl (PlainError ("tcp frame too large: " +:+ itoa (Z.of_nat (length p)))))
     else try (WrapError ("read tcp payload (" +:+ itoa (Z.of_nat (length p)) +:+ " bytes): "))
       (ReadFull c (length p)) (fun payload =>
        match unmarshal payload with
        | None => ret (inl (WrapError "unmarshal tcp frame: " (unmarshalErr payload)))
        | Some msg => ret (inr msg)
        end)) (w', s').
Proof.
  intros Hp Hi. unfold ReadFrame. rewrite bind_run. cbn [Now fst snd]. rewrite bind_run.
  set (s1 := mkSys _ _). pose proof (incoming_deadline c (readings E (sys_tick s) + timeoutOr timeout) w s1) as Hd.
  destruct (net_SetReadDeadline c _ (w, s1)) as [[] [w1 s2]]. cbn [fst snd] in Hd |- *.
  destruct (ReadFull_incoming c 4 w1 s2) as [H1 H2].
  { rewrite Hd, Hi, length_app, frame_length. lia. }
  unfold try at 1. rewrite bind_run. destruct (ReadFull c 4 (w1, s2)) as [r [w2 s3]]. cbn [fst snd] in *.
  subst r. exists w2, s3. rewrite H2, Hd, Hi. split.
  - unfold frameOf. rewrite <- app_assoc. by rewrite drop_app_length'.
  - assert (Hu : Uint32 (take 4 (frameOf p ++ rest)) = Z.of_nat (length p)).
    { unfold frameOf. rewrite <- app_assoc, take_app_length' by done. unfold wrapu32.
      rewrite Z.mod_small by lia. apply Uint32_PutUint32. lia. }
    rewrite Hu, Nat2Z.id. by destruct (65536 <? Z.of_nat (length p)).
Qed.

(** A frame of up to 65536 bytes is read back whole, however its bytes
    arrive: [ReadFrame] gives the message its payload encodes and leaves what
    follows.  A longer one is refused with its payload unread, so what is read
    next is not a header. *)
Theorem ReadFrame_frame c timeout w s p rest :
  Z.of_nat (length p) < 2 ^ 32 -> incoming c w = frameOf p ++ rest ->
  let res := ReadFrame c timeout (w, s) in
  if 65536 <? Z.of_nat (length p)
  then (exists e, res.1 = inl e) /\ incoming c res.2.1 = p ++ rest
  else res.1 = match unmarshal p with
       | Some msg => inr msg
       | None => inl (WrapError "unmarshal tcp frame: " (unmarshalErr p))
       end /\ incoming c res.2.1 = rest.
Proof.
  intros Hp Hi. cbv zeta. destruct (ReadFrame_length c timeout w s p rest Hp Hi) as (w' & s' & Hi' & ->).
  destruct (65536 <? Z.of_nat (length p)); [by split; [eexists|]|].
  unfold try. rewrite bind_run.
  destruct (ReadFull_incoming c (length p) w' s') as [H1 H2]; [rewrite Hi', length_app; lia|].
  destruct (ReadFull c (length p) (w', s')) as [r q]. cbn [fst snd] in *. subst r.
  rewrite Hi' in H2 |- *. rewrite drop_app_length in H2. rewrite take_app_length.
  by destruct (unmarshal p).
Qed.

(** What reads and deadlines leave alone, a frame's reading does too. *)
Section Keeps.
Context {X : Type} (f : W -> X).
Context (Hread : forall c n w s, f (net_Read c n (w, s)).2.1 = f w).
Context (Hdeadline : forall c t w s, f (net_SetReadDeadline c t (w, s)).2.1 = f w).

Lemma readLoop_keeps fuel c n w s : f (readLoop fuel c n (w, s)).2.1 = f w.
Proof.
  revert n w s. induction fuel as [|fuel IH]; intros n w s; [done|]. cbn [readLoop].
  destruct (n =? 0)%nat; [done|]. rewrite bind_run. specialize (Hread c n w s).
  destruct (net_Read c n (w, s)) as [[b [e|]] [w1 s1]]; cbn [fst snd] in *; [done|].
  rewrite bind_run, <- Hread, <- (IH (n - length b)%nat w1 s1).
  by destruct (readLoop fuel c (n - length b) (w1, s1)) as [[b' e] p].
Qed.

Lemma ReadFull_keeps c n w s : f (ReadFull c n (w, s)).2.1 = f w.
Proof.
  unfold ReadFull. rewrite bind_run, <- (readLoop_keeps n c n w s).
  by destruct (readLoop n c n (w, s)) as [[b e] p].
Qed.

Lemma ReadFrame_keeps c timeout w s : f (ReadFrame c timeout (w, s)).2.1 = f w.
Proof.
  unfold ReadFrame. rewrite bind_run. cbn [Now fst snd]. rewrite bind_run. set (s1 := mkSys _ _).
  rewrite <- (Hdeadline c (readings E (sys_tick s) + timeoutOr timeout) w s1).
  destruct (net_SetReadDeadline c _ (w, s1)) as [[] [w1 s2]]. cbn [fst snd]. unfold try.
  rewrite bind_run, <- (ReadFull_keeps c 4 w1 s2).
  destruct (ReadFull c 4 (w1, s2)) as [[e|header] [w2 s3]]; [done|]. cbn [fst snd].
  destruct (65536 <? Uint32 header); [done|]. rewrite bind_run.
  rewrite <- (ReadFull_keeps c (Z.to_nat (Uint32 header)) w2 s3).
  destruct (ReadFull c _ (w2, s3)) as [[e|payload] [w3 s4]]; [done|]. cbn [fst snd].
  by destruct (unmarshal payload).
Qed.
End Keeps.

End Stream.

(** ** A registration that is admitted *)

Section Register.
Context {E : Env} {C : Codec}.

(** The server is not at capacity, or replaces a connection of the user. *)
Definition admits (cn : Conn) (uid : string) : Prop :=
  is_Some (Hub.clients cn !! uid) \/
  (0 <? maxConnections cn) && (maxConnections cn <=? Z.of_nat (size (Hub.clients cn))) = false.

Lemma onClient_other {A} k (d : A) m cn s i :
  i <> h_id k -> heap (onClient k d m (cn, s)).2.1 !! i = heap cn !! i.
Proof.
  intros Hi. unfold onClient. destruct (heap cn !! h_id k) as [cl|]; [|done].
  destruct (m (cl, s)) as [a [cl' s']]. cbn. by rewrite lookup_insert_ne.
Qed.

(** Sending reads the clock of the world at most once, and registering sends at
    most one message. *)
Lemma SendTo_tick h m cn s :
  (sys_tick s <= sys_tick (SendTo h m (cn, s)).2.2 <= S (sys_tick s))%nat.
Proof.
  unfold SendTo, onClient. destruct (heap cn !! h_id h) as [cl|]; [|simpl; lia].
  pose proof (Send_spec m cl s) as Hs. assert (Ht : (sys_tick (Send m (cl, s)).2.2 <= S (sys_tick s))%nat).
  { unfold Send. destruct (marshal m) as [d|]; [|simpl; lia]. rewrite bind_run. cbn [getX gets fst snd].
    destruct (closed cl), (hasRoom cl); try (simpl; lia). rewrite bind_run. cbn [Pick fst snd].
    destruct (choose E (sys_tick s)); simpl; lia. }
  destruct (Send m (cl, s)) as [e [cl' s']]. simpl in *. lia.
Qed.

Lemma Register_tick h cn s :
  (sys_tick s <= sys_tick (Register h (cn, s)).2.2 <= S (sys_tick s))%nat.
Proof.
  unfold Register. rewrite bind_run.
  assert (Hl : (RegisterLocked h (cn, s)).2.2 = s).
  { unfold RegisterLocked. destruct (Hub.clients cn !! h_uid h); [done|]. by destruct (_ && _). }
  destruct (RegisterLocked h (cn, s)) as [o [cn1 s1]]. cbn [fst snd] in *. subst s1.
  destruct (toKick h o) as [[k content]|]; [|simpl; lia]. unfold KickAndClose. rewrite bind_run.
  pose proof (SendTo_tick k (kickMessage content) cn1 s) as Ht.
  destruct (SendTo k (kickMessage content) (cn1, s)) as [e [cn2 s2]]. cbn [fst snd] in *.
  unfold CloseClient, onClient. by destruct (heap cn2 !! h_id k).
Qed.

Lemma Register_admitted h cl cn s :
  heap cn !! h_id h = Some cl -> admits cn (h_uid h) ->
  (forall old, Hub.clients cn !! h_uid h = Some old -> h_id old <> h_id h) ->
  let res := Register h (cn, s) in
  Hub.clients res.2.1 !! h_uid h = Some h /\ heap res.2.1 !! h_id h = Some cl.
Proof.
  intros Hh Ha Hold. cbv zeta. unfold Register. rewrite bind_run.
  destruct (RegisterLocked h (cn, s)) as [o [cn1 s1]] eqn:Hr. pose proof (RegisterLocked_inv _ _ _ _ _ _ Hr) as (H1 & _ & H3).
  cbn [fst snd]. destruct o as [| |old]; cbn [toKick].
  - exfalso. destruct H3 as [_ Hn]. unfold RegisterLocked in Hr. rewrite Hn in Hr.
    destruct Ha as [[? Ha]|Ha]; [congruence|]. by rewrite Ha in Hr.
  - destruct H3 as (H3 & _). cbn [ret fst snd]. by rewrite H3, lookup_insert_eq, H1.
  - destruct H3 as (H3 & Ho). destruct (KickAndClose old "logged in from another device" (cn1, s1)) as [[] [cn2 s2]] eqn:Hk.
    pose proof (KickAndClose_frame _ _ _ _ _ _ _ Hk) as (H4 & _). cbn [fst snd]. rewrite H4, H3, lookup_insert_eq.
    split; [done|]. specialize (Hold old Ho). rewrite <- Hh, <- H1.
    change cn2 with (tt, (cn2, s2)).2.1. rewrite <- Hk. unfold KickAndClose. rewrite bind_run.
    destruct (SendTo old (kickMessage "logged in from another device") (cn1, s1)) as [e [cn3 s3]] eqn:Hs.
    cbn [snd]. unfold CloseClient. rewrite onClient_other by done.
    change cn3 with (e, (cn3, s3)).2.1. rewrite <- Hs. unfold SendTo. by rewrite onClient_other.
Qed.

(** A message to an open client with room is queued. *)
Lemma SendTo_queues h m cl cn s d :
  heap cn !! h_id h = Some cl -> closed cl = false -> hasRoom cl = true -> marshal m = Some d ->
  (SendTo h m (cn, s)).2.1 = set_heap (<[h_id h := set_sendBuf (sendBuf cl ++ [d]) cl]> (heap cn)) cn.
Proof.
  intros Hh Hc Hr Hm. unfold SendTo, onClient. rewrite Hh. unfold Send. rewrite Hm. rewrite bind_run. cbn [getX gets fst snd].
  by rewrite Hc, Hr.
Qed.

End Register.

(** ** One connection to the server *)

Section Link.
Context {E : Env} {C : Codec} {B : Backends E} {J : JwtLib} {T : ErrorTexts}.
Context (unmarshalError : string -> string) (maxMsgSize fd : Z).

(** The server, the bytes it has received and not cut into frames, and those it
    has sent and the peer has not read. *)
Record Link := mkLink { lk_gnet : GnetHandler; lk_in : bytes; lk_out : bytes }.

(** The write loop takes what is queued for the connection. *)
Definition drain (g : GnetHandler) : bytes * GnetHandler :=
  match connMap g !! fd with
  | None => ([], g)
  | Some h =>
      match heap (clients (router g)) !! h_id h with
      | None => ([], g)
      | Some c =>
          (concat (map frameOf (sendBuf c)),
           set_router (set_clients (Hub.set_heap (<[h_id h := set_sendBuf [] c]> (heap (clients (router g))))
             (clients (router g))) (router g)) g)
      end
  end.

Fixpoint workers (n : nat) : G unit :=
  match n with O => ret tt | S n => worker_step unmarshalError ;;! workers n end.

(** Bytes arrive at the server, which cuts the frames, routes what they hold and
    sends what is queued. *)
Definition linkWrite (d : bytes) : St (Link * Sys) (option GoError) :=
  fun '(l, s) =>
    let '(_, (i, p)) := arrival (wrapu32 maxMsgSize) (processFrame fd) (S (length (lk_in l ++ d))) d (lk_in l, (lk_gnet l, s)) in
    let '(_, (g, s)) := workers (length (wp_tasks (workerPool p.1))) p in
    let (out, g) := drain g in
    (None, (mkLink g i (lk_out l ++ out), s)).

Definition linkRead (n : nat) : St (Link * Sys) (bytes * option GoError) :=
  fun '(l, s) =>
    match lk_out l with
    | [] => (([], Some (NetError true "i/o timeout")), (l, s))
    | out => ((take n out, None), (mkLink (lk_gnet l) (lk_in l) (drop n out), s))
    end.

Definition linkDial : St (Link * Sys) (GoError + unit) :=
  fun '(l, s) =>
    let '(_, (g, s)) := OnOpen fd (lk_gnet l, s) in (inr tt, (mkLink g (lk_in l) (lk_out l), s)).

Lemma link_progress n (w : Link * Sys) : (0 < n)%nat ->
  (length (linkRead n w).1.1 <= n)%nat /\ ((linkRead n w).1.1 <> [] \/ (linkRead n w).1.2 <> None).
Proof.
  intros Hn. destruct w as [l s]. unfold linkRead. destruct (lk_out l) as [|b out]; cbn [fst snd].
  - split; [simpl; lia|by right].
  - split; [rewrite length_take; lia|]. left. destruct n; [lia|done].
Qed.

#[export] Instance linkNet : TcpNet Link :=
  mkTcpNet Link unit (fun _ => linkDial) (fun _ _ => ret tt) (fun _ _ => ret tt)
    (fun _ => linkRead) (fun _ => linkWrite) (fun _ => ret None) (fun _ n w => link_progress n w).

#[export] Instance linkStream : TcpStream Link.
Proof.
  refine (mkTcpStream Link _ (fun _ l => lk_out l) _ _); [|done].
  intros c n l s Hn. cbn. unfold linkRead. destruct (lk_out l) as [|b out]; [done|]. intros _. cbn [fst snd lk_out].
  split_and!; [by destruct n; [lia|]|done|by rewrite take_drop].
Defined.

(** ** A login *)

Lemma onRouter_run {A} (m : M A) g s :
  onRouter m (g, s) = ((m (router g, s)).1, (set_router (m (router g, s)).2.1 g, (m (router g, s)).2.2)).
Proof. unfold onRouter. by destruct (m (router g, s)) as [a [r s']]. Qed.

Lemma onClients_run {A} (m : St (Conn * Sys) A) (r : Router) s :
  onClients m (r, s) = ((m (clients r, s)).1, (set_clients (m (clients r, s)).2.1 r, (m (clients r, s)).2.2)).
Proof. unfold onClients, zoom. by destruct (m (clients r, s)) as [a [cn s']]. Qed.

(** The handle a user is registered under is on the heap. *)
Definition live (cn : Conn) (uid : string) : Prop :=
  forall h, Hub.clients cn !! uid = Some h -> is_Some (heap cn !! h_id h).

Lemma newClient_fresh uid name n (r : Router) s :
  live (clients r) uid ->
  let res := newClient uid name n (r, s) in
  exists now, h_uid res.1 = uid /\ heap (clients res.2.1) !! h_id res.1 = Some (NewClient uid name (Z.to_nat n) now) /\
    Hub.clients (clients res.2.1) = Hub.clients (clients r) /\ maxConnections (clients res.2.1) = maxConnections (clients r) /\
    (forall old, Hub.clients (clients r) !! uid = Some old -> h_id old <> h_id res.1) /\
    sys_tick res.2.2 = S (sys_tick s).
Proof.
  intros Hl. cbv zeta. unfold newClient. rewrite bind_run. cbn [Now fst snd].
  exists (readings E (sys_tick s)). cbn [fst snd h_uid h_id clients set_clients Hub.set_heap heap Hub.clients maxConnections sys_tick].
  split_and!; try done; [by rewrite lookup_insert_eq|].
  intros old Ho He. destruct (Hl old Ho) as [c Hc]. rewrite He in Hc.
  pose proof (is_fresh (dom (heap (clients r)))) as Hf. apply Hf. by apply elem_of_dom_2 in Hc.
Qed.

(** The readings of the clock a login makes. *)
Definition soon s (k : nat) : Prop := (sys_tick s <= k <= sys_tick s + 6)%nat.

Lemma handleLogin_registers frame msg g s uid name role exp :
  unmarshal frame = Some msg -> Cmd msg = CmdLogin -> token_for (jwtMgr g) (Content msg) uid name role exp ->
  readings E (sys_tick s) < exp -> 0 < sendBufSize g -> admits (clients (router g)) uid -> live (clients (router g)) uid ->
  (forall k, soon s k -> is_Some (marshal (loginResp uid name (UnixMilli (readings E k))))) ->
  exists h g' s' k cl d, soon s k /\ handleLogin fd frame (g, s) = (Some h, (g', s')) /\
    h_uid h = uid /\ connMap g' !! fd = Some h /\ Hub.clients (clients (router g')) !! uid = Some h /\
    heap (clients (router g')) !! h_id h = Some cl /\ sendBuf cl = [d] /\
    marshal (loginResp uid name (UnixMilli (readings E k))) = Some d /\
    workerPool g' = workerPool g /\ contexts g' = contexts g.
Proof.
  intros Hu Hcmd Ht Hexp Hbuf Hadm Hlive Hm. unfold handleLogin. rewrite Hu, Hcmd. cbn [negb Z.eqb CmdLogin Pos.eqb].
  rewrite bind_run. cbn [getX gets fst snd]. rewrite bind_run.
  assert (Hv : exists c, onRouter (ValidateToken (jwtMgr g) (Content msg)) (g, s) = (inr c, (g, mkSys (S (sys_tick s)) (sys_snow s))) /\
    c_UID c = uid /\ c_Username c = name).
  { specialize (Ht Router (router g) s). unfold onRouter.
    unfold ValidateToken in Ht |- *. rewrite bind_run in Ht. rewrite bind_run. cbn [Now fst snd ret] in Ht |- *.
    set (res := match ParseWithClaims _ _ _ with inl _ => _ | inr _ => _ end) in *. clearbody res.
    destruct res as [e|c]; [lia|]. exists c. destruct Ht as (_ & H1 & H2 & _). split; [|done]. by destruct g. }
  destruct Hv as (c & Hv & Hcu & Hcn). rewrite Hv. cbn [fst snd]. rewrite Hcu, Hcn. set (s1 := mkSys _ _).
  rewrite bind_run. destruct (newClient_fresh uid name (sendBufSize g) (router g) s1 Hlive) as (now & H1 & H2 & H3 & H4 & H5 & H6).
  rewrite onRouter_run. destruct (newClient uid name (sendBufSize g) (router g, s1)) as [h [r2 s2]]. cbn [fst snd] in *.
  rewrite bind_run, onRouter_run. cbn [Now fst snd router set_router]. set (t := readings E (sys_tick s2)). set (s3 := mkSys _ _).
  rewrite bind_run, onRouter_run. cbn [router set_router].
  assert (Hb : exists r4 s4, setHeartbeat h t (r2, s3) = (tt, (r4, s4)) /\ s4 = s3 /\ Hub.clients (clients r4) = Hub.clients (clients r2) /\
    maxConnections (clients r4) = maxConnections (clients r2) /\
    heap (clients r4) !! h_id h = Some (SetHeartbeat t (NewClient uid name (Z.to_nat (sendBufSize g)) now))).
  { unfold setHeartbeat, onClients, zoom, onClient. rewrite H2. cbn [modify]. eexists _, _. split; [done|].
    split; [done|]. cbn. by rewrite lookup_insert_eq. }
  destruct Hb as (r4 & s4 & -> & Hs4 & Hb1 & Hb2 & Hb3). set (cl := SetHeartbeat _ _) in Hb3. cbn [fst snd].
  rewrite bind_run, onRouter_run. cbn [router set_router]. rewrite onClients_run.
  destruct (Register_admitted h cl (clients r4) s4 Hb3) as [Hr1 Hr2].
  { unfold admits. rewrite H1, Hb1, Hb2, H3, H4. exact Hadm. }
  { rewrite H1, Hb1, H3. exact H5. }
  pose proof (Register_tick h (clients r4) s4) as Htick.
  destruct (Register h (clients r4, s4)) as [[] [cn5 s5]]. cbn [fst snd] in *.
  assert (Hsoon : soon s (sys_tick s5)) by (unfold soon; subst s4 s3 s1; cbn [sys_tick] in *; lia).
  rewrite bind_run. cbn [change modify fst snd]. rewrite bind_run, onRouter_run. cbn [router set_router set_connMap].
  rewrite bind_run. unfold NowMilli. rewrite bind_run. cbn [Now ret fst snd]. set (ts := UnixMilli _). set (s6 := mkSys _ _).
  destruct (Hm (sys_tick s5) Hsoon) as [d Hd]. unfold send_. rewrite bind_run. unfold sendTo. rewrite onClients_run. cbn [clients set_clients].
  pose proof (SendTo_queues h (loginResp uid name ts) cl cn5 s6 d Hr2 eq_refl) as Hq.
  assert (Hroom : hasRoom cl = true) by (unfold hasRoom; apply Nat.ltb_lt; unfold cl; cbn [sendBuf sendCap SetHeartbeat NewClient length]; lia).
  specialize (Hq Hroom Hd). destruct (SendTo h (loginResp uid name ts) (cn5, s6)) as [e [cn7 s7]]. cbn [fst snd] in Hq |- *. subst cn7.
  cbn [ret fst snd]. exists h. eexists _, _, (sys_tick s5), _, d. split; [done|]. split; [done|]. 
  cbn [connMap router clients set_clients set_router set_connMap Hub.clients Hub.set_heap heap workerPool contexts].
  rewrite !lookup_insert_eq. split_and!; try done. by rewrite <- H1.
Qed.

(** A whole frame arriving at an empty buffer is handed to [processFrame], and
    nothing is left. *)
Lemma arrival_one p w :
  sendable (wrapu32 maxMsgSize) p ->
  arrival (wrapu32 maxMsgSize) (processFrame fd) (S (length (frameOf p))) (frameOf p) ([], w) =
  (Some NoAction, ([], (processFrame fd p w).2)).
Proof.
  intros Hp. unfold arrival. cbn [Arrive bytesReader app].
  assert (Hmax : wrapu32 maxMsgSize < 2 ^ 32) by (unfold wrapu32; apply Z.mod_pos_bound; lia).
  destruct (OnTraffic_frame (GL := bytesReaderLaws) (wrapu32 maxMsgSize) (processFrame fd) Hmax (length (frameOf p)) (frameOf p) w p [])
    as (i & Hi & ->); [done|by rewrite app_nil_r|].
  cbn in Hi. subst i. rewrite frame_length. cbn [Nat.add]. by rewrite (OnTraffic_wait _ (processFrame fd) (GL := bytesReaderLaws)) by (left; simpl; lia).
Qed.

(** What the kit writes is what the link carries. *)
Lemma WriteFrame_link msg data timeout l s p :
  marshal msg = Some data -> linkWrite (frameOf data) (l, mkSys (S (sys_tick s)) (sys_snow s)) = (None, p) ->
  WriteFrame tt msg timeout (l, s) = (inr tt, p).
Proof.
  intros Hm Hw. unfold WriteFrame. rewrite Hm. cbv zeta. fold (frameOf data).
  rewrite bind_run. cbn [Now fst snd]. rewrite bind_run. cbn [net_SetWriteDeadline linkNet ret fst snd].
  unfold try. rewrite bind_run. unfold errOnly. rewrite bind_run. cbn [net_Write linkNet]. by rewrite Hw.
Qed.

(** The server's part of a login. *)
Lemma linkWrite_login tok uid name role exp data l s :
  contexts (lk_gnet l) !! fd = Some CtxPending -> lk_in l = [] -> lk_out l = [] -> wp_tasks (workerPool (lk_gnet l)) = [] ->
  unmarshal data = Some (loginMessage tok) -> sendable (wrapu32 maxMsgSize) data ->
  token_for (jwtMgr (lk_gnet l)) tok uid name role exp -> readings E (sys_tick s) < exp ->
  0 < sendBufSize (lk_gnet l) -> admits (clients (router (lk_gnet l))) uid -> live (clients (router (lk_gnet l))) uid ->
  (forall k, soon s k -> is_Some (marshal (loginResp uid name (UnixMilli (readings E k))))) ->
  exists h g s' k d, soon s k /\ linkWrite (frameOf data) (l, s) = (None, (mkLink g [] (frameOf d), s')) /\
    marshal (loginResp uid name (UnixMilli (readings E k))) = Some d /\
    h_uid h = uid /\ contexts g !! fd = Some (CtxClient h) /\ connMap g !! fd = Some h /\
    Hub.clients (clients (router g)) !! uid = Some h.
Proof.
  intros Hctx Hin Hout Htasks Hun Hsend Htok Hexp Hbuf Hadm Hlive Hm.
  destruct (handleLogin_registers data (loginMessage tok) (lk_gnet l) s uid name role exp)
    as (h & g & s' & k & cl & d & Hk & Hrun & H1 & H2 & H3 & H4 & H5 & H6 & H7 & H8); try done.
  assert (Hframe : processFrame fd data (lk_gnet l, s) = (tt, (set_contexts (<[fd := CtxClient h]> (contexts g)) g, s'))).
  { unfold processFrame. rewrite bind_run. cbn [getX gets fst snd]. by rewrite Hctx, bind_run, Hrun. }
  eexists h, _, s', k, d. split; [done|]. split.
  - unfold linkWrite. rewrite Hin. cbn [app]. rewrite arrival_one, Hframe by done.
    cbn [snd fst workerPool set_contexts]. rewrite H7, Htasks. cbn [length workers ret]. unfold drain.
    cbn [connMap router set_contexts]. rewrite H2, H4, H5, Hout. cbn [map concat app]. by rewrite app_nil_r.
  - cbn [contexts connMap router set_contexts set_router set_clients clients Hub.set_heap Hub.clients].
    split_and!; try done. by rewrite lookup_insert_eq.
Qed.

(** C10. A client whose token is good and has not expired, on a fresh connection
    to a server that has room for it and nothing else to do: [Login] over TCP
    gives the login response with the user's uid and name; the server has
    registered the user's client for this connection; and nothing more is on its
    way.  The frame the kit writes is the frame the server cuts, and the frame
    the server writes is the one the kit reads. *)
Theorem tcp_login tok timeout uid name role exp data l s :
  contexts (lk_gnet l) !! fd = Some CtxPending -> lk_in l = [] -> lk_out l = [] -> wp_tasks (workerPool (lk_gnet l)) = [] ->
  marshal (loginMessage tok) = Some data -> sendable (wrapu32 maxMsgSize) data ->
  token_for (jwtMgr (lk_gnet l)) tok uid name role exp -> readings E (S (sys_tick s)) < exp ->
  0 < sendBufSize (lk_gnet l) -> admits (clients (router (lk_gnet l))) uid -> live (clients (router (lk_gnet l))) uid ->
  (forall k, soon (mkSys (S (sys_tick s)) (sys_snow s)) k -> readings E k < 2 ^ 63 /\
     exists d, marshal (loginResp uid name (UnixMilli (readings E k))) = Some d /\ Z.of_nat (length d) <= 65536) ->
  let res := LoginTCP tt tok timeout (l, s) in
  exists h k, res.1 = inr (loginResp uid name (UnixMilli (readings E k))) /\ lk_out res.2.1 = [] /\
    let g := lk_gnet res.2.1 in
    h_uid h = uid /\ contexts g !! fd = Some (CtxClient h) /\ connMap g !! fd = Some h /\
    Hub.clients (clients (router g)) !! uid = Some h.
Proof.
  intros Hctx Hin Hout Htasks Hmd Hsend Htok Hexp Hbuf Hadm Hlive Hresp. cbv zeta.
  assert (Hun : unmarshal data = Some (loginMessage tok)).
  { apply (unmarshal_marshal _ _) with (2 := Hmd). by vm_compute. }
  destruct (linkWrite_login tok uid name role exp data l (mkSys (S (sys_tick s)) (sys_snow s)))
    as (h & g & s' & k & d & Hk & Hw & Hd & H1 & H2 & H3 & H4); try done.
  { intros k Hk. destruct (Hresp k Hk) as (_ & d & Hd & _). by exists d. }
  assert (HL : LoginTCP (TN := linkNet) tt tok timeout (l, s) = ReadFrame (TN := linkNet) tt timeout (mkLink g [] (frameOf d), s')).
  { unfold LoginTCP, try. by rewrite bind_run, (WriteFrame_link _ _ _ _ _ _ Hmd Hw). }
  rewrite HL.
  destruct (Hresp k Hk) as (Hclock & d' & Hd' & Hlen). rewrite Hd in Hd'. injection Hd' as <-.
  pose proof (ReadFrame_frame tt timeout (mkLink g [] (frameOf d)) s' d [] ltac:(lia)) as Hr. cbn [incoming linkStream lk_out] in Hr.
  rewrite app_nil_r in Hr. specialize (Hr eq_refl). destruct (Z.ltb_spec 65536 (Z.of_nat (length d))); [lia|].
  destruct Hr as [Hr Hrest].
  assert (Hwf : wf_message (loginResp uid name (UnixMilli (readings E k)))).
  { assert (Hts : in_int64 (UnixMilli (readings E k))).
    { pose proof (readings_pos E k). unfold in_int64, UnixMilli.
      split; [apply Z.le_trans with 0; [lia|apply Z.div_pos; lia]|apply Z.div_lt_upper_bound; lia]. }
    unfold wf_message. cbn [Seq MsgId Cmd ChatType MsgType Timestamp loginResp newMessage].
    split_and!; try exact Hts; by vm_compute. }
  rewrite (unmarshal_marshal _ _ Hwf Hd) in Hr.
  assert (Hkeep : lk_gnet (ReadFrame (TN := linkNet) tt timeout (mkLink g [] (frameOf d), s')).2.1 = g).
  { rewrite (ReadFrame_keeps lk_gnet); [done| |done].
    intros [] n l' y. cbn. unfold linkRead. by destruct (lk_out l'). }
  exists h, k. split; [exact Hr|]. split; [exact Hrest|]. rewrite Hkeep. by split_and!.
Qed.
End Link.
