(* ===== verification/Metrics.v ===== *)
(** * Prometheus metrics (src/internal/observability/metrics.go)

    The families [NewMetrics] registers, the nil-safe recording methods and the
    label of a command.  client_golang is not under src/: its registry and
    collectors are the class [Prometheus].  The router's [metrics] is the
    sequence of calls it makes; [replay] makes them on a [Metrics].

    What is proved: construction never panics and every gauge shows what its
    callback answers at the scrape; each counter is the number of the calls that
    go to it; one routed message adds one to the counter of its command and to no
    other command's, and the labels it uses come from a fixed set. *)

From S2P Require Import Prelude Proto Snowflake Process Client Hub HashRing Dedup RateLimiter.
From S2P Require Import Unread GroupStore Json Stores LogicClient Producer RouterState RouterDelivery.
From S2P Require Import RouterChat RouterGroup Router RouterFrame RouterInv RouterChatFacts Session.

(** ** client_golang *)

(** What [MustRegister] is given; [W] is the state a gauge's callback reads when
    the registry is scraped.  The help texts are left out. *)
Inductive Collector (W : Type) :=
| GoCollector
| ProcessCollector
| CounterVec (name : string) (labels : list string)
| Counter (name : string)
| HistogramVec (name : string) (buckets : list float64) (labels : list string)
| GaugeFunc (name : string) (f : W -> float64).
Arguments GoCollector {W}.
Arguments ProcessCollector {W}.
Arguments CounterVec {W}.
Arguments Counter {W}.
Arguments HistogramVec {W}.
Arguments GaugeFunc {W}.

(** The families a collector describes; those of the two runtime collectors begin
    with go_ and process_ and are known by these names. *)
Definition familyOf {W} (c : Collector W) : string :=
  match c with
  | GoCollector => "go_"
  | ProcessCollector => "process_"
  | CounterVec n _ | Counter n | HistogramVec n _ _ | GaugeFunc n _ => n
  end.

(** A registry with the collectors registered in it. *)
Class Prometheus (W P : Type) := {
  NewRegistry : P;
  Register : Collector W -> P -> option P;   (** [None]: the family is there already *)
  Inc : string -> list string -> P -> P;     (** [WithLabelValues(labels...).Inc()] *)
  Observe : string -> list string -> float64 -> P -> P;
  registered : P -> list (Collector W);
  value : P -> string -> list string -> Z;           (** of a counter *)
  observed : P -> string -> list string -> list float64;  (** by a histogram, newest first *)
}.

(** Documented behaviour: a name is registered once; a counter grows by one with
    each [Inc]; a histogram has what was observed; counters and histograms are
    independent. *)
Class PrometheusLaws (W P : Type) `{!Prometheus W P} := {
  new_registered : registered (NewRegistry : P) = [];
  new_value n ls : value (NewRegistry : P) n ls = 0;
  new_observed n ls : observed (NewRegistry : P) n ls = [];
  register_twice c (p : P) : familyOf c ∈ (familyOf <$> registered p) -> Register c p = None;
  register_new c (p : P) : familyOf c ∉ (familyOf <$> registered p) ->
    exists p', Register c p = Some p' /\ registered p' = registered p ++ [c] /\
      (forall n ls, value p' n ls = value p n ls) /\ (forall n ls, observed p' n ls = observed p n ls);
  inc_registered n ls (p : P) : registered (Inc n ls p) = registered p;
  inc_value n ls n' ls' (p : P) :
    value (Inc n ls p) n' ls' =
    value p n' ls' + (if bool_decide ((n, ls) = (n', ls')) then 1 else 0);
  inc_observed n ls n' ls' (p : P) : observed (Inc n ls p) n' ls' = observed p n' ls';
  observe_registered n ls x (p : P) : registered (Observe n ls x p) = registered p;
  observe_value n ls x n' ls' (p : P) : value (Observe n ls x p) n' ls' = value p n' ls';
  observe_observed n ls x n' ls' (p : P) :
    observed (Observe n ls x p) n' ls' =
    (if bool_decide ((n, ls) = (n', ls')) then [x] else []) ++ observed p n' ls'
}.

(** ** The labels *)

(** The command constants have no generated table of names. *)
Definition cmdNames : gmap Z string := list_to_map [
  (CmdNone, "CmdNone"); (CmdChat, "CmdChat"); (CmdAck, "CmdAck"); (CmdLogin, "CmdLogin");
  (CmdLoginResp, "CmdLoginResp"); (CmdOffline, "CmdOffline"); (CmdHeartbeat, "CmdHeartbeat");
  (CmdKick, "CmdKick"); (CmdHistory, "CmdHistory"); (CmdReadReceipt, "CmdReadReceipt");
  (CmdUnreadCount, "CmdUnreadCount"); (CmdSearch, "CmdSearch"); (CmdGroupCreate, "CmdGroupCreate");
  (CmdGroupJoin, "CmdGroupJoin"); (CmdGroupLeave, "CmdGroupLeave"); (CmdGroupInfo, "CmdGroupInfo");
  (CmdGroupList, "CmdGroupList"); (CmdFile, "CmdFile"); (CmdGroupInviteMember, "CmdGroupInviteMember");
  (CmdRecall, "CmdRecall"); (CmdFriendRequest, "CmdFriendRequest");
  (CmdFriendResponse, "CmdFriendResponse"); (CmdTyping, "CmdTyping"); (CmdForward, "CmdForward");
  (CmdEdit, "CmdEdit")].

Definition cmdName (cmd : Z) : string :=
  match cmdNames !! cmd with Some n => n | None => itoa cmd end.

(** ** The families *)

(** A decimal literal [n/d]: the quotient of two exact integers, rounded once. *)
Definition decimal (n d : Z) : float64 := fdiv (of_int n) (of_int d).

Definition deliveryBuckets : list float64 :=
  [decimal 5 10000; decimal 1 1000; decimal 2 1000; decimal 5 1000; decimal 1 100; decimal 2 100;
   decimal 5 100; decimal 1 10; decimal 2 10; decimal 5 10; of_int 1].

Section Metrics.
Context {W P : Type} {PR : Prometheus W P}.

(** The callbacks; [None] where the caller gives none. *)
Record Options := mkOptions {
  OnlineConnections : option (W -> Z);
  RateLimitStats : option (W -> Z * Z);
  DedupMarks : option (W -> Z);
  GnetPoolDrops : option (W -> Z)
}.

Definition counters : list (Collector W) :=
  [CounterVec "im_commands_total" ["cmd"]; CounterVec "im_messages_received_total" ["chat_type"];
   CounterVec "im_messages_delivered_total" ["chat_type"]; Counter "im_delivery_failures_total";
   Counter "im_duplicate_dropped_total"; Counter "im_group_fanout_sends_total";
   Counter "im_persist_success_total"; Counter "im_persist_fail_total";
   Counter "im_persist_queue_drop_total";
   HistogramVec "im_message_delivery_duration_seconds" deliveryBuckets ["chat_type"]].

(** A gauge is 0 where it has no callback. *)
Definition gaugeOf {A} (f : option (W -> A)) (get : A -> Z) (w : W) : float64 :=
  match f with Some f => of_int (get (f w)) | None => of_int 0 end.

Definition gauges (opts : Options) : list (Collector W) :=
  [GaugeFunc "im_online_connections" (gaugeOf (OnlineConnections opts) id);
   GaugeFunc "im_rate_limit_allowed_total" (gaugeOf (RateLimitStats opts) fst);
   GaugeFunc "im_rate_limit_rejected_total" (gaugeOf (RateLimitStats opts) snd);
   GaugeFunc "im_dedup_marks_total" (gaugeOf (DedupMarks opts) id);
   GaugeFunc "im_gnet_pool_drop_total" (gaugeOf (GnetPoolDrops opts) id)].

(** [MustRegister]: [None] where it panics. *)
Fixpoint MustRegister (cs : list (Collector W)) (p : P) : option P :=
  match cs with
  | [] => Some p
  | c :: cs => match Register c p with Some p => MustRegister cs p | None => None end
  end.

Definition NewMetrics (opts : Options) : option P :=
  MustRegister ([GoCollector; ProcessCollector] ++ counters ++ gauges opts) NewRegistry.

(** What the gauge [name] shows when the registry is scraped in the state [w]. *)
Definition scrape (p : P) (w : W) (name : string) : list float64 :=
  omap (fun c => match c with
                 | GaugeFunc n f => if bool_decide (n = name) then Some (f w) else None
                 | _ => None
                 end) (registered p).

(** ** The recording methods; a nil [Metrics] is [None] *)

Definition RecordCommand (cmd : Z) (m : option P) : option P :=
  match m with Some p => Some (Inc "im_commands_total" [cmdName cmd] p) | None => None end.

Definition RecordMessagesReceived (chatType : string) (m : option P) : option P :=
  match m with Some p => Some (Inc "im_messages_received_total" [chatType] p) | None => None end.

Definition RecordMessageDelivered (chatType : string) (m : option P) : option P :=
  match m with Some p => Some (Inc "im_messages_delivered_total" [chatType] p) | None => None end.

Definition RecordDeliveryFailure (m : option P) : option P :=
  match m with Some p => Some (Inc "im_delivery_failures_total" [] p) | None => None end.

Definition RecordDuplicateDropped (m : option P) : option P :=
  match m with Some p => Some (Inc "im_duplicate_dropped_total" [] p) | None => None end.

Definition RecordGroupFanoutSend (m : option P) : option P :=
  match m with Some p => Some (Inc "im_group_fanout_sends_total" [] p) | None => None end.

Definition RecordPersistSuccess (m : option P) : option P :=
  match m with Some p => Some (Inc "im_persist_success_total" [] p) | None => None end.

Definition RecordPersistFail (m : option P) : option P :=
  match m with Some p => Some (Inc "im_persist_fail_total" [] p) | None => None end.

Definition RecordPersistQueueDrop (m : option P) : option P :=
  match m with Some p => Some (Inc "im_persist_queue_drop_total" [] p) | None => None end.

Definition RecordDeliveredDuration (chatType : string) (d : Z) (m : option P) : option P :=
  match m with
  | Some p => Some (Observe "im_message_delivery_duration_seconds" [chatType] (Seconds d) p)
  | None => None
  end.

(** A call of the router, and all of them in order. *)
Definition call (e : Metric) : option P -> option P :=
  match e with
  | RouterState.RecordCommand c => RecordCommand c
  | RouterState.RecordMessagesReceived t => RecordMessagesReceived t
  | RouterState.RecordMessageDelivered t => RecordMessageDelivered t
  | RouterState.RecordDeliveryFailure => RecordDeliveryFailure
  | RouterState.RecordDuplicateDropped => RecordDuplicateDropped
  | RouterState.RecordGroupFanoutSend => RecordGroupFanoutSend
  | RouterState.RecordPersistSuccess => RecordPersistSuccess
  | RouterState.RecordPersistFail => RecordPersistFail
  | RouterState.RecordPersistQueueDrop => RecordPersistQueueDrop
  | RouterState.RecordDeliveredDuration t d => RecordDeliveredDuration t d
  end.

Definition replay (es : list Metric) (m : option P) : option P := fold_left (fun m e => call e m) es m.

End Metrics.

(** What the gateway's start gives: the hub, the router and the worker pool. *)
Section Gateway.
Context {E : Env} {B : Backends E}.

Definition gatewayOptions : Options (W := Router * Sys * WorkerPool) :=
  mkOptions (Some (fun w => (Count (clients w.1.1, w.1.2)).1))
    (Some (fun w => RouterState.RateLimitStats w.1.1)) (Some (fun w => RouterState.DedupMarks w.1.1))
    (Some (fun w => wp_drops w.2)).

End Gateway.

(** ** Construction *)

Section Facts.
Context {W P : Type} {PR : Prometheus W P} {PL : PrometheusLaws W P}.
Implicit Types (p : P).

(** Two registries that count and observe the same. *)
Definition agree p p' : Prop :=
  (forall n ls, value p' n ls = value p n ls) /\ (forall n ls, observed p' n ls = observed p n ls).

#[export] Instance agree_preorder : PreOrder agree.
Proof.
  split; [done|]. intros x y z [A B] [C D]. split; intros; by rewrite ?C, ?A, ?D, ?B.
Qed.

Lemma MustRegister_new cs : forall p,
  NoDup ((familyOf <$> registered p) ++ (familyOf <$> cs)) ->
  exists p', MustRegister cs p = Some p' /\ registered p' = registered p ++ cs /\ agree p p'.
Proof.
  induction cs as [|c cs IH]; intros p Hnd; cbn -[fmap].
  - exists p. by rewrite app_nil_r.
  - rewrite fmap_cons, cons_middle, app_assoc in Hnd.
    pose proof Hnd as Hnd'. apply NoDup_app in Hnd' as [Hl _]. apply NoDup_app in Hl as (_ & Hx & _).
    destruct (register_new c p) as (p1 & E1 & R1 & V1 & O1).
    { intros Hin. apply (Hx _ Hin). set_solver. }
    rewrite E1. destruct (IH p1) as (p2 & E2 & R2 & A2).
    { rewrite R1, fmap_app. exact Hnd. }
    exists p2. rewrite R2, R1, <-app_assoc. split; [done|]. split; [done|]. by etrans; [|exact A2].
Qed.

Lemma NewMetrics_new (opts : Options (W := W)) :
  exists p, NewMetrics opts = Some p /\
    registered p = [GoCollector; ProcessCollector] ++ counters ++ gauges opts /\ agree NewRegistry p.
Proof.
  unfold NewMetrics. set (cs := _ ++ _). destruct (MustRegister_new cs NewRegistry) as (p & E & R & A).
  { rewrite new_registered. cbn. repeat (apply NoDup_cons_2; [set_solver|]). apply NoDup_nil_2. }
  exists p. rewrite R, new_registered. done.
Qed.

(** Start-up registers every family without a panic, whatever callbacks are
    given; the counters start at 0, and each gauge shows what its callback
    answers in the state of the scrape, 0 where none was given. *)
Theorem new_metrics_scrape (opts : Options (W := W)) :
  exists p, NewMetrics opts = Some p /\
    (forall n ls, value p n ls = 0 /\ observed p n ls = []) /\
    (forall w, scrape p w "im_online_connections" = [gaugeOf (OnlineConnections opts) id w]) /\
    (forall w, scrape p w "im_rate_limit_allowed_total" = [gaugeOf (RateLimitStats opts) fst w]) /\
    (forall w, scrape p w "im_rate_limit_rejected_total" = [gaugeOf (RateLimitStats opts) snd w]) /\
    (forall w, scrape p w "im_dedup_marks_total" = [gaugeOf (DedupMarks opts) id w]) /\
    (forall w, scrape p w "im_gnet_pool_drop_total" = [gaugeOf (GnetPoolDrops opts) id w]).
Proof.
  destruct (NewMetrics_new opts) as (p & E & R & V & O). exists p. split; [done|].
  split; [intros; by rewrite V, O, new_value, new_observed|].
  unfold scrape. rewrite R. by repeat split.
Qed.

(** ** Counting *)

(** The counter a call goes to. *)
Definition counterOf (e : Metric) : option (string * list string) :=
  match e with
  | RouterState.RecordCommand c => Some ("im_commands_total", [cmdName c])
  | RouterState.RecordMessagesReceived t => Some ("im_messages_received_total", [t])
  | RouterState.RecordMessageDelivered t => Some ("im_messages_delivered_total", [t])
  | RouterState.RecordDeliveryFailure => Some ("im_delivery_failures_total", [])
  | RouterState.RecordDuplicateDropped => Some ("im_duplicate_dropped_total", [])
  | RouterState.RecordGroupFanoutSend => Some ("im_group_fanout_sends_total", [])
  | RouterState.RecordPersistSuccess => Some ("im_persist_success_total", [])
  | RouterState.RecordPersistFail => Some ("im_persist_fail_total", [])
  | RouterState.RecordPersistQueueDrop => Some ("im_persist_queue_drop_total", [])
  | RouterState.RecordDeliveredDuration _ _ => None
  end%string.

(** The observation a call makes of the deliveries of a chat type. *)
Definition durationOf (t : string) (e : Metric) : option float64 :=
  match e with
  | RouterState.RecordDeliveredDuration t' d => if bool_decide (t' = t) then Some (Seconds d) else None
  | _ => None
  end.

(** How many of the calls go to a counter. *)
Definition tally (n : string) (ls : list string) (es : list Metric) : Z :=
  Z.of_nat (length (filter (fun e => counterOf e = Some (n, ls)) es)).

Lemma tally_cons n ls e es :
  tally n ls (e :: es) = (if bool_decide (counterOf e = Some (n, ls)) then 1 else 0) + tally n ls es.
Proof.
  unfold tally. rewrite filter_cons. case_bool_decide; case_decide; try done; cbn [length]; lia.
Qed.

Lemma tally_app n ls es es' : tally n ls (es ++ es') = tally n ls es + tally n ls es'.
Proof. unfold tally. rewrite filter_app, length_app. lia. Qed.

Lemma call_value e p : exists p', call e (Some p) = Some p' /\ registered p' = registered p /\
  (forall n ls, value p' n ls = value p n ls + (if bool_decide (counterOf e = Some (n, ls)) then 1 else 0)) /\
  (forall t, observed p' "im_message_delivery_duration_seconds" [t] =
     option_list (durationOf t e) ++ observed p "im_message_delivery_duration_seconds" [t]).
Proof.
  destruct e; cbn; (eexists; split; [done|]);
    rewrite ?inc_registered, ?observe_registered; (split; [done|]); split; intros;
    rewrite ?inc_value, ?inc_observed, ?observe_value, ?observe_observed; try done; try lia.
  all: try (f_equal; apply bool_decide_ext; naive_solver).
  all: repeat case_bool_decide; simplify_eq; try done; lia.
Qed.

Lemma replay_value es : forall p, exists p', replay es (Some p) = Some p' /\
  registered p' = registered p /\
  (forall n ls, value p' n ls = value p n ls + tally n ls es) /\
  (forall t, observed p' "im_message_delivery_duration_seconds" [t] =
     rev (omap (durationOf t) es) ++ observed p "im_message_delivery_duration_seconds" [t]).
Proof.
  induction es as [|e es IH]; intros p.
  - exists p. repeat split; try done. intros. unfold tally. cbn. lia.
  - destruct (call_value e p) as (p1 & E1 & R1 & V1 & O1). destruct (IH p1) as (p2 & E2 & R2 & V2 & O2).
    exists p2. unfold replay in *. cbn [fold_left]. rewrite E1, E2, R2, R1. split_and!; try done.
    + intros. rewrite V2, V1, tally_cons. lia.
    + intros. rewrite O2, O1. cbn. destruct (durationOf t e); cbn; [|done].
      by rewrite <-app_assoc.
Qed.

Lemma replay_nil es : replay es None = None.
Proof. induction es as [|[] es IH]; done. Qed.

(** What Prometheus shows after any sequence of the router's calls: every
    counter is the number of calls that go to it, the histogram has the
    durations in seconds, and a router without metrics does nothing. *)
Theorem metrics_count (opts : Options (W := W)) (es : list Metric) :
  replay es None = None /\
  exists p, replay es (NewMetrics opts) = Some p /\
    (forall n ls, value p n ls = tally n ls es) /\
    (forall t, observed p "im_message_delivery_duration_seconds" [t] = rev (omap (durationOf t) es)).
Proof.
  split; [apply replay_nil|]. destruct (NewMetrics_new opts) as (p0 & E0 & _ & V0 & O0).
  destruct (replay_value es p0) as (p & E & _ & V & O). exists p. rewrite E0, E. split; [done|]. split.
  - intros. by rewrite V, V0, new_value, Z.add_0_l.
  - intros. by rewrite O, O0, new_observed, app_nil_r.
Qed.

End Facts.

(** ** The names of the commands *)

Lemma cmdName_known c : CmdNone <= c <= CmdEdit -> cmdNames !! c = Some (cmdName c).
Proof.
  unfold CmdNone, CmdEdit. intros Hc.
  assert (Hin : c ∈ (Z.of_nat <$> seq 0 25)).
  { apply list_elem_of_fmap. exists (Z.to_nat c). split; [lia|]. apply elem_of_seq. lia. }
  clear Hc. revert c Hin. apply Forall_forall. repeat constructor.
Qed.

Lemma cmdName_inj c c' :
  CmdNone <= c <= CmdEdit -> CmdNone <= c' <= CmdEdit -> cmdName c = cmdName c' -> c = c'.
Proof.
  intros Hc Hc' E. apply cmdName_known in Hc. apply cmdName_known in Hc'. rewrite E in Hc.
  assert (Hinj : Forall (fun p => Forall (fun q => p.2 = q.2 -> p.1 = q.1) (map_to_list cmdNames))
                   (map_to_list cmdNames)).
  { apply (bool_decide_unpack _). vm_compute. exact Logic.I. }
  rewrite Forall_forall in Hinj. apply elem_of_map_to_list in Hc, Hc'.
  specialize (Hinj _ Hc). rewrite Forall_forall in Hinj. by apply (Hinj _ Hc').
Qed.

(** ** One routed message *)

Section Routed.
Context {E : Env} {CD : Codec} {B : Backends E} {W P : Type} {PR : Prometheus W P} {PL : PrometheusLaws W P}.
Context (err : string -> string).

(** Beyond the calls [es], only those of handlers. *)
Definition handled (es : list Metric) (p : Router * Sys) : Prop :=
  exists l, metrics p.1 = es ++ l /\ Forall handler_metric l.

Lemma handled_stable es : stable (handled es).
Proof.
  assert (Hsend : stable_send (handled es)).
  { split; try inert.
    - intros h m. apply preserves_zoom. intros r s H. exact H.
    - intros m Hm. apply preserves_update. intros r s (l & E1 & Hl). exists (l ++ [m]). split.
      + cbn in *. by rewrite E1, app_assoc.
      + apply Forall_app. auto.
    - intros [r s] H. unfold NextID. by destruct (Next E (sys_snow s) (sys_tick s)) as [[? ?] ?].
    - intros [r s] H. exact H. }
  split; [exact Hsend|inert..].
Qed.

(** The calls one message causes: its command first, then those of its handler;
    none when it is refused. *)
Lemma Route_calls sender msg r s : exists l,
  metrics (Route err sender msg (r, s)).2.1 =
    metrics r ++ (match Validate msg with None => RouterState.RecordCommand (Cmd msg) :: l | Some _ => [] end) /\
  Forall handler_metric l.
Proof.
  unfold Route. destruct (Validate msg).
  - exists []. split; [|constructor]. by rewrite app_nil_r.
  - pose (es := metrics r ++ [RouterState.RecordCommand (Cmd msg)]).
    destruct (dispatch_stable (handled es) err sender msg (handled_stable es)
      (set_metrics es r, s)) as (l & E1 & Hl).
    { exists []. split; [|constructor]. cbn. by rewrite app_nil_r. }
    exists l. split; [|exact Hl]. unfold es in E1. rewrite <-app_assoc in E1. exact E1.
Qed.

Lemma handler_tally n l : Forall handler_metric l -> tally "im_commands_total" n l = 0.
Proof.
  induction 1 as [|e l He _ IH]; [done|]. rewrite tally_cons, IH. destruct e; cbn in *; done.
Qed.

(** Label values a counter may have. *)
Definition knownLabels (n : string) (ls : list string) : Prop :=
  match ls with
  | [] => True
  | [l] => if bool_decide (n = "im_commands_total")
           then exists c, CmdNone < c <= CmdEdit /\ cmdNames !! c = Some l
           else chat_label l
  | _ => False
  end.

Lemma tally_known n ls e : handler_metric e -> counterOf e = Some (n, ls) -> knownLabels n ls.
Proof. destruct e; cbn; intros He [= <- <-]; done. Qed.

Lemma tally_labels n ls l : Forall handler_metric l -> tally n ls l <> 0 -> knownLabels n ls.
Proof.
  induction 1 as [|e l He _ IH]; [done|]. rewrite tally_cons. case_bool_decide as Hc; [|exact IH].
  intros _. by eapply tally_known.
Qed.

Lemma command_known c : CmdNone < c <= CmdEdit -> knownLabels "im_commands_total" [cmdName c].
Proof. intros Hc. cbn. exists c. split; [done|]. apply cmdName_known. lia. Qed.

(** C16. One message routed: the counter of its own command grows by one and that
    of no other command, a refused message leaves every counter, and a counter
    that grows has the name of one of the 24 commands, a chat type or no label:
    whatever clients send, the label values stay in a fixed set. *)
Theorem route_counts sender msg r s (p : P) (p' : P) c :
  CmdNone <= c <= CmdEdit ->
  replay (metrics r) (Some p) = Some p' ->
  exists p'', replay (metrics (Route err sender msg (r, s)).2.1) (Some p) = Some p'' /\
    value p'' "im_commands_total" [cmdName c] =
      value p' "im_commands_total" [cmdName c] +
      (if bool_decide (Validate msg = None /\ c = Cmd msg) then 1 else 0) /\
    (Validate msg <> None -> forall n ls, value p'' n ls = value p' n ls) /\
    (forall n ls, value p'' n ls <> value p' n ls -> knownLabels n ls).
Proof.
  intros Hc E1. destruct (Route_calls sender msg r s) as (l & -> & Hl).
  unfold replay in *. rewrite fold_left_app, E1.
  match goal with |- context [fold_left _ ?es (Some p')] => destruct (replay_value es p') as (p'' & E2 & _ & V & _) end.
  unfold replay in E2. exists p''. rewrite E2. split; [done|].
  destruct (Validate msg) as [e|] eqn:Hv.
  - assert (Hsame : forall n ls, value p'' n ls = value p' n ls).
    { intros. rewrite V. unfold tally. cbn. lia. }
    rewrite Hsame, bool_decide_eq_false_2 by (by intros []).
    split; [lia|]. split; [done|]. intros n ls Hn. by destruct (Hn (Hsame n ls)).
  - apply Validate_range in Hv. split; [|split; [done|]].
    + rewrite V, tally_cons, handler_tally by done. cbn [counterOf]. f_equal.
      rewrite Z.add_0_r.
      replace (bool_decide (None = None /\ c = Cmd msg)) with
        (bool_decide (Some ("im_commands_total"%string, [cmdName (Cmd msg)]) = Some ("im_commands_total"%string, [cmdName c])))
        by (apply bool_decide_ext; split; [intros [= Heq]; split; [done|]; symmetry; apply cmdName_inj; [lia..|done]
            |by intros [_ ->]]).
      done.
    + intros n ls. rewrite V, tally_cons. cbn [counterOf]. case_bool_decide as Hn; [intros _|].
      * injection Hn as <- <-. by apply command_known.
      * intros Hne. apply (tally_labels n ls l Hl). lia.
Qed.

End Routed.
