(* ===== verification/SessionFacts.v ===== *)
(** * Who a message comes from

    Over any history of gnet events: every message waiting to be routed names
    the user whose token its connection presented, and only such users are
    registered; the same of each message a WebSocket delivers. *)

From S2P Require Import Prelude Proto Snowflake Process Client Hub HashRing Dedup RateLimiter.
From S2P Require Import Unread GroupStore Json Stores LogicClient Producer RouterState RouterDelivery.
From S2P Require Import RouterChat RouterGroup Jwt Router Framing RouterFrame RouterInv Demo.
From S2P Require Import RouterChatFacts Session.

Section Facts.
Context {E : Env} {C : Codec} {B : Backends E} {BL : BackendLaws E B} {J : JwtLib}.
Context (unmarshalError : string -> string).
Context (mgr : Manager).

(** A token the manager accepts names the user. *)
Definition authenticated (uid : string) : Prop :=
  exists tok now c, ParseWithClaims tok (keyFunc mgr) now = inr (c, true) /\ c_UID c = uid.

(** Users registered with the hub are authenticated. *)
Definition registry_ok (p : Router * Sys) : Prop :=
  forall uid h, Hub.clients (clients p.1) !! uid = Some h -> h_uid h = uid /\ authenticated uid.

Lemma registry_same r r' s s' :
  Hub.clients (clients r') = Hub.clients (clients r) -> registry_ok (r, s) -> registry_ok (r', s').
Proof. unfold registry_ok. simpl. by intros ->. Qed.

Lemma registry_Route h msg : preserves registry_ok (Route unmarshalError h msg).
Proof.
  intros [r s] H.
  pose proof (Route_stable (conn_since (clients r)) unmarshalError h msg
    (conn_since_stable (clients r)) (fun c => conn_since_record (clients r) (RecordCommand c)) (r, s) (conn_ext_refl _)) as Hc.
  destruct (Route unmarshalError h msg (r, s)) as [[] [r' s']].
  eapply registry_same; [apply (ext_registry _ _ Hc)|exact H].
Qed.

Lemma registry_Now : preserves registry_ok Now.
Proof. intros [r s] H. exact H. Qed.

Lemma registry_NowMilli : preserves registry_ok NowMilli.
Proof. intros [r s] H. exact H. Qed.

Lemma registry_setHeartbeat h t : preserves registry_ok (setHeartbeat h t).
Proof.
  intros [r s] H. unfold setHeartbeat, onClients, zoom, onClient.
  destruct (heap (clients r) !! h_id h) as [c|]; exact H.
Qed.

Lemma registry_send h m : preserves registry_ok (send_ h m).
Proof.
  intros [r s] H. unfold send_. rewrite bind_snd. unfold sendTo, onClients, zoom.
  destruct (SendTo_ext h m (clients r) s) as (He & _).
  destruct (SendTo h m (clients r, s)) as [e [cn s']].
  eapply registry_same; [apply (ext_registry _ _ He)|exact H].
Qed.

Lemma CloseClient_registry h cn s : Hub.clients (CloseClient h (cn, s)).2.1 = Hub.clients cn.
Proof. unfold CloseClient, onClient. by destruct (heap cn !! h_id h). Qed.

Lemma registry_disconnect h : preserves registry_ok (disconnect h).
Proof.
  intros [r s] H uid h'. unfold disconnect, onClients, zoom. rewrite bind_run.
  pose proof (CloseClient_registry h (Unregister h (clients r, s)).2.1
    (Unregister h (clients r, s)).2.2) as Hc.
  rewrite <- surjective_pairing in Hc.
  destruct (CloseClient h (Unregister h (clients r, s)).2) as [[] [cn s']].
  cbn [fst snd clients set_clients] in *. rewrite Hc. unfold Unregister, modify. cbn [snd].
  destruct (Hub.clients (clients r) !! h_uid h) as [e|]; [|apply H].
  destruct (decide (e = h)); [|apply H]. cbn [fst Hub.clients Hub.set_clients].
  intros Hl. apply lookup_delete_Some in Hl as [_ Hl]. by apply H.
Qed.

Lemma registry_Register h :
  authenticated (h_uid h) -> preserves registry_ok (onClients (Register h)).
Proof.
  intros Ha [r s] H uid h'. unfold onClients, zoom, Register. rewrite bind_run.
  assert (Hreg : forall u k, Hub.clients (RegisterLocked h (clients r, s)).2.1 !! u = Some k ->
    h_uid k = u /\ authenticated u).
  { intros u k. unfold RegisterLocked.
    destruct (Hub.clients (clients r) !! h_uid h) as [old|].
    - cbn [fst snd Hub.clients Hub.set_clients]. rewrite lookup_insert_Some.
      intros [[<- <-]|[_ Hk]]; [done|by apply H].
    - destruct (_ && _); cbn [fst snd Hub.clients Hub.set_clients]; [apply H|].
      rewrite lookup_insert_Some. intros [[<- <-]|[_ Hk]]; [done|by apply H]. }
  destruct (RegisterLocked h (clients r, s)) as [o [cn s1]]. cbn [fst snd] in *.
  destruct (toKick h o) as [[k content]|]; [|apply Hreg].
  unfold KickAndClose. rewrite bind_run.
  destruct (SendTo_ext k (kickMessage content) cn s1) as (He & _).
  destruct (SendTo k (kickMessage content) (cn, s1)) as [e [cn2 s2]]. cbn [fst snd] in *.
  pose proof (CloseClient_registry k cn2 s2) as Hc.
  destruct (CloseClient k (cn2, s2)) as [[] [cn3 s3]]. cbn [fst snd clients set_clients] in *.
  rewrite Hc, (ext_registry _ _ He). apply Hreg.
Qed.

Lemma newClient_ok uid name n :
  satisfies registry_ok (newClient uid name n) (fun h => h_uid h = uid).
Proof. intros [r s] H. split; [done|exact H]. Qed.

Lemma stampIncoming_ok h msg :
  satisfies registry_ok (stampIncoming h msg) (fun m => From m = h_uid h).
Proof.
  unfold stampIncoming. cbv zeta. destruct (_ =? 0); [|by apply satisfies_ret].
  apply (satisfies_bind _ _ _ (fun _ => True)); [by apply preserves_satisfies, registry_NowMilli|].
  intros ts _. by apply satisfies_ret.
Qed.

Lemma ValidateToken_ok tok :
  satisfies registry_ok (ValidateToken mgr tok)
    (fun res => match res with inl _ => True | inr c => authenticated (c_UID c) end).
Proof.
  intros [r s] H. split; [|exact H]. unfold ValidateToken, bind, ret, Now. cbn [fst snd].
  destruct (ParseWithClaims tok (keyFunc mgr) (readings E (sys_tick s))) as [err|[c valid]] eqn:Hp.
  - by destruct (le_expired err), (le_signature err).
  - destruct valid; simpl; [|done]. by exists tok, (readings E (sys_tick s)), c.
Qed.

(** ** The handler *)

Record session_inv (p : GnetHandler * Sys) : Prop := mkSessionInv {
  si_mgr : jwtMgr p.1 = mgr;
  si_tasks : forall h m, (h, m) ∈ wp_tasks (workerPool p.1) ->
    From m = h_uid h /\ authenticated (h_uid h);
  si_cap : (length (wp_tasks (workerPool p.1)) <= wp_cap (workerPool p.1))%nat;
  si_ctx : forall fd h, contexts p.1 !! fd = Some (CtxClient h) -> authenticated (h_uid h);
  si_registry : registry_ok (router p.1, p.2)
}.

Lemma onRouter_ok {A} (m : M A) Q :
  satisfies registry_ok m Q -> satisfies session_inv (onRouter m) Q.
Proof.
  intros Hm [g s] [H1 H2 H3 H4 H5]. destruct (Hm (router g, s) H5) as [Hq Hr].
  unfold onRouter. cbn [fst snd] in *. destruct (m (router g, s)) as [a [r s']]. by split.
Qed.

Lemma onRouter_keeps {A} (m : M A) :
  preserves registry_ok m -> satisfies session_inv (onRouter m) (fun _ => True).
Proof. intros H. by apply onRouter_ok, preserves_satisfies. Qed.

Lemma change_ok (f : GnetHandler -> GnetHandler) :
  (forall g s, session_inv (g, s) -> session_inv (f g, s)) ->
  satisfies session_inv (change f) (fun _ => True).
Proof. intros H [g s] Hi. split; [done|]. by apply H. Qed.

Lemma connMap_ok m : satisfies session_inv (change (fun g => set_connMap (m g) g)) (fun _ => True).
Proof. apply change_ok. by intros g s []. Qed.

Lemma closeConn_ok fd : satisfies session_inv (closeConn fd) (fun _ => True).
Proof. apply change_ok. by intros g s []. Qed.

Lemma getX_ok : satisfies session_inv getX (fun g => jwtMgr g = mgr /\
  (forall fd h, contexts g !! fd = Some (CtxClient h) -> authenticated (h_uid h))).
Proof. intros [g s] Hi. split; [|done]. split; [apply Hi|apply Hi]. Qed.

Lemma setContext_ok fd x :
  (forall h, x = CtxClient h -> authenticated (h_uid h)) ->
  satisfies session_inv (setContext fd x) (fun _ => True).
Proof.
  intros Hx. apply change_ok. intros g s [H1 H2 H3 H4 H5]. split; [done..| |done].
  intros fd' h. cbn [fst contexts set_contexts]. rewrite lookup_insert_Some.
  intros [[_ Hh]|[_ Hh]]; [by apply Hx|by apply (H4 fd')].
Qed.

Lemma Submit_ok h m :
  From m = h_uid h -> authenticated (h_uid h) ->
  satisfies session_inv (change (fun g => set_pool (Submit (h, m) (workerPool g)) g)) (fun _ => True).
Proof.
  intros Hf Ha. apply change_ok. intros g s [H1 H2 H3 H4 H5]. cbn [fst] in *.
  unfold Submit. destruct (wp_closed (workerPool g)); [by split|].
  destruct (Nat.ltb_spec (length (wp_tasks (workerPool g))) (wp_cap (workerPool g)));
    split; [done| | |done|done|done|done|done|done|done]; cbn [fst workerPool set_pool wp_tasks wp_cap].
  - intros h' m'. rewrite elem_of_app, list_elem_of_singleton.
    intros [Hin|Heq]; [by apply H2|]. by injection Heq as -> ->.
  - rewrite length_app. simpl. lia.
Qed.

Lemma disconnect_ok h : satisfies session_inv (onRouter (disconnect h)) (fun _ => True).
Proof. apply onRouter_keeps, registry_disconnect. Qed.

Ltac next := eapply satisfies_bind; [|intros ? ?].

Lemma handleLogin_ok fd frame :
  satisfies session_inv (handleLogin fd frame)
    (fun o => match o with Some h => authenticated (h_uid h) | None => True end).
Proof.
  unfold handleLogin. destruct (unmarshal frame) as [msg|]; [|by apply satisfies_ret].
  destruct (negb _); [by apply satisfies_ret|].
  eapply satisfies_bind; [apply getX_ok|]. intros g [Hm _]. rewrite Hm.
  eapply satisfies_bind; [apply onRouter_ok, ValidateToken_ok|]. intros [err|c] Hc;
    [by apply satisfies_ret|].
  eapply satisfies_bind; [apply onRouter_ok, newClient_ok|]. intros h Hh.
  eapply satisfies_bind; [apply onRouter_keeps, registry_Now|]. intros now _.
  eapply satisfies_bind; [apply onRouter_keeps, registry_setHeartbeat|]. intros _ _.
  eapply satisfies_bind; [apply onRouter_keeps, registry_Register; by rewrite Hh|]. intros _ _.
  eapply satisfies_bind; [apply connMap_ok|]. intros _ _.
  eapply satisfies_bind.
  - apply onRouter_keeps. apply preserves_bind; [apply registry_NowMilli|].
    intros ts. apply registry_send.
  - intros _ _. apply satisfies_ret. by rewrite Hh.
Qed.

Lemma processFrame_ok fd frame : satisfies session_inv (processFrame fd frame) (fun _ => True).
Proof.
  unfold processFrame. eapply satisfies_bind; [apply getX_ok|]. intros g [_ Hctx].
  destruct (contexts g !! fd) as [[|h]|] eqn:Hfd; [| |apply closeConn_ok].
  - eapply satisfies_bind; [apply handleLogin_ok|]. intros [h|] Hh; [|apply closeConn_ok].
    apply setContext_ok. by intros ? [= <-].
  - destruct (unmarshal frame) as [msg|]; [|by apply satisfies_ret].
    eapply satisfies_bind; [apply onRouter_keeps, registry_Now|]. intros now _.
    eapply satisfies_bind; [apply onRouter_keeps, registry_setHeartbeat|]. intros _ _.
    eapply satisfies_bind; [apply onRouter_ok, stampIncoming_ok|]. intros m Hm.
    apply Submit_ok; [done|]. by apply (Hctx fd).
Qed.

Lemma worker_step_ok : satisfies session_inv (worker_step unmarshalError) (fun _ => True).
Proof.
  intros [g s] Hi. unfold worker_step. rewrite bind_run. cbn [fst snd getX gets].
  destruct (wp_tasks (workerPool g)) as [|[h m] rest] eqn:Hq; [done|].
  rewrite bind_run. apply (onRouter_keeps _ (registry_Route h m)).
  destruct Hi as [H1 H2 H3 H4 H5]. cbn [fst snd] in *. split; [done| | |done|done];
    cbn [fst snd change modify workerPool set_pool wp_tasks wp_cap].
  - intros h' m' Hin. apply H2. rewrite Hq. by right.
  - rewrite Hq in H3. simpl in H3. lia.
Qed.

Lemma heartbeatTick_ok fds : satisfies session_inv (heartbeatTick fds) (fun _ => True).
Proof.
  unfold heartbeatTick. eapply satisfies_bind; [apply onRouter_keeps, registry_Now|]. intros now _.
  apply preserves_satisfies, preserves_forEach. intros fd. apply preserves_satisfies.
  unfold checkHeartbeat. eapply satisfies_bind; [apply getX_ok|]. intros g _.
  destruct (connMap g !! fd) as [h|]; [|by apply satisfies_ret].
  destruct (heap (clients (router g)) !! h_id h) as [c|]; [|by apply satisfies_ret].
  destruct (_ <? _); [|by apply satisfies_ret].
  eapply satisfies_bind; [apply disconnect_ok|]. intros _ _. apply connMap_ok.
Qed.

Lemma onEvent_ok e : satisfies session_inv (onEvent unmarshalError e) (fun _ => True).
Proof.
  destruct e as [fd|fd frame|fd| |fds|]; simpl.
  - apply setContext_ok. done.
  - apply processFrame_ok.
  - unfold OnClose. eapply satisfies_bind; [apply getX_ok|]. intros g _.
    destruct (contexts g !! fd) as [[|h]|]; [by apply satisfies_ret| |by apply satisfies_ret].
    eapply satisfies_bind; [apply disconnect_ok|]. intros _ _. apply connMap_ok.
  - apply worker_step_ok.
  - apply heartbeatTick_ok.
  - apply change_ok. intros g s [H1 H2 H3 H4 H5]. by split.
Qed.

(** A handler that has served nobody yet. *)
Definition fresh_handler (g : GnetHandler) : Prop :=
  jwtMgr g = mgr /\ wp_tasks (workerPool g) = [] /\ contexts g = ∅ /\
  Hub.clients (clients (router g)) = ∅.

(** C7. Whatever bytes TCP clients send and however their events, the workers
    and the heartbeat checker interleave: every message waiting to be routed
    names as its sender the user of its connection, that user has presented a
    token the manager accepts, nobody else is registered with the hub, and the
    queue of waiting messages stays within its capacity.  A message a
    WebSocket reads is routed under its connection's user too. *)
Theorem sessions_authentic events g s :
  fresh_handler g ->
  let p := (forEach events (onEvent unmarshalError) (g, s)).2 in
  (forall h m, (h, m) ∈ wp_tasks (workerPool p.1) ->
     From m = h_uid h /\ authenticated (h_uid h)) /\
  (forall uid h, Hub.clients (clients (router p.1)) !! uid = Some h ->
     h_uid h = uid /\ authenticated uid) /\
  (length (wp_tasks (workerPool p.1)) <= wp_cap (workerPool p.1))%nat /\
  (forall h raw r s, unmarshal raw = None \/ exists m r' s', From m = h_uid h /\
     (wsRead unmarshalError h raw (r, s)).2 = (Route unmarshalError h m (r', s')).2).
Proof.
  intros (Hm & Ht & Hc & Hr) p.
  assert (Hi : session_inv p).
  { apply preserves_snd; [apply preserves_forEach; intros e; apply preserves_satisfies, onEvent_ok|].
    split; cbn [fst snd].
    - done.
    - rewrite Ht. intros h m Hin. by apply not_elem_of_nil in Hin.
    - rewrite Ht. simpl. lia.
    - rewrite Hc. intros fd h Hl. by rewrite lookup_empty in Hl.
    - intros uid h Hl. cbn [fst] in Hl. rewrite Hr in Hl. by rewrite lookup_empty in Hl. }
  destruct Hi as [_ H2 H3 _ H5]. split_and!; [exact H2|exact H5|exact H3|].
  intros h raw r s0. destruct (unmarshal raw) as [msg|] eqn:Hu; [right|by left].
  unfold wsRead. rewrite !bind_run, Hu.
  destruct (setHeartbeat h _ _) as [[] [r1 s1]]. cbn [snd]. rewrite bind_run.
  unfold stampIncoming. cbv zeta. destruct (_ =? 0).
  - rewrite bind_run. destruct (NowMilli (r1, s1)) as [ts [r2 s2]]. cbn [fst snd ret].
    eexists _, r2, s2. split; [|reflexivity]. done.
  - cbn [fst snd ret]. eexists _, r1, s1. split; [|reflexivity]. done.
Qed.

End Facts.
