(* ===== verification/WebSocket.v ===== *)
(** * WebSocket connections (src/internal/gateway/server_ws.go, transport_ws.go)

    [HandleWS] with its refusals, the transport, and the goroutines of one
    connection: the handler that registers and greets, [wsReadPump], [wsPingLoop]
    and the client's [WriteLoop], each as executable turns, interleaved with each
    other and with the rest of the gateway by [ws_step].  gorilla/websocket is not
    under src/: the classes [Upgrader] and [WsLib].

    What is proved, over every interleaving: the frames on the wire are what
    [Send] accepted, in order, with pings between them (the run refines
    [conn_reach] of Client.v); once the reader has returned its connection is
    closed and is nobody's registered connection, for good, and whoever else is
    registered is left alone; the read deadline is [PongWait] after a reading of the
    clock in the turn of the start or of the last pong. *)

From S2P Require Import Prelude Proto Snowflake Process Client Hub HashRing Dedup RateLimiter.
From S2P Require Import Unread GroupStore Json Stores LogicClient Producer RouterState RouterDelivery.
From S2P Require Import RouterChat RouterGroup Jwt Http Config Router RouterFrame RouterInv Session.

(** ** gorilla/websocket *)

Inductive Frame := BinaryMessage (p : bytes) | PingMessage.

(** What the reader's loop gets: a message, a pong (which the library hands to the
    pong handler and reads on), or an error, expected or not. *)
Inductive Incoming := InMessage (raw : bytes) | InPong | InError (unexpected : bool).

(** [ReadMessage closed limit deadline] and [WriteMessage closed deadline frame]
    on a connection; [closed]: [Close] has been called. *)
Class WsLib (C : Type) := {
  ReadMessage : bool -> Z -> Z -> St (C * Sys) Incoming;
  WriteMessage : bool -> Z -> Frame -> St (C * Sys) (option string)
}.

(** Documented: a closed connection neither reads nor writes; nothing longer than
    a positive read limit, and nothing once the deadline is past, is read.  Reading
    takes time, it does not turn the clock back. *)
Class WsLaws (E : Env) (C : Type) `{!WsLib C} := {
  read_closed limit d (c : C) s : exists u, (ReadMessage true limit d (c, s)).1 = InError u;
  write_closed d f (c : C) s : is_Some (WriteMessage true d f (c, s)).1;
  read_clock b limit d (c : C) s : (sys_tick s <= sys_tick (ReadMessage b limit d (c, s)).2.2)%nat;
  read_limit b limit d (c : C) s raw : 0 < limit ->
    (ReadMessage b limit d (c, s)).1 = InMessage raw -> Z.of_nat (length raw) <= limit;
  read_deadline b limit d (c : C) s : (forall n, (sys_tick s <= n)%nat -> d < readings E n) ->
    exists u, (ReadMessage b limit d (c, s)).1 = InError u
}.

(** [Upgrade], given what [CheckOrigin] answers: the response it writes itself, or
    a connection.  Documented: it refuses with 403 what [CheckOrigin] refuses. *)
Class Upgrader := {
  Upgrade : bool -> Request -> option Response;
  upgrade_origin r : exists resp, Upgrade false r = Some resp /\ rs_status resp = StatusForbidden
}.

(** ** The goroutines of a connection *)

(** Where [HandleWS] and then the reader are. *)
Inductive Phase := Opening | Greeting | Reading | Ended.

#[export] Instance Phase_eq_dec : EqDecision Phase.
Proof. solve_decision. Defined.

(** [ws_out] is what was put on the connection, [ws_lost] what a failed write was
    given; [ws_pongs], kept by [ws_step], are the positions of the clock before and
    after each turn that started the reader or received a pong, newest first;
    [ws_pinging] and [ws_writing]: the two other loops run. *)
Record Ws (C : Type) := mkWs {
  ws_client : Handle;
  ws_conn : C;
  ws_phase : Phase;
  ws_readDeadline : Z;
  ws_pongs : list (nat * nat);
  ws_pinging : bool;
  ws_writing : bool;
  ws_out : list Frame;
  ws_lost : list Frame
}.
Arguments mkWs {C}.
Arguments ws_client {C}.
Arguments ws_conn {C}.
Arguments ws_phase {C}.
Arguments ws_readDeadline {C}.
Arguments ws_pongs {C}.
Arguments ws_pinging {C}.
Arguments ws_writing {C}.
Arguments ws_out {C}.
Arguments ws_lost {C}.

Definition writeTimeout : Z := 10 * Second.

(** The case of its [select] the write loop takes. *)
Inductive WriteCase := OnClosed | OnData | OnPing.

Section WebSocket.
Context {E : Env} {CD : Codec} {B : Backends E} {J : JwtLib} {UP : Upgrader}.
Context {US : Type} {OB : Type} {C : Type} {WL : WsLib C}.
Context (unmarshalError : string -> string).

Abbreviation Wire := (Ws C).

Definition set_phase (p : Phase) (w : Wire) : Wire :=
  mkWs (ws_client w) (ws_conn w) p (ws_readDeadline w) (ws_pongs w) (ws_pinging w) (ws_writing w) (ws_out w) (ws_lost w).
Definition set_wsconn (c : C) (w : Wire) : Wire :=
  mkWs (ws_client w) c (ws_phase w) (ws_readDeadline w) (ws_pongs w) (ws_pinging w) (ws_writing w) (ws_out w) (ws_lost w).
Definition set_pinging (b : bool) (w : Wire) : Wire :=
  mkWs (ws_client w) (ws_conn w) (ws_phase w) (ws_readDeadline w) (ws_pongs w) b (ws_writing w) (ws_out w) (ws_lost w).
Definition set_writing (b : bool) (w : Wire) : Wire :=
  mkWs (ws_client w) (ws_conn w) (ws_phase w) (ws_readDeadline w) (ws_pongs w) (ws_pinging w) b (ws_out w) (ws_lost w).
Definition wrote (f : Frame) (w : Wire) : Wire :=
  mkWs (ws_client w) (ws_conn w) (ws_phase w) (ws_readDeadline w) (ws_pongs w) (ws_pinging w) (ws_writing w)
    (ws_out w ++ [f]) (ws_lost w).
Definition failedWrite (f : Frame) (w : Wire) : Wire :=
  mkWs (ws_client w) (ws_conn w) (ws_phase w) (ws_readDeadline w) (ws_pongs w) (ws_pinging w) (ws_writing w)
    (ws_out w) (ws_lost w ++ [f]).

(** [SetReadDeadline(now + pongWait)], at the start and for each pong. *)
Definition setReadDeadline (pongWait now : Z) (w : Wire) : Wire :=
  mkWs (ws_client w) (ws_conn w) (ws_phase w) (now + pongWait) (ws_pongs w) (ws_pinging w) (ws_writing w)
    (ws_out w) (ws_lost w).

Definition Wm := St ((Wire * Router) * Sys).

Definition onGateway {A} (m : M A) : Wm A :=
  fun '((w, r), s) => let '(a, (r', s')) := m (r, s) in (a, ((w, r'), s')).
Definition onConn {A} (m : St (C * Sys) A) : Wm A :=
  fun '((w, r), s) => let '(a, (c, s')) := m (ws_conn w, s) in (a, ((set_wsconn c w, r), s')).
Definition changeWs (f : Wire -> Wire) : Wm unit := modify (fun '((w, r), s) => ((f w, r), s)).

(** The object of this connection's client. *)
Definition clientOf (w : Wire) (r : Router) : option Client := heap (clients r) !! h_id (ws_client w).
Definition connClosed (w : Wire) (r : Router) : bool :=
  match clientOf w r with Some c => transportClosed c | None => false end.

(** [HandleWS] after the upgrade: the new client is [Opening]; it is registered,
    greeted, and its loops start. *)
Definition newWs (h : Handle) (c : C) : Wire := mkWs h c Opening 0 [] false false [] [].

Definition registerTurn : Wm unit :=
  let! wr := getX in
  onGateway (onClients (Register (ws_client wr.1))) ;;! changeWs (set_phase Greeting).

(** The response to the login, then [go client.WriteLoop()] and [go wsReadPump].
    [NewTicker] panics for a period that is not positive, and no one recovers a
    panic of [wsPingLoop]: [false]. *)
Definition greetTurn (claims : Claims) (cfg : GatewayConnConfig) : Wm bool :=
  let! wr := getX in
  let! ts := onGateway NowMilli in
  onGateway (send_ (ws_client wr.1) (loginResp (c_UID claims) (c_Username claims) ts)) ;;!
  let! now := onGateway Now in
  changeWs (fun w => set_phase Reading (set_writing true (set_pinging true (setReadDeadline (co_PongWait cfg) now w)))) ;;!
  ret (0 <? co_PingPeriod cfg).

(** One turn of the reader's loop; on an error its deferred calls run: pingDone is
    closed, then the client is unregistered and closed. *)
Definition readTurn (cfg : GatewayConnConfig) : Wm unit :=
  let! wr := getX in
  let h := ws_client wr.1 in
  let! inc := onConn (ReadMessage (connClosed wr.1 wr.2) (co_MaxMsgSize cfg) (ws_readDeadline wr.1)) in
  match inc with
  | InError _ => changeWs (set_phase Ended) ;;! onGateway (wsClose h)
  | InPong =>
      let! now := onGateway Now in
      changeWs (setReadDeadline (co_PongWait cfg) now) ;;!
      let! now := onGateway Now in
      onGateway (setHeartbeat h now)
  | InMessage raw => onGateway (wsRead unmarshalError h raw)
  end.

(** A tick of [wsPingLoop]. *)
Definition pingTurn : Wm unit :=
  let! wr := getX in
  onGateway (onClients (onClient (ws_client wr.1) tt (modify (fun '(c, s) => (SendPing c, s))))).

(** Its end: pingDone is closed, or the client. *)
Definition pingStops (w : Wire) (r : Router) : bool :=
  bool_decide (ws_phase w = Ended) || match clientOf w r with Some c => closed c | None => false end.

Definition onClientObject (h : Handle) (f : Client -> Client) : M unit :=
  onClients (onClient h tt (modify (fun '(c, s) => (f c, s)))).

(** [Write] and [Ping] of the transport: each sets the deadline of its write. *)
Definition transportWrite (f : Frame) : Wm (option string) :=
  let! wr := getX in
  let! now := onGateway Now in
  onConn (WriteMessage (connClosed wr.1 wr.2) (now + writeTimeout) f).

(** One turn of [WriteLoop] with the case [c] of its select. *)
Definition write1 (f : Frame) : Wm unit :=
  let! err := transportWrite f in
  match err with
  | None => changeWs (wrote f)
  | Some _ => changeWs (fun w => set_writing false (failedWrite f w))
  end.

Definition writeTurn (c : WriteCase) : Wm unit :=
  let! wr := getX in
  let h := ws_client wr.1 in
  match clientOf wr.1 wr.2 with
  | None => ret tt
  | Some cl =>
      match c with
      | OnClosed => if closed cl then changeWs (set_writing false) else ret tt
      | OnData =>
          match sendBuf cl with
          | [] => ret tt
          | d :: rest => onGateway (onClientObject h (set_sendBuf rest)) ;;! write1 (BinaryMessage d)
          end
      | OnPing =>
          if pinged cl then onGateway (onClientObject h (set_pinged false)) ;;! write1 PingMessage
          else ret tt
      end
  end.

(** ** The endpoint *)

(** What [HandleWS] answers: the refusal, or the claims of the token and the
    client it has made. *)
Definition HandleWS (bufSize : Z) (r : Request) : St (Server US OB * Sys) (Response + Claims * Handle) :=
  let tokenStr := QueryGet r "token" in
  if bool_decide (tokenStr = "") then ret (inl (httpError "missing token" StatusUnauthorized))
  else
    let! sv := getX in
    let! res := onSvRouter (ValidateToken (sv_jwtMgr sv) tokenStr) in
    match res with
    | inl err => ret (inl (httpError ("invalid token: " +:+ TokenErr_text err) StatusUnauthorized))
    | inr claims =>
        match Upgrade (checkOrigin (sv_allowedOrigins sv) (rq_Origin r)) r with
        | Some resp => ret (inl resp)
        | None =>
            let! h := onSvRouter (newClient (c_UID claims) (c_Username claims) bufSize) in
            ret (inr (claims, h))
        end
    end.

(** ** Interleavings *)

(** What the rest of the gateway does meanwhile: routing any message of anyone,
    connecting and disconnecting others, checking heartbeats. *)
Inductive other (h : Handle) : M unit -> Prop :=
| OtherRoute h' m : other h (Route unmarshalError h' m)
| OtherSend h' m : other h (send_ h' m)
| OtherNew uid name n : other h (let! _ := newClient uid name n in ret tt)
| OtherRegister h' : h_id h' <> h_id h -> other h (onClients (Register h'))
| OtherDisconnect h' : h_id h' <> h_id h -> other h (disconnect h')
| OtherClose h' : other h (onClients (CloseClient h'))
| OtherHeartbeat h' t : other h (setHeartbeat h' t)
| OtherTime : other h (let! _ := Now in ret tt).

(** What the reader's next turn gets from the connection. *)
Definition incoming (cfg : GatewayConnConfig) (w : Wire) (r : Router) (s : Sys) : Incoming :=
  (ReadMessage (connClosed w r) (co_MaxMsgSize cfg) (ws_readDeadline w) (ws_conn w, s)).1.
Definition isPong (i : Incoming) : bool := match i with InPong => true | _ => false end.

(** Notes the turn that led from [s] to [p]. *)
Definition noted (b : bool) (s : Sys) (p : (Wire * Router) * Sys) : (Wire * Router) * Sys :=
  let '((w, r), s') := p in
  if b then ((mkWs (ws_client w) (ws_conn w) (ws_phase w) (ws_readDeadline w)
    ((sys_tick s, sys_tick s') :: ws_pongs w) (ws_pinging w) (ws_writing w) (ws_out w) (ws_lost w), r), s') else p.

Inductive ws_step (claims : Claims) (cfg : GatewayConnConfig) :
  (Wire * Router) * Sys -> (Wire * Router) * Sys -> Prop :=
| StepRegister w r s : ws_phase w = Opening -> ws_step claims cfg (w, r, s) (registerTurn (w, r, s)).2
| StepGreet w r s : ws_phase w = Greeting ->
    ws_step claims cfg (w, r, s) (noted true s (greetTurn claims cfg (w, r, s)).2)
| StepRead w r s : ws_phase w = Reading ->
    ws_step claims cfg (w, r, s) (noted (isPong (incoming cfg w r s)) s (readTurn cfg (w, r, s)).2)
| StepPing w r s : ws_pinging w = true -> ws_step claims cfg (w, r, s) (pingTurn (w, r, s)).2
| StepPingStop w r s : ws_pinging w = true -> pingStops w r = true ->
    ws_step claims cfg (w, r, s) (set_pinging false w, r, s)
| StepWrite c w r s : ws_writing w = true -> ws_step claims cfg (w, r, s) (writeTurn c (w, r, s)).2
| StepOther m w r s : other (ws_client w) m -> ws_step claims cfg (w, r, s) (onGateway m (w, r, s)).2.

End WebSocket.
