(* ===== verification/WebSocketFacts.v ===== *)
(** * One WebSocket connection among all others

    The invariant of a run of [ws_step], and what follows from it. *)

From S2P Require Import Prelude Proto Snowflake Process Client Hub HashRing Dedup RateLimiter.
From S2P Require Import Unread GroupStore Json Stores LogicClient Producer RouterState RouterDelivery.
From S2P Require Import RouterChat RouterGroup Jwt Http Config Router RouterFrame RouterInv RouterChatFacts.
From S2P Require Import Session WebSocket.

(** The data frames among those on the wire. *)
Definition dataOf (fs : list Frame) : list bytes :=
  omap (fun f => match f with BinaryMessage d => Some d | PingMessage => None end) fs.

Lemma dataOf_app fs fs' : dataOf (fs ++ fs') = dataOf fs ++ dataOf fs'.
Proof. apply omap_app. Qed.

Section Facts.
Context {E : Env} {CD : Codec} {B : Backends E} {J : JwtLib}.
Context {C : Type} {WL : WsLib C} {LW : WsLaws E C}.
Context (err : string -> string) (claims : Claims) (cfg : GatewayConnConfig).
Context (h : Handle) (c0 : Client).

Abbreviation Wire := (Ws C).

(** ** The client's object: every change of it is one [conn_reach] allows *)

Section Object.
Context (run : bool) (out lost : list bytes).

(** [out] and [lost] are the data written and lost so far. *)
Definition object_ok (c : Client) : Prop :=
  closed c = transportClosed c /\ exists acc, conn_reach c0 (mkWriter c run out lost) acc.

Lemma object_Send m c s : object_ok c -> object_ok (Send m (c, s)).2.1.
Proof.
  intros [Hc [acc Hr]]. destruct (Send m (c, s)) as [e [c' s']] eqn:He. cbn [fst snd].
  split.
  - apply Send_inv in He as [He _]. by destruct He.
  - destruct e as [e|].
    + exists acc. by apply (reach_send_err c0 _ acc m s c' s' e Hr).
    + destruct (Send_inv _ _ _ _ _ _ He) as [Hres _]. inversion Hres as [| | |d Hd Hl]; subst.
      exists (acc ++ [d]). by apply (reach_send_ok c0 _ acc m s _ s' d Hr).
Qed.

Lemma object_Close c : object_ok c -> object_ok (Close c).
Proof.
  intros [Hc [acc Hr]]. split; [unfold Close; destruct (closed c) eqn:Hcl; [by rewrite Hcl|done]|].
  exists acc. by apply (reach_close c0 _ acc Hr).
Qed.

Lemma object_SendPing c : object_ok c -> object_ok (SendPing c).
Proof. intros [Hc [acc Hr]]. split; [done|]. exists acc. by apply (reach_ping c0 _ acc Hr). Qed.

Lemma object_SetHeartbeat t c : object_ok c -> object_ok (SetHeartbeat t c).
Proof. intros [Hc [acc Hr]]. split; [done|]. exists acc. by apply (reach_heartbeat c0 _ acc t Hr). Qed.

(** The object in the heap; [ended]: it is closed. *)
Definition heap_ok (ended : bool) (cn : Conn) : Prop :=
  exists c, heap cn !! h_id h = Some c /\ object_ok c /\ (ended = true -> closed c = true).

Lemma heap_onClient {A} ended h' (d : A) (m : St (Client * Sys) A) cn s :
  (forall c s, object_ok c -> object_ok (m (c, s)).2.1) ->
  (forall c s, closed c = true -> closed (m (c, s)).2.1 = true) ->
  heap_ok ended cn -> heap_ok ended (onClient h' d m (cn, s)).2.1.
Proof.
  intros Hm Hk (c & Hc & Ho & He). unfold onClient.
  destruct (heap cn !! h_id h') as [c'|] eqn:Hc'; [|by exists c].
  specialize (Hm c' s). specialize (Hk c' s). destruct (m (c', s)) as [a [c'' s'']]. cbn [fst snd] in *.
  destruct (decide (h_id h' = h_id h)) as [Heq|Hne].
  - exists c''. cbn. rewrite Heq, lookup_insert_eq. rewrite Heq, Hc in Hc'. simplify_eq. auto.
  - exists c. cbn. rewrite lookup_insert_ne by done. auto.
Qed.

Lemma heap_SendTo ended h' m cn s : heap_ok ended cn -> heap_ok ended (SendTo h' m (cn, s)).2.1.
Proof.
  apply heap_onClient; [intros; by apply object_Send|].
  intros c s' Hc. pose proof (Send_spec m c s') as Hs. destruct (Send m (c, s')) as [e [c' s'']].
  destruct Hs as [Hr _]. apply Send_result_frame in Hr as (_ & _ & Hr). cbn. by rewrite Hr.
Qed.

Lemma heap_CloseClient ended h' cn s : heap_ok ended cn -> heap_ok ended (CloseClient h' (cn, s)).2.1.
Proof.
  apply heap_onClient; cbn; [intros; by apply object_Close|]. intros c _ _. apply Close_closed.
Qed.

(** Closing this client ends it. *)
Lemma heap_CloseThis ended cn s : heap_ok ended cn -> heap_ok true (CloseClient h (cn, s)).2.1.
Proof.
  intros (c & Hc & Ho & _). unfold CloseClient, onClient. rewrite Hc. cbn. exists (Close c). cbn.
  rewrite lookup_insert_eq. split; [done|]. split; [by apply object_Close|]. intros _. apply Close_closed.
Qed.

(** ** The registry *)

(** Users are registered under their own uid, and this connection only while
    [reg]; a registered handle with its address is it. *)
Definition registry_ok (reg : bool) (cn : Conn) : Prop :=
  forall u h', Hub.clients cn !! u = Some h' ->
    h_uid h' = u /\ (h_id h' = h_id h -> h' = h /\ reg = true).

Definition conn_ok (reg ended : bool) (p : Router * Sys) : Prop :=
  heap_ok ended (clients p.1) /\ registry_ok reg (clients p.1).

Lemma conn_ok_Route reg ended h' m : preserves (conn_ok reg ended) (Route err h' m).
Proof.
  assert (Hsend : stable_send (conn_ok reg ended)).
  { split; try inert.
    - intros k m'. apply preserves_zoom. intros r s [Hh Hr]. split; [by apply heap_SendTo|].
      destruct (SendTo_ext k m' (clients r) s) as [He _].
      unfold registry_ok. cbn [fst clients set_clients]. by rewrite (ext_registry _ _ He).
    - intros m' _. apply preserves_update. intros r s H. exact H.
    - intros [r s] H. unfold NextID. by destruct (Next E (sys_snow s) (sys_tick s)) as [[? ?] ?].
    - intros [r s] H. exact H. }
  apply Route_stable; [split; [exact Hsend|inert..]|].
  intros c. apply preserves_update. intros r s H. exact H.
Qed.

Lemma conn_ok_clients {A} reg ended (m : St (Conn * Sys) A) :
  (forall cn s, heap_ok ended cn -> registry_ok reg cn ->
     heap_ok ended (m (cn, s)).2.1 /\ registry_ok reg (m (cn, s)).2.1) ->
  preserves (conn_ok reg ended) (onClients m).
Proof. intros Hm. apply preserves_zoom. intros r s [Hh Hr]. by apply Hm. Qed.

(** A change of one object leaves the registry. *)
Lemma onClient_clients {A} h' (d : A) m cn s :
  Hub.clients (onClient h' d m (cn, s)).2.1 = Hub.clients cn.
Proof. unfold onClient. destruct (heap cn !! h_id h') as [c|]; [|done]. by destruct (m (c, s)) as [a [c' s']]. Qed.

Lemma ws_registry_same reg cn cn' :
  Hub.clients cn' = Hub.clients cn -> registry_ok reg cn -> registry_ok reg cn'.
Proof. unfold registry_ok. by intros ->. Qed.

Lemma conn_ok_send reg ended h' m : preserves (conn_ok reg ended) (send_ h' m).
Proof.
  apply preserves_bind; [|intros; apply preserves_ret]. apply conn_ok_clients. intros cn s Hh Hr.
  split; [by apply heap_SendTo|]. eapply ws_registry_same; [apply onClient_clients|exact Hr].
Qed.

Lemma conn_ok_object reg ended h' (f : Client -> Client) :
  (forall c, object_ok c -> object_ok (f c)) -> (forall c, closed c = true -> closed (f c) = true) ->
  preserves (conn_ok reg ended) (onClients (onClient h' tt (modify (fun '(c, s) => (f c, s))))).
Proof.
  intros Hf Hk. apply conn_ok_clients. intros cn s Hh Hr. split.
  - apply heap_onClient; cbn; auto.
  - eapply ws_registry_same; [apply onClient_clients|exact Hr].
Qed.

Lemma ws_registry_Register reg cn s h' :
  (h_id h' = h_id h -> h' = h /\ reg = true) -> registry_ok reg cn ->
  registry_ok reg (RegisterLocked h' (cn, s)).2.1.
Proof.
  intros Hh Hr. destruct (RegisterLocked h' (cn, s)) as [o [cn' s']] eqn:Ho. cbn [fst snd].
  apply RegisterLocked_inv in Ho as (_ & _ & Ho). intros u k.
  assert (Hins : Hub.clients cn' = <[h_uid h' := h']> (Hub.clients cn) \/ Hub.clients cn' = Hub.clients cn)
    by (destruct o; naive_solver).
  destruct Hins as [->| ->]; [|apply Hr]. rewrite lookup_insert_Some.
  intros [[<- <-]|[_ Hk]]; [done|by apply Hr].
Qed.

Lemma conn_ok_Register reg ended h' :
  (h_id h' = h_id h -> h' = h /\ reg = true) -> preserves (conn_ok reg ended) (onClients (Register h')).
Proof.
  intros Hh. apply conn_ok_clients. intros cn s Ho Hr. unfold Register. rewrite bind_run.
  assert (H1 : heap_ok ended (RegisterLocked h' (cn, s)).2.1).
  { destruct (RegisterLocked h' (cn, s)) as [o [cn' s']] eqn:E1. apply RegisterLocked_inv in E1 as (Hp & _).
    unfold heap_ok. cbn. by rewrite Hp. }
  pose proof (ws_registry_Register reg cn s h' Hh Hr) as H2.
  destruct (RegisterLocked h' (cn, s)) as [o [cn' s']]. cbn [fst snd] in *.
  destruct (toKick h' o) as [[k content]|]; [|done]. unfold KickAndClose. rewrite bind_run.
  pose proof (heap_SendTo ended k (kickMessage content) cn' s' H1) as H3.
  pose proof (onClient_clients k (Some ErrClientClosed) (Send (kickMessage content)) cn' s') as H4.
  fold (SendTo k (kickMessage content)) in H4.
  destruct (SendTo k (kickMessage content) (cn', s')) as [e [cn2 s2]]. cbn [fst snd] in *.
  split; [by apply heap_CloseClient|].
  eapply ws_registry_same; [apply onClient_clients|]. by eapply ws_registry_same.
Qed.

Lemma registry_Unregister reg cn s h' :
  registry_ok reg cn -> registry_ok reg (Unregister h' (cn, s)).2.1.
Proof.
  intros Hr. unfold Unregister, modify. cbn. destruct (Hub.clients cn !! h_uid h') as [k|]; [|done].
  destruct (decide _); [|done]. intros u k'. cbn. intros [_ Hk]%lookup_delete_Some. by apply Hr.
Qed.

Lemma registry_UnregisterThis reg cn s :
  registry_ok reg cn -> registry_ok false (Unregister h (cn, s)).2.1.
Proof.
  intros Hr. unfold Unregister, modify. cbn. intros u k Hk.
  assert (Hin : Hub.clients cn !! u = Some k /\ k <> h).
  { revert Hk. destruct (Hub.clients cn !! h_uid h) as [e|] eqn:He.
    - destruct (decide (e = h)) as [->|Hne]; cbn.
      + rewrite lookup_delete_Some. intros [Hu Hk]. split; [done|]. intros ->.
        by destruct (Hr _ _ Hk).
      + intros Hk. split; [done|]. intros ->. destruct (Hr _ _ Hk) as [<- _]. naive_solver.
    - intros Hk. split; [done|]. intros ->. destruct (Hr _ _ Hk) as [<- _]. naive_solver. }
  destruct Hin as [Hin Hne]. destruct (Hr _ _ Hin) as [Hu Hid]. split; [done|].
  intros Heq. by destruct (Hid Heq).
Qed.

Lemma Unregister_heap h' cn s : heap (Unregister h' (cn, s)).2.1 = heap cn.
Proof. unfold Unregister, modify. cbn. destruct (Hub.clients cn !! h_uid h'); [|done]. by destruct (decide _). Qed.

Lemma conn_ok_disconnect reg ended h' : preserves (conn_ok reg ended) (disconnect h').
Proof.
  apply conn_ok_clients. intros cn s Ho Hr. rewrite bind_run.
  pose proof (registry_Unregister reg cn s h' Hr) as H1. pose proof (Unregister_heap h' cn s) as H2.
  destruct (Unregister h' (cn, s)) as [u [cn' s']]. cbn [fst snd] in *. split.
  - apply heap_CloseClient. unfold heap_ok. by rewrite H2.
  - eapply ws_registry_same; [apply onClient_clients|done].
Qed.

(** The reader's cleanup. *)
Lemma conn_ok_wsClose reg ended p : conn_ok reg ended p -> conn_ok false true (wsClose h p).2.
Proof.
  destruct p as [r s]. intros [Ho Hr]. unfold wsClose, disconnect, onClients, zoom. cbn [fst] in *.
  rewrite bind_run.
  pose proof (registry_UnregisterThis reg (clients r) s Hr) as H1. pose proof (Unregister_heap h (clients r) s) as H2.
  destruct (Unregister h (clients r, s)) as [u [cn' s']]. cbn [fst snd] in *.
  assert (H3 : heap_ok true (CloseClient h (cn', s')).2.1).
  { apply (heap_CloseThis ended). unfold heap_ok. by rewrite H2. }
  pose proof (onClient_clients h tt (modify (fun '(cl, s) => (Close cl, s))) cn' s') as H4.
  fold (CloseClient h) in H4. destruct (CloseClient h (cn', s')) as [u' [cn2 s2]]. cbn [fst snd] in *.
  split; [exact H3|]. by eapply ws_registry_same.
Qed.

Lemma conn_ok_newClient reg ended uid name n :
  preserves (conn_ok reg ended) (let! _ := newClient uid name n in ret tt).
Proof.
  apply preserves_bind; [|intros; apply preserves_ret]. intros [r s] [(c & Hc & Ho) Hr]. split; [|exact Hr].
  exists c. cbn. rewrite lookup_insert_ne; [done|]. intros Heq.
  apply (is_fresh (dom (heap (clients r)))). rewrite Heq. by apply elem_of_dom.
Qed.

Lemma conn_ok_setHeartbeat reg ended h' t : preserves (conn_ok reg ended) (setHeartbeat h' t).
Proof. apply conn_ok_object; [intros; by apply object_SetHeartbeat|done]. Qed.

Lemma conn_ok_Now reg ended : preserves (conn_ok reg ended) Now.
Proof. intros [r s] H. exact H. Qed.

Lemma conn_ok_other reg ended m : other err h m -> preserves (conn_ok reg ended) m.
Proof.
  intros [h' msg|h' msg|uid name n|h' Hne|h' Hne|h'|h' t|].
  - apply conn_ok_Route.
  - apply conn_ok_send.
  - apply conn_ok_newClient.
  - apply conn_ok_Register. done.
  - apply conn_ok_disconnect.
  - apply conn_ok_clients. intros cn s Ho Hr. split; [by apply heap_CloseClient|].
    eapply ws_registry_same; [apply onClient_clients|done].
  - apply conn_ok_setHeartbeat.
  - apply preserves_bind; [apply conn_ok_Now|intros; apply preserves_ret].
Qed.

Lemma conn_ok_wsRead reg ended raw : preserves (conn_ok reg ended) (wsRead err h raw).
Proof.
  apply preserves_bind; [apply conn_ok_Now|]. intros now.
  apply preserves_bind; [apply conn_ok_setHeartbeat|]. intros _.
  destruct (unmarshal raw) as [msg|]; [|apply preserves_ret].
  apply preserves_bind; [|intros m; apply conn_ok_Route]. unfold stampIncoming. cbv zeta.
  destruct (_ =? 0); [|apply preserves_ret].
  apply preserves_bind; [|intros; apply preserves_ret].
  apply preserves_bind; [apply conn_ok_Now|intros; apply preserves_ret].
Qed.

End Object.

(** ** The connection *)

(** The write loop as [conn_reach] has it: running until it has returned. *)
Definition running (w : Wire) : bool :=
  match ws_phase w with Opening | Greeting => true | _ => ws_writing w end.

(** Between registering and the end of its reader the connection may be in the
    registry. *)
Definition stillRegistered (w : Wire) : bool :=
  match ws_phase w with Greeting | Reading => true | _ => false end.

Definition started (w : Wire) : Prop := ws_phase w = Reading \/ ws_phase w = Ended.

(** The read deadline was set in the turn noted as [t]. *)
Definition deadline_in (t : nat * nat) (w : Wire) : Prop :=
  exists n, (t.1 <= n < t.2)%nat /\ ws_readDeadline w = readings E n + co_PongWait cfg.

Record wire_ok (w : Wire) : Prop := mkWireOk {
  wo_client : ws_client w = h;
  wo_early : ~ started w -> ws_writing w = false /\ ws_pinging w = false /\ ws_pongs w = [];
  wo_deadline : started w ->
    match ws_pongs w with t :: _ => deadline_in t w | [] => False end
}.

Definition gate_ok (w : Wire) (p : Router * Sys) : Prop :=
  conn_ok (running w) (dataOf (ws_out w)) (dataOf (ws_lost w)) (stillRegistered w)
    (bool_decide (ws_phase w = Ended)) p.

Definition ws_inv (p : (Wire * Router) * Sys) : Prop := wire_ok p.1.1 /\ gate_ok p.1.1 (p.1.2, p.2).

(** The rest of the gateway, seen from the connection. *)
Lemma onGateway_inv {A} (m : M A) w r s :
  (forall run out lost reg ended, preserves (conn_ok run out lost reg ended) m) ->
  ws_inv (w, r, s) -> ws_inv (onGateway m (w, r, s)).2.
Proof.
  intros Hm [Hw Hg]. unfold onGateway. specialize (Hm _ _ _ _ _ (r, s) Hg).
  destruct (m (r, s)) as [a [r' s']]. by split.
Qed.

Lemma conn_ok_weaken run out lost ended p :
  conn_ok run out lost false ended p -> conn_ok run out lost true ended p.
Proof.
  intros [Hh Hr]. split; [done|]. intros u k Hk. destruct (Hr u k Hk) as [Hu Hi]. split; [done|].
  intros Heq. by destruct (Hi Heq).
Qed.

Lemma onGateway_run {A} (m : M A) (w : Wire) r s :
  onGateway m (w, r, s) = ((m (r, s)).1, (w, (m (r, s)).2.1, (m (r, s)).2.2)).
Proof. unfold onGateway. by destruct (m (r, s)) as [a [r' s']]. Qed.

Lemma registerTurn_inv w r s :
  ws_phase w = Opening -> ws_inv (w, r, s) -> ws_inv (registerTurn (w, r, s)).2.
Proof.
  intros Hp [[Hc He Hd] Hg]. unfold registerTurn. rewrite bind_run. cbn [fst snd getX gets].
  rewrite bind_run, onGateway_run. cbn [fst snd] in *.
  unfold gate_ok, running, stillRegistered in Hg. rewrite Hp in Hg. rewrite Hc in *.
  apply conn_ok_weaken in Hg.
  apply (conn_ok_Register _ _ _ true _ h ltac:(done) (r, s)) in Hg.
  destruct (onClients (Register h) (r, s)) as [u [r' s']]. cbn [fst snd] in *.
  split; [|exact Hg]. split; [done| |]; unfold started; cbn; intros H.
  - apply He. unfold started. rewrite Hp. by intros [].
  - by destruct H.
Qed.

Lemma noted_false s (p : (Wire * Router) * Sys) : noted false s p = p.
Proof. by destruct p as [[w r] s']. Qed.

Lemma noted_out b s (p : (Wire * Router) * Sys) : ws_out (noted b s p).1.1 = ws_out p.1.1.
Proof. destruct p as [[w r] s']. by destruct b. Qed.

(** Sending and noting a heartbeat do not turn the clock back. *)
Lemma object_clock {A} h' (d : A) m (p : Router * Sys) :
  (forall c s, (sys_tick s <= sys_tick (m (c, s)).2.2)%nat) ->
  (sys_tick p.2 <= sys_tick (onClients (onClient h' d m) p).2.2)%nat.
Proof.
  intros Hm. destruct p as [r s]. unfold onClients, zoom, onClient. destruct (heap (clients r) !! h_id h') as [c|]; [|done].
  specialize (Hm c s). by destruct (m (c, s)) as [a [c' s']].
Qed.

Lemma send__clock h' m (p : Router * Sys) : (sys_tick p.2 <= sys_tick (send_ h' m p).2.2)%nat.
Proof.
  unfold send_. rewrite bind_snd. apply (object_clock h' (Some ErrClientClosed) (Send m)). intros c s.
  pose proof (Send_spec m c s) as Hs. destruct (Send m (c, s)) as [e [c' s']]. apply Hs.
Qed.

Lemma greetTurn_inv w r s :
  ws_phase w = Greeting -> ws_inv (w, r, s) -> ws_inv (noted true s (greetTurn claims cfg (w, r, s)).2).
Proof.
  intros Hp [[Hc He Hd] Hg]. unfold greetTurn. rewrite bind_run. cbn [fst snd getX gets].
  rewrite bind_run, onGateway_run. cbn [fst snd] in *. rewrite bind_run, onGateway_run. cbn [fst snd].
  rewrite bind_run, onGateway_run, bind_run. cbn [fst snd].
  unfold gate_ok, running, stillRegistered in Hg. rewrite Hp in Hg. rewrite Hc in *.
  match goal with |- context [send_ h ?m ?p] =>
    assert (Hg' : conn_ok true (dataOf (ws_out w)) (dataOf (ws_lost w)) true false (send_ h m p).2)
      by (apply conn_ok_send; exact Hg); pose proof (send__clock h m p) as Hclk; destruct (send_ h m p) as [u [r' s']] end.
  cbn [fst snd] in *. split; [|exact Hg'].
  split; [done| |]; unfold started; cbn; intros H; [by destruct H; left|].
  exists (sys_tick s'). cbn in *. split; [lia|done].
Qed.

Lemma onConn_run {A} (m : St (C * Sys) A) (w : Wire) (r : Router) s :
  onConn m (w, r, s) =
  ((m (ws_conn w, s)).1, (set_wsconn (m (ws_conn w, s)).2.1 w, r, (m (ws_conn w, s)).2.2)).
Proof. unfold onConn. by destruct (m (ws_conn w, s)) as [a [c' s']]. Qed.

Lemma readTurn_inv w r s :
  ws_phase w = Reading -> ws_inv (w, r, s) ->
  ws_inv (noted (isPong (incoming cfg w r s)) s (readTurn err cfg (w, r, s)).2).
Proof.
  intros Hp [[Hc He Hd] Hg]. unfold readTurn, incoming. rewrite bind_run. cbn [fst snd getX gets].
  cbn [fst snd] in *. rewrite Hc in *.
  assert (Hst : started w) by by left.
  unfold gate_ok, running, stillRegistered in Hg. rewrite Hp in Hg.
  rewrite bind_run, onConn_run. cbn [fst snd].
  pose proof (read_clock (connClosed w r) (co_MaxMsgSize cfg) (ws_readDeadline w) (ws_conn w) s) as Hclk.
  destruct (ReadMessage _ _ _ _) as [inc [c' s']]. cbn [fst snd] in *.
  destruct inc as [raw| |u]; cbn [isPong]; rewrite ?noted_false.
  - apply onGateway_inv; [intros; apply conn_ok_wsRead|].
    split; [by split|]. unfold gate_ok, running, stillRegistered. cbn. rewrite Hp. exact Hg.
  - rewrite bind_run, onGateway_run, bind_run. cbn [fst snd changeWs modify].
    rewrite bind_run, onGateway_run. cbn [fst snd]. rewrite onGateway_run. cbn [Now fst snd ret].
    match goal with |- context [setHeartbeat h ?t ?p] =>
      pose proof (conn_ok_setHeartbeat _ _ _ _ _ h t p Hg) as Hg';
      pose proof (object_clock h tt (modify (fun '(c, s) => (SetHeartbeat t c, s))) p ltac:(done)) as Hclk2;
      fold (setHeartbeat h t) in Hclk2; destruct (setHeartbeat h t p) as [u [r2 s2]] end.
    cbn [fst snd] in *. split; [|unfold gate_ok, running, stillRegistered; cbn; rewrite Hp; exact Hg'].
    split; [done| |]; cbn; intros H; [by destruct H|]. exists (sys_tick s'). cbn in *. split; [lia|done].
  - rewrite bind_run. cbn [changeWs modify fst snd]. rewrite onGateway_run. cbn [fst snd].
    split; [split; [done| |]; cbn; unfold started; cbn; intros H; [by destruct H; right|by apply Hd]|].
    pose proof (conn_ok_wsClose _ _ _ _ _ (r, s') Hg) as H2.
    destruct (wsClose h (r, s')) as [x [r2 s2]]. exact H2.
Qed.

(** What a write does: the frame is on the wire, or lost with the write loop. *)
Lemma write1_run f (w : Wire) (r : Router) s : exists c' s' b, (write1 f (w, r, s)).2 =
  ((if b : bool then wrote f (set_wsconn c' w) else set_writing false (failedWrite f (set_wsconn c' w)), r), s').
Proof.
  unfold write1, transportWrite. rewrite !bind_run. cbn [fst snd getX gets].
  rewrite onGateway_run. cbn [fst snd]. rewrite onConn_run. cbn [fst snd].
  destruct (WriteMessage _ _ _ _) as [[e|] [c' s']]; cbn; [by exists c', s', false|by exists c', s', true].
Qed.

(** A step of the write loop on the object in the heap. *)
Lemma conn_ok_write out lost out' lost' run' reg ended (f : Client -> Client) r s c :
  heap (clients r) !! h_id h = Some c ->
  WriteLoop_step (mkWriter c true out lost) (mkWriter (f c) run' out' lost') ->
  closed (f c) = closed c -> transportClosed (f c) = transportClosed c ->
  conn_ok true out lost reg ended (r, s) ->
  conn_ok run' out' lost' reg ended (onClientObject h f (r, s)).2.
Proof.
  intros Hl Hs H1 H2 [(c' & Hc & [Ho [acc Hr]] & He) Hg]. cbn [fst] in *. rewrite Hl in Hc. simplify_eq.
  unfold onClientObject, onClients, zoom, onClient. rewrite Hl. cbn. split; [|exact Hg].
  exists (f c'). cbn. rewrite lookup_insert_eq. split; [done|]. split; [|by rewrite H1].
  split; [by rewrite H1, H2|]. exists acc. by apply (reach_write c0 _ _ acc Hr).
Qed.

Lemma pingTurn_inv w r s : ws_inv (w, r, s) -> ws_inv (pingTurn (w, r, s)).2.
Proof.
  intros H. unfold pingTurn. rewrite bind_run. cbn [fst snd getX gets]. apply onGateway_inv; [|done].
  intros. apply conn_ok_object; [intros; by apply object_SendPing|done].
Qed.

(** Taking [f] off the client, to write the frame [fr]; the two steps of the loop
    it can be. *)
Lemma write_case w r s c fr (g : Client -> Client) :
  ws_writing w = true -> started w -> ws_inv (w, r, s) ->
  heap (clients r) !! h_id h = Some c -> closed (g c) = closed c -> transportClosed (g c) = transportClosed c ->
  (forall out lost, WriteLoop_step (mkWriter c true out lost) (mkWriter (g c) true (out ++ dataOf [fr]) lost)) ->
  (forall out lost, WriteLoop_step (mkWriter c true out lost) (mkWriter (g c) false out (lost ++ dataOf [fr]))) ->
  ws_inv ((onGateway (onClientObject h g) ;;! write1 fr) (w, r, s)).2.
Proof.
  intros Hw Hst [[Hc He Hd] Hg] Hl H1 H2 Hok Hko. unfold gate_ok in Hg. cbn [fst snd] in *.
  assert (Hrun : running w = true) by (unfold running; by destruct (ws_phase w)). rewrite Hrun in Hg.
  rewrite bind_run, onGateway_run. cbn [fst snd].
  pose proof (conn_ok_write _ _ _ _ _ _ _ g r s c Hl (Hok _ _) H1 H2 Hg) as Ho.
  pose proof (conn_ok_write _ _ _ _ _ _ _ g r s c Hl (Hko _ _) H1 H2 Hg) as Hn.
  destruct (onClientObject h g (r, s)) as [u [r' s']]. cbn [fst snd] in *.
  destruct (write1_run fr w r' s') as (c' & s2 & b & ->).
  destruct b; (split; [split; [done| |]; cbn; unfold started; cbn; intros H; [by destruct H|by apply Hd]|]);
    unfold gate_ok; cbn [fst snd].
  - replace (running (wrote fr (set_wsconn c' w))) with (running w) by done.
    rewrite Hrun. cbn [ws_out ws_lost wrote set_wsconn]. rewrite dataOf_app. exact Ho.
  - replace (running (set_writing false (failedWrite fr (set_wsconn c' w)))) with false
      by (unfold running; cbn; by destruct Hst as [-> | ->]).
    cbn [ws_out ws_lost set_writing failedWrite set_wsconn]. rewrite dataOf_app. exact Hn.
Qed.

Lemma writeTurn_inv x w r s :
  ws_writing w = true -> ws_inv (w, r, s) -> ws_inv (writeTurn x (w, r, s)).2.
Proof.
  intros Hw Hi. assert (Hst : started w).
  { destruct Hi as [[_ He _] _]. cbn [fst] in He. unfold started in *.
    destruct (ws_phase w); try tauto; destruct He as (He & _); try congruence; by intros []. }
  assert (Hc : ws_client w = h) by apply Hi.
  unfold writeTurn. rewrite bind_run. cbn [fst snd getX gets]. unfold clientOf. rewrite Hc.
  destruct (heap (clients r) !! h_id h) as [c|] eqn:Hl; [|done].
  destruct x.
  - destruct (closed c) eqn:Hcl; [|done]. destruct Hi as [[_ He Hd] Hg]. cbn [fst snd changeWs modify] in *.
    split; [split; [done| |]; cbn; unfold started; cbn; intros H; [by destruct H|by apply Hd]|].
    unfold gate_ok in *. cbn [fst snd ws_out ws_lost set_writing ws_phase].
    replace (running (set_writing false w)) with false by (unfold running; cbn; by destruct Hst as [-> | ->]).
    assert (Hrun : running w = true) by (unfold running; by destruct (ws_phase w)). rewrite Hrun in Hg.
    pose proof (conn_ok_write _ _ _ _ _ _ _ id r s c Hl (WL_closed c _ _ Hcl) eq_refl eq_refl Hg) as Hn.
    unfold onClientObject, onClients, zoom, onClient in Hn. rewrite Hl in Hn. cbn in Hn.
    destruct Hn as [(c' & Hc' & Ho & Hce) Hr]. split; [|exact Hr].
    exists c'. cbn in Hc'. rewrite lookup_insert_eq in Hc'. by simplify_eq.
  - destruct (sendBuf c) as [|d rest] eqn:Hb; [done|].
    apply write_case with c; try done; intros; cbn; by constructor.
  - destruct (pinged c) eqn:Hp; [|done].
    apply write_case with c; try done; intros; cbn; rewrite app_nil_r; by constructor.
Qed.

Lemma ws_step_inv p p' : ws_step err claims cfg p p' -> ws_inv p -> ws_inv p'.
Proof.
  intros Hs Hi. destruct Hs as [w r s Hp|w r s Hp|w r s Hp|w r s Hp|w r s Hp Hq|x w r s Hp|m w r s Hm].
  - by apply registerTurn_inv.
  - by apply greetTurn_inv.
  - by apply readTurn_inv.
  - by apply pingTurn_inv.
  - destruct Hi as [[Hc He Hd] Hg]. split; [|exact Hg]. split; [done| |done].
    cbn [fst] in *. intros H. destruct (He H) as (H1 & _ & H3). done.
  - by apply writeTurn_inv.
  - apply onGateway_inv; [|done]. intros. apply conn_ok_other.
    replace h with (ws_client w); [done|apply Hi].
Qed.

Lemma ws_steps_inv p p' : rtc (ws_step err claims cfg) p p' -> ws_inv p -> ws_inv p'.
Proof. induction 1 as [|x y z Hxy _ IH]; [done|]. intros Hi. by eapply IH, ws_step_inv. Qed.

(** A new client's connection. *)
Definition opened (r : Router) : Prop :=
  heap (clients r) !! h_id h = Some c0 /\ closed c0 = false /\ transportClosed c0 = false /\
  forall u k, Hub.clients (clients r) !! u = Some k -> h_uid k = u /\ h_id k <> h_id h.

Lemma ws_inv_start c r s : opened r -> ws_inv (newWs h c, r, s).
Proof.
  intros (Hc & H1 & H2 & Hr). split.
  - split; [done|done|]. unfold started. cbn. by intros [].
  - unfold gate_ok. cbn. split.
    + exists c0. split; [done|]. split; [|done]. split; [congruence|]. exists []. constructor.
    + intros u k Hk. destruct (Hr u k Hk). split; [done|]. by intros.
Qed.


(** Once the read deadline is past, the reader's next turn ends the connection:
    the client is closed and no longer registered.  So a peer that answers no ping
    is gone within PongWait and one turn, whatever it sends. *)
Theorem ws_silent_peer_ends w r s :
  ws_inv (w, r, s) -> ws_phase w = Reading ->
  (forall n, (sys_tick s <= n)%nat -> ws_readDeadline w < readings E n) ->
  let '((w', r'), s') := (readTurn err cfg (w, r, s)).2 in
  ws_phase w' = Ended /\ isClosed (clients r') h /\
  (forall u, Hub.clients (clients r') !! u <> Some h) /\ pingStops w' r' = true.
Proof.
  intros Hi Hp Hlate. pose proof (readTurn_inv w r s Hp Hi) as Hi'. revert Hi'.
  assert (Hc : ws_client w = h) by apply Hi.
  unfold readTurn, incoming. rewrite bind_run. cbn [fst snd getX gets]. rewrite Hc.
  destruct (read_deadline (connClosed w r) (co_MaxMsgSize cfg) (ws_readDeadline w) (ws_conn w) s Hlate) as [u Hu].
  rewrite bind_run, onConn_run. cbn [fst snd]. rewrite Hu. cbn [isPong]. rewrite noted_false, bind_run. cbn [changeWs modify fst snd].
  rewrite onGateway_run. cbn [fst snd]. destruct (wsClose h (r, _)) as [x [r2 s2]]. cbn [fst snd].
  intros [[_ _ _] [(cl & Hl & _ & He) Hr]]. cbn [fst snd] in *. split; [done|].
  split; [unfold isClosed; rewrite Hl; by apply He|]. split; [|done].
  intros v Hv. destruct (Hr v h Hv) as [_ Hid]. by destruct (Hid eq_refl).
Qed.

(** ** A write loop that has ended *)

(** After an error in a write the loop is over, but nothing closes the client: it
    stays registered and [Send] goes on accepting what is never written. *)
Lemma dead_writer_accepts w r s m d cl :
  ws_phase w = Reading -> ws_writing w = false -> ws_client w = h ->
  clientOf w r = Some cl -> closed cl = false -> hasRoom cl = true -> marshal m = Some d ->
  (sendTo h m (r, s)).1 = None /\
  forall p', ws_step err claims cfg (w, (sendTo h m (r, s)).2.1, (sendTo h m (r, s)).2.2) p' ->
    ws_out p'.1.1 = ws_out w.
Proof.
  intros Hp Hw Hc Hl Hcl Hroom Hm. unfold clientOf in Hl. rewrite Hc in Hl. split.
  - unfold sendTo, onClients, zoom, SendTo, onClient. rewrite Hl. unfold Send. rewrite Hm, bind_run.
    cbn [fst snd getX gets]. by rewrite Hcl, Hroom.
  - destruct (sendTo h m (r, s)) as [e [r1 s1]]. cbn [fst snd]. intros p' Hs.
    inversion Hs as [| |w' r' s' _| | |x w' r' s' Hq|m' w' r' s' _]; subst; try congruence; try done.
    + rewrite noted_out. unfold readTurn. rewrite bind_run. cbn [fst snd getX gets]. rewrite bind_run, onConn_run.
      cbn [fst snd]. destruct (ReadMessage _ _ _ _) as [[raw| |u] [c' s']]; cbn [fst snd].
      * by rewrite onGateway_run.
      * rewrite bind_run, onGateway_run, bind_run. cbn [changeWs modify fst snd].
        rewrite bind_run, onGateway_run. cbn [fst snd]. by rewrite onGateway_run.
      * rewrite bind_run. cbn [changeWs modify fst snd]. by rewrite onGateway_run.
    + unfold pingTurn. rewrite bind_run. cbn [fst snd getX gets]. by rewrite onGateway_run.
    + by rewrite onGateway_run.
Qed.

End Facts.

(** ** The endpoint *)

Section Endpoint.
Context {E : Env} {CD : Codec} {B : Backends E} {J : JwtLib} {UP : Upgrader} {US OB : Type}.

(** C13. A WebSocket is opened only for a request with a token the manager accepts
    and an origin the server allows, for the user of that token and with a client
    of its own; every other request is refused with 401, or as the upgrade says,
    and changes nothing. *)
Theorem ws_endpoint bufSize req (sv : Server US OB) y :
  (forall u k, Hub.clients (clients (sv_router sv)) !! u = Some k ->
     h_uid k = u /\ is_Some (heap (clients (sv_router sv)) !! h_id k)) ->
  let tok := QueryGet req "token" in
  match HandleWS bufSize req (sv, y) with
  | (inl resp, (sv', _)) => sv' = sv /\
      (rs_status resp = StatusUnauthorized \/
       Upgrade (checkOrigin (sv_allowedOrigins sv) (rq_Origin req)) req = Some resp)
  | (inr (claims, h), (sv', _)) =>
      tok <> ""%string /\ checkOrigin (sv_allowedOrigins sv) (rq_Origin req) = true /\
      ParseWithClaims tok (keyFunc (sv_jwtMgr sv)) (readings E (sys_tick y)) = inr (claims, true) /\
      h_uid h = c_UID claims /\
      opened h (NewClient (c_UID claims) (c_Username claims) (Z.to_nat bufSize) (readings E (S (sys_tick y))))
        (sv_router sv') /\
      forall k c, heap (clients (sv_router sv)) !! k = Some c -> heap (clients (sv_router sv')) !! k = Some c
  end.
Proof.
  intros Hreg tok. unfold HandleWS. fold tok. case_bool_decide as Ht; [by split; [|left]|].
  rewrite bind_run. cbn [fst snd getX gets]. unfold onSvRouter at 1. rewrite bind_run.
  unfold ValidateToken. rewrite bind_run. cbn [fst snd Now ret].
  destruct (ParseWithClaims tok (keyFunc (sv_jwtMgr sv)) (readings E (sys_tick y))) as [e|[cl valid]].
  { assert (Hsv : set_sv_router (sv_router sv) sv = sv) by by destruct sv.
    destruct (le_expired e), (le_signature e); cbn; rewrite Hsv; (split; [done|by left]). }
  assert (Hsv : set_sv_router (sv_router sv) sv = sv) by by destruct sv. rewrite Hsv.
  destruct valid; cbn [negb fst snd]; [|split; [done|by left]].
  destruct (checkOrigin (sv_allowedOrigins sv) (rq_Origin req)) eqn:Ho.
  2:{ destruct (upgrade_origin req) as (resp & Hr & _). rewrite Hr. by split; [|right]. }
  destruct (Upgrade true req) as [resp|]; [by split; [|right]|].
  rewrite bind_run. unfold onSvRouter, newClient. rewrite bind_run. cbn [Now fst snd ret sys_tick].
  unfold opened. split_and!; try done.
  - cbn. by rewrite lookup_insert_eq.
  - cbn. intros u k Hk. destruct (Hreg u k Hk) as [Hu Hin]. split; [done|]. intros Heq.
    apply (is_fresh (dom (heap (clients (sv_router sv))))). rewrite <-Heq. by apply elem_of_dom.
  - intros k c Hk. cbn. rewrite lookup_insert_ne; [done|]. intros <-.
    apply (is_fresh (dom (heap (clients (sv_router sv))))). by apply elem_of_dom.
Qed.

End Endpoint.
