(* ===== verification/Lifecycle.v ===== *)
(** * The life of the gateway process (src/cmd/gateway/main.go, [Run], [main], [Close])

    What [Run] starts with which timeouts, and the end of the process as
    interleavings of its goroutines: the one that waits for a signal, the one that
    shuts the servers down, [main] with its deferred [Close], and the handlers of
    requests still in flight.  What is proved: the order in which the resources
    are closed, and that nothing is accepted any more once they are; that the end
    is reached from every state after the signal; and that requests in flight can
    find a database that is closed already. *)

From S2P Require Import Prelude GoStrings Proto Snowflake Process Client Hub HashRing Dedup RateLimiter.
From S2P Require Import Unread GroupStore Json Stores LogicClient Producer RouterState RouterDelivery.
From S2P Require Import RouterChat RouterGroup Jwt Http GoTime Config App Router Framing Session.

(** ** The servers *)

(** A setting that is not positive counts as missing. *)
Definition orDefault (d dflt : Z) : Z := if d <=? 0 then dflt else d.

Record Timeouts := mkTimeouts { to_shutdown : Z; to_read : Z; to_write : Z; to_idle : Z }.

Definition timeoutsOf (st : StabilityConfig) : Timeouts :=
  mkTimeouts (orDefault (st_ShutdownTimeout st) (30 * Second)) (orDefault (st_HTTPReadTimeout st) (10 * Second))
    (orDefault (st_HTTPWriteTimeout st) (10 * Second)) (orDefault (st_HTTPIdleTimeout st) (120 * Second)).

Definition pprofRuns (st : StabilityConfig) : bool :=
  st_PprofEnabled st && negb (bool_decide (st_PprofAddr st = "")).

Definition gnetRuns (cfg : Config) : bool :=
  bool_decide (transportOf cfg = "gnet" \/ transportOf cfg = "both").

(** [StartGNet]: the TCP handler of a server. *)
Definition StartGNet {E : Env} {B : Backends E} {US OB : Type} (cfg : Config) (sv : Server US OB) : GnetHandler :=
  let g := cf_Gateway cfg in
  let size := gn_WorkerPoolSize (gw_GNet g) in
  NewGnetHandler (sv_router sv) (sv_jwtMgr sv) (co_SendBufSize (gw_Conn g))
    (wrap64 (gw_Heartbeat g * gw_HeartbeatFail g)) (if size <=? 0 then 0 else size).

Lemma timeouts_positive st :
  let t := timeoutsOf st in 0 < to_shutdown t /\ 0 < to_read t /\ 0 < to_write t /\ 0 < to_idle t.
Proof.
  cbn. unfold orDefault, Second.
  split_and!; match goal with |- context [?a <=? 0] => destruct (Z.leb_spec a 0) end; lia.
Qed.

(** ** Shutting down *)

(** What [Close] stops or closes, in its order. *)
Inductive Resource := RRouter | RCluster | RForwarder | RGrpcServer | RPprof | RKafka | RLogic | RRedis | RMySQL.

#[export] Instance Resource_eq_dec : EqDecision Resource.
Proof. solve_decision. Defined.

Definition closeOrder : list Resource :=
  [RRouter; RCluster; RForwarder; RGrpcServer; RPprof; RKafka; RLogic; RRedis; RMySQL].

(** [main]: in [ListenAndServe], in the deferred [Close] with what is left to do,
    or gone, with everything else. *)
Inductive MainPc := Serving | Closing (rest : list Resource) | Exited.

(** The goroutine that waits for the context. *)
Inductive ShutdownPc := Waiting | DrainingHTTP | StoppingGnet | ShutdownDone.

(** [inFlight] requests are being handled; [closedRes] is what has been closed, in
    order, and [touched] each use of a resource by a handler with whether it was
    closed by then. *)
Record Proc := mkProc {
  mainPc : MainPc;
  shutdownPc : ShutdownPc;
  cancelled : bool;
  listening : bool;
  gnetUp : bool;
  inFlight : nat;
  closedRes : list Resource;
  touched : list (Resource * bool)
}.

Section Steps.
(** The resources the process has, and whether it runs gnet. *)
Context (has : Resource -> bool) (gnet : bool).

(** [Close] passes over what the process does not have. *)
Definition toClose : list Resource := filter (fun r => has r = true) closeOrder.

#[local] Arguments toClose : simpl never.

Definition started : Proc := mkProc Serving Waiting false true gnet 0 [] [].

Definition alive (p : Proc) : Prop := mainPc p <> Exited.

Inductive proc_step : Proc -> Proc -> Prop :=
| Signal p : alive p ->
    proc_step p (mkProc (mainPc p) (shutdownPc p) true (listening p) (gnetUp p) (inFlight p) (closedRes p) (touched p))
| Accept p : alive p -> listening p = true \/ gnetUp p = true ->
    proc_step p (mkProc (mainPc p) (shutdownPc p) (cancelled p) (listening p) (gnetUp p) (S (inFlight p)) (closedRes p) (touched p))
| Answer p n : alive p -> inFlight p = S n ->
    proc_step p (mkProc (mainPc p) (shutdownPc p) (cancelled p) (listening p) (gnetUp p) n (closedRes p) (touched p))
| Touch p r : alive p -> inFlight p <> O -> has r = true ->
    proc_step p (mkProc (mainPc p) (shutdownPc p) (cancelled p) (listening p) (gnetUp p) (inFlight p) (closedRes p)
      (touched p ++ [(r, bool_decide (r ∈ closedRes p))]))
(** [srv.Shutdown]: the listeners are closed first, and [ListenAndServe] returns. *)
| ShutHTTP p : alive p -> cancelled p = true -> shutdownPc p = Waiting ->
    proc_step p (mkProc (mainPc p) DrainingHTTP true false (gnetUp p) (inFlight p) (closedRes p) (touched p))
(** It returns when the connections are idle, or at the timeout whatever is in
    flight. *)
| HTTPDrained p : alive p -> shutdownPc p = DrainingHTTP ->
    proc_step p (mkProc (mainPc p) StoppingGnet (cancelled p) (listening p) (gnetUp p) (inFlight p) (closedRes p) (touched p))
| GnetStopped p : alive p -> shutdownPc p = StoppingGnet ->
    proc_step p (mkProc (mainPc p) ShutdownDone (cancelled p) (listening p) false (inFlight p) (closedRes p) (touched p))
(** [ListenAndServe] has returned [ErrServerClosed]; the deferred [Close] runs. *)
| RunReturns p : mainPc p = Serving -> listening p = false ->
    proc_step p (mkProc (Closing toClose) (shutdownPc p) (cancelled p) (listening p) (gnetUp p) (inFlight p) (closedRes p) (touched p))
(** It fails for another reason: [log.Fatalf] exits without [Close]. *)
| RunFails p : mainPc p = Serving -> listening p = true ->
    proc_step p (mkProc Exited (shutdownPc p) (cancelled p) false (gnetUp p) (inFlight p) (closedRes p) (touched p))
| CloseNext p r rest : mainPc p = Closing (r :: rest) ->
    proc_step p (mkProc (Closing rest) (shutdownPc p) (cancelled p) (listening p) (gnetUp p) (inFlight p)
      (closedRes p ++ [r]) (touched p))
| Exit p : mainPc p = Closing [] ->
    proc_step p (mkProc Exited (shutdownPc p) (cancelled p) (listening p) (gnetUp p) (inFlight p) (closedRes p) (touched p)).

Definition reach (p : Proc) : Prop := rtc proc_step started p.

(** ** What every run keeps *)

Record proc_inv (p : Proc) : Prop := mkProcInv {
  pi_order : match mainPc p with
             | Serving => closedRes p = []
             | Closing rest => closedRes p ++ rest = toClose
             | Exited => closedRes p = [] \/ closedRes p = toClose
             end;
  pi_listening : match mainPc p with Closing _ => listening p = false | _ => True end;
  pi_signal : shutdownPc p <> Waiting -> cancelled p = true /\ listening p = false;
  pi_serving : mainPc p = Serving -> listening p = false -> shutdownPc p <> Waiting
}.

Lemma proc_step_inv p p' : proc_step p p' -> proc_inv p -> proc_inv p'.
Proof.
  intros Hs [H1 H2 H3 H4]. destruct Hs; destruct p; cbn in *; subst; cbn in *; split; cbn; intros;
    try done; try (by apply H3); try (by apply H4); auto.
  - split; [done|]. by apply H3.
  - by destruct mainPc0.
  - split; [by apply H3|done].
  - by rewrite <-app_assoc.
  - right. by rewrite app_nil_r in H1.
Qed.

Lemma reach_inv p : reach p -> proc_inv p.
Proof.
  intros Hr. assert (H0 : proc_inv started) by (split; cbn; try done; by intros []).
  unfold reach in Hr. induction Hr as [|x y z Hxy _ IH]; [done|]. apply IH. by eapply proc_step_inv.
Qed.

(** ** The end is reached *)

Lemma close_list rest : forall p, mainPc p = Closing rest ->
  rtc proc_step p (mkProc (Closing []) (shutdownPc p) (cancelled p) (listening p) (gnetUp p) (inFlight p)
    (closedRes p ++ rest) (touched p)).
Proof.
  induction rest as [|r rest IH]; intros p Hp.
  - rewrite app_nil_r. destruct p. cbn in *. by subst.
  - assert (closedRes p ++ r :: rest = (closedRes p ++ [r]) ++ rest) as -> by by rewrite <-app_assoc.
    eapply rtc_l; [by apply CloseNext|].
    apply (IH (mkProc (Closing rest) (shutdownPc p) (cancelled p) (listening p) (gnetUp p) (inFlight p)
      (closedRes p ++ [r]) (touched p))). done.
Qed.

Lemma close_all rest p : mainPc p = Closing rest ->
  exists p', rtc proc_step p p' /\ mainPc p' = Exited /\ closedRes p' = closedRes p ++ rest.
Proof.
  intros Hp. eexists. split; [eapply rtc_r; [by apply close_list|by apply Exit]|done].
Qed.

Lemma serve_returns p : mainPc p = Serving -> listening p = false -> closedRes p = [] ->
  exists p', rtc proc_step p p' /\ mainPc p' = Exited /\ closedRes p' = toClose.
Proof.
  intros Hm Hl Hc. destruct (close_all toClose (mkProc (Closing toClose) (shutdownPc p) (cancelled p) (listening p)
    (gnetUp p) (inFlight p) (closedRes p) (touched p)) eq_refl) as (p' & H1 & H2 & H3).
  exists p'. split; [eapply rtc_l; [by apply RunReturns|exact H1]|]. split; [done|]. by rewrite H3; cbn; rewrite Hc.
Qed.

Lemma mysql_last l rest : l ++ rest = toClose -> RMySQL ∈ l -> l = toClose.
Proof.
  intros E1 Hin. assert (E2 : exists l0, toClose = l0 ++ filter (fun r => has r = true) [RMySQL] /\ RMySQL ∉ l0).
  { exists (filter (fun r => has r = true) (take 8 closeOrder)). split; [by rewrite <-filter_app|].
    rewrite list_elem_of_filter. intros [_ Hm]. revert Hm. set_solver. }
  destruct E2 as (l0 & E2 & Hn). destruct (decide (has RMySQL = true)) as [Hh|Hh].
  - rewrite filter_cons_True, filter_nil in E2 by done.
    destruct rest as [|r rest] using rev_ind; [by rewrite app_nil_r in E1|]. clear IHrest.
    rewrite app_assoc, E2 in E1. apply app_inj_tail in E1 as [E1 _]. rewrite <-E1 in Hn. set_solver.
  - exfalso. apply Hh. assert (Hin' : RMySQL ∈ toClose) by (rewrite <-E1; set_solver).
    by apply list_elem_of_filter in Hin' as [? _].
Qed.

(** [Close] runs only after the shutdown has begun. *)
Lemma closing_signalled p l : reach p -> mainPc p = Closing l -> shutdownPc p <> Waiting.
Proof.
  intros Hr. revert l. pattern p. revert p Hr. apply rtc_ind_r; [done|].
  intros y z Hy Hyz IH l. pose proof (reach_inv y Hy) as [_ _ _ H4].
  destruct Hyz; cbn; intros Hm; try done; try (by eapply IH).
  by apply H4.
Qed.

(** C17. However the goroutines interleave: the resources are closed in the order of
    [Close], each once and MySQL last, and only after the signal, when the HTTP
    listener is closed; and from every state after the signal the process can end
    with all of them closed. *)
Theorem shutdown_in_order p :
  reach p ->
  closedRes p `prefix_of` toClose /\ NoDup (closedRes p) /\
  (RMySQL ∈ closedRes p -> closedRes p = toClose) /\
  (closedRes p <> [] -> mainPc p <> Exited -> cancelled p = true /\ listening p = false) /\
  (alive p -> cancelled p = true ->
     exists p', rtc proc_step p p' /\ mainPc p' = Exited /\ closedRes p' = toClose).
Proof.
  intros Hr. destruct (reach_inv p Hr) as [H1 H2 H3 H4].
  assert (Hpre : exists rest, closedRes p ++ rest = toClose).
  { destruct (mainPc p) as [|rest|]; [rewrite H1; by exists toClose|by exists rest|].
    destruct H1 as [-> | ->]; [by exists toClose|exists []; by rewrite app_nil_r]. }
  destruct Hpre as [rest Hpre].
  assert (Hnd : NoDup toClose).
  { apply NoDup_filter. unfold closeOrder. repeat (apply NoDup_cons_2; [set_solver|]). apply NoDup_nil_2. }
  split_and!.
  - by exists rest.
  - rewrite <-Hpre in Hnd. by apply NoDup_app in Hnd as [Hnd _].
  - intros Hin. apply (mysql_last (closedRes p) rest Hpre Hin).
  - intros Hne Hal. destruct (mainPc p) as [|l|] eqn:Hm; [by rewrite H1 in Hne| |done].
    split; [|done]. apply H3. apply (closing_signalled p l Hr Hm).
  - intros Hal Hc. destruct (mainPc p) as [|l|] eqn:Hm; [| |by destruct Hal].
    + destruct (listening p) eqn:Hl; [|by apply serve_returns].
      assert (Hw : shutdownPc p = Waiting).
      { destruct (shutdownPc p) eqn:Hs; [done|..]; destruct H3 as [_ H3]; try done; congruence. }
      destruct (serve_returns (mkProc (mainPc p) DrainingHTTP true false (gnetUp p) (inFlight p) (closedRes p)
        (touched p)) Hm eq_refl H1) as (p' & E1 & E2 & E3).
      exists p'. split; [|done]. eapply rtc_l; [by apply ShutHTTP|exact E1].
    + destruct (close_all l p Hm) as (p' & E1 & E2 & E3). exists p'. split; [done|]. split; [done|]. by rewrite E3.
Qed.

(** A request in flight when the signal comes can find MySQL closed: [main] closes
    it as soon as [ListenAndServe] has returned, which is at the beginning of
    [Shutdown]; and the process can end before gnet has been stopped. *)
Lemma shutdown_does_not_wait : has RMySQL = true ->
  (exists p, reach p /\ alive p /\ (RMySQL, true) ∈ touched p) /\
  (exists p, reach p /\ mainPc p = Exited /\ gnetUp p = gnet /\ inFlight p <> O).
Proof.
  intros Hm.
  assert (Hreach : reach (mkProc (Closing []) DrainingHTTP true false gnet 1 toClose [])).
  { unfold reach. eapply rtc_l; [by apply Accept; [|left]|]. eapply rtc_l; [by apply Signal|].
    eapply rtc_l; [by apply ShutHTTP|]. eapply rtc_l; [by apply RunReturns|].
    apply (close_list toClose (mkProc (Closing toClose) DrainingHTTP true false gnet 1 [] [])). done. }
  split.
  - eexists. split; [eapply rtc_r; [exact Hreach|by apply (Touch _ RMySQL)]|]. split; [done|]. cbn.
    rewrite bool_decide_true; [by apply list_elem_of_singleton|].
    apply list_elem_of_filter. split; [done|]. set_solver.
  - eexists. split; [eapply rtc_r; [exact Hreach|by apply Exit]|done].
Qed.

End Steps.

(** A gateway with everything, signalled while a request is in flight. *)
Lemma shutdown_in_order_witness :
  let p := mkProc Serving Waiting true true true 1 [] [] in
  exists p', rtc (proc_step (fun _ => true)) p p' /\ mainPc p' = Exited /\ last (closedRes p') = Some RMySQL.
Proof.
  intros p. assert (Hp : reach (fun _ => true) true p).
  { eapply rtc_l; [by apply Accept; [|left]|]. eapply rtc_l; [by apply Signal|]. apply rtc_refl. }
  destruct (shutdown_in_order (fun _ => true) true p Hp) as (_ & _ & _ & _ & H).
  destruct (H ltac:(discriminate) eq_refl) as (p' & H1 & H2 & H3). exists p'. split; [exact H1|]. split; [exact H2|].
  rewrite H3. reflexivity.
Defined.
