(* ===== verification/SessionWitnesses.v ===== *)
(** * A concrete login

    A JWT library whose tokens are the claims and the secret written out in
    bits, under which a TCP connection logs in and sends a chat message. *)

From S2P Require Import Prelude Proto Snowflake Process Client Hub HashRing Dedup RateLimiter.
From S2P Require Import Unread GroupStore Json Stores LogicClient Producer RouterState RouterDelivery.
From S2P Require Import RouterChat RouterGroup Jwt Router Framing RouterFrame RouterInv Demo.
From S2P Require Import RouterChatFacts Session SessionFacts.

(** ** Tokens *)

Fixpoint bits (p : positive) : string :=
  match p with
  | xH => ""
  | xO p => String "0" (bits p)
  | xI p => String "1" (bits p)
  end.

Fixpoint of_bits (s : string) : positive :=
  match s with
  | EmptyString => xH
  | String a s => if decide (a = "0"%char) then xO (of_bits s) else xI (of_bits s)
  end.

Lemma of_bits_bits p : of_bits (bits p) = p.
Proof. induction p as [p IH|p IH|]; simpl; by rewrite ?IH. Qed.

(** The claims as the list of their codes, and back. *)
Definition claims_codes (c : Claims) (sec : string) : list positive :=
  [encode (c_UID c); encode (c_Username c); encode (c_Role c); encode (c_ExpiresAt c); encode (c_IssuedAt c);
   encode (c_Issuer c); encode sec].

Definition codes_claims (l : list positive) : option (Claims * string) :=
  match l with
  | [u; n; r; e; i; s; k] =>
      u ← decode u; n ← decode n; r ← decode r; e ← decode e; i ← decode i; s ← decode s; k ← decode k;
      Some (mkClaims u n r e i s, k)
  | _ => None
  end.

Lemma codes_claims_codes c sec : codes_claims (claims_codes c sec) = Some (c, sec).
Proof.
  destruct c as [u n r e i s]. unfold codes_claims, claims_codes.
  cbn [Jwt.c_UID Jwt.c_Username Jwt.c_Role Jwt.c_ExpiresAt Jwt.c_IssuedAt Jwt.c_Issuer]. by rewrite !decode_encode.
Qed.

Definition demoSigned (c : Claims) (sec : string) : string + string :=
  inr (bits (encode (claims_codes c sec))).

Definition demoParse (tok : string) (keyFunc : bool -> option string) (now : Z)
  : LibErr + (Claims * bool) :=
  match decode (of_bits tok) ≫= codes_claims with
  | Some (c, sec) =>
      if decide (keyFunc true = Some sec) then
        if now <? c_ExpiresAt c then inr (c, true)
        else inl (mkLibErr true false "token is expired")
      else inl (mkLibErr false true "token signature is invalid")
  | None => inl (mkLibErr false false "token is malformed")
  end.

Lemma demo_parse_signed c sec tok keyFunc now :
  demoSigned c sec = inr tok -> keyFunc true = Some sec ->
  if now <? c_ExpiresAt c
  then demoParse tok keyFunc now = inr (c, true)
  else exists t, demoParse tok keyFunc now = inl (mkLibErr true false t).
Proof.
  intros [= <-] Hk. unfold demoParse. rewrite of_bits_bits, decode_encode. cbn [mbind option_bind].
  rewrite codes_claims_codes, decide_True by done. destruct (now <? c_ExpiresAt c); [done|by eexists].
Qed.

Definition demoJwt : JwtLib := mkJwtLib demoSigned demoParse demo_parse_signed.

#[local] Existing Instance demoJwt.

(** ** A connection's history *)

Definition demoManager : Manager := NewManager "s3cret" 3600000000000.

Definition emptyRouter : Router (B := demoBackends) :=
  NewRouter (B := demoBackends) NewConn (NewOffline 100) None DefaultRouterConfig.

Definition demoHandler : GnetHandler (B := demoBackends) :=
  mkGnetHandler emptyRouter demoManager 16 60000000000 (NewWorkerPool 1) ∅ ∅ [].

Definition demoToken : string :=
  match demoSigned (mkClaims "alice" "Alice" "user" 2000000000000000000 0 "im-server") "s3cret" with
  | inr t => t
  | inl _ => ""
  end.

Definition frameBytes (m : Message) : bytes := default [] (marshal m).

(** Alice logs in and claims that her message is from bob; a connection with a
    forged token sends one too. *)
Definition demoEvents : list GnetEvent :=
  [EvOpen 5; EvFrame 5 (frameBytes (mkMessage 0 0 CmdLogin "" "" 0 0 demoToken 0 true));
   EvFrame 5 (frameBytes (mkMessage 0 0 CmdChat "bob" "carol" 0 0 "hi" 0 true));
   EvOpen 6; EvFrame 6 (frameBytes (mkMessage 0 0 CmdLogin "" "" 0 0 "forged" 0 true));
   EvFrame 6 (frameBytes (mkMessage 0 0 CmdChat "carol" "bob" 0 0 "hi" 0 true))].

Lemma demo_fresh : fresh_handler demoManager demoHandler.
Proof. done. Qed.

(** The message is waiting under alice's name, and the forged connection was
    closed with nothing submitted. *)
Lemma demo_events :
  let p := (forEach demoEvents (onEvent (fun _ => "bad json")) (demoHandler, demoStart)).2 in
  map (fun t : Task => From t.2) (wp_tasks (workerPool p.1)) = ["alice"] /\ 6 ∈ closing p.1.
Proof. vm_compute. split; [done|]. left. Qed.

Lemma sessions_authentic_witness :
  let p := (forEach demoEvents (onEvent (fun _ => "bad json")) (demoHandler, demoStart)).2 in
  Forall (fun t : Task => From t.2 = h_uid t.1 /\ authenticated demoManager (h_uid t.1))
    (wp_tasks (workerPool p.1)).
Proof.
  intros p. apply Forall_forall. intros [h m] Hin.
  exact (proj1 (sessions_authentic (fun _ => "bad json") demoManager demoEvents demoHandler
    demoStart demo_fresh) h m Hin).
Defined.
