(* ===== verification/HttpFileFacts.v ===== *)
(** * Files over HTTP: what is uploaded can be downloaded

    On a server with any object store that keeps the promise of
    [ObjectStoreLaws], MinIO's and the in-memory one included: an upload answered
    with a file id has stored exactly the file, and every later download of that
    id returns it, unless the store fails. *)

From S2P Require Import Prelude GoStrings Proto Snowflake Process Client Hub HashRing Dedup RateLimiter.
From S2P Require Import Unread GroupStore Json Stores LogicClient Producer RouterState RouterDelivery.
From S2P Require Import RouterChat RouterGroup Jwt Http HttpGroups Thumbnail ObjectStores HttpFiles HttpFacts.

Section Facts.
Context {E : Env} {C : Codec} {B : Backends E} {J : JwtLib} {BC : Bcrypt} {IM : Images}.
Context {US : Type} {USI : UserStore US} {OB : Type} {OBI : ObjectStore OB} {OBL : ObjectStoreLaws OB}.
Abbreviation Srv := (Server US OB).
Implicit Types (s : Srv) (y : Sys) (r : Request) (o : OB).

Abbreviation H := (St (Srv * Sys)).

(** The files a server keeps. *)
Definition filesOf s : gmap string Object :=
  match sv_objectStore s with Some o => objects o | None => ∅ end.

(** The server [s] with its store in another state. *)
Definition with_store o s : Srv := set_sv_objectStore (Some o) s.

Lemma with_store_same s o : sv_objectStore s = Some o -> with_store o s = s.
Proof. intros Ho. unfold with_store. destruct s. cbn in *. by subst. Qed.

(** Calls on the store a handler has found. *)
Lemma store_run {A} o0 o (m : St (OB * Sys) A) s y :
  objectStoreOp o0 m (with_store o s, y) = ((m (o, y)).1, (with_store (m (o, y)).2.1 s, (m (o, y)).2.2)).
Proof.
  unfold objectStoreOp. rewrite bind_run. cbn [getX gets fst snd with_store sv_objectStore set_sv_objectStore default].
  unfold onObjects. cbn. by destruct (m (o, y)) as [a [o' y']].
Qed.

(** The thumbnail's key is the only one its storing touches. *)
Lemma storeThumbnail_spec o0 id data mime w h o s y :
  exists o' y', (storeThumbnail o0 id data mime w h (with_store o s, y)).2 = (with_store o' s, y') /\
    onlyAt (id +:+ "_thumb") (objects o) (objects o').
Proof.
  assert (Hsame : exists o' y', (with_store o s, y) = (with_store o' s, y') /\
    onlyAt (id +:+ "_thumb") (objects o) (objects o')) by by exists o, y.
  unfold storeThumbnail. destruct (IsImageMIME mime); [|exact Hsame].
  destruct (_ || _); [exact Hsame|]. destruct (Thumbnail data) as [e|thumb]; [exact Hsame|].
  rewrite bind_run, store_run. cbn [fst snd ret].
  pose proof (put_law (id +:+ "_thumb") thumb "image/jpeg" o y) as Hp.
  destruct (Put _ _ _ (o, y)) as [[e|] [o' y']]; cbn [fst snd] in *; exists o', y'; (split; [done|]); [done|].
  intros k Hk. rewrite Hp. by apply lookup_insert_ne.
Qed.

(** A token that authorizes passes the check. *)
Lemma checkToken_accepts uid token missing c s y :
  claims_of s y token c -> c_UID c = uid -> uid <> "" -> token <> "" ->
  exists y', checkToken uid token missing (s, y) = (inr c, (s, y')).
Proof.
  intros Hc Hu Hne Ht. unfold checkToken. rewrite bool_decide_false by tauto.
  rewrite bind_run. cbn [getX gets fst snd]. rewrite bind_run. unfold claims_of in Hc. rewrite Hc.
  rewrite bool_decide_false by (intros Hn; by apply Hn). by eexists.
Qed.

Context (DetectContentType : string -> string).

(** The document of an upload's answer. *)
Definition answers_file (resp : Response) (id : string) : Prop :=
  exists more, rs_body resp = BJson (jmap (("file_id", JString id) :: more)).

(** An upload that succeeds stores the request's file under the id it answers
    with, and touches no other file but that id's thumbnail. *)
Lemma HandleUpload_stores r s y :
  let res := HandleUpload DetectContentType r (s, y) in
  rs_status res.1 = StatusOK ->
  exists id name data o, rq_file r = inr (name, inr data) /\ answers_file res.1 id /\ id <> "" /\
    res.2.1 = with_store o s /\ objects o !! id = Some (data, DetectContentType data) /\
    forall k, k <> id -> k <> id +:+ "_thumb" -> objects o !! k = filesOf s !! k.
Proof.
  cbv zeta. unfold HandleUpload, requirePost, stopIf. destruct (negb _); [done|].
  unfold withStore. rewrite bind_run. cbn [getX gets fst snd].
  destruct (sv_objectStore s) as [o|] eqn:Ho; [|done]. unfold step. rewrite bind_run.
  destruct (checkToken_spec (FormValue r "uid") (FormValue r "token") StatusBadRequest s y) as [Hs Hc]; [done|].
  destruct (checkToken _ _ _ (s, y)) as [[resp|c] [s1 y1]]; cbn [fst snd ret] in *; subst s1.
  { intros Hok. unfold StatusOK in Hok. lia. }
  destruct (rq_multipartErr r); [done|]. destruct (rq_file r) as [e|[name [e|data]]]; [done|done|].
  case_bool_decide as Hd; [done|]. unfold storeUpload. rewrite bind_run.
  destruct (NextID (s, y1)) as [n [s2 y2]] eqn:Hn. assert (s2 = s) as ->.
  { unfold NextID in Hn. destruct (Next _ _ _) as [[? ?] ?]. by simplify_eq. }
  cbn [fst snd]. destruct (ImageDimensions data) as [w h]. rewrite bind_run.
  destruct (storeThumbnail_spec o (itoa n) data (DetectContentType data) w h o s y2) as (o1 & y3 & HF & Hk).
  rewrite (with_store_same s o Ho) in HF. rewrite HF. destruct (storeThumbnail _ _ _ _ _ _ _).1 as [tw th].
  rewrite bind_run, store_run. cbn [fst snd].
  pose proof (put_law (itoa n) data (DetectContentType data) o1 y3) as Hp.
  destruct (Put _ _ _ (o1, y3)) as [[e|] [o2 y4]]; cbn [fst snd ret] in *.
  { rewrite bind_run. cbn. intros Hok. discriminate Hok. }
  intros _. exists (itoa n), name, data, o2. split; [done|]. split; [by eexists|]. split; [apply itoa_nonempty|].
  split; [done|]. rewrite Hp. split; [apply lookup_insert_eq|]. intros k Hk1 Hk2.
  rewrite lookup_insert_ne by done. rewrite Hk by done. unfold filesOf. by rewrite Ho.
Qed.

(** A download with a valid token of a file the server has. *)
Lemma HandleDownload_serves r s y c data ct :
  claims_of s y (QueryGet r "token") c -> c_UID c = QueryGet r "uid" ->
  QueryGet r "uid" <> "" -> QueryGet r "token" <> "" -> QueryGet r "id" <> "" -> QueryGet r "thumb" <> "1" ->
  filesOf s !! QueryGet r "id" = Some (data, ct) ->
  let resp := (HandleDownload r (s, y)).1 in
  (resp = mkResponse StatusOK (BData ct data) \/ resp = httpError "file not found" StatusNotFound) /\
  (reliable OB -> resp = mkResponse StatusOK (BData ct data)).
Proof.
  intros Hc Hu Hne Ht Hid Hth Hf. unfold HandleDownload, withStore. rewrite bind_run. cbn [getX gets fst snd].
  destruct (sv_objectStore s) as [o|] eqn:Ho; [|unfold filesOf in Hf; by rewrite Ho in Hf].
  unfold filesOf in Hf. rewrite Ho in Hf. unfold stopIf. rewrite bool_decide_false by done.
  destruct (checkToken_accepts _ _ StatusBadRequest c s y Hc Hu Hne Ht) as [y' Hk].
  unfold step. rewrite bind_run, Hk. cbn [fst snd]. rewrite bool_decide_false by done.
  rewrite <-(with_store_same s o Ho). rewrite bind_run, store_run. cbn [fst snd ret].
  pose proof (get_law (QueryGet r "id") o y') as Hg.
  assert (Hr : reliable OB -> (GetObject (QueryGet r "id") (o, y')).1 = inr (data, ct)) by (intros R; by apply R).
  destruct (GetObject _ (o, y')) as [res [o' y'']]. cbn [fst] in *. destruct Hg as [_ Hg].
  destruct res as [e|x]; [split; [by right|intros R; by discriminate (Hr R)]|].
  specialize (Hg x eq_refl). rewrite Hf in Hg. injection Hg as <-. by split; [left|].
Qed.

(** C28. What is uploaded can be downloaded: an upload answered with a file id
    has changed nothing on the server but that file and its thumbnail; and as
    long as the stored file is not changed, every download of that id with a
    valid token, whoever asks, answers with exactly the bytes uploaded, under
    the type detected in them, or, only if the store fails, with 404; never with
    anything else. *)
Theorem http_upload_download r s y :
  let res := HandleUpload DetectContentType r (s, y) in
  rs_status res.1 = StatusOK ->
  exists id name data, rq_file r = inr (name, inr data) /\ answers_file res.1 id /\
    (exists o, res.2.1 = with_store o s /\
       forall k, k <> id -> k <> id +:+ "_thumb" -> objects o !! k = filesOf s !! k) /\
    forall r' s' y' c, filesOf s' !! id = filesOf res.2.1 !! id ->
      claims_of s' y' (QueryGet r' "token") c -> c_UID c = QueryGet r' "uid" ->
      QueryGet r' "uid" <> "" -> QueryGet r' "token" <> "" ->
      QueryGet r' "id" = id -> QueryGet r' "thumb" <> "1" ->
      let resp := (HandleDownload r' (s', y')).1 in
      (resp = mkResponse StatusOK (BData (DetectContentType data) data) \/
       resp = httpError "file not found" StatusNotFound) /\
      (reliable OB -> resp = mkResponse StatusOK (BData (DetectContentType data) data)).
Proof.
  intros res Hok. destruct (HandleUpload_stores r s y Hok)
    as (id & name & data & o & Hfile & Hans & Hid & Hs & Hin & Hk). fold res in Hans, Hs.
  exists id, name, data. split_and!; [done|done|by exists o|].
  intros r' s' y' c Hsame Hc Hu Hne Ht <- Hth. apply (HandleDownload_serves r' s' y' c); try done.
  by rewrite Hsame, Hs.
Qed.

End Facts.
