(* ===== verification/HttpGroupFacts.v ===== *)
(** * Who may change a group over HTTP *)

From S2P Require Import Prelude GoStrings Proto Snowflake Process Client Hub HashRing Dedup RateLimiter.
From S2P Require Import Unread GroupStore Json Stores LogicClient Producer RouterState RouterDelivery.
From S2P Require Import RouterChat RouterGroup Jwt Http HttpGroups Thumbnail HttpFiles HttpFacts.
From S2P Require Import Router RouterFrame RouterInv Demo RouterChatFacts RouterGroupFacts RouterAuth.

(** ** What a request of a user may do to the groups *)

Definition owns (G : gmap string Group) (gid uid : string) : Prop :=
  exists g, G !! gid = Some g /\ OwnerUID g = uid.

Definition http_entitled (e : Endpoint) (uid : string) (G G' : gmap string Group) : Prop :=
  (forall gid v, member G' gid v -> member G gid v \/ e = GroupJoin /\ v = uid \/
     e = GroupInvite /\ owns G gid uid \/ e = GroupCreate /\ G !! gid = None /\ owns G' gid uid) /\
  (forall gid v, member G gid v -> member G' gid v \/ e = GroupLeave /\ v = uid \/
     e = GroupKick /\ owns G gid uid) /\
  (forall gid g g', G !! gid = Some g -> G' !! gid = Some g' ->
     (Name g' = Name g \/ e = GroupRename /\ OwnerUID g = uid) /\
     (OwnerUID g' = OwnerUID g \/
        e = GroupTransfer /\ OwnerUID g = uid /\ member G gid (OwnerUID g'))).

Lemma http_entitled_refl e uid G : http_entitled e uid G G.
Proof. split_and!; [auto|auto|]. intros gid g g' H H'. simplify_eq. auto. Qed.

(** An operation that keeps names and owners. *)
Definition keeps_names (G G' : gmap string Group) : Prop :=
  forall gid g g', G !! gid = Some g -> G' !! gid = Some g' -> Name g' = Name g /\ OwnerUID g' = OwnerUID g.

Lemma add_keeps_names gid uid G : keeps_names G (add_spec gid uid G).2.
Proof.
  intros gid' g g' Hg Hg'. unfold add_spec in Hg'. destruct (G !! gid) as [g0|] eqn:H0; cbn in Hg'; [|by simplify_eq].
  case_bool_decide; cbn in Hg'; [by simplify_eq|]. destruct (decide (gid' = gid)) as [->|Hne].
  - rewrite lookup_insert_eq in Hg'. by simplify_eq.
  - rewrite lookup_insert_ne in Hg' by done. by simplify_eq.
Qed.

Lemma remove_keeps_names gid uid G : keeps_names G (remove_spec gid uid G).2.
Proof.
  intros gid' g g' Hg Hg'. unfold remove_spec in Hg'. destruct (G !! gid) as [g0|] eqn:H0; cbn in Hg'; [|by simplify_eq].
  case_bool_decide; cbn in Hg'; [|by simplify_eq]. destruct (decide (gid' = gid)) as [->|Hne].
  - case_bool_decide; cbn in Hg'; [by rewrite lookup_delete_eq in Hg'|].
    rewrite lookup_insert_eq in Hg'. by simplify_eq.
  - case_bool_decide; cbn in Hg'; [rewrite lookup_delete_ne in Hg' by done|rewrite lookup_insert_ne in Hg' by done];
      by simplify_eq.
Qed.

(** A change of the record of one group that keeps its members. *)
Lemma record_entitled e uid G gid g g' :
  G !! gid = Some g -> Members g' = Members g ->
  (Name g' = Name g \/ e = GroupRename /\ OwnerUID g = uid) ->
  (OwnerUID g' = OwnerUID g \/ e = GroupTransfer /\ OwnerUID g = uid /\ OwnerUID g' ∈ Members g) ->
  http_entitled e uid G (<[gid := g']> G).
Proof.
  intros Hg Hm Hn Ho.
  assert (Hmem : forall gid' v, member (<[gid := g']> G) gid' v <-> member G gid' v).
  { intros gid' v. unfold member. destruct (decide (gid' = gid)) as [->|Hne].
    - rewrite lookup_insert_eq, Hg. split; intros (? & [= <-] & Hv); eexists; (split; [done|]); congruence.
    - by rewrite lookup_insert_ne. }
  split_and!; try (intros gid' v; rewrite Hmem; auto).
  intros gid' g1 g2 H1 H2. destruct (decide (gid' = gid)) as [->|Hne].
  - rewrite lookup_insert_eq in H2. simplify_eq. split; [done|].
    destruct Ho as [Ho|(Hx & Hy & Hz)]; [by left|right]. split_and!; try done. by exists g.
  - rewrite lookup_insert_ne in H2 by done. simplify_eq. auto.
Qed.

Lemma join_http_entitled gid uid G : http_entitled GroupJoin uid G (add_spec gid uid G).2.
Proof.
  split_and!.
  - intros gid' v Hv. destruct (member_add gid uid G gid' v) as [Ha _]. naive_solver.
  - intros gid' v Hv. left. by apply member_add.
  - intros gid' g g' H1 H2. destruct (add_keeps_names gid uid G gid' g g' H1 H2). auto.
Qed.

Lemma invite_http_entitled gid target uid G :
  owns G gid uid -> http_entitled GroupInvite uid G (add_spec gid target G).2.
Proof.
  intros Ho. split_and!.
  - intros gid' v Hv. destruct (member_add gid target G gid' v) as [Ha _]. naive_solver.
  - intros gid' v Hv. left. by apply member_add.
  - intros gid' g g' H1 H2. destruct (add_keeps_names gid target G gid' g g' H1 H2). auto.
Qed.

Lemma leave_http_entitled gid uid G : http_entitled GroupLeave uid G (remove_spec gid uid G).2.
Proof.
  split_and!.
  - intros gid' v Hv. left. by apply member_remove in Hv.
  - intros gid' v Hv. destruct (member_remove gid uid G gid' v) as [_ Hb]. naive_solver.
  - intros gid' g g' H1 H2. destruct (remove_keeps_names gid uid G gid' g g' H1 H2). auto.
Qed.

Lemma kick_http_entitled gid target uid G :
  owns G gid uid -> http_entitled GroupKick uid G (remove_spec gid target G).2.
Proof.
  intros Ho. split_and!.
  - intros gid' v Hv. left. by apply member_remove in Hv.
  - intros gid' v Hv. destruct (member_remove gid target G gid' v) as [_ Hb]. naive_solver.
  - intros gid' g g' H1 H2. destruct (remove_keeps_names gid target G gid' g g' H1 H2). auto.
Qed.

Lemma rename_http_entitled gid name uid G :
  owns G gid uid -> http_entitled GroupRename uid G (rename_spec gid name G).2.
Proof.
  intros (g & Hg & Ho). unfold rename_spec. rewrite Hg. cbn.
  apply (record_entitled _ _ _ _ g); auto.
Qed.

Lemma transfer_http_entitled gid to uid G : http_entitled GroupTransfer uid G (transfer_spec gid uid to G).2.
Proof.
  unfold transfer_spec. destruct (G !! gid) as [g|] eqn:Hg; [|apply http_entitled_refl].
  case_bool_decide; [|apply http_entitled_refl]. case_bool_decide; [|apply http_entitled_refl].
  cbn. apply (record_entitled _ _ _ _ g); auto.
Qed.

Lemma create_http_entitled uid G g :
  G !! ID g = None -> OwnerUID g = uid -> http_entitled GroupCreate uid G (<[ID g := g]> G).
Proof.
  intros Hn Ho. split_and!.
  - intros gid v (g' & Hg' & Hv). destruct (decide (gid = ID g)) as [->|Hne].
    + right. right. right. split; [done|]. split; [done|]. exists g. by rewrite lookup_insert_eq.
    + rewrite lookup_insert_ne in Hg' by done. left. by exists g'.
  - intros gid v (g' & Hg' & Hv). left. exists g'. rewrite lookup_insert_ne; [done|congruence].
  - intros gid g1 g2 H1 H2. rewrite lookup_insert_ne in H2 by congruence. simplify_eq. auto.
Qed.

Section Facts.
Context {E : Env} {C : Codec} {B : Backends E} {BL : BackendLaws E B} {J : JwtLib} {BC : Bcrypt} {IM : Images}.
Context {US : Type} {USI : UserStore US} {OB : Type} {OBI : ObjectStore OB}.
Implicit Types (s : Server US OB) (y : Sys) (r : Request) (G : gmap string Group).

Abbreviation H := (St (Server US OB * Sys)).

Lemma onGroups_any {A} gs0 gs (m : St (bk_G * Sys) A) (rt : Router) y :
  groupStore rt = Some gs -> onGroups gs0 m (rt, y) = onGroups gs m (rt, y).
Proof. intros Hgs. unfold onGroups, zoomSome. by rewrite Hgs. Qed.

(** The server's groups, on a gateway that keeps them itself. *)
Definition sgroups G (p : Server US OB * Sys) : Prop := groups_are G (sv_router p.1, p.2).

Lemma onSvRouter_run {A} (m : M A) s y :
  onSvRouter m (s, y) = ((m (sv_router s, y)).1, (set_sv_router (m (sv_router s, y)).2.1 s, (m (sv_router s, y)).2.2)).
Proof. unfold onSvRouter. by destruct (m (sv_router s, y)) as [a [r' y']]. Qed.

Lemma sgroups_at G s (p : Router * Sys) : groups_are G p -> sgroups G (set_sv_router p.1 s, p.2).
Proof. by destruct p. Qed.

Lemma sgroups_router {A} (m : M A) G s y :
  groups_are G (m (sv_router s, y)).2 -> sgroups G (onSvRouter m (s, y)).2.
Proof. intros Hg. rewrite onSvRouter_run. by apply sgroups_at. Qed.

(** A handler may change the groups as its user is entitled. *)
Definition changes (e : Endpoint) (uid : string) G (m : H Response) s y : Prop :=
  sgroups G (s, y) -> exists G', sgroups G' (m (s, y)).2 /\ http_entitled e uid G G'.

Lemma changes_none e uid G (resp : Response) s y : changes e uid G (ret resp) s y.
Proof. intros Hg. exists G. split; [done|apply http_entitled_refl]. Qed.

Lemma changes_stopIf e uid G b text status k s y :
  changes e uid G k s y -> changes e uid G (stopIf b text status k) s y.
Proof. unfold stopIf. destruct b; [intros _; apply changes_none|done]. Qed.

(** The rest of a group handler runs for the claims of a valid token. *)
Lemma changes_groupRequest e r G k s y :
  by_request e = true -> credentials e r = (FormValue r "uid", FormValue r "token") \/ rq_Method r <> "POST" ->
  (forall gs c s' y', groupStore (sv_router s') = Some gs -> c_UID c = FormValue r "uid" ->
     changes e (FormValue r "uid") G (k gs c) s' y') ->
  changes e (FormValue r "uid") G (groupRequest r k) s y.
Proof.
  intros He Hcr Hk Hg. unfold groupRequest, requirePost, stopIf. case_bool_decide as Hm; cbn [negb];
    [|by apply changes_none].
  unfold withStore. rewrite bind_run. cbn [getX gets fst snd]. unfold svGroups.
  destruct (groups_are_some G _ _ Hg) as (gs & Hgs & _). cbn [fst] in Hgs. rewrite Hgs.
  unfold step. rewrite bind_run. destruct (authenticateRequest_spec e r s y He) as [H1 H2].
  destruct Hcr as [Hcr|]; [|done]. rewrite Hcr in H2. cbn [fst snd] in H2.
  destruct (authenticateRequest r (s, y)) as [[resp|c] [s' y']]; cbn [fst snd] in *; subst s'.
  - by apply changes_none.
  - apply Hk; [done|apply H2|done].
Qed.

(** A write to the group store, then a response that changes no group. *)
Lemma changes_write {A} e uid G gs0 (m : St (bk_G * Sys) A) (k : A -> H Response) s y :
  (forall gs : bk_G, groupsOf gs = G ->
     exists G', groupsOf (m (gs, y)).2.1 = G' /\ http_entitled e uid G G' /\
       (forall p, sgroups G' p -> sgroups G' (k (m (gs, y)).1 p).2)) ->
  changes e uid G (let! a := onSvRouter (onGroups gs0 m) in k a) s y.
Proof.
  intros Hk Hg. destruct (groups_are_some G _ _ Hg) as (gs & Hgs & HG & _). cbn [fst] in Hgs.
  destruct (Hk gs HG) as (G' & HG' & He & Hkeep). exists G'. split; [|done].
  destruct (onGroups_write G _ gs m (sv_router s) y Hg Hgs HG') as [H1 H2].
  rewrite bind_run, onSvRouter_run. cbn [fst snd]. rewrite (onGroups_any gs0 gs m _ y Hgs), H1.
  apply Hkeep, sgroups_at, H2.
Qed.

Lemma notified_groups G from gid t more p :
  sgroups G p -> sgroups G (notified (US := US) (OB := OB) from gid t more p).2.
Proof.
  destruct p as [s y]. intros Hg. unfold notified. rewrite bind_run. cbn [snd ret].
  apply sgroups_router. by apply notify_groups.
Qed.

(** What follows a creation. *)
Lemma created_groups G uid gid keys (b : bool) doc p :
  sgroups G p ->
  sgroups G ((let! l := onSvRouter (RangeKeys keys) in
    (if b then onSvRouter (sendGroupNotificationWithMembers uid gid "member_joined" (Some l)) else ret tt) ;;!
    ret (doc l) : H Response) p).2.
Proof.
  revert p. apply preserves_bind.
  - intros [s y] Hp. by apply sgroups_router.
  - intros l. apply preserves_bind; [|intros ?; apply preserves_ret]. destruct b; [|apply preserves_ret].
    intros [s y] Hp. apply sgroups_router. by apply notify_groups.
Qed.

(** The common form of the handlers: one operation with its result as in the
    abstract specification, an error answered by its status, the group notified
    of a success. *)
Lemma changes_answer e uid G gs0 (m : St (bk_G * Sys) (option GroupErr))
  (spec : option GroupErr * gmap string Group) (fail : GroupErr -> Response) from gid t more s y :
  (forall gs y', groupsOf gs = G -> ((m (gs, y')).1, groupsOf (m (gs, y')).2.1) = spec) ->
  http_entitled e uid G spec.2 ->
  changes e uid G (let! err := onSvRouter (onGroups gs0 m) in
    match err with Some x => ret (fail x) | None => notified from gid t more end) s y.
Proof.
  intros Hspec He. apply changes_write. intros gs HG. specialize (Hspec gs y HG).
  exists spec.2. rewrite <- Hspec. split_and!; [done|by rewrite Hspec|]. intros p Hp.
  destruct (m (gs, y)).1; [done|by apply notified_groups].
Qed.

Lemma changes_ownerOnly e uid G gs0 gid text (k : H Response) s y :
  (forall s' y', owns G gid uid -> changes e uid G k s' y') ->
  changes e uid G (ownerOnly gs0 gid uid text k) s y.
Proof.
  intros Hk Hg. unfold ownerOnly. destruct (groups_are_some G _ _ Hg) as (gs & Hgs & HG & _).
  cbn [fst] in Hgs. destruct (Get_law gid gs y) as [Hget Hkeep].
  destruct (onGroups_write G G gs (GroupStore.Get gid) (sv_router s) y Hg Hgs) as [H1 H2];
    [by rewrite Hkeep|].
  rewrite bind_run, onSvRouter_run. cbn [fst snd]. rewrite (onGroups_any gs0 gs _ _ y Hgs), H1, Hget, HG.
  apply (sgroups_at G s) in H2. set (s' := set_sv_router _ s) in *. set (y' := (onGroups gs _ _).2.2) in *.
  destruct (G !! gid) as [g|] eqn:Hgid; [|by apply changes_none].
  unfold stopIf. case_bool_decide as Ho; [by apply changes_none|].
  apply Hk; [|done]. exists g. split; [done|]. by destruct (decide (OwnerUID g = uid)).
Qed.

(** ** The handlers *)

Definition group_command (e : Endpoint) : bool :=
  match e with
  | GroupCreate | GroupJoin | GroupInvite | GroupLeave | GroupKick | GroupRename | GroupTransfer => true
  | _ => false
  end.

Context (DetectContentType : string -> string).

(** C6. A group command over HTTP changes the groups only as its user may: a
    user enters a group by joining it himself, by an invitation of its owner, or
    with a new group he owns; leaves by his own command or kicked by the owner;
    only the owner renames a group, and only he hands it on, to a member. *)
Theorem http_group_entitled e r s y G :
  group_command e = true -> sgroups G (s, y) ->
  exists G', sgroups G' (serve DetectContentType e r (s, y)).2 /\
    http_entitled e (FormValue r "uid") G G'.
Proof.
  intros He. change (changes e (FormValue r "uid") G (serve DetectContentType e r) s y).
  assert (Hcr : credentials e r = (FormValue r "uid", FormValue r "token") \/ rq_Method r <> "POST").
  { destruct (decide (rq_Method r = "POST")) as [Hm|]; [left|by right].
    destruct e; try done; unfold credentials; by rewrite bool_decide_true. }
  destruct e; try done; cbn [serve]; (apply changes_groupRequest; [done|exact Hcr|]);
    intros gs c s' y' _ Hc; cbv zeta; rewrite Hc;
    repeat (apply changes_stopIf); try (apply changes_ownerOnly; intros s'' y'' Ho).
  - (* create *) apply changes_write. intros gs' HG.
    pose proof (Create_law (FormValue r "name") (FormValue r "uid") (parseMembers (FormValue r "members")) gs' y') as Hl.
    destruct (GroupStore.Create _ _ _ _) as [[err|g] p']; cbn [fst snd] in *.
    + exists G. split_and!; [by rewrite Hl|apply http_entitled_refl|done].
    + destruct Hl as (H1 & H2 & _ & H3). rewrite HG in H1, H3.
      exists (<[ID g := g]> G). split_and!; [done|by apply create_http_entitled|].
      intros p Hp. by apply (created_groups _ _ _ _ (bool_decide _)
        (fun l => writeJson (jmap [_; _; _; (_, JArray (map JString l)); _]))).
  - apply changes_answer with (spec := add_spec (FormValue r "group_id") (FormValue r "uid") G).
    + intros gs' y'' <-. apply AddMember_law.
    + apply join_http_entitled.
  - apply changes_answer with (spec := add_spec (FormValue r "group_id") (FormValue r "target_uid") G).
    + intros gs' y3 <-. apply AddMember_law.
    + by apply invite_http_entitled.
  - apply changes_answer with (spec := remove_spec (FormValue r "group_id") (FormValue r "uid") G).
    + intros gs' y'' <-. apply RemoveMember_law.
    + apply leave_http_entitled.
  - apply changes_answer with (spec := remove_spec (FormValue r "group_id") (FormValue r "target_uid") G).
    + intros gs' y3 <-. apply RemoveMember_law.
    + by apply kick_http_entitled.
  - apply changes_answer with (spec := rename_spec (FormValue r "group_id") (FormValue r "name") G).
    + intros gs' y3 <-. apply UpdateName_law.
    + by apply rename_http_entitled.
  - apply changes_answer with (spec := transfer_spec (FormValue r "group_id") (FormValue r "uid") (FormValue r "to_uid") G).
    + intros gs' y'' <-. apply TransferOwnership_law.
    + apply transfer_http_entitled.
Qed.

End Facts.
