(* ===== verification/HttpWitnesses.v ===== *)
(** * A concrete HTTP server

    The server over the demonstration gateway, with its users in tables and its
    files in memory; a bcrypt whose hash is the password behind a mark, and an
    image library that knows no format.  Erin registers, logs in, changes her
    password, uploads a file and opens a group. *)

From S2P Require Import Prelude GoStrings Proto Snowflake Process Sql Client Hub HashRing Dedup RateLimiter.
From S2P Require Import Unread GroupStore Json Stores LogicClient LogicServer MySQLUsers MySQLUserFacts Producer RouterState.
From S2P Require Import RouterDelivery RouterChat RouterGroup Jwt Http HttpGroups Thumbnail HttpFiles HttpFacts.
From S2P Require Import HttpAccounts ObjectStores HttpFileFacts Router RouterFrame RouterInv Demo RouterAuth Session SessionWitnesses.
From S2P Require Import HttpGroupFacts.

#[local] Existing Instance demoJwt.

Definition demoHash (p : string) (_ : nat) : string + string :=
  if Z.of_nat (String.length p) <=? 72 then inr ("#" +:+ p) else inl "password length exceeds 72 bytes".

Definition demoCompare (h p : string) : bool := bool_decide (h = "#" +:+ p).

Lemma demo_compare_hash p n h : demoHash p n = inr h -> demoCompare h p = true.
Proof. unfold demoHash, demoCompare. destruct (_ <=? _); [|done]. intros [= <-]. by apply bool_decide_true. Qed.

#[local] Instance demoBcrypt : Bcrypt := mkBcrypt demoHash demoCompare demo_compare_hash.

#[local] Instance demoImages : Images :=
  mkImages unit (fun _ => inl "unknown format") (fun _ => inl "unknown format") (fun _ _ _ => inl "no encoder").

Definition demoType (data : string) : string := "text/plain; charset=utf-8".

Abbreviation DemoServer := (Server (B := demoBackends) TableDB InMemoryObjectStore).

Definition demoServer : DemoServer :=
  NewServer demoRouter demoManager (Some (emptyDB [])) false [] (Some NewInMemoryObjectStore) 1048576 ["root"].

(** A form by POST, and a query by GET. *)
Definition post (form : list (string * string)) : Request :=
  mkRequest "POST" "" None form [] (Some "not multipart") (inl "no file").
Definition get (query : list (string * string)) : Request :=
  mkRequest "GET" "" None query query (Some "not multipart") (inl "no file").

Definition erinForm : Request := post [("uid", "erin"); ("password", "sesame")].

(** The server after Erin has registered, and a token of hers. *)
Definition erinServer : DemoServer * Sys := (HandleRegister erinForm (demoServer, demoStart)).2.

Definition erinToken : string :=
  match demoSigned (mkClaims "erin" "erin" "user" 2000000000000000000 0 "im-server") "s3cret" with
  | inr t => t
  | inl _ => ""
  end.

Definition asErin (form : list (string * string)) : list (string * string) :=
  ("uid", "erin") :: ("token", erinToken) :: form.

Lemma http_requires_token_witness :
  protected GroupKick = true /\
  let r := post [("uid", "alice"); ("token", erinToken); ("group_id", "g_1"); ("target_uid", "bob")] in
  (serve demoType GroupKick r (demoServer, demoStart)).2.1 = demoServer.
Proof.
  split; [done|].
  destruct (http_requires_token demoType GroupKick
    (post [("uid", "alice"); ("token", erinToken); ("group_id", "g_1"); ("target_uid", "bob")])
    demoServer demoStart eq_refl) as [(c & Hc & Hu & _)|[H _]]; [|exact H].
  exfalso. unfold claims_of in Hc. vm_compute in Hc. injection Hc as <-. vm_compute in Hu. discriminate Hu.
Defined.

(** Erin's registration and login succeed; a wrong password does not. *)
Lemma erin_registers : rs_status (HandleRegister erinForm (demoServer, demoStart)).1 = StatusOK.
Proof. by vm_compute. Qed.

Lemma erin_logs_in : rs_status (HandleLogin erinForm erinServer).1 = StatusOK.
Proof. by vm_compute. Qed.

Lemma wrong_password :
  rs_status (HandleLogin (post [("uid", "erin"); ("password", "sesam")]) erinServer).1 = StatusUnauthorized.
Proof. by vm_compute. Qed.

Lemma http_login_sound_witness :
  exists u, usersOf erinServer.1 !! "erin" = Some u /\
    CompareHashAndPassword (u_PasswordHash u) "sesame" = true /\
    answers_token erinServer.1 (HandleLogin erinForm erinServer).1 "erin" (orElse (u_Username u) "erin") (u_Role u).
Proof.
  destruct (http_login_sound erinForm erinServer.1 erinServer.2 eq_refl) as (_ & _ & H).
  destruct (H erin_logs_in) as (_ & u & Hu & Hc & Ha). exists u. exact (conj Hu (conj Hc Ha)).
Defined.

Lemma http_register_login_witness :
  usersOf demoServer !! "erin" = None /\
  (rs_status (HandleLogin erinForm (erinServer.1, demoStart)).1 = StatusOK \/
   rs_status (HandleLogin erinForm (erinServer.1, demoStart)).1 = StatusInternalServerError).
Proof.
  destruct (http_register_login erinForm demoServer demoStart erinForm erinServer.1 demoStart
    erin_registers eq_refl eq_refl eq_refl eq_refl eq_refl) as (H1 & _ & H2).
  exact (conj H1 H2).
Defined.

Definition changeForm : Request :=
  post (asErin [("old_password", "sesame"); ("new_password", "opensesame")]).

Lemma erin_changes : rs_status (HandleChangePassword changeForm erinServer).1 = StatusOK.
Proof. by vm_compute. Qed.

Lemma http_change_password_witness :
  exists u h, usersOf erinServer.1 !! "erin" = Some u /\ u_PasswordHash u = "#sesame" /\
    CompareHashAndPassword h "opensesame" = true /\
    u_PasswordHash <$> usersOf (HandleChangePassword changeForm erinServer).2.1 !! "erin" = Some h.
Proof.
  destruct (http_change_password changeForm erinServer.1 erinServer.2 erin_changes)
    as (c & u & h & _ & Hc & Hu & Hold & _ & Hnew & Hafter & _).
  change (FormValue changeForm "uid") with "erin" in Hc. rewrite Hc in Hu, Hafter.
  exists u, h. split; [exact Hu|]. split.
  - exact (bool_decide_eq_true_1 _ Hold).
  - split; [exact Hnew|]. change erinServer with (erinServer.1, erinServer.2).
    rewrite Hafter, lookup_insert_eq. reflexivity.
Defined.

(** A disabled account logs in like any other. *)
Lemma login_ignores_disabled :
  let disabled := (set_sv_userStore (Some (SqlUpdateUserDisabled "erin" true
    (default (emptyDB []) (sv_userStore erinServer.1), erinServer.2)).2.1) erinServer.1, erinServer.2) in
  u_IsDisabled <$> usersOf disabled.1 !! "erin" = Some true /\
  rs_status (HandleLogin erinForm disabled).1 = StatusOK.
Proof. by vm_compute. Qed.

(** ** Groups *)

Definition demoGroups : gmap string Group :=
  {[ "g_1" := mkGroup "g_1" "team" "alice" {["alice"; "bob"; "carol"; "dave"]} 0 ]}.

Lemma demo_sgroups : sgroups demoGroups (demoServer, demoStart).
Proof. done. Qed.

(** Erin, who does not own the group, cannot kick bob out of it. *)
Definition kickForm : Request := post (asErin [("group_id", "g_1"); ("target_uid", "bob")]).

Lemma http_group_entitled_witness :
  exists G', sgroups G' (serve demoType GroupKick kickForm (demoServer, demoStart)).2 /\ member G' "g_1" "bob".
Proof.
  destruct (http_group_entitled demoType GroupKick kickForm demoServer demoStart demoGroups eq_refl demo_sgroups)
    as (G' & HG' & _ & Hkeep & _).
  exists G'. split; [exact HG'|]. destruct (Hkeep "g_1" "bob") as [H|[[H _]|(_ & g & Hg & Ho)]].
  - eexists. split; [reflexivity|]. by vm_compute.
  - exact H.
  - discriminate H.
  - vm_compute in Hg. injection Hg as <-. discriminate Ho.
Defined.

(** ** Files *)

Definition uploadForm : Request :=
  mkRequest "POST" "" None (asErin []) [] None (inr ("notes.txt", inr "hello")).

Lemma erin_uploads : rs_status (HandleUpload demoType uploadForm erinServer).1 = StatusOK.
Proof. by vm_compute. Qed.

Definition downloadForm (id : string) : Request := get (asErin [("id", id)]).

Lemma erin_claims : claims_of erinServer.1 demoStart erinToken
  (mkClaims "erin" "erin" "user" 2000000000000000000 0 "im-server").
Proof. by vm_compute. Qed.

Lemma http_upload_download_witness :
  exists id, answers_file (HandleUpload demoType uploadForm erinServer).1 id /\
    (HandleDownload (downloadForm id) ((HandleUpload demoType uploadForm erinServer).2.1, demoStart)).1 =
      mkResponse StatusOK (BData "text/plain; charset=utf-8" "hello").
Proof.
  destruct (http_upload_download demoType uploadForm erinServer.1 erinServer.2 erin_uploads)
    as (id & name & data & Hf & Ha & _ & Hd).
  exists id. split; [exact Ha|]. injection Hf as <- <-.
  exact (proj2 (Hd (downloadForm id) _ demoStart _ eq_refl erin_claims eq_refl
    ltac:(discriminate) ltac:(discriminate) eq_refl ltac:(discriminate)) InMemory_reliable).
Defined.
