(* ===== verification/EdgeWitnesses.v ===== *)
(** * Concrete connections

    The theorems of KitTcp, KitHttp, WebSocketFacts and Metrics at concrete inputs.
    Alice's token over TCP to a gnet server that serves nobody yet, and Erin's
    password over HTTP to the server she has registered with. *)

From S2P Require Import Prelude GoStrings Proto Snowflake Process Sql Client Hub HashRing Dedup.
From S2P Require Import RateLimiter Unread GroupStore Json JsonFacts Url Stores LogicClient.
From S2P Require Import LogicServer MySQLUsers MySQLUserFacts Producer Framing Kit RouterState.
From S2P Require Import RouterDelivery RouterChat RouterGroup Jwt Http HttpGroups Thumbnail Config.
From S2P Require Import HttpFiles HttpFacts HttpAccounts KitHttp Router RouterFrame RouterInv Demo.
From S2P Require Import RouterChatFacts Session KitTcp Metrics WebSocket WebSocketFacts.
From S2P Require Import SessionWitnesses HttpWitnesses.

#[local] Existing Instance demoJwt.
#[local] Existing Instance demoBcrypt.

#[local] Instance demoTexts : ErrorTexts :=
  mkErrorTexts (fun _ => PlainError "marshal") (fun _ => PlainError "unmarshal") (fun _ => PlainError "json").

(** ** TCP *)

(** The server after the connection has opened. *)
Definition demoLink : Link (B := demoBackends) :=
  mkLink (OnOpen (B := demoBackends) 5 (demoHandler, demoStart)).2.1 [] [].

Definition loginData : bytes := frameBytes (loginMessage demoToken).

Lemma demo_token_for : token_for demoManager demoToken "alice" "Alice" "user" 2000000000000000000.
Proof.
  intros X x s. unfold ValidateToken. rewrite bind_run. cbn [Now fst snd ret].
  assert (Hs : SignedString (mkClaims "alice" "Alice" "user" 2000000000000000000 0 "im-server") (secret demoManager) = inr demoToken)
    by (vm_compute; reflexivity).
  pose proof (parse_signed _ _ _ (keyFunc demoManager) (readings steadyEnv (sys_tick s)) Hs eq_refl) as H.
  cbn [c_ExpiresAt] in H. destruct (Z.ltb_spec (readings steadyEnv (sys_tick s)) 2000000000000000000).
  - rewrite H. by split_and!.
  - destruct H as [t ->]. by split.
Qed.

Lemma tcp_login_witness :
  exists h k, (LoginTCP (TN := linkNet (fun _ => "bad json") 65536 5) tt demoToken 0 (demoLink, demoStart)).1 =
    inr (loginResp "alice" "Alice" (UnixMilli (readings steadyEnv k))) /\ h_uid h = "alice".
Proof.
  destruct (tcp_login (fun _ => "bad json") 65536 5 demoToken 0 "alice" "Alice" "user" 2000000000000000000
    loginData demoLink demoStart) as (h & k & H1 & _ & H2 & _).
  - reflexivity.
  - reflexivity.
  - reflexivity.
  - reflexivity.
  - vm_compute. reflexivity.
  - assert (H : ((0 <? length loginData)%nat && (Z.of_nat (length loginData) <=? wrapu32 65536)) = true) by (vm_compute; reflexivity).
    apply andb_prop in H as [H1 H2]. split; [by apply Nat.ltb_lt|by apply Z.leb_le].
  - exact demo_token_for.
  - vm_compute. reflexivity.
  - vm_compute. reflexivity.
  - right. reflexivity.
  - intros h Hh. vm_compute in Hh. discriminate Hh.
  - intros k Hk. unfold soon in Hk. cbn in Hk.
    assert (Hin : k ∈ seq 1 7) by (apply elem_of_seq; lia). clear Hk. revert k Hin. apply Forall_forall.
    repeat (apply Forall_cons; split); [..|apply Forall_nil; exact Logic.I];
      (split; [vm_compute; reflexivity|]); (eexists; split; [vm_compute; reflexivity|vm_compute; discriminate]).
  - exists h, k. split; [exact H1|exact H2].
Defined.

(** ** HTTP *)

Lemma bits_utf8 p : utf8 (bits p).
Proof. induction p as [p IH|p IH|]; [..|done]; (apply utf8_ascii; [by vm_compute|exact IH]). Qed.

Lemma demo_tokens_text c k tok : SignedString c k = inr tok -> utf8 tok.
Proof. intros [= <-]. apply bits_utf8. Qed.

(** Erin's login gives a token of hers, and her password was asked for. *)
Lemma kit_login_witness :
  exists tok, (Kit.Login (HN := serverNet "http://gateway") "http://gateway/login" "erin" "" "sesame" erinServer).1 = inr (tok, "erin") /\
    exists u, usersOf erinServer.1 !! "erin" = Some u /\ CompareHashAndPassword (u_PasswordHash u) "sesame" = true.
Proof.
  assert (Hus : forall u, usersOf erinServer.1 !! "erin" = Some u -> utf8 (u_Username u)).
  { intros u Hu. vm_compute in Hu. injection Hu as <-. vm_compute. reflexivity. }
  pose proof (kit_login "http://gateway" demo_tokens_text "erin" "" "sesame" erinServer.1 erinServer.2
    ltac:(discriminate) eq_refl eq_refl Hus) as H.
  assert (Hok : exists tok u, (Kit.Login (HN := serverNet "http://gateway") "http://gateway/login" "erin" "" "sesame"
    (erinServer.1, erinServer.2)).1 = inr (tok, u)) by (vm_compute; eauto).
  destruct Hok as (tok & u & Hok). cbv zeta in H. unfold erinServer in *.
  change ("http://gateway" +:+ "/login") with "http://gateway/login" in H.
  rewrite Hok in H. destruct H as (_ & -> & _ & H). exists tok. split; [exact Hok|exact H].
Defined.

(** * A concrete WebSocket connection

    A connection as the list of what its peer sends, over the demonstration
    gateway: Dave connects, is greeted, and says nothing more. *)

#[local] Existing Instance demoJwt.

(** The library on a scripted peer: a message over the limit, a silent peer, a
    passed deadline and a closed connection are errors. *)
Definition demoRead (closed : bool) (limit deadline : Z) : St (list Incoming * Sys) Incoming :=
  let! now := Now in
  let! c := getX in
  if closed || (deadline <? now) then ret (InError true)
  else
    match c with
    | [] => ret (InError false)
    | InMessage raw :: rest =>
        if (0 <? limit) && (limit <? Z.of_nat (length raw)) then ret (InError true)
        else putX rest ;;! ret (InMessage raw)
    | i :: rest => putX rest ;;! ret i
    end.

#[export] Instance demoWs : WsLib (list Incoming) := {|
  ReadMessage := demoRead;
  WriteMessage closed _ _ := ret (if closed : bool then Some "websocket: close sent"%string else None)
|}.

Lemma demoRead_error closed limit d c s :
  closed = true \/ d < readings steadyEnv (sys_tick s) -> exists u, (demoRead closed limit d (c, s)).1 = InError u.
Proof.
  intros H. unfold demoRead. rewrite bind_run. cbn [Now fst snd]. rewrite bind_run. cbn [getX gets fst snd].
  replace (closed || (d <? readings steadyEnv (sys_tick s))) with true; [by eexists|].
  symmetry. apply orb_true_iff. destruct H as [->|H]; [by left|right]. by apply Z.ltb_lt.
Qed.

#[export] Instance demoWsLaws : WsLaws steadyEnv (list Incoming).
Proof.
  split.
  - intros. apply demoRead_error. by left.
  - intros. by eexists.
  - intros b limit d c s. cbn [ReadMessage demoWs]. unfold demoRead. rewrite bind_run. cbn [Now fst snd]. rewrite bind_run.
    cbn [getX gets fst snd]. destruct (_ || _); [cbn; lia|]. destruct c as [|[raw'| |u] rest]; try (cbn; lia).
    destruct (_ && _); cbn; lia.
  - intros b limit d c s raw Hl. cbn [ReadMessage demoWs]. unfold demoRead. rewrite bind_run. cbn [Now fst snd]. rewrite bind_run.
    cbn [getX gets fst snd]. destruct (_ || _); [done|]. destruct c as [|[raw'| |u] rest]; try done.
    replace (0 <? limit) with true by (symmetry; by apply Z.ltb_lt). cbn [andb].
    destruct (Z.ltb_spec limit (Z.of_nat (length raw'))); [done|]. cbn. by intros [= <-].
  - intros b limit d c s H. apply demoRead_error. right. by apply H.
Qed.

#[export] Instance demoUpgrader : Upgrader.
Proof.
  refine {| Upgrade := fun ok _ => if ok : bool then None else Some (httpError "Forbidden" StatusForbidden) |}.
  intros r. by eexists.
Defined.

(** ** The endpoint *)

Lemma demo_registered u k : Hub.clients demoConn !! u = Some k -> k = alice /\ u = "alice" \/ k = bob /\ u = "bob" \/ k = carol /\ u = "carol".
Proof.
  unfold demoConn. cbn [Hub.clients]. rewrite !lookup_insert_Some, lookup_singleton_Some. naive_solver.
Qed.

Definition wsRequest : Request := get [("token", erinToken)].

Lemma ws_endpoint_witness :
  exists claims h sv y, HandleWS 16 wsRequest (demoServer, demoStart) = (inr (claims, h), (sv, y)) /\
    h_uid h = c_UID claims /\ c_UID claims = "erin".
Proof.
  assert (Hreg : forall u k, Hub.clients (clients (sv_router demoServer)) !! u = Some k ->
    h_uid k = u /\ is_Some (heap (clients (sv_router demoServer)) !! h_id k)).
  { intros u k Hk. change (Hub.clients demoConn !! u = Some k) in Hk.
    destruct (demo_registered u k Hk) as [[-> ->]|[[-> ->]|[-> ->]]]; (split; [reflexivity|by eexists]). }
  pose proof (ws_endpoint 16 wsRequest demoServer demoStart Hreg) as H.
  assert (Hok : match (HandleWS 16 wsRequest (demoServer, demoStart)).1 with
                | inr (claims, _) => c_UID claims = "erin" | inl _ => False end) by (vm_compute; reflexivity).
  cbv zeta in H. destruct (HandleWS 16 wsRequest (demoServer, demoStart)) as [[resp|[claims h]] [sv y]]; [by destruct Hok|].
  destruct H as (_ & _ & _ & H & _). exists claims, h, sv, y. split; [reflexivity|]. split; [exact H|exact Hok].
Defined.

(** ** A connection *)

Definition daveClaims : Claims := mkClaims "dave" "Dave" "user" 2000000000000000000 0 "im-server".

(** A peer is given no time to answer a ping. *)
Definition hastyConfig : GatewayConnConfig := mkGatewayConnConfig 0 54000000000 65536 16 100.

Definition daveOpened : Handle * (Router (B := demoBackends) * Sys) :=
  newClient "dave" "Dave" 16 (demoRouter, demoStart).
Definition dave : Handle := daveOpened.1.
Definition daveClient : Client := NewClient "dave" "Dave" 16 (readings steadyEnv 0).

Abbreviation Conn_ := (Ws (list Incoming) * Router (B := demoBackends) * Sys)%type.
Abbreviation step := (ws_step (fun _ => "bad json") daveClaims hastyConfig).

Definition dave0 : Conn_ := (newWs dave [], daveOpened.2.1, daveOpened.2.2).
Definition dave1 : Conn_ := (registerTurn dave0).2.
Definition dave2 : Conn_ := noted true dave1.2 (greetTurn daveClaims hastyConfig dave1).2.
Definition dave3 : Conn_ := (writeTurn OnData dave2).2.

Lemma dave_opened : opened dave daveClient daveOpened.2.1.
Proof.
  split; [reflexivity|]. split; [done|]. split; [done|].
  intros u k Hk. change (Hub.clients demoConn !! u = Some k) in Hk.
  destruct (demo_registered u k Hk) as [[-> ->]|[[-> ->]|[-> ->]]]; (split; [reflexivity|by vm_compute]).
Qed.

Lemma step_to (p q : Conn_) : step (p.1.1, p.1.2, p.2) q -> step p q.
Proof. by destruct p as [[w r] s]. Qed.

Lemma dave_greeted : rtc step dave0 dave2.
Proof.
  eapply rtc_l; [apply step_to, StepRegister; reflexivity|].
  eapply rtc_l; [apply step_to, StepGreet; reflexivity|]. apply rtc_refl.
Qed.

Lemma dave_written : rtc step dave0 dave3.
Proof. eapply rtc_r; [apply dave_greeted|]. apply step_to, StepWrite. reflexivity. Qed.


Lemma ws_silent_peer_ends_witness :
  ws_phase (readTurn (fun _ => "bad json") hastyConfig dave2).2.1.1 = Ended /\
  Hub.clients (clients (readTurn (fun _ => "bad json") hastyConfig dave2).2.1.2) !! "dave" <> Some dave.
Proof.
  assert (Hi : ws_inv hastyConfig dave daveClient dave2).
  { apply (ws_steps_inv (fun _ => "bad json") daveClaims hastyConfig dave daveClient dave0 dave2 dave_greeted).
    apply ws_inv_start. exact dave_opened. }
  assert (Hp : ws_phase dave2.1.1 = Reading) by (vm_compute; reflexivity).
  assert (Ht : sys_tick dave2.2 = 3%nat) by (vm_compute; reflexivity).
  assert (Hd : ws_readDeadline dave2.1.1 = steadyClock 2) by (vm_compute; reflexivity).
  destruct dave2 as [[w r] s]. cbn [fst snd] in *.
  assert (Hlate : forall n, (sys_tick s <= n)%nat -> ws_readDeadline w < readings steadyEnv n).
  { intros n Hn. rewrite Hd. rewrite Ht in Hn. cbn [readings steadyEnv]. unfold steadyClock. lia. }
  pose proof (ws_silent_peer_ends (fun _ => "bad json") hastyConfig dave daveClient w r s Hi Hp Hlate) as H.
  destruct (readTurn (fun _ => "bad json") hastyConfig (w, r, s)).2 as [[w' r'] s']. cbn [fst snd].
  destruct H as (H1 & _ & H2 & _). split; [exact H1|apply H2].
Defined.

(** * A concrete registry

    Prometheus as a list of collectors with the counts of increments and the
    observations; the demonstration router's calls replayed on it. *)

Record DemoRegistry (W : Type) := mkDemoRegistry {
  dr_collectors : list (Collector W);
  dr_incs : list (string * list string);
  dr_observed : list (string * list string * float64)
}.
Arguments mkDemoRegistry {W}.
Arguments dr_collectors {W}.
Arguments dr_incs {W}.
Arguments dr_observed {W}.

Section Demo.
Context {W : Type}.
Abbreviation P := (DemoRegistry W).

#[export] Instance demoPrometheus : Prometheus W P := {|
  NewRegistry := mkDemoRegistry [] [] [];
  Register c p :=
    if bool_decide (familyOf c ∈ (familyOf <$> dr_collectors p)) then None
    else Some (mkDemoRegistry (dr_collectors p ++ [c]) (dr_incs p) (dr_observed p));
  Inc n ls p := mkDemoRegistry (dr_collectors p) ((n, ls) :: dr_incs p) (dr_observed p);
  Observe n ls x p := mkDemoRegistry (dr_collectors p) (dr_incs p) ((n, ls, x) :: dr_observed p);
  registered p := dr_collectors p;
  value p n ls := Z.of_nat (length (filter (fun e => e = (n, ls)) (dr_incs p)));
  observed p n ls := omap (fun e => if bool_decide (e.1 = (n, ls)) then Some e.2 else None) (dr_observed p)
|}.

#[export] Instance demoPrometheusLaws : PrometheusLaws W P.
Proof.
  split; try done.
  - intros c p Hin. cbn. by rewrite bool_decide_true.
  - intros c p Hin. cbn. rewrite bool_decide_false by done. eexists. by split_and!.
  - intros n ls n' ls' p. cbn [value Inc demoPrometheus dr_incs]. rewrite filter_cons.
    case_decide as H1; case_bool_decide as H2; cbn [length]; try lia; by subst.
  - intros n ls x n' ls' p. cbn. by case_bool_decide.
Qed.

End Demo.

(** A chat message from alice is one more CmdChat, and no more logins. *)
Lemma route_counts_witness :
  exists (p p' : DemoRegistry unit), NewMetrics (mkOptions None None None None) = Some p /\
    replay (metrics (Route (fun _ => "bad json") alice (demoChat "bob") (demoRouter, demoStart)).2.1) (Some p) = Some p' /\
    value p' "im_commands_total" ["CmdChat"] = 1 /\ value p' "im_commands_total" ["CmdLogin"] = 0.
Proof.
  destruct (NewMetrics_new (W := unit) (P := DemoRegistry unit) (mkOptions None None None None)) as (p & Hp & _).
  destruct (route_counts (fun _ => "bad json") alice (demoChat "bob") demoRouter demoStart p p CmdChat
    ltac:(vm_compute; split; discriminate) eq_refl) as (p1 & H1 & V1 & _).
  destruct (route_counts (fun _ => "bad json") alice (demoChat "bob") demoRouter demoStart p p CmdLogin
    ltac:(vm_compute; split; discriminate) eq_refl) as (p2 & H2 & V2 & _).
  rewrite H1 in H2. injection H2 as <-.
  assert (Hz : forall n ls, value p n ls = 0) by (vm_compute in Hp; injection Hp as <-; done).
  rewrite Hz in V1, V2. exists p, p1. split; [exact Hp|]. split; [exact H1|]. split; [exact V1|exact V2].
Defined.
