(* ===== verification/AppFacts.v ===== *)
(** * The gateway process

    A started gateway is safe, and its routes are guarded; a concrete start with
    the default configuration. *)

From S2P Require Import Prelude GoStrings Proto Snowflake Process Sql Client Hub RedisStore.
From S2P Require Import HashRing Dedup RateLimiter Unread GroupStore Json Stores MySQLMessages.
From S2P Require Import LogicClient LogicServer MySQLGroups MySQLUsers MySQLUserFacts Producer.
From S2P Require Import GrpcServer GrpcForwarder Cluster ClusterFacts RouterState RouterDelivery.
From S2P Require Import RouterChat RouterGroup Jwt Http HttpGroups Thumbnail GoTime Config HttpFiles.
From S2P Require Import HttpFacts Router RouterFrame RouterInv Durable App Demo RouterChatFacts.
From S2P Require Import RouterGroupFacts RouterSafety Session SessionWitnesses HttpWitnesses.

Section Facts.
Context {E : Env} {CD : Codec} {J : JwtLib} {BC : Bcrypt} {IM : Images}.
Context {D : Type} {DB : Database D} {R : Type} {RS : RedisScripts R} {RK : RedisKV R} {NR : NodeRegistry R}.
Context {K : Type} {KW : KafkaWriter K} {L : Type} {LR : LogicRPC L} {P : Type} {PN : PeerNet P}.
Context {MO : Type} {MI : ObjectStore MO}.
Context (errNoPeer : string).

#[local] Instance B : Backends E := appBackends (D := D) (R := R) (K := K) (L := L) (P := P) errNoPeer.

Abbreviation Srv := (Server (B := B) D (MO + InMemoryObjectStore)).
Abbreviation Dl := (Dials (D := D) (R := R) (K := K) (L := L) (P := P) (MO := MO)).

(** The stores a start can choose are safe, whatever the database, Redis and the
    peers do. *)
#[export] Instance app_safe : BackendSafe E B.
Proof.
  refine (mkBackendSafe E B Either_OfflineSafe _ _ MySQL_messages_keep MySQL_friends_keep _).
  - intros gid uid a b l. apply Either_groups_keep; [apply MySQL_groups_keep|].
    split_and!; intros g s Hs; by apply (groups_sys gid uid a b l g s Hs).
  - intros to from. split_and!; intros u s Hs; by apply (unread_sys to from u s Hs).
  - intros u m x s Hs. change (sys_wf E (let (r, x') := GrpcForward errNoPeer u m x in (r, (x', s))).2.2).
    by destruct (GrpcForward errNoPeer u m x).
Defined.

(** ** Start-up *)

Lemma promoteAdmins_keeps uids : sys_keeps E (promoteAdmins (D := D) uids).
Proof.
  unfold promoteAdmins. induction uids as [|uid uids IH]; cbn [forEach]; [apply keeps_ret|].
  apply keeps_bind; [|done]. unfold SqlUpdateUserRole, updated, userExists. keeps.
Qed.

Lemma offlineStoreFor_ok cfg rdb :
  0 <= co_OfflineMaxSize (gw_Conn (cf_Gateway cfg)) ->
  safe_ok (OfflineSafe := bs_offline (B := B)) (offlineStoreFor cfg rdb).
Proof. intros Hm. unfold offlineStoreFor. by destruct rdb. Qed.

Lemma startRouter_inv cfg d rdb mysql fw y :
  0 <= co_OfflineMaxSize (gw_Conn (cf_Gateway cfg)) -> sys_wf E y ->
  router_inv (startRouter (MO := MO) errNoPeer cfg d rdb mysql fw) y.
Proof.
  intros Hm Hy. unfold startRouter.
  assert (Hd : tasks_ok (dedup (NewRouter (B := B) (hubFor cfg) (offlineStoreFor cfg rdb) mysql (routerConfig cfg)))).
  { split; cbn; [lia|constructor]. }
  pose proof (offlineStoreFor_ok cfg rdb Hm) as Ho.
  destruct fw as [f|]; destruct (rl_Enabled _); unfold SetRateLimit; try destruct (0 <? _);
    (split; [exact Hy|cbn; lia|exact Hd|exact Ho]).
Qed.


Lemma registerHealthChecks_router cfg (d : Dl) rdb mysql s :
  sv_router (registerHealthChecks errNoPeer cfg d rdb mysql s) = sv_router s.
Proof. unfold registerHealthChecks. by repeat case_match. Qed.

(** What a start gives: a router as [startRouter] builds it, over whatever
    connected. *)
Lemma NewApp_spec cfg (d : Dl) tick app y :
  NewApp errNoPeer cfg d tick = Some (app, y) ->
  0 <= sn_WorkerID (cf_Snow cfg) <= workerMax /\ sys_wf E y /\
  ap_redis errNoPeer app = dialRedis cfg d /\
  exists fw, sv_router (ap_server errNoPeer app) =
      startRouter errNoPeer cfg d (ap_redis errNoPeer app) (ap_mysql errNoPeer app) fw /\
    (fw = None <-> clustered cfg = false) /\
    (ap_mysql errNoPeer app = None <-> dialMySQL cfg d = None) /\
    (ap_clusterMgr errNoPeer app = None <-> clustered cfg = false \/ dl_grpc d <> None).
Proof.
  unfold NewApp. destruct (Snowflake.New _) as [snow|] eqn:Hsnow; [|done].
  assert (Hw : 0 <= sn_WorkerID (cf_Snow cfg) <= workerMax).
  { unfold Snowflake.New in Hsnow. destruct (Z.ltb_spec (sn_WorkerID (cf_Snow cfg)) 0); [done|].
    rewrite Z.gtb_ltb in Hsnow. by destruct (Z.ltb_spec workerMax (sn_WorkerID (cf_Snow cfg))). }
  assert (Hy0 : sys_wf E (mkSys tick snow)) by exact (wf_New E tick _ snow Hsnow).
  assert (Hy1 : sys_wf E (openMySQL cfg d (mkSys tick snow)).2 /\
    ((openMySQL cfg d (mkSys tick snow)).1 = None <-> dialMySQL cfg d = None)).
  { unfold openMySQL. destruct (dialMySQL cfg d) as [db|]; [|done].
    pose proof (promoteAdmins_keeps (cf_AdminUIDs cfg) db _ Hy0) as Hp.
    by destruct (promoteAdmins _ _) as [u [db' y']]. }
  destruct (openMySQL cfg d (mkSys tick snow)) as [mysql y1]. cbn [fst snd] in Hy1. destruct Hy1 as [Hy1 Hm].
  cbv zeta. destruct (clustered cfg) eqn:Hcl.
  - rewrite bind_run. destruct (RangeKeys (elements (dom (gr_PeerAddrs (gw_Grpc (cf_Gateway cfg))))) (tt, y1))
      as [nodes [u y2]] eqn:Hr. cbn [fst snd ret].
    assert (Hy2 : sys_wf E y2).
    { pose proof (sys_keeps_reads _ (observes_RangeKeys (X := unit)
        (elements (dom (gr_PeerAddrs (gw_Grpc (cf_Gateway cfg)))))) tt y1 Hy1) as H. by rewrite Hr in H. }
    intros [= <- <-]. cbn [ap_server ap_redis ap_mysql ap_clusterMgr]. rewrite registerHealthChecks_router.
    cbn [sv_router NewServer].
    split_and!; [lia|lia|done|done|]. eexists. split; [reflexivity|]. split; [by case_match|].
    split; [exact Hm|]. destruct (dl_grpc d); naive_solver.
  - intros [= <- <-]. cbn [ap_server ap_redis ap_mysql ap_clusterMgr]. rewrite registerHealthChecks_router.
    cbn [sv_router NewServer].
    split_and!; [lia|lia|done|done|]. exists None. split; [reflexivity|]. split; [done|]. split; [exact Hm|].
    naive_solver.
Qed.

Lemma NewApp_none cfg (d : Dl) tick :
  NewApp errNoPeer cfg d tick = None <-> ~ 0 <= sn_WorkerID (cf_Snow cfg) <= workerMax.
Proof.
  unfold NewApp, Snowflake.New. rewrite Z.gtb_ltb.
  destruct (Z.ltb_spec (sn_WorkerID (cf_Snow cfg)) 0); cbn [orb]; [by split; [lia|]|].
  destruct (Z.ltb_spec workerMax (sn_WorkerID (cf_Snow cfg))); [by split; [lia|]|].
  destruct (openMySQL _ _ _) as [mysql y1]. split; [|lia]. intros Hnone. exfalso. revert Hnone.
  destruct (if clustered cfg then _ else _) as [fw [u y2]]. discriminate.
Qed.

(** Whatever commands are served from here, the router keeps its invariant, its
    connections and its configuration. *)
Definition serves_safely err (r : Router (B := B)) y : Prop := forall cmds,
  let p := (RouterSafety.serve err cmds (r, y)).2 in router_inv p.1 p.2 /\ router_frame r p.1.

(** C2. Nothing that fails to connect stops a gateway from starting, only a
    worker id out of range does; and whatever configuration it started with,
    whichever stores it got, and however they fail from then on, it serves any
    sequence of commands safely: ids stay well formed, the deduplication and
    persistence queues within their capacity, the offline store keeps its
    invariant, connections only receive frames, the configuration stays. *)
Theorem gateway_starts_safe err cfg (d : Dl) tick :
  0 <= co_OfflineMaxSize (gw_Conn (cf_Gateway cfg)) ->
  (NewApp errNoPeer cfg d tick = None <-> ~ 0 <= sn_WorkerID (cf_Snow cfg) <= workerMax) /\
  forall app y, NewApp errNoPeer cfg d tick = Some (app, y) ->
    serves_safely err (sv_router (ap_server errNoPeer app)) y.
Proof.
  intros Hm. split; [apply NewApp_none|]. intros app y Hnew cmds p.
  destruct (NewApp_spec cfg d tick app y Hnew) as (_ & Hy & _ & fw & Hr & _).
  assert (Hi : router_inv (sv_router (ap_server errNoPeer app)) y) by (rewrite Hr; by apply startRouter_inv).
  exact (serve_safe err cmds _ y Hi).
Qed.

(** A gateway whose gRPC server does not start keeps the ring and the forwarder,
    so it goes on forwarding to its peers, and has no cluster manager. *)
Lemma grpc_failure_keeps_ring cfg (d : Dl) tick app y e :
  clustered cfg = true -> dl_grpc d = Some e -> NewApp errNoPeer cfg d tick = Some (app, y) ->
  hashRing (sv_router (ap_server errNoPeer app)) <> None /\
  forwarder (sv_router (ap_server errNoPeer app)) <> None /\ ap_clusterMgr errNoPeer app = None.
Proof.
  intros Hc Hg Hnew. destruct (NewApp_spec cfg d tick app y Hnew) as (_ & _ & _ & fw & Hr & Hf & _ & Hcl).
  rewrite Hc in Hf. destruct fw as [f|]; [|by destruct Hf as [Hf _]; specialize (Hf eq_refl)].
  rewrite Hr. split_and!; [by unfold startRouter; case_match; unfold SetRateLimit; try case_match..|].
  apply Hcl. right. by rewrite Hg.
Qed.

(** ** Routes *)

Context (DetectContentType : string -> string).

(** The paths anybody may use. *)
Definition openPaths : list string := ["/login"; "/register"; "/online"; "/health"; "/metrics"; "/ws"].

Definition guardedRoute (p : string * Served) : bool :=
  bool_decide (p.1 ∈ openPaths) || match p.2 with SvHttp e => protected e | _ => false end.

Lemma routes_guarded cfg : forallb guardedRoute (routes cfg) = true.
Proof.
  unfold routes. rewrite !forallb_app.
  destruct (bool_decide (transportOf cfg = _ \/ _)), (st_MetricsEnabled _); vm_compute; reflexivity.
Qed.

Lemma mux_route cfg path sv : mux cfg path = Some sv -> (path, sv) ∈ routes cfg.
Proof.
  unfold mux. intros ([q sv'] & Hp & ->)%fmap_Some_1. apply head_Some_elem_of in Hp.
  apply list_elem_of_filter in Hp as [Hq Hin]. cbn in Hq |- *. by subst.
Qed.

Lemma mux_protected cfg path :
  path ∉ openPaths ->
  mux cfg path = None \/ exists e, mux cfg path = Some (SvHttp e) /\ protected e = true.
Proof.
  intros Ho. destruct (mux cfg path) as [sv|] eqn:Hm; [right|by left].
  apply mux_route, list_elem_of_In in Hm.
  pose proof (proj1 (forallb_forall guardedRoute (routes cfg)) (routes_guarded cfg) _ Hm) as Hg.
  unfold guardedRoute in Hg. rewrite bool_decide_false in Hg by exact Ho.
  destruct sv as [e| |]; [by exists e|done..].
Qed.

(** C4. Every path of the server but login, registration, the list of users
    online, the health check, the metrics and the WebSocket endpoint (which
    checks its own token) acts only for an authorized request: unless the
    request's token is valid now and names the uid of the request (and, for the
    administration, carries the administrator's role), the response is an error
    and the router, the users and the files are left as they were. *)
Theorem routes_require_token other cfg path r (s : Srv) y :
  path ∉ openPaths ->
  (exists e, mux cfg path = Some (SvHttp e) /\ authorized e r s y) \/
  ((handle errNoPeer DetectContentType other cfg path r (s, y)).2.1 = s /\
   400 <= rs_status (handle errNoPeer DetectContentType other cfg path r (s, y)).1 <= 503).
Proof.
  intros Ho. unfold handle, Recovery. rewrite !bind_run.
  destruct (mux_protected cfg path Ho) as [->|(e & -> & Hp)]; [by right|].
  destruct (http_requires_token DetectContentType e r s y Hp) as [Ha|H]; [left; by exists e|by right].
Qed.

End Facts.

(** * A concrete start of the gateway

    The default configuration with Redis, MySQL, Kafka, a peer and discovery
    through Redis, over connections that answer; the gateway that starts serves
    commands and refuses a request without a token. *)

#[local] Existing Instance demoJwt.
#[local] Existing Instance demoBcrypt.
#[local] Existing Instance demoImages.
#[local] Instance noNet : PeerNet unit :=
  mkPeerNet unit (fun _ p => (None, p)) (fun _ _ p => (inl "unreachable", p)).

(** A Redis that answers: its lists, its numbers and its node keys. *)
Record DemoRedis := mkDemoRedis { dr_lists : Lists; dr_kv : gmap string Z; dr_nodes : gmap string string }.

#[local] Instance DemoRedis_Scripts : RedisScripts DemoRedis :=
  mkRedisScripts DemoRedis (fun A f r =>
    (inr (f (dr_lists r)).1, mkDemoRedis (f (dr_lists r)).2 (dr_kv r) (dr_nodes r))).

#[local] Instance DemoRedis_KV : RedisKV DemoRedis :=
  mkRedisKV DemoRedis (fun k r => dr_kv r !! k)
    (fun k v _ r => mkDemoRedis (dr_lists r) (<[k := v]> (dr_kv r)) (dr_nodes r)).

#[local] Instance DemoRedis_Nodes : NodeRegistry DemoRedis :=
  mkNodeRegistry DemoRedis
    (fun k v _ r => (None, mkDemoRedis (dr_lists r) (dr_kv r) (<[k := v]> (dr_nodes r))))
    (fun _ r => (inr (map fst (map_to_list (dr_nodes r))), r))
    (fun k r => (match dr_nodes r !! k with Some a => inr a | None => inl "redis: nil" end, r))
    (fun k r => (None, mkDemoRedis (dr_lists r) (dr_kv r) (delete k (dr_nodes r)))).

#[local] Existing Instance demoKafka.
#[local] Existing Instance demoLogic.

Definition demoDials : Dials (D := TableDB) (R := DemoRedis) (K := list (bytes * bytes)) (L := unit) (P := unit)
    (MO := InMemoryObjectStore) :=
  mkDials (mkDemoRedis ∅ ∅ {[ gw "gw-2" := "10.0.0.2:9090" ]}) None (inr (emptyDB [])) (inr []) (inl "no address")
    tt None (inl "no endpoint") ["gw-2"] ["gw-1"; "gw-2"] (fun _ _ => None).

Definition demoConfig : Config :=
  let c := Default in
  let g := cf_Gateway c in
  mkConfig
    (mkGatewayConfig (gw_HTTPAddr g) (gw_TCPAddr g) "both" (gw_Heartbeat g) (gw_HeartbeatFail g) (gw_CheckOrigin g)
       (gw_Conn g) (gw_RateLimit g) (mkRedisConfig "localhost:6379" "" 0) (gw_GNet g)
       (mkMySQLConfig true "im") (mkAuthConfig false) (mkKafkaConfig true ["localhost:9092"] "im.message.persist")
       (gw_LogicGateway g)
       (mkGrpcConfig "10.0.0.1:9090" "gw-1" {[ "gw-2" := "10.0.0.2:9090" ]} (3 * Second) (2 * Second)
          (mkDiscoveryConfig "redis" "im:gateway:node:" (15 * Second) (5 * Second)))
       (gw_ObjectStorage g) (gw_RecallWindowMs g) (gw_HistoryDefaultLimit g) (gw_SearchDefaultLimit g)
       (gw_DedupTTL g) (gw_PersistConcurrency g))
    (cf_Logic c) (mkJWTConfig "s3cret" (7 * 24 * Hour)) (cf_Snow c) (cf_Stability c) ["root"].

Definition demoNew := NewApp "no peer" demoConfig demoDials 0.

(** It starts, with a cluster manager that knows its peer. *)
Lemma demo_starts : bool_decide (is_Some (fst <$> demoNew)) = true.
Proof. by vm_compute. Qed.

(** A message of Alice's to Bob, one to the group, and one of Bob's back. *)
Definition demoCommands : list (Handle * Message) :=
  [(alice, demoChat "bob"); (alice, demoGroupChat); (bob, demoChat "alice")].

Lemma demo_offline_max : 0 <= co_OfflineMaxSize (gw_Conn (cf_Gateway demoConfig)).
Proof. by apply Z.leb_le. Qed.

Lemma demo_worker : 0 <= sn_WorkerID (cf_Snow demoConfig) <= workerMax.
Proof. split; by apply Z.leb_le. Qed.

Lemma gateway_starts_safe_witness :
  exists app y, demoNew = Some (app, y) /\
    let p := (serve (fun e => e) demoCommands (sv_router (ap_server "no peer" app), y)).2 in
    router_inv p.1 p.2 /\ router_frame (sv_router (ap_server "no peer" app)) p.1.
Proof.
  destruct (gateway_starts_safe "no peer" (fun e => e) demoConfig demoDials 0 demo_offline_max) as [Hnone Hrun].
  unfold demoNew. destruct (NewApp "no peer" demoConfig demoDials 0) as [[app y]|].
  - exists app, y. split; [reflexivity|]. exact (Hrun app y eq_refl demoCommands).
  - destruct (proj1 Hnone eq_refl demo_worker).
Defined.

Definition noHandler (sv : Served) (r : Request) :
  St (Server (B := B "no peer") TableDB (InMemoryObjectStore + InMemoryObjectStore) * Sys) Response :=
  ret (httpError "not modelled here" StatusNotFound).

Definition kickRequest : Request :=
  post [("uid", "alice"); ("token", "forged"); ("group_id", "g_1"); ("target_uid", "bob")].

Lemma kick_not_open : "/group/kick" ∉ openPaths.
Proof. apply (bool_decide_unpack _). by vm_compute. Qed.

Lemma kick_mux : mux demoConfig "/group/kick" = Some (SvHttp GroupKick).
Proof. by vm_compute. Qed.

(** A token nobody signed authorizes nobody, whatever the server and the clock. *)
Lemma forged_authorizes_none s y :
  ~ authorized (B := B "no peer") (US := TableDB) (OB := InMemoryObjectStore + InMemoryObjectStore)
      GroupKick kickRequest s y.
Proof.
  intros (c & Hc & _). unfold claims_of in Hc. revert Hc. by vm_compute.
Qed.

Lemma routes_require_token_witness :
  exists app y, demoNew = Some (app, y) /\
    (handle "no peer" demoType noHandler demoConfig "/group/kick" kickRequest (ap_server "no peer" app, y)).2.1
      = ap_server "no peer" app.
Proof.
  destruct demoNew as [[app y]|] eqn:Hnew; [exists app, y; split; [reflexivity|]|].
  - destruct (routes_require_token "no peer" demoType noHandler demoConfig "/group/kick" kickRequest
      (ap_server "no peer" app) y kick_not_open) as [(e & He & Ha)|[H _]]; [exfalso|exact H].
    rewrite kick_mux in He. injection He as <-. exact (forged_authorizes_none _ _ Ha).
  - exfalso. pose proof demo_starts as Hs. rewrite Hnew in Hs. discriminate Hs.
Defined.
